(** * Data-quality analyser: a shallow embedding of the scoring and cleaning engine

    The development follows the two React components that hold the
    algorithmic core of the tool:

    - [QualityAnalysis] ([analyzeData]): seven passes over a [CSVData]
      table, each pushing [DetailedIssue]s and filling a per-column counter
      object, followed by the computation of seven sub-scores and of the
      weighted overall score;
    - [DataCleaning] ([applyAllSelectedSteps]): the loop that runs the
      cleaning steps the user has switched on.

    The code is TypeScript, so the first module gives the part of the host
    language the two functions rely on: binary64 numbers (every arithmetic
    operation is the exact rational result rounded to nearest, ties to
    even), strings, the four kinds of cell values that can be met at run
    time, the conversions [Number(v)] and [String(v)], [JSON.stringify] of a
    row, and plain objects used as dictionaries.

    Modelling conventions.
    - Strings are sequences of code units, and the model covers text of
      the ASCII range: on code units below 128 the case conversions, [trim]
      and the white-space class [\s] are those of the host; beyond it they
      leave every code unit as it is, which is not what the host does with
      accented letters or with the no-break space.  The statements on
      the case and spacing rules of the analysis, on the standardize step
      and on the CSV round trip are about text of that range and carry the
      hypothesis [isASCII].
    - Array lengths and the counters incremented with [++] are natural
      numbers; they are converted to binary64 where the source starts to
      divide or multiply.  Sums of counters stay far below 2^53, where
      binary64 addition of integers is exact.
    - [Date.parse], the current time and the local calendar year of a time
      value are implementation- and environment-defined; they are the
      fields of a [Host] record the analysis is parameterised by.
    - React state setters, the artificial delay, icons and colours are not
      part of the model. *)

From Stdlib Require Import ZArith QArith Qround Qpower Qreduction Lia Lqa List Bool.
From Stdlib Require Import SpecFloat.
From Stdlib Require Import Ascii String DecimalString.
From Stdlib Require Import Sorted.
Import ListNotations.

Set Implicit Arguments.

(* ================================================================== *)
(** * Host language *)
(* ================================================================== *)

Module JS.

(** ** Numbers *)

(** A binary64 value.  [Fin q] is a finite value, [q] in lowest terms;
    [Fin 0] is [+0] and [NegZero] is [-0]. *)
Inductive number : Type :=
| NaN
| Inf (neg : bool)
| NegZero
| Fin (q : Q).

Definition pow2 (k : Z) : Q := Qpower (2 # 1) k.
Definition pow10 (k : Z) : Q := Qpower (10 # 1) k.

(** [ilog2 q] is the integer [e] with [2^e <= q < 2^(e+1)], for [q > 0]. *)
Definition ilog2 (q : Q) : Z :=
  let l := (Z.log2 (Qnum q) - Z.log2 (Zpos (Qden q)))%Z in
  if Qle_bool (pow2 l) q then l else (l - 1)%Z.

(** Nearest integer, ties to the even one. *)
Definition rne (x : Q) : Z :=
  let f := Qfloor x in
  match Qcompare (x - inject_Z f) (1 # 2) with
  | Lt => f
  | Gt => (f + 1)%Z
  | Eq => if Z.even f then f else (f + 1)%Z
  end.

(** Exponent of the last place of the binade of [q]: 53 significant bits,
    smallest exponent -1074 (subnormal range). *)
Definition quantum (q : Q) : Z := Z.max (ilog2 q - 52) (-1074).

(** Rounding of a positive rational, exponent unbounded above. *)
Definition round_pos (q : Q) : Q :=
  inject_Z (rne (q * pow2 (- quantum q))) * pow2 (quantum q).

(** Rounding to binary64; values that round to 2^1024 or more overflow. *)
Definition round64 (q : Q) : number :=
  let q := Qred q in
  match Qnum q with
  | Z0 => Fin 0
  | Zpos _ =>
      let r := round_pos q in
      if Qle_bool (pow2 1024) r then Inf false else Fin (Qred r)
  | Zneg _ =>
      let r := round_pos (- q) in
      if Qle_bool (pow2 1024) r then Inf true
      else if Qeq_bool r 0 then NegZero else Fin (Qred (- r))
  end.

(** Integers and decimal literals of the source text. *)
Definition of_Z (z : Z) : number := round64 (inject_Z z).
Definition of_nat (n : nat) : number := of_Z (Z.of_nat n).
Definition lit (q : Q) : number := round64 q.

Definition isNaN (x : number) : bool :=
  match x with NaN => true | _ => false end.

Definition is_zero (x : number) : bool :=
  match x with
  | NegZero => true
  | Fin q => Qeq_bool q 0
  | _ => false
  end.

Definition sign (x : number) : bool :=
  match x with
  | NaN => false
  | Inf b => b
  | NegZero => true
  | Fin q => match Qnum q with Zneg _ => true | _ => false end
  end.

Definition zero (neg : bool) : number := if neg then NegZero else Fin 0.

Definition neg (x : number) : number :=
  match x with
  | NaN => NaN
  | Inf b => Inf (negb b)
  | NegZero => Fin 0
  | Fin q => if Qeq_bool q 0 then NegZero else Fin (- q)
  end.

Definition add (x y : number) : number :=
  match x, y with
  | NaN, _ | _, NaN => NaN
  | Inf a, Inf b => if Bool.eqb a b then Inf a else NaN
  | Inf a, _ => Inf a
  | _, Inf b => Inf b
  | NegZero, NegZero => NegZero
  | NegZero, Fin q => Fin q
  | Fin q, NegZero => Fin q
  | Fin a, Fin b => round64 (a + b)
  end.

Definition sub (x y : number) : number := add x (neg y).

Definition mul (x y : number) : number :=
  match x, y with
  | NaN, _ | _, NaN => NaN
  | Inf a, _ => if is_zero y then NaN else Inf (xorb a (sign y))
  | _, Inf b => if is_zero x then NaN else Inf (xorb (sign x) b)
  | Fin a, Fin b =>
      if is_zero x || is_zero y then zero (xorb (sign x) (sign y))
      else round64 (a * b)
  | _, _ => zero (xorb (sign x) (sign y))
  end.

Definition div (x y : number) : number :=
  match x, y with
  | NaN, _ | _, NaN => NaN
  | Inf _, Inf _ => NaN
  | Inf a, _ => Inf (xorb a (sign y))
  | _, Inf b => zero (xorb (sign x) b)
  | _, _ =>
      if is_zero y then
        if is_zero x then NaN else Inf (xorb (sign x) (sign y))
      else if is_zero x then zero (xorb (sign x) (sign y))
      else match x, y with
           | Fin a, Fin b => round64 (a / b)
           | _, _ => NaN
           end
  end.

(** Order on the numbers: any comparison with [NaN] is false; the two
    zeros are equal. *)
Inductive ext : Type := MinusInf | Real (q : Q) | PlusInf.

Definition to_ext (x : number) : option ext :=
  match x with
  | NaN => None
  | Inf true => Some MinusInf
  | Inf false => Some PlusInf
  | NegZero => Some (Real 0)
  | Fin q => Some (Real q)
  end.

Definition ext_ltb (a b : ext) : bool :=
  match a, b with
  | MinusInf, MinusInf => false
  | MinusInf, _ => true
  | Real _, MinusInf => false
  | Real p, Real q => match Qcompare p q with Lt => true | _ => false end
  | Real _, PlusInf => true
  | PlusInf, _ => false
  end.

Definition ltb (x y : number) : bool :=
  match to_ext x, to_ext y with
  | Some a, Some b => ext_ltb a b
  | _, _ => false
  end.

Definition gtb (x y : number) : bool := ltb y x.

Definition leb (x y : number) : bool :=
  match to_ext x, to_ext y with
  | Some a, Some b => negb (ext_ltb b a)
  | _, _ => false
  end.

Definition geb (x y : number) : bool := leb y x.

(** [Math.round]: nearest integer, ties towards +infinity; a result of zero
    keeps the sign of a negative argument. *)
Definition Math_round (x : number) : number :=
  match x with
  | Fin q =>
      let z := Qfloor (q + (1 # 2)) in
      if Z.eqb z 0 && sign x then NegZero else Fin (inject_Z z)
  | _ => x
  end.

(** [Math.floor]. *)
Definition Math_floor (x : number) : number :=
  match x with
  | Fin q => Fin (inject_Z (Qfloor q))
  | _ => x
  end.

(** [Math.max] of two arguments. *)
Definition Math_max (x y : number) : number :=
  match x, y with
  | NaN, _ | _, NaN => NaN
  | _, _ =>
      if ltb x y then y
      else if ltb y x then x
      else if sign x then y else x
  end.

(** ** Strings *)

Local Open Scope string_scope.

Definition code (c : ascii) : nat := nat_of_ascii c.

Definition in_range (lo hi : nat) (c : ascii) : bool :=
  Nat.leb lo (code c) && Nat.leb (code c) hi.

(** The class [\s] (also what [trim] strips): TAB, LF, VT, FF, CR, SP. *)
Definition isWhiteSpace (c : ascii) : bool :=
  in_range 9 13 c || Nat.eqb (code c) 32.

Definition isDigit (c : ascii) : bool := in_range 48 57 c.

Definition toLowerChar (c : ascii) : ascii :=
  if in_range 65 90 c then ascii_of_nat (code c + 32) else c.

Definition toUpperChar (c : ascii) : ascii :=
  if in_range 97 122 c then ascii_of_nat (code c - 32) else c.

Fixpoint map_string (f : ascii -> ascii) (s : string) : string :=
  match s with
  | EmptyString => EmptyString
  | String c s' => String (f c) (map_string f s')
  end.

Fixpoint filter_string (p : ascii -> bool) (s : string) : string :=
  match s with
  | EmptyString => EmptyString
  | String c s' => if p c then String c (filter_string p s') else filter_string p s'
  end.

Fixpoint rev_string (acc s : string) : string :=
  match s with
  | EmptyString => acc
  | String c s' => rev_string (String c acc) s'
  end.

Definition toLowerCase (s : string) : string := map_string toLowerChar s.
Definition toUpperCase (s : string) : string := map_string toUpperChar s.

Fixpoint trimStart (s : string) : string :=
  match s with
  | EmptyString => EmptyString
  | String c s' => if isWhiteSpace c then trimStart s' else s
  end.

Definition trimEnd (s : string) : string :=
  rev_string EmptyString (trimStart (rev_string EmptyString s)).

Definition trim (s : string) : string := trimEnd (trimStart s).

(** Text of the ASCII range: every code unit is below 128.  There
    [toLowerCase] changes the letters A to Z and nothing else,
    [toUpperCase] the letters a to z, and the white space that [trim],
    [\s] and [Number] skip is TAB, LF, VT, FF, CR and the space. *)
Definition isASCIIChar (c : ascii) : bool := Nat.ltb (code c) 128.

Fixpoint isASCII (s : string) : bool :=
  match s with
  | EmptyString => true
  | String c s' => isASCIIChar c && isASCII s'
  end.

(** [s.includes(sub)]. *)
Fixpoint includes (s sub : string) : bool :=
  String.prefix sub s ||
  match s with
  | EmptyString => false
  | String _ s' => includes s' sub
  end.

(** [s.charAt(0)] and [s.slice(1)]. *)
Definition charAt0 (s : string) : string :=
  match s with
  | EmptyString => EmptyString
  | String c _ => String c EmptyString
  end.

Definition slice1 (s : string) : string :=
  match s with
  | EmptyString => EmptyString
  | String _ s' => s'
  end.

(** [s.replace(/[\s\-\(\)]/g, '')]. *)
Definition isPhoneNoise (c : ascii) : bool :=
  isWhiteSpace c || Nat.eqb (code c) 45 || Nat.eqb (code c) 40 || Nat.eqb (code c) 41.

Definition stripPhoneNoise (s : string) : string :=
  filter_string (fun c => negb (isPhoneNoise c)) s.

(** [s.replace(/\s+/g, ' ')]: every maximal run of white space becomes one
    space. *)
Fixpoint collapseSpaces (inRun : bool) (s : string) : string :=
  match s with
  | EmptyString => EmptyString
  | String c s' =>
      if isWhiteSpace c
      then if inRun then collapseSpaces true s'
           else String " "%char (collapseSpaces true s')
      else String c (collapseSpaces false s')
  end.

(** Decimal digits of a non-negative integer. *)
Definition dec_of_N (n : N) : string := NilEmpty.string_of_uint (N.to_uint n).
Definition dec_of_nat (n : nat) : string := dec_of_N (N.of_nat n).

Definition dquote : string := String (ascii_of_nat 34) EmptyString.

(** ** Conversions between numbers and strings *)

(** Longest prefix of characters satisfying [p], and the rest. *)
Fixpoint span (p : ascii -> bool) (s : string) : string * string :=
  match s with
  | EmptyString => (EmptyString, EmptyString)
  | String c s' =>
      if p c then let (a, b) := span p s' in (String c a, b)
      else (EmptyString, s)
  end.

Definition digit_value (c : ascii) : Z :=
  if isDigit c then Z.of_nat (code c - 48)
  else if in_range 97 102 c then Z.of_nat (code c - 87)
  else if in_range 65 70 c then Z.of_nat (code c - 55)
  else 0%Z.

Fixpoint Z_of_digits (base acc : Z) (s : string) : Z :=
  match s with
  | EmptyString => acc
  | String c s' => Z_of_digits base (acc * base + digit_value c)%Z s'
  end.

Definition isHexDigit (c : ascii) : bool :=
  isDigit c || in_range 97 102 c || in_range 65 70 c.

(** A literal made of a radix prefix and digits of that radix
    ([0x1F], [0o17], [0b101]); no sign is allowed. *)
Definition radix_literal (s : string) : option number :=
  match s with
  | String "0"%char (String r ds) =>
      let go (p : ascii -> bool) (base : Z) :=
        let (a, b) := span p ds in
        match a, b with
        | String _ _, EmptyString => Some (of_Z (Z_of_digits base 0 a))
        | _, _ => None
        end in
      if Nat.eqb (code (toLowerChar r)) 120 then go isHexDigit 16%Z
      else if Nat.eqb (code (toLowerChar r)) 111 then go (in_range 48 55) 8%Z
      else if Nat.eqb (code (toLowerChar r)) 98 then go (in_range 48 49) 2%Z
      else None
  | _ => None
  end.

(** Optional sign: [(negative, rest)]. *)
Definition take_sign (s : string) : bool * string :=
  match s with
  | String "-"%char s' => (true, s')
  | String "+"%char s' => (false, s')
  | _ => (false, s)
  end.

(** Unsigned decimal literal: digits, optional fraction, optional exponent;
    at least one digit before or after the dot.  The result is the exact
    value. *)
Definition unsigned_decimal (s : string) : option Q :=
  let (ip, r1) := span isDigit s in
  let '(fp, r2, dotted) :=
    match r1 with
    | String "."%char r =>
        let (f, r') := span isDigit r in (f, r', true)
    | _ => (EmptyString, r1, false)
    end in
  if (String.eqb ip EmptyString && String.eqb fp EmptyString)%bool then None
  else
    let mant := Z_of_digits 10 0 (ip ++ fp) in
    let flen := Z.of_nat (String.length fp) in
    let finish (e : Z) := Some (inject_Z mant * pow10 (e - flen)) in
    match r2 with
    | EmptyString => finish 0%Z
    | String c r3 =>
        if Nat.eqb (code (toLowerChar c)) 101 then
          let (eneg, r4) := take_sign r3 in
          let (ed, r5) := span isDigit r4 in
          match ed, r5 with
          | String _ _, EmptyString =>
              let e := Z_of_digits 10 0 ed in
              finish (if eneg then (- e)%Z else e)
          | _, _ => None
          end
        else None
    end.

(** [Number(s)] for a string (the StringToNumber operation): surrounding
    white space is ignored, the empty string is [+0], anything that is not
    a numeric literal is [NaN]. *)
Definition StringToNumber (s : string) : number :=
  let t := trim s in
  if String.eqb t EmptyString then Fin 0
  else match radix_literal t with
       | Some x => x
       | None =>
           let (sg, u) := take_sign t in
           if String.eqb u "Infinity" then Inf sg
           else match unsigned_decimal u with
                | Some q => let x := round64 q in if sg then neg x else x
                | None => NaN
                end
       end.

(** [ilog10 q] is the integer [e] with [10^e <= q < 10^(e+1)], for [q > 0]. *)
Definition ilog10 (q : Q) : Z :=
  let e := (ilog2 q * 1233 / 4096)%Z in
  if Qle_bool (pow10 (e + 1)) q then (e + 1)%Z
  else if Qle_bool (pow10 e) q then e
  else (e - 1)%Z.

(** Shortest digit string that reads back as [x] (x finite, positive):
    the first [k] for which some [k]-digit [s] has [s * 10^(n-k)] rounding to
    [x]; among two such [s] the one nearer to [x].  Returns [(s, k, n)]. *)
Fixpoint shortest_digits (fuel : nat) (k : Z) (q : Q) (n : Z) : Z * Z * Z :=
  match fuel with
  | O => (Qfloor (q * pow10 (k - n)), k, n)
  | S fuel' =>
      let scale := pow10 (n - k) in
      let lo := Qfloor (q / scale) in
      let hi := (lo + 1)%Z in
      let ok (s : Z) :=
        match round64 (inject_Z s * scale) with
        | Fin r => Qeq_bool r q
        | _ => false
        end in
      let pack (s : Z) :=
        if Z.eqb s (10 ^ k) then (1%Z, 1%Z, (n + 1)%Z) else (s, k, n) in
      match ok lo, ok hi with
      | true, false => pack lo
      | false, true => pack hi
      | true, true =>
          match Qcompare (q - inject_Z lo * scale) (inject_Z hi * scale - q) with
          | Lt => pack lo
          | Gt => pack hi
          | Eq => if Z.even lo then pack lo else pack hi
          end
      | false, false => shortest_digits fuel' (k + 1)%Z q n
      end
  end.

Fixpoint zeros (n : nat) : string :=
  match n with
  | O => EmptyString
  | S n' => String "0"%char (zeros n')
  end.

Definition substr_from (n : nat) (s : string) : string :=
  String.substring n (String.length s - n) s.

(** [Number::toString] in radix 10. *)
Definition Number_toString (x : number) : string :=
  match x with
  | NaN => "NaN"
  | Inf false => "Infinity"
  | Inf true => "-Infinity"
  | NegZero => "0"
  | Fin q0 =>
      if Qeq_bool q0 0 then "0"
      else
        let negative := sign x in
        let q := Qred (if negative then - q0 else q0) in
        let '(s, k, n) := shortest_digits 17 1%Z q (ilog10 q + 1)%Z in
        let ds := dec_of_N (Z.to_N s) in
        let body :=
          if ((k <=? n) && (n <=? 21))%Z then
            ds ++ zeros (Z.to_nat (n - k))
          else if ((0 <? n) && (n <=? 21))%Z then
            String.substring 0 (Z.to_nat n) ds ++ "." ++ substr_from (Z.to_nat n) ds
          else if ((-6 <? n) && (n <=? 0))%Z then
            "0." ++ zeros (Z.to_nat (- n)) ++ ds
          else
            let e := (n - 1)%Z in
            let es := (if (e <? 0)%Z then "-" else "+") ++ dec_of_N (Z.to_N (Z.abs e)) in
            if (k =? 1)%Z then ds ++ "e" ++ es
            else String.substring 0 1 ds ++ "." ++ substr_from 1 ds ++ "e" ++ es in
        if negative then "-" ++ body else body
  end.

(** ** Cell values *)

(** What a cell read with [row[colIndex]] can be at run time: the two
    declared kinds, [null], and [undefined] (also the result of reading
    past the end of a row). *)
Inductive value : Type :=
| VStr (s : string)
| VNum (x : number)
| VNull
| VUndef.

(** [val === 'literal']. *)
Definition is_str (lit : string) (v : value) : bool :=
  match v with
  | VStr s => String.eqb s lit
  | _ => false
  end.

Definition is_null (v : value) : bool :=
  match v with VNull => true | _ => false end.

Definition is_undefined (v : value) : bool :=
  match v with VUndef => true | _ => false end.

Definition typeof_number (v : value) : bool :=
  match v with VNum _ => true | _ => false end.

Definition typeof_string (v : value) : bool :=
  match v with VStr _ => true | _ => false end.

(** [Number(val)]. *)
Definition Number (v : value) : number :=
  match v with
  | VStr s => StringToNumber s
  | VNum x => x
  | VNull => Fin 0
  | VUndef => NaN
  end.

(** [String(val)], also the conversion used by template literals. *)
Definition String_of (v : value) : string :=
  match v with
  | VStr s => s
  | VNum x => Number_toString x
  | VNull => "null"
  | VUndef => "undefined"
  end.

(** Truthiness of a cell. *)
Definition truthy (v : value) : bool :=
  match v with
  | VStr s => negb (String.eqb s EmptyString)
  | VNum x => negb (isNaN x || is_zero x)
  | VNull | VUndef => false
  end.

(** [row[i]]. *)
Definition index (row : list value) (i : nat) : value := nth i row VUndef.

(** ** [JSON.stringify] of a row *)

Definition hex_digit (n : nat) : ascii :=
  if Nat.ltb n 10 then ascii_of_nat (48 + n) else ascii_of_nat (87 + n).

Definition backslash : ascii := ascii_of_nat 92.

Definition json_escape_char (c : ascii) : string :=
  let n := code c in
  let esc (x : ascii) := String backslash (String x EmptyString) in
  if Nat.eqb n 34 then esc (ascii_of_nat 34)
  else if Nat.eqb n 92 then esc backslash
  else if Nat.eqb n 8 then esc "b"%char
  else if Nat.eqb n 9 then esc "t"%char
  else if Nat.eqb n 10 then esc "n"%char
  else if Nat.eqb n 12 then esc "f"%char
  else if Nat.eqb n 13 then esc "r"%char
  else if Nat.ltb n 32 then
    String backslash ("u00" ++ String (hex_digit (n / 16)) (String (hex_digit (n mod 16)) EmptyString))
  else String c EmptyString.

Fixpoint json_escape (s : string) : string :=
  match s with
  | EmptyString => EmptyString
  | String c s' => json_escape_char c ++ json_escape s'
  end.

Definition json_of_value (v : value) : string :=
  match v with
  | VStr s => dquote ++ json_escape s ++ dquote
  | VNum (Fin _ as x) | VNum (NegZero as x) => Number_toString x
  | VNum _ | VNull | VUndef => "null"
  end.

Definition JSON_stringify (row : list value) : string :=
  "[" ++ String.concat "," (map json_of_value row) ++ "]".

(** ** Plain objects used as dictionaries *)

(** Own string-keyed properties in creation order (integer-like keys are
    enumerated first by the language; the objects here are only summed and
    looked up, which does not depend on the order).  Writing a primitive
    or an array to the key [__proto__] goes to the accessor inherited from
    [Object.prototype] and creates no own property. *)
Definition Obj (V : Type) : Type := list (string * V).

Definition proto_key : string := "__proto__".

Fixpoint obj_put (V : Type) (k : string) (v : V) (o : Obj V) : Obj V :=
  match o with
  | [] => [(k, v)]
  | (k', v') :: o' =>
      if String.eqb k' k then (k', v) :: o' else (k', v') :: obj_put k v o'
  end.

(** [o[k] = v]. *)
Definition obj_set (V : Type) (k : string) (v : V) (o : Obj V) : Obj V :=
  if String.eqb k proto_key then o else obj_put k v o.

(** [o[k]] for an own property; [None] stands for whatever is inherited or
    [undefined]. *)
Fixpoint obj_get (V : Type) (k : string) (o : Obj V) : option V :=
  match o with
  | [] => None
  | (k', v') :: o' => if String.eqb k' k then Some v' else obj_get k o'
  end.

(** [Object.values(o)] and [Object.keys(o)]. *)
Definition obj_values (V : Type) (o : Obj V) : list V := map snd o.
Definition obj_keys (V : Type) (o : Obj V) : list string := map fst o.

(** [Object.values(o).reduce((sum, count) => sum + count, 0)]. *)
Definition sum_values (o : Obj nat) : nat := fold_left Nat.add (obj_values o) 0%nat.

(** [arr.indexOf(x)] on an array of strings; [None] is [-1]. *)
Fixpoint indexOf (l : list string) (x : string) : option nat :=
  match l with
  | [] => None
  | h :: t =>
      if String.eqb h x then Some 0%nat
      else option_map S (indexOf t x)
  end.

(** [arr.forEach((x, i) => ...)] visits the pairs [(i, x)]. *)
Definition indexed (A : Type) (l : list A) : list (nat * A) :=
  combine (seq 0 (List.length l)) l.

End JS.

(* ================================================================== *)
(** * Regular expressions of the source *)
(* ================================================================== *)

Module Regex.

(** Anchored patterns ([^...$], no flags) are tested by derivatives: the
    whole string has to match. *)
Inductive re : Type :=
| Void
| Eps
| Chr (p : ascii -> bool)
| Cat (a b : re)
| Alt (a b : re)
| Star (a : re).

Fixpoint nullable (r : re) : bool :=
  match r with
  | Void => false
  | Eps => true
  | Chr _ => false
  | Cat a b => nullable a && nullable b
  | Alt a b => nullable a || nullable b
  | Star _ => true
  end.

Definition cat (a b : re) : re :=
  match a, b with
  | Void, _ => Void
  | _, Void => Void
  | Eps, _ => b
  | _, Eps => a
  | _, _ => Cat a b
  end.

Definition alt (a b : re) : re :=
  match a, b with
  | Void, _ => b
  | _, Void => a
  | _, _ => Alt a b
  end.

Fixpoint deriv (c : ascii) (r : re) : re :=
  match r with
  | Void => Void
  | Eps => Void
  | Chr p => if p c then Eps else Void
  | Cat a b => alt (cat (deriv c a) b) (if nullable a then deriv c b else Void)
  | Alt a b => alt (deriv c a) (deriv c b)
  | Star a => cat (deriv c a) (Star a)
  end.

(** [/^r$/.test(s)]. *)
Fixpoint test (r : re) (s : string) : bool :=
  match s with
  | EmptyString => nullable r
  | String c s' => test (deriv c r) s'
  end.

Definition plus (r : re) : re := Cat r (Star r).
Definition opt (r : re) : re := Alt Eps r.

(** [r{n}] and [r{0,n}]. *)
Fixpoint rep (n : nat) (r : re) : re :=
  match n with
  | O => Eps
  | S n' => Cat r (rep n' r)
  end.

Fixpoint upto (n : nat) (r : re) : re :=
  match n with
  | O => Eps
  | S n' => opt (Cat r (upto n' r))
  end.

Definition range (lo hi : nat) (r : re) : re := Cat (rep lo r) (upto (hi - lo) r).

Definition chr (c : ascii) : re := Chr (fun x => Nat.eqb (JS.code x) (JS.code c)).
Definition digit : re := Chr JS.isDigit.
Definition digit19 : re := Chr (JS.in_range 49 57).
Definition notSpaceAt : re :=
  Chr (fun c => negb (JS.isWhiteSpace c || Nat.eqb (JS.code c) 64)).
Definition sep : re :=
  Chr (fun c => JS.isWhiteSpace c || Nat.eqb (JS.code c) 45).

(** [/^[^\s@]+@[^\s@]+\.[^\s@]+$/] *)
Definition emailPattern : re :=
  Cat (plus notSpaceAt)
    (Cat (chr "@") (Cat (plus notSpaceAt) (Cat (chr ".") (plus notSpaceAt)))).

(** [/^[\+]?[1-9][\d]{0,15}$/] *)
Definition phonePattern : re :=
  Cat (opt (chr "+")) (Cat digit19 (range 0 15 digit)).

(** [/^\d{4}-\d{2}-\d{2}$|^\d{2}\/\d{2}\/\d{4}$|^\d{2}-\d{2}-\d{4}$/] *)
Definition datePattern : re :=
  Alt (Cat (rep 4 digit) (Cat (chr "-") (Cat (rep 2 digit) (Cat (chr "-") (rep 2 digit)))))
    (Alt (Cat (rep 2 digit) (Cat (chr "/") (Cat (rep 2 digit) (Cat (chr "/") (rep 4 digit)))))
         (Cat (rep 2 digit) (Cat (chr "-") (Cat (rep 2 digit) (Cat (chr "-") (rep 4 digit)))))).

(** [/^[\+]?[1-9][\d]{9,14}$/] *)
Definition piiPhonePattern : re :=
  Cat (opt (chr "+")) (Cat digit19 (range 9 14 digit)).

(** [/^\d{3}-\d{2}-\d{4}$/] and [/^\d{9}$/] *)
Definition ssnPattern : re :=
  Cat (rep 3 digit) (Cat (chr "-") (Cat (rep 2 digit) (Cat (chr "-") (rep 4 digit)))).
Definition nineDigits : re := rep 9 digit.

(** [/^\d{4}[\s\-]?\d{4}[\s\-]?\d{4}[\s\-]?\d{4}$/] *)
Definition cardPattern : re :=
  Cat (rep 4 digit) (Cat (opt sep)
    (Cat (rep 4 digit) (Cat (opt sep)
      (Cat (rep 4 digit) (Cat (opt sep) (rep 4 digit)))))).

(** [/^(.)\1+$/]: the first character, which is not a line terminator,
    repeated at least once more and nothing else. *)
Fixpoint all_equal (c : ascii) (s : string) : bool :=
  match s with
  | EmptyString => true
  | String d s' => Nat.eqb (JS.code d) (JS.code c) && all_equal c s'
  end.

Definition repeatedChar (s : string) : bool :=
  match s with
  | String c (String d s') =>
      negb (Nat.eqb (JS.code c) 10 || Nat.eqb (JS.code c) 13) && all_equal c (String d s')
  | _ => false
  end.

(** [/^(0123456789|1234567890|abcdefghij)/]: a prefix test. *)
Definition sequentialStart (s : string) : bool :=
  String.prefix "0123456789" s || String.prefix "1234567890" s
  || String.prefix "abcdefghij" s.

End Regex.

(* ================================================================== *)
(** * The environment *)
(* ================================================================== *)

(** [Date.parse] (the time value of [new Date(s)], [NaN] for an invalid
    date), the time value of [new Date()] and [getFullYear] in the local
    time zone.  The clock is read as one value for the whole run. *)
Record Host : Type := {
  Date_parse : string -> JS.number;
  Date_now : JS.number;
  Date_getFullYear : JS.number -> JS.number
}.

(** The table under analysis. *)
Record CSVData : Type := {
  headers : list string;
  rows : list (list JS.value);
  filename : string
}.

(* ================================================================== *)
(** * QualityAnalysis: [analyzeData] *)
(* ================================================================== *)

Module QualityAnalysis.

Import JS.
Local Open Scope string_scope.

Inductive IssueType : Type :=
| missing | duplicate | invalid_format | value_range
| inconsistent | unusual_pattern | sensitive_data.

Inductive Severity : Type := low | medium | high | critical.

(** The [value] field holds the offending cell, or the whole row for a
    duplicate. *)
Inductive IssueValue : Type :=
| CellValue (v : JS.value)
| RowValue (row : list JS.value).

Record DetailedIssue : Type := {
  type : IssueType;
  column : string;
  rowIndex : nat;
  value : IssueValue;
  description : string;
  severity : Severity;
  dimension : string;
  recommendation : string
}.

Inductive ColumnType : Type := text | numeric | email | phone | date.

Definition IssueType_eqb (a b : IssueType) : bool :=
  match a, b with
  | missing, missing | duplicate, duplicate | invalid_format, invalid_format
  | value_range, value_range | inconsistent, inconsistent
  | unusual_pattern, unusual_pattern | sensitive_data, sensitive_data => true
  | _, _ => false
  end.

Definition quoted (v : JS.value) : string := dquote ++ String_of v ++ dquote.

(** [data.rows.map(row => row[colIndex])] *)
Definition columnData (data : CSVData) (colIndex : nat) : list JS.value :=
  map (fun row => index row colIndex) (rows data).

(** One [data.headers.forEach((header, colIndex) => ...)] pass.  The body
    gives the issues it pushes and the value it stores under [header], if
    it stores one; [columnStep] is one turn of the loop on the issues and
    the object built so far. *)
Definition columnStep (A : Type)
    (body : nat -> string -> list JS.value -> list DetailedIssue * option A)
    (data : CSVData) (acc : list DetailedIssue * Obj A) (ch : nat * string)
  : list DetailedIssue * Obj A :=
  let '(issues, o) := acc in
  let '(colIndex, header) := ch in
  let '(pushed, stored) := body colIndex header (columnData data colIndex) in
  ((issues ++ pushed)%list,
   match stored with
   | Some a => obj_set header a o
   | None => o
   end).

Definition forEachColumn (A : Type)
    (body : nat -> string -> list JS.value -> list DetailedIssue * option A)
    (data : CSVData) : list DetailedIssue * Obj A :=
  fold_left (columnStep body data) (indexed (headers data)) ([], []).

(** The cells of a column on which [check] pushes an issue. *)
Definition scanColumn (check : nat -> JS.value -> list DetailedIssue)
    (cells : list JS.value) : list DetailedIssue :=
  flat_map (fun rv => check (fst rv) (snd rv)) (indexed cells).

(** The guard of the format, range, pattern and PII passes:
    [val !== '' && val !== null && val !== undefined]. *)
Definition nonEmpty (val : JS.value) : bool :=
  negb (is_str EmptyString val) && negb (is_null val) && negb (is_undefined val).

(** *** 1. Missing values *)

Definition isMissing (val : JS.value) : bool :=
  is_str EmptyString val || is_null val || is_undefined val || is_str "null" val
  || is_str "NULL" val || is_str "N/A" val || is_str "n/a" val.

Definition missingIssue (header : string) (rowIndex : nat) (val : JS.value)
  : DetailedIssue :=
  {| type := missing;
     column := header;
     rowIndex := rowIndex;
     value := CellValue val;
     description := "Missing value in " ++ dquote ++ header ++ dquote ++ " - empty or null field";
     severity := medium;
     dimension := "Missing Values";
     recommendation := "Fill with appropriate default value or remove row if critical" |}.

Definition missingCheck (header : string) (rowIndex : nat) (val : JS.value)
  : list DetailedIssue :=
  if isMissing val then [missingIssue header rowIndex val] else [].

Definition missingColumn (colIndex : nat) (header : string) (cells : list JS.value)
  : list DetailedIssue * option nat :=
  let pushed := scanColumn (missingCheck header) cells in
  (pushed, Some (List.length pushed)).

Definition missingPass (data : CSVData) : list DetailedIssue * Obj nat :=
  forEachColumn missingColumn data.

(** *** 2. Duplicates *)

(** [seenRows] is a [Map] from the serialised row to the index of its
    first occurrence.  The scan returns, for every row found in the map,
    its index, the row, and the index stored in the map. *)
Fixpoint scanDuplicates (rs : list (nat * list JS.value)) (seenRows : list (string * nat))
  : list (nat * list JS.value * nat) :=
  match rs with
  | [] => []
  | (index, row) :: rest =>
      let key := JSON_stringify row in
      match obj_get key seenRows with
      | Some original => (index, row, original) :: scanDuplicates rest seenRows
      | None => scanDuplicates rest ((key, index) :: seenRows)
      end
  end.

Definition duplicateIssue (d : nat * list JS.value * nat) : DetailedIssue :=
  let '(index, row, original) := d in
  {| type := duplicate;
     column := "All columns";
     rowIndex := index;
     value := RowValue row;
     description := "Duplicate row #" ++ dec_of_nat (index + 1)
                    ++ " (identical to row #" ++ dec_of_nat (original + 1) ++ ")";
     severity := high;
     dimension := "Duplicates";
     recommendation := "Remove duplicate row to maintain data integrity" |}.

Definition duplicateScan (data : CSVData) : list (nat * list JS.value * nat) :=
  scanDuplicates (indexed (rows data)) [].

Definition duplicateRowIndices (data : CSVData) : list nat :=
  map (fun d => fst (fst d)) (duplicateScan data).

Definition duplicateIssues (data : CSVData) : list DetailedIssue :=
  map duplicateIssue (duplicateScan data).

(** *** 3. Invalid format (with the detection of the column type) *)

(** [typeof val === 'number' || (!isNaN(Number(val)) && val !== '')] *)
Definition countsAsNumeric (val : JS.value) : bool :=
  typeof_number val || (negb (isNaN (Number val)) && negb (is_str EmptyString val)).

(** The block "Detect column type first": the [columnType] computed at
    the head of the format pass from the column's values and its header. *)
Definition inferColumnType (header : string) (cells : list JS.value) : ColumnType :=
  let numericValues := filter countsAsNumeric cells in
  let h := toLowerCase header in
  if gtb (of_nat (List.length numericValues)) (mul (of_nat (List.length cells)) (lit (7 # 10)))
  then numeric
  else if includes h "email" then email
  else if includes h "phone" || includes h "mobile" then phone
  else if includes h "date" || includes h "dob" then date
  else text.

Section WithHost.

Variable host : Host.

(** The [switch (columnType)]: the error message when the cell is invalid. *)
Definition formatError (columnType : ColumnType) (val : JS.value) : option string :=
  match columnType with
  | email =>
      if negb (Regex.test Regex.emailPattern (String_of val))
      then Some ("Invalid email format: " ++ quoted val ++ " - missing @ or domain")
      else None
  | phone =>
      let cleanPhone := stripPhoneNoise (String_of val) in
      if negb (Regex.test Regex.phonePattern cleanPhone)
         || Nat.ltb (String.length cleanPhone) 10
         || Nat.ltb 15 (String.length cleanPhone)
      then Some ("Invalid phone format: " ++ quoted val ++ " - should be 10-15 digits")
      else None
  | date =>
      if negb (Regex.test Regex.datePattern (String_of val))
         && isNaN (Date_parse host (String_of val))
      then Some ("Invalid date format: " ++ quoted val ++ " - use YYYY-MM-DD or MM/DD/YYYY")
      else None
  | numeric =>
      if isNaN (Number val)
      then Some ("Non-numeric value in numeric column: " ++ quoted val)
      else None
  | text => None
  end.

Definition formatIssue (header : string) (rowIndex : nat) (val : JS.value)
    (errorMsg : string) : DetailedIssue :=
  {| type := invalid_format;
     column := header;
     rowIndex := rowIndex;
     value := CellValue val;
     description := errorMsg;
     severity := high;
     dimension := "Invalid Format";
     recommendation := "Correct format or standardize data entry rules" |}.

Definition formatCheck (columnType : ColumnType) (header : string)
    (rowIndex : nat) (val : JS.value) : list DetailedIssue :=
  if nonEmpty val then
    match formatError columnType val with
    | Some errorMsg => [formatIssue header rowIndex val errorMsg]
    | None => []
    end
  else [].

(** The format pass stores two things per column: the detected type (in
    [dataTypes]) and the number of format issues (in [formatIssues]). *)
Definition formatColumn (colIndex : nat) (header : string) (cells : list JS.value)
  : list DetailedIssue * option (ColumnType * nat) :=
  let columnType := inferColumnType header cells in
  let pushed := scanColumn (formatCheck columnType header) cells in
  (pushed, Some (columnType, List.length pushed)).

Definition formatPass (data : CSVData)
  : list DetailedIssue * Obj ColumnType * Obj nat :=
  let '(issues, o) := forEachColumn formatColumn data in
  (issues, map (fun kv => (fst kv, fst (snd kv))) o,
           map (fun kv => (fst kv, snd (snd kv))) o).

(** *** 4. Value range *)

(** The four name-keyed rules run in sequence on the same cell; a later
    rule that fires overwrites the message of an earlier one. *)
Definition rangeError (header : string) (val : JS.value) : option string :=
  let h := toLowerCase header in
  let e1 :=
    if includes h "age" then
      let age := Number val in
      if negb (isNaN age) && (ltb age (of_Z 0) || gtb age (of_Z 150))
      then Some ("Unrealistic age: " ++ Number_toString age ++ " - should be between 0-150")
      else None
    else None in
  let e2 :=
    if includes h "salary" || includes h "income" then
      let salary := Number val in
      if negb (isNaN salary) && ltb salary (of_Z 0)
      then Some ("Negative salary: " ++ Number_toString salary ++ " - should be positive")
      else e1
    else e1 in
  let e3 :=
    if includes h "dob" || includes h "birth" then
      let t := Date_parse host (String_of val) in
      if negb (isNaN t) then
        let e3a :=
          if gtb t (Date_now host)
          then Some ("Future birth date: " ++ String_of val ++ " - cannot be in the future")
          else e2 in
        if ltb (Date_getFullYear host t) (of_Z 1900)
        then Some ("Very old birth date: " ++ String_of val ++ " - seems unrealistic")
        else e3a
      else e2
    else e2 in
  if includes h "phone" then
    let cleanPhone := stripPhoneNoise (String_of val) in
    if Nat.ltb (String.length cleanPhone) 10 || Nat.ltb 15 (String.length cleanPhone)
    then Some ("Phone number length issue: " ++ quoted val ++ " - should be 10-15 digits")
    else e3
  else e3.

Definition rangeIssue (header : string) (rowIndex : nat) (val : JS.value)
    (errorMsg : string) : DetailedIssue :=
  {| type := value_range;
     column := header;
     rowIndex := rowIndex;
     value := CellValue val;
     description := errorMsg;
     severity := high;
     dimension := "Value Range";
     recommendation := "Verify data accuracy and correct unrealistic values" |}.

Definition rangeCheck (header : string) (rowIndex : nat) (val : JS.value)
  : list DetailedIssue :=
  if nonEmpty val then
    match rangeError header val with
    | Some errorMsg => [rangeIssue header rowIndex val errorMsg]
    | None => []
    end
  else [].

Definition rangeColumn (colIndex : nat) (header : string) (cells : list JS.value)
  : list DetailedIssue * option nat :=
  let pushed := scanColumn (rangeCheck header) cells in
  (pushed, Some (List.length pushed)).

Definition rangePass (data : CSVData) : list DetailedIssue * Obj nat :=
  forEachColumn rangeColumn data.

(** *** 5. Inconsistent values *)

(** [val.charAt(0).toUpperCase() + val.slice(1).toLowerCase()] *)
Definition capitalized (val : string) : string :=
  toUpperCase (charAt0 val) ++ toLowerCase (slice1 val).

Definition mixedCase (val : string) : bool :=
  negb (String.eqb val (toLowerCase val))
  && negb (String.eqb val (toUpperCase val))
  && negb (String.eqb val (capitalized val)).

Definition extraWhitespace (val : string) : bool :=
  negb (String.eqb val (trim val)) || includes val "  ".

Definition textError (val : string) : option string :=
  let e1 :=
    if mixedCase val
    then Some ("Inconsistent text case: " ++ dquote ++ val ++ dquote ++ " - mixed capitalization")
    else None in
  if extraWhitespace val
  then Some ("Extra whitespace in: " ++ dquote ++ val ++ dquote ++ " - needs trimming")
  else e1.

Definition textIssue (header : string) (rowIndex : nat) (val : string)
    (errorMsg : string) : DetailedIssue :=
  {| type := inconsistent;
     column := header;
     rowIndex := rowIndex;
     value := CellValue (VStr val);
     description := errorMsg;
     severity := low;
     dimension := "Inconsistent Values";
     recommendation := "Standardize text formatting and remove extra spaces" |}.

(** Guarded by [typeof val === 'string' && val !== '']. *)
Definition textCheck (header : string) (rowIndex : nat) (val : JS.value)
  : list DetailedIssue :=
  match val with
  | VStr s =>
      if negb (String.eqb s EmptyString) then
        match textError s with
        | Some errorMsg => [textIssue header rowIndex s errorMsg]
        | None => []
        end
      else []
  | _ => []
  end.

Fixpoint findIndex (A : Type) (p : A -> bool) (l : list A) : option nat :=
  match l with
  | [] => None
  | h :: t => if p h then Some 0%nat else option_map S (findIndex p t)
  end.

Definition isOrderDateHeader (h : string) : bool :=
  includes (toLowerCase h) "order" && includes (toLowerCase h) "date".

Definition shipIssue (header : string) (rowIndex : nat) (shipDate orderDate : JS.value)
  : DetailedIssue :=
  {| type := inconsistent;
     column := header;
     rowIndex := rowIndex;
     value := CellValue shipDate;
     description := "Ship date (" ++ String_of shipDate ++ ") before order date ("
                    ++ String_of orderDate ++ ") - logically inconsistent";
     severity := high;
     dimension := "Inconsistent Values";
     recommendation := "Verify and correct date sequence logic" |}.

Definition shipCheck (data : CSVData) (orderDateCol : nat) (header : string)
    (rowIndex : nat) (shipDate : JS.value) : list DetailedIssue :=
  let orderDate := index (nth rowIndex (rows data) []) orderDateCol in
  if truthy shipDate && truthy orderDate then
    let ship := Date_parse host (String_of shipDate) in
    let order := Date_parse host (String_of orderDate) in
    if negb (isNaN ship) && negb (isNaN order) && ltb ship order
    then [shipIssue header rowIndex shipDate orderDate]
    else []
  else [].

(** [dataTypes[header] === 'text'] *)
Definition isTextColumn (dataTypes : Obj ColumnType) (header : string) : bool :=
  match obj_get header dataTypes with
  | Some text => true
  | _ => false
  end.

Definition inconsistencyColumn (data : CSVData) (dataTypes : Obj ColumnType)
    (colIndex : nat) (header : string) (cells : list JS.value)
  : list DetailedIssue * option nat :=
  let textPushed :=
    if isTextColumn dataTypes header
    then scanColumn (textCheck header) cells
    else [] in
  let shipPushed :=
    if includes (toLowerCase header) "ship"
       && existsb (fun h => includes (toLowerCase h) "order") (headers data)
    then match findIndex isOrderDateHeader (headers data) with
         | Some orderDateCol => scanColumn (shipCheck data orderDateCol header) cells
         | None => []
         end
    else [] in
  ((textPushed ++ shipPushed)%list,
   Some (List.length textPushed + List.length shipPushed)%nat).

Definition inconsistencyPass (data : CSVData) (dataTypes : Obj ColumnType)
  : list DetailedIssue * Obj nat :=
  forEachColumn (inconsistencyColumn data dataTypes) data.

(** *** 6. Unusual patterns *)

Definition dummyPatterns : list string :=
  ["test"; "dummy"; "sample"; "example"; "placeholder"; "temp"; "xxx"; "yyy"; "zzz"].

Definition unusualError (header : string) (val : JS.value) : option string :=
  let strVal := String_of val in
  let e1 :=
    if Nat.ltb 3 (String.length strVal) && Regex.repeatedChar strVal
    then Some ("Suspicious repeated pattern: " ++ quoted val ++ " - likely placeholder data")
    else None in
  let e2 :=
    if Nat.ltb 4 (String.length strVal) && Regex.sequentialStart (toLowerCase strVal)
    then Some ("Sequential pattern detected: " ++ quoted val ++ " - likely test data")
    else e1 in
  let e3 :=
    if existsb (fun pattern => includes (toLowerCase strVal) pattern) dummyPatterns
    then Some ("Dummy/test value detected: " ++ quoted val ++ " - should be replaced with real data")
    else e2 in
  if includes (toLowerCase header) "email"
     && (includes strVal "test@" || includes strVal "dummy@"
         || includes strVal "example@" || includes strVal "@test."
         || includes strVal "@dummy.")
  then Some ("Test email detected: " ++ quoted val ++ " - likely not a real email address")
  else e3.

Definition unusualIssue (header : string) (rowIndex : nat) (val : JS.value)
    (errorMsg : string) : DetailedIssue :=
  {| type := unusual_pattern;
     column := header;
     rowIndex := rowIndex;
     value := CellValue val;
     description := errorMsg;
     severity := medium;
     dimension := "Unusual Patterns";
     recommendation := "Replace with authentic data or verify if legitimate" |}.

Definition unusualCheck (header : string) (rowIndex : nat) (val : JS.value)
  : list DetailedIssue :=
  if nonEmpty val then
    match unusualError header val with
    | Some errorMsg => [unusualIssue header rowIndex val errorMsg]
    | None => []
    end
  else [].

Definition unusualColumn (colIndex : nat) (header : string) (cells : list JS.value)
  : list DetailedIssue * option nat :=
  let pushed := scanColumn (unusualCheck header) cells in
  (pushed, Some (List.length pushed)).

Definition unusualPass (data : CSVData) : list DetailedIssue * Obj nat :=
  forEachColumn unusualColumn data.

(** *** 7. Sensitive data *)

Inductive PII : Type := PIIEmail | PIIPhone | PIISSN | PIICard.

Definition PII_name (k : PII) : string :=
  match k with
  | PIIEmail => "Email"
  | PIIPhone => "Phone"
  | PIISSN => "SSN"
  | PIICard => "Credit Card"
  end.

(** The four independent tests, in source order. *)
Definition piiMatches (val : JS.value) : list PII :=
  let strVal := String_of val in
  ((if Regex.test Regex.emailPattern strVal then [PIIEmail] else [])
   ++ (if Regex.test Regex.piiPhonePattern (stripPhoneNoise strVal) then [PIIPhone] else [])
   ++ (if Regex.test Regex.ssnPattern strVal || Regex.test Regex.nineDigits strVal
       then [PIISSN] else [])
   ++ (if Regex.test Regex.cardPattern strVal then [PIICard] else []))%list.

Definition piiIssue (header : string) (rowIndex : nat) (val : JS.value) (k : PII)
  : DetailedIssue :=
  {| type := sensitive_data;
     column := header;
     rowIndex := rowIndex;
     value := CellValue val;
     description :=
       match k with
       | PIIEmail => "Email address detected: " ++ quoted val ++ " - contains PII"
       | PIIPhone => "Phone number detected: " ++ quoted val ++ " - contains PII"
       | PIISSN => "Potential SSN detected: " ++ quoted val ++ " - highly sensitive PII"
       | PIICard => "Potential credit card number: " ++ quoted val ++ " - financial PII"
       end;
     severity := critical;
     dimension := "Sensitive Data (PII)";
     recommendation :=
       match k with
       | PIIEmail => "Mask, encrypt, or remove email addresses for privacy compliance"
       | PIIPhone => "Mask or encrypt phone numbers for privacy protection"
       | PIISSN => "Immediately encrypt or remove SSN data - high compliance risk"
       | PIICard => "Remove credit card data immediately - PCI compliance violation"
       end |}.

Definition piiCheck (header : string) (rowIndex : nat) (val : JS.value)
  : list DetailedIssue :=
  if nonEmpty val then map (piiIssue header rowIndex val) (piiMatches val) else [].

(** [if (!sensitiveTypes.includes(t)) sensitiveTypes.push(t)] *)
Definition pushOnce (sensitiveTypes : list string) (t : string) : list string :=
  if existsb (String.eqb t) sensitiveTypes then sensitiveTypes
  else (sensitiveTypes ++ [t])%list.

Definition sensitiveTypesOf (cells : list JS.value) : list string :=
  fold_left
    (fun acc val =>
       if nonEmpty val then fold_left pushOnce (map PII_name (piiMatches val)) acc
       else acc)
    cells [].

Definition piiColumn (colIndex : nat) (header : string) (cells : list JS.value)
  : list DetailedIssue * option (list string) :=
  let sensitiveTypes := sensitiveTypesOf cells in
  (scanColumn (piiCheck header) cells,
   match sensitiveTypes with
   | [] => None
   | _ => Some sensitiveTypes
   end).

Definition piiPass (data : CSVData) : list DetailedIssue * Obj (list string) :=
  forEachColumn piiColumn data.

End WithHost.

(** *** Scores *)

Record QualityReport : Type := {
  totalRows : nat;
  totalColumns : nat;
  overallScore : number;
  missingValuesScore : number;
  duplicatesScore : number;
  invalidFormatScore : number;
  valueRangeScore : number;
  inconsistentValuesScore : number;
  unusualPatternsScore : number;
  sensitiveDataScore : number;
  missingValues : Obj nat;
  duplicateRows : nat;
  dataTypes : Obj ColumnType;
  outliers : Obj (list nat);
  formatIssues : Obj nat;
  rangeIssues : Obj nat;
  inconsistencyIssues : Obj nat;
  unusualPatterns : Obj nat;
  sensitiveDataDetected : Obj (list string)
}.

(** [Math.round(((total - bad) / total) * 100)] *)
Definition shareScore (total bad : nat) : number :=
  Math_round (mul (div (sub (of_nat total) (of_nat bad)) (of_nat total)) (of_Z 100)).

(** [Math.max(0, Math.round(100 - (count / totalRows) * 100))] *)
Definition penaltyScore (count totalRows : nat) : number :=
  Math_max (of_Z 0)
    (Math_round (sub (of_Z 100) (mul (div (of_nat count) (of_nat totalRows)) (of_Z 100)))).

(** The weighted sum, with the literals and the order of the source. *)
Definition weightedScore (missingS duplicatesS formatS rangeS inconsistentS unusualS sensitiveS : number)
  : number :=
  Math_round
    (add (add (add (add (add (add
       (mul missingS (lit (20 # 100)))
       (mul duplicatesS (lit (15 # 100))))
       (mul formatS (lit (15 # 100))))
       (mul rangeS (lit (15 # 100))))
       (mul inconsistentS (lit (10 # 100))))
       (mul unusualS (lit (10 # 100))))
       (mul sensitiveS (lit (15 # 100)))).

(** The body of [analyzeData]: the report and the issue list handed to the
    state setters.  ([recommendations], a list of display strings derived
    from the score and the issues, is left out of the report.) *)
Definition analyze (host : Host) (data : CSVData) : QualityReport * list DetailedIssue :=
  let '(issues1, missingValues) := missingPass data in
  let issues2 := duplicateIssues data in
  let duplicateRowIndices := duplicateRowIndices data in
  let '(issues3, dataTypes, formatIssues) := formatPass host data in
  let '(issues4, rangeIssues) := rangePass host data in
  let '(issues5, inconsistencyIssues) := inconsistencyPass host data dataTypes in
  let '(issues6, unusualPatterns) := unusualPass data in
  let '(issues7, sensitiveDataDetected) := piiPass data in
  let issues := (issues1 ++ issues2 ++ issues3 ++ issues4 ++ issues5 ++ issues6 ++ issues7)%list in
  let nrows := List.length (rows data) in
  let totalCells := (nrows * List.length (headers data))%nat in
  let totalMissing := sum_values missingValues in
  let missingValuesScore := shareScore totalCells totalMissing in
  let duplicatesScore := shareScore nrows (List.length duplicateRowIndices) in
  let invalidFormatScore := penaltyScore (sum_values formatIssues) nrows in
  let valueRangeScore := penaltyScore (sum_values rangeIssues) nrows in
  let inconsistentValuesScore := penaltyScore (sum_values inconsistencyIssues) nrows in
  let unusualPatternsScore := penaltyScore (sum_values unusualPatterns) nrows in
  let totalSensitiveData :=
    List.length (filter (fun i => IssueType_eqb (type i) sensitive_data) issues) in
  let sensitiveDataScore :=
    match totalSensitiveData with
    | O => of_Z 100
    | _ => penaltyScore totalSensitiveData nrows
    end in
  let overallScore :=
    weightedScore missingValuesScore duplicatesScore invalidFormatScore valueRangeScore
      inconsistentValuesScore unusualPatternsScore sensitiveDataScore in
  ({| totalRows := nrows;
      totalColumns := List.length (headers data);
      overallScore := overallScore;
      missingValuesScore := missingValuesScore;
      duplicatesScore := duplicatesScore;
      invalidFormatScore := invalidFormatScore;
      valueRangeScore := valueRangeScore;
      inconsistentValuesScore := inconsistentValuesScore;
      unusualPatternsScore := unusualPatternsScore;
      sensitiveDataScore := sensitiveDataScore;
      missingValues := missingValues;
      duplicateRows := List.length duplicateRowIndices;
      dataTypes := dataTypes;
      outliers := [];
      formatIssues := formatIssues;
      rangeIssues := rangeIssues;
      inconsistencyIssues := inconsistencyIssues;
      unusualPatterns := unusualPatterns;
      sensitiveDataDetected := sensitiveDataDetected |},
   issues).

(** How a run of [analyzeData] ends: with a report and its issues handed
    over, or with an exception.  The function has no [throw], and no
    operation in it throws on a table whose cells are strings, numbers,
    [null] or [undefined]. *)
Inductive Outcome : Type :=
| Reported (report : QualityReport) (detailedIssues : list DetailedIssue)
| Thrown (message : string).

Definition analyzeData (host : Host) (data : CSVData) : Outcome :=
  let '(report, issues) := analyze host data in Reported report issues.

End QualityAnalysis.

(* ================================================================== *)
(** * DataCleaning: [applyAllSelectedSteps] *)
(* ================================================================== *)

Module DataCleaning.

Import JS.
Local Open Scope string_scope.

Inductive OperationType : Type :=
| remove_duplicates | fill_missing | remove_outliers
| standardize | fix_format | handle_sensitive.

(** [column?] is [None] when absent; an absent [value?] reads as
    [undefined]. *)
Record CleaningOperation : Type := {
  type : OperationType;
  column : option string;
  value : JS.value;
  description : string
}.

(** [selectedRows?] is a [Set] of row indices, kept as the list of its
    members. *)
Record CleaningStep : Type := {
  id : string;
  title : string;
  issues : nat;
  operation : CleaningOperation;
  applied : bool;
  affectedRows : list nat;
  affectedColumns : list string;
  selectedRows : option (list nat)
}.

Definition with_rows (d : CSVData) (rs : list (list JS.value)) : CSVData :=
  {| headers := headers d; rows := rs; filename := filename d |}.

(** [operation.column &&]: present and not the empty string. *)
Definition truthyColumn (c : option string) : option string :=
  match c with
  | Some s => if String.eqb s EmptyString then None else Some s
  | None => None
  end.

(** [case 'remove_duplicates']: the filter with the [uniqueRows] map. *)
Fixpoint filterUnique (rs : list (list JS.value)) (uniqueRows : list string)
  : list (list JS.value) :=
  match rs with
  | [] => []
  | row :: rest =>
      let key := JSON_stringify row in
      if existsb (String.eqb key) uniqueRows then filterUnique rest uniqueRows
      else row :: filterUnique rest (key :: uniqueRows)
  end.

(** [newRow[i] = v]; writing past the end extends the row, the skipped
    positions read as [undefined]. *)
Fixpoint assign (row : list JS.value) (i : nat) (v : JS.value) : list JS.value :=
  match i, row with
  | O, [] => [v]
  | O, _ :: t => v :: t
  | S i', [] => VUndef :: assign [] i' v
  | S i', h :: t => h :: assign t i' v
  end.

(** [newRow[colIndex] === '' || === null || === undefined] *)
Definition isEmptyCell (v : JS.value) : bool :=
  is_str EmptyString v || is_null v || is_undefined v.

(** [!step.selectedRows || step.selectedRows.size === 0 ||
    step.selectedRows.has(rowIndex)] *)
Definition shouldFill (step : CleaningStep) (rowIndex : nat) : bool :=
  match selectedRows step with
  | None => true
  | Some sel => Nat.eqb (List.length sel) 0 || existsb (Nat.eqb rowIndex) sel
  end.

Definition fillRow (step : CleaningStep) (colIndex : nat) (rowIndex : nat)
    (row : list JS.value) : list JS.value :=
  if shouldFill step rowIndex && isEmptyCell (index row colIndex)
  then assign row colIndex (value (operation step))
  else row.

(** [arr.sort((a, b) => a - b)]: stable insertion, an element goes before
    the first one it compares below.  (With a [NaN] in the array the
    comparator is not consistent and the order is implementation-defined.) *)
Fixpoint insertSorted (x : number) (l : list number) : list number :=
  match l with
  | [] => [x]
  | y :: t => if ltb (sub x y) (of_Z 0) then x :: y :: t else y :: insertSorted x t
  end.

Definition sortNumbers (l : list number) : list number :=
  fold_left (fun acc x => insertSorted x acc) l [].

Definition numbersOf (cells : list JS.value) : list number :=
  flat_map (fun v => match v with VNum x => [x] | _ => [] end) cells.

(** An array index computed in binary64. *)
Definition to_index (x : number) : nat :=
  match x with
  | Fin q => Z.to_nat (Qfloor q)
  | _ => O
  end.

Definition removeOutliers (colIndex : nat) (rs : list (list JS.value))
  : list (list JS.value) :=
  let numericValues := sortNumbers (numbersOf (map (fun row => index row colIndex) rs)) in
  match numericValues with
  | [] => rs
  | _ =>
      let n := of_nat (List.length numericValues) in
      let q1 := nth (to_index (Math_floor (mul n (lit (25 # 100))))) numericValues NaN in
      let q3 := nth (to_index (Math_floor (mul n (lit (75 # 100))))) numericValues NaN in
      let iqr := sub q3 q1 in
      let lowerBound := sub q1 (mul (lit (15 # 10)) iqr) in
      let upperBound := add q3 (mul (lit (15 # 10)) iqr) in
      filter
        (fun row =>
           match index row colIndex with
           | VNum value => geb value lowerBound && leb value upperBound
           | _ => true
           end)
        rs
  end.

Definition standardizeRow (colIndex : nat) (row : list JS.value) : list JS.value :=
  match index row colIndex with
  | VStr s => assign row colIndex (VStr (collapseSpaces false (toLowerCase (trim s))))
  | _ => row
  end.

Definition mapi (A B : Type) (f : nat -> A -> B) (l : list A) : list B :=
  map (fun ix => f (fst ix) (snd ix)) (indexed l).

(** One iteration of [for (const step of appliedSteps)]: the [switch]. *)
Definition applyStep (cleanedData : CSVData) (step : CleaningStep) : CSVData :=
  let operation := operation step in
  match type operation with
  | remove_duplicates =>
      with_rows cleanedData (filterUnique (rows cleanedData) [])
  | fill_missing =>
      match truthyColumn (column operation), is_undefined (value operation) with
      | Some c, false =>
          match indexOf (headers cleanedData) c with
          | Some colIndex =>
              with_rows cleanedData (mapi (fillRow step colIndex) (rows cleanedData))
          | None => cleanedData
          end
      | _, _ => cleanedData
      end
  | remove_outliers =>
      match truthyColumn (column operation) with
      | Some c =>
          match indexOf (headers cleanedData) c with
          | Some colIndex =>
              with_rows cleanedData (removeOutliers colIndex (rows cleanedData))
          | None => cleanedData
          end
      | None => cleanedData
      end
  | standardize =>
      match truthyColumn (column operation) with
      | Some c =>
          match indexOf (headers cleanedData) c with
          | Some colIndex =>
              with_rows cleanedData (map (standardizeRow colIndex) (rows cleanedData))
          | None => cleanedData
          end
      | None => cleanedData
      end
  | fix_format | handle_sensitive => cleanedData
  end.

(** The dataset handed to [onDataCleaned]. *)
Definition applyAllSelectedSteps (data : CSVData) (cleaningSteps : list CleaningStep)
  : CSVData :=
  let appliedSteps := filter applied cleaningSteps in
  let cleanedData := fold_left applyStep appliedSteps data in
  {| headers := headers cleanedData;
     rows := rows cleanedData;
     filename := "cleaned_" ++ filename data |}.

End DataCleaning.

(* ================================================================== *)
(** * Notions used to state the properties *)
(* ================================================================== *)

Module Spec.

Import JS QualityAnalysis.
Local Open Scope string_scope.

(** The cell of row [r] under column [c]. *)
Definition cellAt (data : CSVData) (r c : nat) : JS.value :=
  index (nth r (rows data) []) c.

(** The cells that lie under a header, row by row. *)
Definition cells (data : CSVData) : list JS.value :=
  flat_map (fun row => map (index row) (seq 0 (List.length (headers data)))) (rows data).

Definition missingCells (data : CSVData) : nat :=
  List.length (filter isMissing (cells data)).

Definition wellFormed (data : CSVData) : Prop :=
  Forall (fun row => List.length row = List.length (headers data)) (rows data).

(** The serialised form of row [i]. *)
Definition rowKey (data : CSVData) (i : nat) : string :=
  JSON_stringify (nth i (rows data) []).

(** The weighted sum as the specification writes it, weight first. *)
Definition weightedSum (missingS duplicatesS formatS rangeS inconsistentS patternsS piiS : number)
  : number :=
  Math_round
    (add (add (add (add (add (add
       (mul (lit (20 # 100)) missingS)
       (mul (lit (15 # 100)) duplicatesS))
       (mul (lit (15 # 100)) formatS))
       (mul (lit (15 # 100)) rangeS))
       (mul (lit (10 # 100)) inconsistentS))
       (mul (lit (10 # 100)) patternsS))
       (mul (lit (15 # 100)) piiS)).

(** "At least 70% of the non-empty values parse as a number". *)
Definition parsesAsNumber (v : JS.value) : bool := negb (isNaN (Number v)).

Definition seventyPercentNumeric (cells : list JS.value) : bool :=
  let present := filter nonEmpty cells in
  Nat.leb (7 * List.length present) (10 * List.length (filter parsesAsNumber present)).






(** The table without the cells that lie beyond the last header. *)
Definition underHeaders (data : CSVData) : CSVData :=
  {| headers := headers data;
     rows := map (firstn (List.length (headers data))) (rows data);
     filename := filename data |}.

(** The header-name rules of the type detection, in priority order. *)
Definition typeFromHeader (header : string) : ColumnType :=
  let h := toLowerCase header in
  if includes h "email" then email
  else if includes h "phone" || includes h "mobile" then phone
  else if includes h "date" || includes h "dob" then date
  else text.

(** Two finite, non-negative numbers in order, the larger at most [bound]. *)
Definition le_fin (x y : number) (bound : Q) : Prop :=
  exists a b, x = Fin a /\ y = Fin b /\ (0 <= a)%Q /\ (a <= b)%Q /\ (b <= bound)%Q.

(** Index of the first row of [pre] whose serialised form is [key]. *)
Definition firstWithKey (pre : list (list JS.value)) (key : string) : option nat :=
  findIndex (fun row => String.eqb (JSON_stringify row) key) pre.

(** What the duplicate scan is expected to emit for the row at index [i]:
    the index of the first earlier row with the same serialised form. *)
Definition flagged (all : list (list JS.value)) (ir : nat * list JS.value)
  : list (nat * list JS.value * nat) :=
  match firstWithKey (firstn (fst ir) all) (JSON_stringify (snd ir)) with
  | Some original => [(fst ir, snd ir, original)]
  | None => []
  end.

(** The literal tokens counted as missing values. *)
Definition missingTokens : list string := ["null"; "NULL"; "N/A"; "n/a"].

(** The column a fill step writes to: the first header equal to the step's
    column name, provided the name is not empty and a fill value is set. *)
Definition fillTarget (data : CSVData) (step : DataCleaning.CleaningStep) : option nat :=
  match DataCleaning.column (DataCleaning.operation step) with
  | Some name =>
      if String.eqb name EmptyString || is_undefined (DataCleaning.value (DataCleaning.operation step))
      then None
      else indexOf (headers data) name
  | None => None
  end.

End Spec.

(* ================================================================== *)
(** * Sample tables *)
(* ================================================================== *)

Module Samples.

Import JS.
Local Open Scope string_scope.

(** An environment in which no string is a date.  The sample tables have
    no date, birth or shipping column, so their analysis never consults
    it. *)
Definition datelessHost : Host :=
  {| Date_parse := fun _ => NaN;
     Date_now := of_Z 0;
     Date_getFullYear := fun _ => NaN |}.

Definition table (hs : list string) (rs : list (list JS.value)) : CSVData :=
  {| headers := hs; rows := rs; filename := "data.csv" |}.

(** A header line and no data row; rows and no column. *)
Definition headerOnly : CSVData := table ["id"] [].
Definition noColumns : CSVData := table [] [[]; []].

(** 201 one-cell rows, the first of them blank. *)
Definition sparse : CSVData :=
  table ["name"] ([VStr EmptyString] :: repeat [VStr "ok"] 200).

Definition clean : CSVData := table ["name"] [[VStr "ok"]; [VStr "fine"]].
Definition halfBlank : CSVData := table ["name"] [[VStr "ok"]; [VStr EmptyString]].

(** Rows [A, B, A, C, A]. *)
Definition abaca : CSVData :=
  table ["k"] [[VStr "A"]; [VStr "B"]; [VStr "A"]; [VStr "C"]; [VStr "A"]].

(** Seven numbers and three words. *)
Definition sevenOfTen : list JS.value :=
  map (fun z => VNum (of_Z z)) [1; 2; 3; 4; 5; 6; 7]%Z ++ [VStr "a"; VStr "b"; VStr "c"].

(** A row shorter than the header line. *)
Definition ragged : CSVData := table ["a"; "b"] [[VStr "x"]].

(** A missing-value token in a phone column. *)
Definition phoneNA : CSVData := table ["phone"] [[VStr "N/A"]].

Import DataCleaning.

Definition fillStep (c : string) (v : JS.value) (sel : list nat) (on : bool) : CleaningStep :=
  {| id := "fill_missing_" ++ c;
     title := "Fill Missing Values";
     issues := 0;
     operation := {| type := fill_missing; column := Some c; value := v;
                     description := "Fill missing values in " ++ c |};
     applied := on;
     affectedRows := [];
     affectedColumns := [c];
     selectedRows := Some sel |}.

Definition gaps : CSVData :=
  table ["city"; "zip"] [[VStr EmptyString; VStr "1"]; [VStr EmptyString; VStr EmptyString]; [VStr "Rome"; VNull]].

End Samples.

(* ================================================================== *)
(** * The same operations in the Standard Library's binary64 *)
(* ================================================================== *)

Module Binary64.

Import JS.

(** The value of a [spec_float] as a [number]. *)
Definition of_spec (x : spec_float) : number :=
  match x with
  | S754_zero s => zero s
  | S754_infinity s => Inf s
  | S754_nan => NaN
  | S754_finite s m e =>
      Fin (Qred ((if s then - (1) else 1) * inject_Z (Z.pos m) * pow2 e))
  end.

Definition b64 (z : Z) : spec_float := binary_normalize 53 1024 z 0 false.
Definition b64_add : spec_float -> spec_float -> spec_float := SFadd 53 1024.
Definition b64_mul : spec_float -> spec_float -> spec_float := SFmul 53 1024.
Definition b64_div : spec_float -> spec_float -> spec_float := SFdiv 53 1024.

End Binary64.

(* ================================================================== *)
(** * QualityAnalysis: recommendations and grades *)
(* ================================================================== *)

Module Presentation.

Import JS QualityAnalysis.
Local Open Scope string_scope.

Definition Severity_eqb (a b : Severity) : bool :=
  match a, b with
  | low, low | medium, medium | high, high | critical, critical => true
  | _, _ => false
  end.

(** [issues.filter(i => ...).length] *)
Definition countIssues (p : DetailedIssue -> bool) (issues : list DetailedIssue) : nat :=
  List.length (filter p issues).

Definition ofType (t : IssueType) (i : DetailedIssue) : bool := IssueType_eqb (type i) t.
Definition ofSeverity (s : Severity) (i : DetailedIssue) : bool := Severity_eqb (severity i) s.

(** [if (c) recommendations.push(m)] *)
Definition pushIf (c : bool) (m : string) (recommendations : list string) : list string :=
  if c then (recommendations ++ [m])%list else recommendations.

(** The messages; their pictographs are kept as UTF-8 bytes. *)
Definition msgCritical : string :=
  "🚨 CRITICAL: Overall data quality is unacceptable. Immediate comprehensive cleanup required.".
Definition msgWarning : string :=
  "⚠️ WARNING: Data quality needs significant improvement before production use.".
Definition msgPrivacy (criticalIssues : nat) : string :=
  "🔒 PRIVACY ALERT: " ++ dec_of_nat criticalIssues
  ++ " critical issues found including sensitive data exposure.".
Definition msgCompliance (sensitiveDataIssues : nat) : string :=
  "🛡️ COMPLIANCE RISK: " ++ dec_of_nat sensitiveDataIssues
  ++ " PII/sensitive data instances require immediate attention.".
Definition msgHigh (highSeverityIssues : nat) : string :=
  "⚡ HIGH PRIORITY: " ++ dec_of_nat highSeverityIssues
  ++ " high-severity issues affecting data reliability.".
Definition msgMissing : string :=
  "📝 Implement data validation rules to prevent missing values at data entry.".
Definition msgDuplicates : string :=
  "🗑️ Establish unique constraints and deduplication processes.".
Definition msgFormat : string :=
  "📋 Standardize data entry formats and implement input validation.".
Definition msgRange : string :=
  "📊 Implement range validation and business rule checks.".
Definition msgUnusual : string :=
  "🔍 Review and replace test/dummy data with authentic values.".
Definition msgExcellent : string :=
  "✅ Excellent data quality! Consider implementing monitoring to maintain standards.".

(** [generateRecommendations(score, issues)]; the function reads
    [data.rows.length] from the component's table. *)
Definition generateRecommendations (data : CSVData) (score : number)
    (issues : list DetailedIssue) : list string :=
  let r0 :=
    if ltb score (of_Z 60) then [msgCritical]
    else if ltb score (of_Z 80) then [msgWarning]
    else [] in
  let criticalIssues := countIssues (ofSeverity critical) issues in
  let r1 := pushIf (Nat.ltb 0 criticalIssues) (msgPrivacy criticalIssues) r0 in
  let sensitiveDataIssues := countIssues (ofType sensitive_data) issues in
  let r2 := pushIf (Nat.ltb 0 sensitiveDataIssues) (msgCompliance sensitiveDataIssues) r1 in
  let highSeverityIssues := countIssues (ofSeverity high) issues in
  let r3 := pushIf (Nat.ltb 0 highSeverityIssues) (msgHigh highSeverityIssues) r2 in
  let missingIssues := countIssues (ofType missing) issues in
  let r4 :=
    pushIf (gtb (of_nat missingIssues) (mul (of_nat (List.length (rows data))) (lit (1 # 10))))
      msgMissing r3 in
  let r5 := pushIf (Nat.ltb 0 (countIssues (ofType duplicate) issues)) msgDuplicates r4 in
  let r6 := pushIf (Nat.ltb 0 (countIssues (ofType invalid_format) issues)) msgFormat r5 in
  let r7 := pushIf (Nat.ltb 0 (countIssues (ofType value_range) issues)) msgRange r6 in
  let r8 := pushIf (Nat.ltb 0 (countIssues (ofType unusual_pattern) issues)) msgUnusual r7 in
  match r8 with
  | [] => [msgExcellent]
  | _ => r8
  end.

(** The [recommendations] field of the report of a run. *)
Definition recommendationsOf (host : Host) (data : CSVData) : list string :=
  let '(report, issues) := analyze host data in
  generateRecommendations data (overallScore report) issues.

Definition getScoreColor (score : number) : string :=
  if geb score (of_Z 90) then "text-green-600"
  else if geb score (of_Z 80) then "text-green-500"
  else if geb score (of_Z 70) then "text-yellow-600"
  else if geb score (of_Z 60) then "text-orange-600"
  else "text-red-600".

Definition getScoreBg (score : number) : string :=
  if geb score (of_Z 90) then "bg-green-50 border-green-200"
  else if geb score (of_Z 80) then "bg-green-50 border-green-200"
  else if geb score (of_Z 70) then "bg-yellow-50 border-yellow-200"
  else if geb score (of_Z 60) then "bg-orange-50 border-orange-200"
  else "bg-red-50 border-red-200".

Definition getScoreGrade (score : number) : string :=
  if geb score (of_Z 90) then "A+"
  else if geb score (of_Z 80) then "A"
  else if geb score (of_Z 70) then "B"
  else if geb score (of_Z 60) then "C"
  else if geb score (of_Z 50) then "D"
  else "F".

End Presentation.

(* ================================================================== *)
(** * The cleaning steps offered for a table *)
(* ================================================================== *)

(** [analyzeDataAndCreateSteps]: the list handed to [setCleaningSteps].
    The display-only fields of a step (its description, icon, colours and
    preview rows) are not part of [CleaningStep] and are left out. *)
Module StepBuilder.

Import JS DataCleaning.
Local Open Scope string_scope.

(** [row[colIndex]] with [colIndex] the result of [indexOf]: reading at
    [-1] gives [undefined]. *)
Definition readAt (row : list JS.value) (colIndex : option nat) : JS.value :=
  match colIndex with
  | Some c => index row c
  | None => VUndef
  end.

(** The duplicate scan: the indices of the rows whose serialised form is
    already in the [seenRows] map. *)
Fixpoint scanCopies (rs : list (nat * list JS.value)) (seenRows : list (string * nat))
  : list nat :=
  match rs with
  | [] => []
  | (index, row) :: rest =>
      let key := JSON_stringify row in
      match obj_get key seenRows with
      | Some _ => index :: scanCopies rest seenRows
      | None => scanCopies rest ((key, index) :: seenRows)
      end
  end.

Definition duplicateRowIndices (data : CSVData) : list nat :=
  scanCopies (indexed (rows data)) [].

Definition duplicateSteps (data : CSVData) : list CleaningStep :=
  let duplicateRowIndices := duplicateRowIndices data in
  if Nat.ltb 0 (List.length duplicateRowIndices) then
    [{| id := "remove_duplicates";
        title := "Remove Duplicate Rows";
        issues := List.length duplicateRowIndices;
        operation :=
          {| type := remove_duplicates;
             column := None;
             value := VUndef;
             description :=
               "Remove " ++ dec_of_nat (List.length duplicateRowIndices) ++ " duplicate rows" |};
        applied := false;
        affectedRows := duplicateRowIndices;
        affectedColumns := headers data;
        selectedRows := None |}]
  else [].

(** The indices of the rows that pass [p]. *)
Definition rowIndicesWhere (p : list JS.value -> bool) (rs : list (list JS.value)) : list nat :=
  map fst (filter (fun ir => p (snd ir)) (indexed rs)).

(** [x === y] on numbers. *)
Definition strictEq (x y : number) : bool :=
  match to_ext x, to_ext y with
  | Some (Real p), Some (Real q) => Qeq_bool p q
  | Some MinusInf, Some MinusInf | Some PlusInf, Some PlusInf => true
  | _, _ => false
  end.

(** The comparison of [Map] keys: strict equality, except that [NaN] is
    the same key as [NaN]. *)
Definition sameValueZero (a b : JS.value) : bool :=
  match a, b with
  | VStr s, VStr t => String.eqb s t
  | VNum x, VNum y => (isNaN x && isNaN y) || strictEq x y
  | VNull, VNull | VUndef, VUndef => true
  | _, _ => false
  end.

(** A [Map] stores the key [-0] as [+0]. *)
Definition normalizeKey (v : JS.value) : JS.value :=
  match v with
  | VNum NegZero => VNum (Fin 0)
  | _ => v
  end.

(** [valueCounts.set(val, (valueCounts.get(val) || 0) + 1)] on the entries
    of the map, in insertion order. *)
Fixpoint countValue (val : JS.value) (valueCounts : list (JS.value * nat))
  : list (JS.value * nat) :=
  match valueCounts with
  | [] => [(normalizeKey val, 1%nat)]
  | (k, n) :: rest =>
      if sameValueZero k val then (k, S n) :: rest
      else (k, n) :: countValue val rest
  end.

(** [arr.sort(cmp)] is stable: an element goes before the first one it
    compares below. *)
Fixpoint insertBy (A : Type) (below : A -> A -> bool) (x : A) (l : list A) : list A :=
  match l with
  | [] => [x]
  | y :: t => if below x y then x :: y :: t else y :: insertBy below x t
  end.

Definition sortBy (A : Type) (below : A -> A -> bool) (l : list A) : list A :=
  fold_left (fun acc x => insertBy below x acc) l [].

(** [(a, b) => b[1] - a[1]] is negative when [a] has the larger count. *)
Definition moreCommon (a b : JS.value * nat) : bool := Nat.ltb (snd b) (snd a).

Definition suggestValue (nonEmptyValues : list JS.value) : JS.value :=
  let numericValues := numbersOf nonEmptyValues in
  if gtb (of_nat (List.length numericValues))
         (div (of_nat (List.length nonEmptyValues)) (of_Z 2))
  then
    let mean := div (fold_left add numericValues (of_Z 0)) (of_nat (List.length numericValues)) in
    VNum (div (Math_round (mul mean (of_Z 100))) (of_Z 100))
  else
    let valueCounts := fold_left (fun m val => countValue val m) nonEmptyValues [] in
    match sortBy moreCommon valueCounts with
    | mostCommon :: _ => fst mostCommon
    | [] => VStr "Unknown"
    end.

Definition fillStepFor (data : CSVData) (header : string) : list CleaningStep :=
  let colIndex := indexOf (headers data) header in
  let missingRowIndices :=
    rowIndicesWhere (fun row => isEmptyCell (readAt row colIndex)) (rows data) in
  if Nat.ltb 0 (List.length missingRowIndices) then
    let nonEmptyValues :=
      filter (fun val => negb (isEmptyCell val))
        (map (fun row => readAt row colIndex) (rows data)) in
    let suggestedValue := suggestValue nonEmptyValues in
    [{| id := "fill_missing_" ++ header;
        title := "Fill Missing Values in " ++ dquote ++ header ++ dquote;
        issues := List.length missingRowIndices;
        operation :=
          {| type := fill_missing;
             column := Some header;
             value := suggestedValue;
             description := "Fill missing values in " ++ header |};
        applied := false;
        affectedRows := missingRowIndices;
        affectedColumns := [header];
        selectedRows := Some [] |}]
  else [].

(** [numericValues.length > values.length / 2], and the same for strings. *)
Definition mostlyOf (kind : JS.value -> bool) (data : CSVData) (header : string) : bool :=
  let colIndex := indexOf (headers data) header in
  let values := map (fun row => readAt row colIndex) (rows data) in
  gtb (of_nat (List.length (filter kind values)))
      (div (of_nat (List.length values)) (of_Z 2)).

(** The two fences of the outlier test, from the sorted numbers of the
    column. *)
Definition fences (sortedValues : list number) : number * number :=
  let n := of_nat (List.length sortedValues) in
  let q1 := nth (to_index (Math_floor (mul n (lit (25 # 100))))) sortedValues NaN in
  let q3 := nth (to_index (Math_floor (mul n (lit (75 # 100))))) sortedValues NaN in
  let iqr := sub q3 q1 in
  (sub q1 (mul (lit (15 # 10)) iqr), add q3 (mul (lit (15 # 10)) iqr)).

Definition isOutlier (lowerBound upperBound : number) (val : JS.value) : bool :=
  match val with
  | VNum x => ltb x lowerBound || gtb x upperBound
  | _ => false
  end.

(** The items of [numericValues] are the numeric cells with their row
    index; [outlierItems] keeps those beyond a fence. *)
Definition outlierStepFor (data : CSVData) (column : string) : list CleaningStep :=
  let colIndex := indexOf (headers data) column in
  let numericValues :=
    numbersOf (map (fun row => readAt row colIndex) (rows data)) in
  if Nat.ltb 4 (List.length numericValues) then
    let '(lowerBound, upperBound) := fences (sortNumbers numericValues) in
    let outlierItems :=
      rowIndicesWhere (fun row => isOutlier lowerBound upperBound (readAt row colIndex))
        (rows data) in
    if Nat.ltb 0 (List.length outlierItems) then
      [{| id := "remove_outliers_" ++ column;
          title := "Remove Outliers from " ++ dquote ++ column ++ dquote;
          issues := List.length outlierItems;
          operation :=
            {| type := remove_outliers;
               column := Some column;
               value := VUndef;
               description :=
                 "Remove " ++ dec_of_nat (List.length outlierItems) ++ " outliers from " ++ column |};
          applied := false;
          affectedRows := outlierItems;
          affectedColumns := [column];
          selectedRows := None |}]
    else []
  else [].

(** [value !== value.trim().toLowerCase() || value.includes('  ')] *)
Definition isInconsistentText (val : JS.value) : bool :=
  match val with
  | VStr s => negb (String.eqb s (toLowerCase (trim s))) || includes s "  "
  | _ => false
  end.

Definition standardizeStepFor (data : CSVData) (column : string) : list CleaningStep :=
  let colIndex := indexOf (headers data) column in
  let inconsistentRows :=
    rowIndicesWhere (fun row => isInconsistentText (readAt row colIndex)) (rows data) in
  if Nat.ltb 0 (List.length inconsistentRows) then
    [{| id := "standardize_" ++ column;
        title := "Standardize Text in " ++ dquote ++ column ++ dquote;
        issues := List.length inconsistentRows;
        operation :=
          {| type := standardize;
             column := Some column;
             value := VUndef;
             description :=
               "Standardize " ++ dec_of_nat (List.length inconsistentRows)
               ++ " text values in " ++ column |};
        applied := false;
        affectedRows := inconsistentRows;
        affectedColumns := [column];
        selectedRows := None |}]
  else [].

Definition analyzeDataAndCreateSteps (data : CSVData) : list CleaningStep :=
  (duplicateSteps data
   ++ flat_map (fillStepFor data) (headers data)
   ++ flat_map (outlierStepFor data) (filter (mostlyOf typeof_number data) (headers data))
   ++ flat_map (standardizeStepFor data) (filter (mostlyOf typeof_string data) (headers data)))%list.

End StepBuilder.

(* ================================================================== *)
(** * The handlers that edit the list of steps *)
(* ================================================================== *)

(** Each handler is the function passed to [setCleaningSteps]. *)
Module StepState.

Import JS DataCleaning.
Local Open Scope string_scope.

Definition set_applied (b : bool) (step : CleaningStep) : CleaningStep :=
  {| id := id step; title := title step; issues := issues step;
     operation := operation step; applied := b;
     affectedRows := affectedRows step; affectedColumns := affectedColumns step;
     selectedRows := selectedRows step |}.

Definition set_operation (op : CleaningOperation) (step : CleaningStep) : CleaningStep :=
  {| id := id step; title := title step; issues := issues step;
     operation := op; applied := applied step;
     affectedRows := affectedRows step; affectedColumns := affectedColumns step;
     selectedRows := selectedRows step |}.

Definition set_selectedRows (sel : option (list nat)) (step : CleaningStep) : CleaningStep :=
  {| id := id step; title := title step; issues := issues step;
     operation := operation step; applied := applied step;
     affectedRows := affectedRows step; affectedColumns := affectedColumns step;
     selectedRows := sel |}.

Definition set_value (v : JS.value) (op : CleaningOperation) : CleaningOperation :=
  {| type := type op; column := column op; value := v; description := description op |}.

Definition set_description (d : string) (op : CleaningOperation) : CleaningOperation :=
  {| type := type op; column := column op; value := value op; description := d |}.

Definition toggleStep (stepId : string) (prev : list CleaningStep) : list CleaningStep :=
  map (fun step =>
         if String.eqb (id step) stepId then set_applied (negb (applied step)) step else step)
      prev.

Definition updateStepValue (stepId : string) (value : string) (prev : list CleaningStep)
  : list CleaningStep :=
  map (fun step =>
         if String.eqb (id step) stepId
         then set_operation (set_value (VStr value) (operation step)) step
         else step)
      prev.

(** [`${step.operation.column}`] *)
Definition columnText (step : CleaningStep) : string :=
  match column (operation step) with
  | Some c => c
  | None => "undefined"
  end.

(** A [Set] of row indices is kept as the list of its members in insertion
    order, each once. *)
Definition set_has (sel : list nat) (i : nat) : bool := existsb (Nat.eqb i) sel.
Definition set_delete (sel : list nat) (i : nat) : list nat :=
  filter (fun j => negb (Nat.eqb i j)) sel.
Definition set_add (sel : list nat) (i : nat) : list nat :=
  if set_has sel i then sel else (sel ++ [i])%list.

(** [new Set(array)] *)
Definition set_of (l : list nat) : list nat := fold_left set_add l [].

Definition toggleRowSelection (stepId : string) (rowIndex : nat) (prev : list CleaningStep)
  : list CleaningStep :=
  map (fun step =>
         match String.eqb (id step) stepId, selectedRows step with
         | true, Some sel =>
             let newSelectedRows :=
               if set_has sel rowIndex then set_delete sel rowIndex else set_add sel rowIndex in
             let selectedCount := List.length newSelectedRows in
             let newDescription :=
               if Nat.ltb 0 selectedCount
               then "Fill " ++ dec_of_nat selectedCount ++ " selected missing values in "
                    ++ columnText step
               else "Fill missing values in " ++ columnText step in
             set_operation (set_description newDescription (operation step))
               (set_selectedRows (Some newSelectedRows) step)
         | _, _ => step
         end)
      prev.

Definition selectAllRows (stepId : string) (prev : list CleaningStep) : list CleaningStep :=
  map (fun step =>
         match String.eqb (id step) stepId, selectedRows step with
         | true, Some _ =>
             let allRows := set_of (affectedRows step) in
             set_operation
               (set_description
                  ("Fill all " ++ dec_of_nat (List.length allRows) ++ " missing values in "
                   ++ columnText step)
                  (operation step))
               (set_selectedRows (Some allRows) step)
         | _, _ => step
         end)
      prev.

Definition selectNoneRows (stepId : string) (prev : list CleaningStep) : list CleaningStep :=
  map (fun step =>
         match String.eqb (id step) stepId, selectedRows step with
         | true, Some _ =>
             set_operation
               (set_description ("Fill missing values in " ++ columnText step) (operation step))
               (set_selectedRows (Some []) step)
         | _, _ => step
         end)
      prev.

Definition resetAllSteps (prev : list CleaningStep) : list CleaningStep :=
  map (fun step =>
         set_selectedRows
           (match selectedRows step with Some _ => Some [] | None => None end)
           (set_applied false step))
      prev.

End StepState.

(* ================================================================== *)
(** * Reading and writing CSV text *)
(* ================================================================== *)

(** [parseCSV] of the upload component. *)
Module Upload.

Import JS.
Local Open Scope string_scope.

Definition newline : ascii := ascii_of_nat 10.
Definition comma : ascii := ascii_of_nat 44.
Definition quote : ascii := ascii_of_nat 34.

(** [s.split(sep)] for a one-character separator: the pieces between the
    separators, at least one. *)
Fixpoint split (sep : ascii) (s : string) : list string :=
  match s with
  | EmptyString => [EmptyString]
  | String c s' =>
      if Ascii.eqb c sep then EmptyString :: split sep s'
      else match split sep s' with
           | piece :: rest => String c piece :: rest
           | [] => [String c EmptyString]
           end
  end.

(** [replace] with the pattern of one double quote, flag [g], and the
    empty replacement: every double quote is dropped. *)
Definition removeQuotes (s : string) : string :=
  filter_string (fun c => negb (Ascii.eqb c quote)) s.

Definition parseCell (value : string) : JS.value :=
  let trimmed := removeQuotes (trim value) in
  let num := StringToNumber trimmed in
  if negb (isNaN num) && negb (String.eqb trimmed EmptyString) then VNum num else VStr trimmed.

Definition parseCSV (csvText : string) (filename : string) : CSVData :=
  let lines := split newline (trim csvText) in
  {| headers := map (fun h => removeQuotes (trim h)) (split comma (hd EmptyString lines));
     rows := map (fun line => map parseCell (split comma line)) (tl lines);
     filename := filename |}.

End Upload.

(** [convertToCSV] and [getImprovementStats] of the export component. *)
Module ExportData.

Import JS.
Local Open Scope string_scope.

(** [replace] of every double quote by two of them. *)
Fixpoint doubleQuotes (s : string) : string :=
  match s with
  | EmptyString => EmptyString
  | String c s' =>
      if Ascii.eqb c Upload.quote then String c (String c (doubleQuotes s'))
      else String c (doubleQuotes s')
  end.

Definition csvCell (cell : JS.value) : string :=
  let stringCell := String_of cell in
  if includes stringCell "," || includes stringCell dquote
  then dquote ++ doubleQuotes stringCell ++ dquote
  else stringCell.

Definition convertToCSV (csvData : CSVData) : string :=
  let headers := String.concat "," (headers csvData) in
  let rows := map (fun row => String.concat "," (map csvCell row)) (rows csvData) in
  String.concat (String Upload.newline EmptyString) (headers :: rows).

(** The statistics shown when the original table is at hand. *)
Record ImprovementStats : Type := {
  originalRows : nat;
  cleanedRows : nat;
  rowsRemoved : number;
  improvementPercentage : number
}.

Definition getImprovementStats (data originalData : CSVData) : ImprovementStats :=
  let originalRows := List.length (rows originalData) in
  let cleanedRows := List.length (rows data) in
  let rowsRemoved := sub (of_nat originalRows) (of_nat cleanedRows) in
  {| originalRows := originalRows;
     cleanedRows := cleanedRows;
     rowsRemoved := rowsRemoved;
     improvementPercentage :=
       Math_round (mul (div rowsRemoved (of_nat originalRows)) (of_Z 100)) |}.

End ExportData.

(* ================================================================== *)
(** * Notions used to state further properties *)
(* ================================================================== *)

Module Spec2.

Import JS QualityAnalysis.
Local Open Scope string_scope.

(** A score as the report means it: an integer from 0 to 100. *)
Definition isScore (x : number) : Prop :=
  exists z : Z, x = Fin (inject_Z z) /\ (0 <= z <= 100)%Z.

(** The severity each kind of issue is given. *)
Definition severityFits (i : DetailedIssue) : Prop :=
  match type i with
  | missing => severity i = medium
  | duplicate => severity i = high
  | invalid_format => severity i = high
  | value_range => severity i = high
  | inconsistent => severity i = low \/ severity i = high
  | unusual_pattern => severity i = medium
  | sensitive_data => severity i = critical
  end.

(** Where an issue points: an existing row; the whole row, under the name
    "All columns", for a duplicate; otherwise a header and the cell of
    that row under it. *)
Definition located (data : CSVData) (i : DetailedIssue) : Prop :=
  (rowIndex i < List.length (rows data))%nat
  /\ match type i with
     | duplicate =>
         column i = "All columns"
         /\ value i = RowValue (nth (rowIndex i) (rows data) [])
     | _ =>
         exists colIndex,
           nth_error (headers data) colIndex = Some (column i)
           /\ value i = CellValue (Spec.cellAt data (rowIndex i) colIndex)
     end.

(** Total of an object's values under a measure. *)
Definition weight (A : Type) (m : A -> nat) (o : Obj A) : nat :=
  list_sum (map (fun kv => m (snd kv)) o).

(** A table of a size that can exist: at least one row and one column,
    fewer than 2^40 cells. *)
Definition sized (data : CSVData) : Prop :=
  (1 <= List.length (rows data))%nat /\ (1 <= List.length (headers data))%nat
  /\ (Z.of_nat (List.length (rows data) * List.length (headers data)) < 2 ^ 40)%Z.

(** Three finite numbers in order, between zero and the integer [N]. *)
Definition chain (x y z : number) (N : Z) : Prop :=
  exists a b c, x = Fin a /\ y = Fin b /\ z = Fin c
    /\ (0 <= a)%Q /\ (a <= b)%Q /\ (b <= c)%Q /\ (c <= inject_Z N)%Q.

(** A string that does not begin with white space. *)
Definition startsClean (s : string) : bool :=
  match s with
  | String c _ => negb (isWhiteSpace c)
  | EmptyString => true
  end.

(** How often a value occurs in a list, values being told apart the way
    the keys of a [Map] are. *)
Definition occurrences (v : JS.value) (l : list JS.value) : nat :=
  List.length (filter (StepBuilder.sameValueZero v) l).

(** The character [c] occurs in [s]. *)
Fixpoint contains (c : ascii) (s : string) : bool :=
  match s with
  | EmptyString => false
  | String d s' => Ascii.eqb d c || contains c s'
  end.

(** A cell that is not a text, or a text of the ASCII range. *)
Definition asciiCell (cell : JS.value) : bool :=
  match cell with
  | VStr s => isASCII s
  | _ => true
  end.

(** A header, and a text cell, of the ASCII range that the CSV reader
    gives back as they are and that hold no separator. *)
Definition plainHeader (h : string) : Prop :=
  isASCII h = true
  /\ Upload.removeQuotes (trim h) = h
  /\ contains Upload.comma h = false /\ contains Upload.newline h = false.

Definition plainText (s : string) : Prop :=
  isASCII s = true
  /\ Upload.parseCell s = VStr s
  /\ contains Upload.comma s = false /\ contains Upload.newline s = false.

(** What a cell read from CSV text can be: a number other than [NaN], or
    a text without quote, comma or line feed that is empty or does not
    read as a number. *)
Definition parsedCell (cell : JS.value) : Prop :=
  match cell with
  | VNum x => isNaN x = false
  | VStr s =>
      contains Upload.quote s = false /\ contains Upload.comma s = false
      /\ contains Upload.newline s = false
      /\ (s = EmptyString \/ isNaN (StringToNumber s) = true)
  | VNull | VUndef => False
  end.

(** The rows whose index the duplicate scan of the analysis does not flag. *)
Definition unflaggedRows (data : CSVData) : list (list JS.value) :=
  map snd
    (filter (fun ir => negb (existsb (Nat.eqb (fst ir)) (duplicateRowIndices data)))
       (indexed (rows data))).

(** The eight scores of a report. *)
Definition reportScores (r : QualityReport) : list number :=
  [overallScore r; missingValuesScore r; duplicatesScore r; invalidFormatScore r;
   valueRangeScore r; inconsistentValuesScore r; unusualPatternsScore r;
   sensitiveDataScore r].

End Spec2.

(* ================================================================== *)
(** * Facts about binary64 rounding *)
(* ================================================================== *)

Module NumberFacts.

Import JS Spec.
Local Open Scope Q_scope.

Lemma two_neq_0 : ~ (2 # 1) == 0.
Proof. discriminate. Qed.

Lemma pow2_pos k : 0 < pow2 k.
Proof. apply Qpower_0_lt. reflexivity. Qed.

Lemma pow2_add a b : pow2 (a + b) == pow2 a * pow2 b.
Proof. apply Qpower_plus, two_neq_0. Qed.

Lemma pow2_le a b : (a <= b)%Z -> pow2 a <= pow2 b.
Proof. intros H. apply Qpower_le_compat_l; [exact H | discriminate]. Qed.

Lemma pow2_lt a b : (a < b)%Z -> pow2 a < pow2 b.
Proof. intros H. apply Qpower_lt_compat_l; [exact H | reflexivity]. Qed.

Lemma pow2_lt_inv a b : pow2 a < pow2 b -> (a < b)%Z.
Proof. intros H. apply Qpower_lt_compat_l_inv with (q := 2 # 1); [exact H | reflexivity]. Qed.

Lemma pow2_Z k : (0 <= k)%Z -> pow2 k == inject_Z (2 ^ k).
Proof. intros H. unfold pow2. rewrite (Zpower_Qpower 2 k H). reflexivity. Qed.

Lemma pow2_cancel k : pow2 k * pow2 (- k) == 1.
Proof. rewrite <- pow2_add. replace (k + - k)%Z with 0%Z by lia. reflexivity. Qed.

(** *** Binary logarithm *)
Lemma ilog2_spec q : 0 < q -> pow2 (ilog2 q) <= q /\ q < pow2 (ilog2 q + 1).
Proof.
  intros Hq. destruct q as [n d]. unfold ilog2. cbn [Qnum Qden].
  assert (Hn : (0 < n)%Z) by (unfold Qlt in Hq; cbn in Hq; lia).
  set (ln := Z.log2 n). set (ld := Z.log2 (Z.pos d)).
  assert (Ln := Z.log2_spec n Hn). assert (Ld := Z.log2_spec (Z.pos d) eq_refl).
  fold ln in Ln. fold ld in Ld.
  assert (Hln : (0 <= ln)%Z) by apply Z.log2_nonneg.
  assert (Hld : (0 <= ld)%Z) by apply Z.log2_nonneg.
  assert (Hq' : n # d == inject_Z n * / inject_Z (Z.pos d)) by apply Qmake_Qdiv.
  assert (Hd0 : 0 < inject_Z (Z.pos d)) by reflexivity.
  assert (B1 : inject_Z (2 ^ ln) <= inject_Z n) by (rewrite <- Zle_Qle; lia).
  assert (B2 : inject_Z n < inject_Z (2 ^ (ln + 1))) by (rewrite <- Zlt_Qlt; unfold Z.succ in Ln; lia).
  assert (B3 : inject_Z (2 ^ ld) <= inject_Z (Z.pos d)) by (rewrite <- Zle_Qle; lia).
  assert (B4 : inject_Z (Z.pos d) < inject_Z (2 ^ (ld + 1))) by (rewrite <- Zlt_Qlt; unfold Z.succ in Ld; lia).
  rewrite <- !pow2_Z in B1, B2, B3, B4 by lia.
  (* q < pow2 (ln - ld + 1) and pow2 (ln - ld - 1) < q *)
  assert (U : n # d < pow2 (ln - ld + 1)).
  { rewrite Hq'. apply Qlt_shift_div_r; [exact Hd0|].
    apply Qlt_le_trans with (pow2 (ln + 1)); [exact B2|].
    replace (ln + 1)%Z with ((ln - ld + 1) + ld)%Z by lia. rewrite pow2_add.
    apply Qmult_le_l; [apply pow2_pos | exact B3]. }
  assert (L : pow2 (ln - ld - 1) <= n # d).
  { rewrite Hq'. apply Qle_shift_div_l; [exact Hd0|].
    apply Qle_trans with (pow2 ln); [| exact B1].
    replace ln with ((ln - ld - 1) + (ld + 1))%Z at 2 by lia. rewrite pow2_add.
    apply Qmult_le_l; [apply pow2_pos | apply Qlt_le_weak; exact B4]. }
  destruct (Qle_bool (pow2 (ln - ld)) (n # d)) eqn:E.
  - apply Qle_bool_iff in E. split; assumption.
  - split.
    + exact L.
    + replace (ln - ld - 1 + 1)%Z with (ln - ld)%Z by lia.
      apply Qnot_le_lt. intro C. apply Qle_bool_iff in C. congruence.
Qed.

Lemma ilog2_unique q e : 0 < q -> pow2 e <= q -> q < pow2 (e + 1) -> ilog2 q = e.
Proof.
  intros Hq L U. destruct (ilog2_spec Hq) as [L' U'].
  assert (pow2 e < pow2 (ilog2 q + 1)) by (eapply Qle_lt_trans; eassumption).
  assert (pow2 (ilog2 q) < pow2 (e + 1)) by (eapply Qle_lt_trans; eassumption).
  apply pow2_lt_inv in H, H0. lia.
Qed.

Lemma ilog2_mono p q : 0 < p -> p <= q -> (ilog2 p <= ilog2 q)%Z.
Proof.
  intros Hp Hpq. assert (Hq : 0 < q) by (eapply Qlt_le_trans; eassumption).
  destruct (ilog2_spec Hp) as [L _]. destruct (ilog2_spec Hq) as [_ U].
  assert (pow2 (ilog2 p) < pow2 (ilog2 q + 1)).
  { eapply Qle_lt_trans; [exact L|]. eapply Qle_lt_trans; eassumption. }
  apply pow2_lt_inv in H. lia.
Qed.

Lemma ilog2_comp p q : 0 < p -> p == q -> ilog2 q = ilog2 p.
Proof.
  intros Hp E. destruct (ilog2_spec Hp) as [L U].
  apply ilog2_unique; rewrite <- ?E; assumption.
Qed.

(** *** Rounding to the nearest integer *)
Lemma rne_bounds x : inject_Z (Qfloor x) <= inject_Z (rne x) /\ inject_Z (rne x) <= inject_Z (Qfloor x + 1).
Proof.
  unfold rne. rewrite <- !Zle_Qle.
  destruct (Qcompare _ _); [destruct (Z.even _) | |]; lia.
Qed.

Lemma rne_comp x y : x == y -> rne x = rne y.
Proof.
  intros E. unfold rne. rewrite (Qfloor_comp _ _ E).
  assert (E' : x - inject_Z (Qfloor y) == y - inject_Z (Qfloor y)) by (rewrite E; reflexivity).
  rewrite (Qcompare_comp _ _ E' _ _ (Qeq_refl (1#2))). reflexivity.
Qed.

Lemma rne_mono x y : x <= y -> (rne x <= rne y)%Z.
Proof.
  intros H. assert (F := Qfloor_resp_le _ _ H).
  unfold rne.
  destruct (Z.eq_dec (Qfloor x) (Qfloor y)) as [E | NE].
  - rewrite E.
    destruct (Qcompare_spec (x - inject_Z (Qfloor y)) (1 # 2)) as [A|A|A];
    destruct (Qcompare_spec (y - inject_Z (Qfloor y)) (1 # 2)) as [B|B|B];
    try (destruct (Z.even (Qfloor y))); try lia; exfalso; lra.
  - assert (Qfloor x + 1 <= Qfloor y)%Z by lia.
    destruct (Qcompare _ _); destruct (Qcompare _ _);
      repeat match goal with |- context [Z.even ?a] => destruct (Z.even a) end; lia.
Qed.

Lemma rne_Z z : rne (inject_Z z) = z.
Proof.
  unfold rne. rewrite Qfloor_Z.
  assert (E : inject_Z z - inject_Z z == 0) by ring.
  rewrite (Qcompare_comp _ _ E _ _ (Qeq_refl (1#2))). reflexivity.
Qed.

Lemma rne_le_Z x n : x <= inject_Z n -> (rne x <= n)%Z.
Proof. intros H. rewrite <- (rne_Z n). apply rne_mono, H. Qed.

Lemma rne_ge_Z x n : inject_Z n <= x -> (n <= rne x)%Z.
Proof. intros H. rewrite <- (rne_Z n). apply rne_mono, H. Qed.

(** *** Rounding of a positive rational *)
Lemma quantum_mono p q : 0 < p -> p <= q -> (quantum p <= quantum q)%Z.
Proof. intros Hp H. unfold quantum. pose proof (ilog2_mono Hp H). lia. Qed.

Lemma round_pos_comp p q : 0 < p -> p == q -> round_pos q == round_pos p.
Proof.
  intros Hp E. unfold round_pos, quantum. rewrite (ilog2_comp Hp E).
  rewrite (rne_comp (x := q * _) (y := p * pow2 (- Z.max (ilog2 p - 52) (-1074)))).
  - reflexivity.
  - apply Qmult_comp; [symmetry; exact E | reflexivity].
Qed.

Lemma round_pos_mono p q : 0 < p -> p <= q -> round_pos p <= round_pos q.
Proof.
  intros Hp Hpq. assert (Hq : 0 < q) by (eapply Qlt_le_trans; eassumption).
  pose proof (quantum_mono Hp Hpq) as Hu.
  unfold round_pos.
  destruct (Z.eq_dec (quantum p) (quantum q)) as [E | NE].
  - rewrite E. apply Qmult_le_compat_r; [| apply Qlt_le_weak, pow2_pos].
    rewrite <- Zle_Qle. apply rne_mono.
    apply Qmult_le_compat_r; [exact Hpq | apply Qlt_le_weak, pow2_pos].
  - assert (Hlt : (quantum p < quantum q)%Z) by lia.
    destruct (ilog2_spec Hp) as [_ Up]. destruct (ilog2_spec Hq) as [Lq _].
    set (e := ilog2 q) in *. set (up := quantum p) in *. set (uq := quantum q) in *.
    assert (Euq : uq = (e - 52)%Z) by (unfold uq, up, quantum in *; fold e in Hlt |- *; lia).
    assert (Hep : (ilog2 p + 1 <= e)%Z) by (unfold up, quantum in Hlt; lia).
    assert (Hup : (-1074 <= up)%Z) by (unfold up, quantum; lia).
    apply Qle_trans with (pow2 e).
    + assert (Hk : (0 <= e - up)%Z) by lia.
      assert (P : p * pow2 (- up) <= inject_Z (2 ^ (e - up))).
      { rewrite <- pow2_Z by exact Hk. unfold Z.sub. rewrite pow2_add.
        apply Qmult_le_compat_r; [| apply Qlt_le_weak, pow2_pos].
        apply Qlt_le_weak. eapply Qlt_le_trans; [exact Up | apply pow2_le; exact Hep]. }
      apply rne_le_Z in P. rewrite Zle_Qle in P.
      apply Qle_trans with (inject_Z (2 ^ (e - up)) * pow2 up).
      * apply Qmult_le_compat_r; [exact P | apply Qlt_le_weak, pow2_pos].
      * rewrite <- pow2_Z by exact Hk. rewrite <- pow2_add.
        replace (e - up + up)%Z with e by lia. apply Qle_refl.
    + assert (P : inject_Z (2 ^ 52) <= q * pow2 (- uq)).
      { rewrite <- pow2_Z by lia. replace 52%Z with (e + - uq)%Z at 1 by lia.
        rewrite pow2_add. apply Qmult_le_compat_r; [exact Lq | apply Qlt_le_weak, pow2_pos]. }
      apply rne_ge_Z in P. rewrite Zle_Qle in P.
      apply Qle_trans with (inject_Z (2 ^ 52) * pow2 uq).
      * rewrite <- pow2_Z by lia. rewrite <- pow2_add.
        replace (52 + uq)%Z with e by lia. apply Qle_refl.
      * apply Qmult_le_compat_r; [exact P | apply Qlt_le_weak, pow2_pos].
Qed.

Lemma round_pos_exact q m : q == inject_Z m * pow2 (quantum q) -> round_pos q == q.
Proof.
  intros E. unfold round_pos.
  assert (E' : q * pow2 (- quantum q) == inject_Z m).
  { rewrite E at 1. rewrite <- Qmult_assoc, pow2_cancel. ring. }
  rewrite (rne_comp E'), rne_Z. symmetry. exact E.
Qed.

Lemma round_pos_int z : (0 < z < 2 ^ 53)%Z -> round_pos (inject_Z z) == inject_Z z.
Proof.
  intros [Hz Hz53].
  assert (Hq : 0 < inject_Z z) by (change 0 with (inject_Z 0); rewrite <- Zlt_Qlt; exact Hz).
  destruct (ilog2_spec Hq) as [L _].
  assert (He : (ilog2 (inject_Z z) < 53)%Z).
  { apply pow2_lt_inv. eapply Qle_lt_trans; [exact L|].
    rewrite (pow2_Z (k := 53)) by lia. rewrite <- Zlt_Qlt. exact Hz53. }
  assert (Hu : (-1074 <= quantum (inject_Z z) <= 0)%Z) by (unfold quantum; lia).
  apply round_pos_exact with (m := (z * 2 ^ (- quantum (inject_Z z)))%Z).
  rewrite inject_Z_mult, <- pow2_Z by lia.
  rewrite <- Qmult_assoc, <- pow2_add.
  replace (- quantum (inject_Z z) + quantum (inject_Z z))%Z with 0%Z by lia.
  change (pow2 0) with 1. ring.
Qed.

(** *** Rounding to binary64 *)
Lemma round64_comp p q : p == q -> round64 p = round64 q.
Proof. intros E. unfold round64. rewrite (Qred_complete _ _ E). reflexivity. Qed.

Lemma round64_zero q : q == 0 -> round64 q = Fin 0.
Proof. intros E. rewrite (round64_comp E). reflexivity. Qed.

Lemma round64_pos q :
  0 < q -> round_pos q < pow2 1024 ->
  exists r, round64 q = Fin r /\ r == round_pos q.
Proof.
  intros Hq Hb. unfold round64.
  assert (Hr : 0 < Qred q) by (rewrite Qred_correct; exact Hq).
  assert (E : round_pos (Qred q) == round_pos q).
  { apply round_pos_comp; [exact Hq | symmetry; apply Qred_correct]. }
  destruct (Qnum (Qred q)) eqn:En.
  - exfalso. unfold Qlt in Hr. rewrite En in Hr. cbn in Hr. lia.
  - destruct (Qle_bool (pow2 1024) (round_pos (Qred q))) eqn:Eb.
    + exfalso. apply Qle_bool_iff in Eb. rewrite E in Eb. lra.
    + eexists. split; [reflexivity|]. rewrite Qred_correct. exact E.
  - exfalso. unfold Qlt in Hr. rewrite En in Hr. cbn in Hr. lia.
Qed.

Lemma round64_le_fin p q N :
  (0 < N < 2 ^ 53)%Z -> 0 <= p -> p <= q -> q <= inject_Z N ->
  le_fin (round64 p) (round64 q) (inject_Z N).
Proof.
  intros HN Hp Hpq HqN.
  assert (HNq : 0 < inject_Z N) by (change 0 with (inject_Z 0); rewrite <- Zlt_Qlt; lia).
  assert (Big : inject_Z N < pow2 1024).
  { eapply Qlt_trans with (inject_Z (2 ^ 53)); [rewrite <- Zlt_Qlt; lia | reflexivity]. }
  assert (Pos : forall r, 0 < r -> r <= inject_Z N ->
            exists a, round64 r = Fin a /\ a == round_pos r /\ a <= inject_Z N).
  { intros r Hr HrN.
    assert (B : round_pos r <= inject_Z N).
    { rewrite <- (round_pos_int HN). apply round_pos_mono; assumption. }
    destruct (@round64_pos r Hr) as [a [Ea Ha]]; [lra|].
    exists a. repeat split; [exact Ea | exact Ha | rewrite Ha; exact B]. }
  assert (Nonneg : forall r, 0 < r -> 0 <= round_pos r).
  { intros r Hr. unfold round_pos. apply Qmult_le_0_compat; [| apply Qlt_le_weak, pow2_pos].
    change 0 with (inject_Z 0). rewrite <- Zle_Qle. apply rne_ge_Z.
    apply Qmult_le_0_compat; [apply Qlt_le_weak, Hr | apply Qlt_le_weak, pow2_pos]. }
  destruct (Qlt_le_dec 0 p) as [Hp0 | Hp0].
  - assert (Hq0 : 0 < q) by lra.
    destruct (Pos p Hp0) as [a [Ea [Ha Ba]]]; [lra|].
    destruct (Pos q Hq0 HqN) as [b [Eb [Hb Bb]]].
    exists a, b. repeat split; try assumption.
    + rewrite Ha. apply Nonneg, Hp0.
    + rewrite Ha, Hb. apply round_pos_mono; assumption.
  - assert (Ep : p == 0) by lra. rewrite (round64_zero Ep).
    destruct (Qlt_le_dec 0 q) as [Hq0 | Hq0].
    + destruct (Pos q Hq0 HqN) as [b [Eb [Hb Bb]]].
      exists 0, b. repeat split; try assumption; try lra.
      rewrite Hb. apply Nonneg, Hq0.
    + assert (Eq : q == 0) by lra. rewrite (round64_zero Eq).
      exists 0, 0. repeat split; lra.
Qed.

(** *** The score of a share *)

Import QualityAnalysis.

Lemma of_nat_fin n :
  (0 < n)%nat -> (Z.of_nat n < 2 ^ 53)%Z ->
  exists t, of_nat n = Fin t /\ t == inject_Z (Z.of_nat n).
Proof.
  intros Hn Hb. unfold of_nat, of_Z.
  assert (HZ : (0 < Z.of_nat n < 2 ^ 53)%Z) by lia.
  assert (Hq : 0 < inject_Z (Z.of_nat n)) by (change 0 with (inject_Z 0); rewrite <- Zlt_Qlt; lia).
  destruct (@round64_pos (inject_Z (Z.of_nat n)) Hq) as [t [Et Ht]].
  - rewrite (round_pos_int HZ).
    eapply Qlt_trans with (inject_Z (2 ^ 53)); [rewrite <- Zlt_Qlt; lia | reflexivity].
  - exists t. split; [exact Et|]. rewrite Ht. apply round_pos_int, HZ.
Qed.

Lemma sign_fin_nonneg a : 0 <= a -> sign (Fin a) = false.
Proof.
  intros H. unfold sign. destruct a as [n d]. unfold Qle in H. cbn in *.
  destruct n; try reflexivity. lia.
Qed.

Lemma Qeq_bool_pos t : 0 < t -> Qeq_bool t 0 = false.
Proof.
  intros H. destruct (Qeq_bool t 0) eqn:E; [|reflexivity].
  apply Qeq_bool_iff in E. lra.
Qed.

Lemma div_fin a t : 0 <= a -> 0 < t -> div (Fin a) (Fin t) = round64 (a / t).
Proof.
  intros Ha Ht. unfold div. cbn [is_zero]. rewrite (Qeq_bool_pos Ht).
  destruct (Qeq_bool a 0) eqn:E.
  - apply Qeq_bool_iff in E.
    rewrite (sign_fin_nonneg Ha), (sign_fin_nonneg (Qlt_le_weak _ _ Ht)). cbn.
    symmetry. apply round64_zero. rewrite E. unfold Qdiv. ring.
  - reflexivity.
Qed.

Lemma mul_fin a c : 0 <= a -> 0 < c -> mul (Fin a) (Fin c) = round64 (a * c).
Proof.
  intros Ha Hc. unfold mul. cbn [is_zero]. rewrite (Qeq_bool_pos Hc).
  destruct (Qeq_bool a 0) eqn:E.
  - apply Qeq_bool_iff in E.
    rewrite (sign_fin_nonneg Ha), (sign_fin_nonneg (Qlt_le_weak _ _ Hc)). cbn.
    symmetry. apply round64_zero. rewrite E. ring.
  - reflexivity.
Qed.

Lemma add_NegZero_r x : add x NegZero = x.
Proof. destruct x as [| [|] | |]; reflexivity. Qed.

Lemma sub_of_nat T M :
  (M <= T)%nat -> (Z.of_nat T < 2 ^ 53)%Z ->
  sub (of_nat T) (of_nat M) = of_nat (T - M).
Proof.
  intros HMT HT. unfold sub.
  destruct M as [| M'].
  - change (of_nat 0) with (Fin 0). cbn [neg]. change (Qeq_bool 0 0) with true. cbn iota.
    rewrite add_NegZero_r. f_equal. lia.
  - destruct (@of_nat_fin (S M')) as [m [Em Hm]]; [lia | lia |].
    destruct (@of_nat_fin T) as [t [Et Ht]]; [lia | lia |].
    rewrite Em, Et. cbn [neg].
    assert (Hm0 : 0 < m).
    { rewrite Hm. change 0 with (inject_Z 0). rewrite <- Zlt_Qlt. lia. }
    rewrite (Qeq_bool_pos Hm0). cbn [add].
    unfold of_nat, of_Z. apply round64_comp.
    rewrite Ht, Hm. rewrite Nat2Z.inj_sub by exact HMT.
    unfold Z.sub. rewrite inject_Z_plus, inject_Z_opp. reflexivity.
Qed.

(** Value of [shareScore] on a table of fewer than 2^53 cells. *)
Lemma shareScore_le_fin T A1 A2 :
  (0 < T)%nat -> (Z.of_nat T < 2 ^ 53)%Z -> (A2 <= A1)%nat -> (A1 <= T)%nat ->
  le_fin
    (Math_round (mul (div (of_nat A2) (of_nat T)) (of_Z 100)))
    (Math_round (mul (div (of_nat A1) (of_nat T)) (of_Z 100)))
    (inject_Z 100).
Proof.
  intros HT HB H21 H1T.
  destruct (@of_nat_fin T) as [t [Et Ht]]; [lia | lia |].
  assert (Ht0 : 0 < t).
  { rewrite Ht. change 0 with (inject_Z 0). rewrite <- Zlt_Qlt. lia. }
  assert (Fa : forall A, (A <= T)%nat -> exists a, of_nat A = Fin a /\ a == inject_Z (Z.of_nat A)).
  { intros [| A'] HA.
    - exists 0. split; reflexivity.
    - apply of_nat_fin; lia. }
  destruct (Fa A1 H1T) as [a1 [E1 H1]]. destruct (Fa A2) as [a2 [E2 H2]]; [lia|].
  assert (P1 : 0 <= a1) by (rewrite H1; change 0 with (inject_Z 0); rewrite <- Zle_Qle; lia).
  assert (P2 : 0 <= a2) by (rewrite H2; change 0 with (inject_Z 0); rewrite <- Zle_Qle; lia).
  assert (L21 : a2 <= a1) by (rewrite H1, H2, <- Zle_Qle; lia).
  assert (L1T : a1 <= t) by (rewrite H1, Ht, <- Zle_Qle; lia).
  rewrite E1, E2, Et, !div_fin by assumption.
  destruct (@round64_le_fin (a2 / t) (a1 / t) 1) as [b2 [b1 [B2 [B1 [Q0 [Q1 Q2]]]]]].
  - lia.
  - apply Qle_shift_div_l; [exact Ht0 | lra].
  - apply Qle_shift_div_l; [exact Ht0|]. unfold Qdiv.
    rewrite <- Qmult_assoc, (Qmult_comm (/ t)), Qmult_inv_r by lra. lra.
  - apply Qle_shift_div_r; [exact Ht0 | change (inject_Z 1) with 1; lra].
  - rewrite B2, B1. change (of_Z 100) with (Fin 100).
    rewrite !mul_fin by (try reflexivity; lra).
    change (inject_Z 1) with 1 in Q2.
    destruct (@round64_le_fin (b2 * 100) (b1 * 100) 100) as [c2 [c1 [C2 [C1 [R0 [R1 R2]]]]]];
      [lia | lra | lra | change (inject_Z 100) with 100; lra |].
    rewrite C2, C1. unfold Math_round.
    rewrite !sign_fin_nonneg by lra. rewrite !andb_false_r.
    change (inject_Z 100) with 100 in R2.
    assert (Z0 : (0 <= Qfloor (c2 + (1 # 2)))%Z).
    { change 0%Z with (Qfloor 0). apply Qfloor_resp_le. lra. }
    assert (Z1 : (Qfloor (c2 + (1 # 2)) <= Qfloor (c1 + (1 # 2)))%Z).
    { apply Qfloor_resp_le. lra. }
    assert (Z2 : (Qfloor (c1 + (1 # 2)) <= 100)%Z).
    { change 100%Z with (Qfloor (100 + (1 # 2))). apply Qfloor_resp_le. lra. }
    eexists _, _. split; [reflexivity|]. split; [reflexivity|].
    change 0 with (inject_Z 0). rewrite <- !Zle_Qle. lia.
Qed.

Lemma leb_le_fin x y B : le_fin x y B -> leb x y = true.
Proof.
  intros [a [b [Ex [Ey [_ [H _]]]]]]. subst. unfold leb. cbn.
  destruct (Qcompare_spec b a); try reflexivity. lra.
Qed.

Lemma shareScore_mono T M1 M2 :
  (0 < T)%nat -> (Z.of_nat T < 2 ^ 53)%Z -> (M1 <= M2)%nat -> (M2 <= T)%nat ->
  leb (shareScore T M2) (shareScore T M1) = true.
Proof.
  intros HT HB H12 H2T. unfold shareScore.
  rewrite !sub_of_nat by lia.
  eapply leb_le_fin. apply shareScore_le_fin; lia.
Qed.

Lemma shareScore_full T :
  (0 < T)%nat -> (Z.of_nat T < 2 ^ 53)%Z -> shareScore T 0 = of_Z 100.
Proof.
  intros HT HB. unfold shareScore. rewrite sub_of_nat by lia.
  rewrite Nat.sub_0_r.
  destruct (@of_nat_fin T HT HB) as [t [Et Ht]].
  assert (Ht0 : 0 < t).
  { rewrite Ht. change 0 with (inject_Z 0). rewrite <- Zlt_Qlt. lia. }
  rewrite Et, div_fin by lra.
  assert (E : t / t == 1) by (field; lra).
  rewrite (round64_comp E). reflexivity.
Qed.

(** The score is 100 exactly while at most one part in 200 is bad: there
    the quotient is at least 0.995, which rounds to a product of 99.5;
    one bad part more, on fewer than 2^40 parts, and the product stays
    below 99.5. *)
Lemma shareScore_hundred T M :
  (0 < T)%nat -> (Z.of_nat T < 2 ^ 40)%Z -> (M <= T)%nat ->
  shareScore T M = of_Z 100 <-> (200 * M <= T)%nat.
Proof.
  intros HT HB HM. unfold shareScore.
  rewrite sub_of_nat by lia.
  destruct (@of_nat_fin T) as [t [Et Ht]]; [lia | lia |].
  assert (Ht0 : 0 < t).
  { rewrite Ht. change 0 with (inject_Z 0). rewrite <- Zlt_Qlt. lia. }
  assert (Fa : exists a, of_nat (T - M) = Fin a /\ a == inject_Z (Z.of_nat (T - M))).
  { destruct (T - M)%nat as [| A'] eqn:EA.
    - exists 0. split; reflexivity.
    - apply of_nat_fin; lia. }
  destruct Fa as [a [Ea Ha]].
  assert (Pa : 0 <= a) by (rewrite Ha; change 0 with (inject_Z 0); rewrite <- Zle_Qle; lia).
  assert (LaT : a <= t) by (rewrite Ha, Ht, <- Zle_Qle; lia).
  assert (Q1 : a / t <= 1).
  { apply Qle_shift_div_r; [exact Ht0 | lra]. }
  assert (Q0 : 0 <= a / t).
  { apply Qle_shift_div_l; [exact Ht0 | lra]. }
  rewrite Ea, Et, div_fin by assumption. change (of_Z 100) with (Fin 100).
  destruct (Nat.le_gt_cases (200 * M) T) as [Few | Many].
  - split; [intros _; exact Few | intros _].
    assert (L : (199 # 200) <= a / t).
    { apply Qle_shift_div_l; [exact Ht0|]. rewrite Ha, Ht.
      assert (Z : (199 * Z.of_nat T <= 200 * Z.of_nat (T - M))%Z) by lia.
      rewrite Zle_Qle in Z. rewrite !inject_Z_mult in Z.
      change (inject_Z 199) with 199 in Z. change (inject_Z 200) with 200 in Z. lra. }
    destruct (@round64_le_fin (199 # 200) (a / t) 1) as [u [b [U [B [_ [UB B1]]]]]];
      [lia | lra | exact L | exact Q1 |].
    vm_compute in U. inversion U; subst u; clear U.
    rewrite B. change (inject_Z 1) with 1 in B1.
    assert (Pb : 0 <= b) by (eapply Qle_trans; [| exact UB]; vm_compute; discriminate).
    rewrite mul_fin by (try reflexivity; exact Pb).
    destruct (@round64_le_fin ((8962163258467287 # 9007199254740992) * 100) (b * 100) 100)
      as [v [c [V [C [_ [VC C1]]]]]];
      [lia | vm_compute; discriminate | lra | change (inject_Z 100) with 100; lra |].
    vm_compute in V. inversion V; subst v; clear V.
    rewrite C. change (inject_Z 100) with 100 in C1. unfold Math_round.
    assert (Pc : 0 <= c) by lra.
    rewrite (sign_fin_nonneg Pc), andb_false_r.
    assert (Z1 : (100 <= Qfloor (c + (1 # 2)))%Z).
    { change 100%Z with (Qfloor 100). apply Qfloor_resp_le. lra. }
    assert (Z2 : (Qfloor (c + (1 # 2)) <= 100)%Z).
    { change 100%Z with (Qfloor (100 + (1 # 2))). apply Qfloor_resp_le. lra. }
    replace (Qfloor (c + (1 # 2))) with 100%Z by lia. reflexivity.
  - split; [| intros Few; lia]. intros E. exfalso.
    assert (L : a / t <= (199 # 200) - (1 # 219902325555200)).
    { apply Qle_shift_div_r; [exact Ht0|].
      assert (Z : (200 * Z.of_nat (T - M) <= 199 * Z.of_nat T - 1)%Z) by lia.
      rewrite Zle_Qle in Z. unfold Z.sub in Z.
      rewrite inject_Z_plus, !inject_Z_mult in Z.
      change (inject_Z 199) with 199 in Z. change (inject_Z 200) with 200 in Z.
      change (inject_Z (- (1))) with (- (1)) in Z.
      assert (Tb : inject_Z (Z.of_nat T) <= 1099511627776).
      { change 1099511627776 with (inject_Z (2 ^ 40)). rewrite <- Zle_Qle. lia. }
      rewrite <- Ha, <- Ht in Z. rewrite <- Ht in Tb. lra. }
    destruct (@round64_le_fin (a / t) ((199 # 200) - (1 # 219902325555200)) 1)
      as [b [u [B [U [Pb [BU _]]]]]];
      [lia | exact Q0 | exact L | vm_compute; discriminate |].
    vm_compute in U. inversion U; subst u; clear U.
    rewrite B in E.
    rewrite mul_fin in E by (try reflexivity; exact Pb).
    match type of BU with
    | b <= ?k =>
        destruct (@round64_le_fin (b * 100) (k * 100) 100)
          as [c [v [C [V [Pc [CV _]]]]]];
          [lia | apply Qmult_le_0_compat; [exact Pb | discriminate]
          | apply Qmult_le_compat_r; [exact BU | discriminate]
          | vm_compute; discriminate |]
    end.
    vm_compute in V. inversion V; subst v; clear V.
    rewrite C in E. unfold Math_round in E.
    rewrite (sign_fin_nonneg Pc), andb_false_r in E.
    assert (Z2 : (Qfloor (c + (1 # 2)) <= 99)%Z).
    { match type of CV with
      | c <= ?k => change 99%Z with (Qfloor (k + (1 # 2)))
      end.
      apply Qfloor_resp_le. apply Qplus_le_compat; [exact CV | apply Qle_refl]. }
    set (z := Qfloor (c + (1 # 2))) in *. clearbody z. inversion E as [E']. lia.
Qed.

(** *** Agreement with [SpecFloat] on sample operations *)

Import Binary64.

Example div_agrees :
  div (of_Z 200) (of_Z 201) = of_spec (b64_div (b64 200) (b64 201))
  /\ div (of_Z 3) (of_Z 5) = of_spec (b64_div (b64 3) (b64 5))
  /\ div (of_Z (-1)) (of_Z 3) = of_spec (b64_div (b64 (-1)) (b64 3))
  /\ div (of_Z 0) (of_Z 0) = of_spec (b64_div (b64 0) (b64 0))
  /\ div (of_Z 1) (of_Z 0) = of_spec (b64_div (b64 1) (b64 0)).
Proof. vm_compute. repeat split; reflexivity. Qed.

Example mul_agrees :
  lit (7 # 10) = of_spec (b64_div (b64 7) (b64 10))
  /\ mul (of_Z 10) (lit (7 # 10)) = of_spec (b64_mul (b64 10) (b64_div (b64 7) (b64 10)))
  /\ mul (of_Z 90) (lit (7 # 10)) = of_spec (b64_mul (b64 90) (b64_div (b64 7) (b64 10)))
  /\ mul (div (of_Z 3) (of_Z 5)) (of_Z 100)
     = of_spec (b64_mul (b64_div (b64 3) (b64 5)) (b64 100)).
Proof. vm_compute. repeat split; reflexivity. Qed.

Example add_agrees :
  add (lit (1 # 10)) (lit (2 # 10))
  = of_spec (b64_add (b64_div (b64 1) (b64 10)) (b64_div (b64 2) (b64 10))).
Proof. vm_compute. reflexivity. Qed.

(** Conversions between numbers and decimal text. *)
Example number_text_samples :
  map (fun s => Number_toString (StringToNumber s))
    ["0.1"; "1e21"; "123456789012345680000"; "1e-7"; "1e23"; "  42  "; EmptyString;
     "0x1F"; "abc"; "N/A"; "1."; ".5"; "."; "9007199254740993"; "-12.5"]%string
  = ["0.1"; "1e+21"; "123456789012345680000"; "1e-7"; "1e+23"; "42"; "0";
     "31"; "NaN"; "NaN"; "1"; "0.5"; "NaN"; "9007199254740992"; "-12.5"]%string.
Proof. vm_compute. reflexivity. Qed.

End NumberFacts.

(* ================================================================== *)
(** * Facts about the passes over a table *)
(* ================================================================== *)

Module TableFacts.

Import JS QualityAnalysis Spec.

(** *** Indexed lists *)
Lemma In_combine_seq (A : Type) (l : list A) s i x :
  In (i, x) (combine (seq s (List.length l)) l) <->
  (s <= i)%nat /\ nth_error l (i - s) = Some x.
Proof.
  revert s. induction l as [| a l IH]; intros s; cbn [List.length seq combine].
  - split; [intros [] | intros [_ H]; destruct (i - s)%nat; discriminate].
  - cbn [In]. rewrite IH. split.
    + intros [E | [Hs Hn]].
      * inversion E; subst. split; [lia|]. rewrite Nat.sub_diag. reflexivity.
      * split; [lia|]. replace (i - s)%nat with (S (i - S s)) by lia. exact Hn.
    + intros [Hs Hn]. destruct (Nat.eq_dec s i) as [E | NE].
      * subst. rewrite Nat.sub_diag in Hn. cbn in Hn. left. congruence.
      * right. split; [lia|]. replace (i - s)%nat with (S (i - S s)) in Hn by lia. exact Hn.
Qed.

Lemma In_indexed (A : Type) (l : list A) i x :
  In (i, x) (indexed l) <-> nth_error l i = Some x.
Proof.
  unfold indexed. rewrite In_combine_seq, Nat.sub_0_r. split; [tauto | split; [lia | assumption]].
Qed.

Lemma indexed_length (A : Type) (l : list A) : List.length (indexed l) = List.length l.
Proof. unfold indexed. rewrite length_combine, length_seq. lia. Qed.

Lemma map_snd_combine_seq (A : Type) (l : list A) s :
  map snd (combine (seq s (List.length l)) l) = l.
Proof.
  revert s. induction l as [| a l IH]; intros s; cbn; [reflexivity|]. rewrite IH. reflexivity.
Qed.

Lemma map_fst_combine_seq (A : Type) (l : list A) s :
  map fst (combine (seq s (List.length l)) l) = seq s (List.length l).
Proof.
  revert s. induction l as [| a l IH]; intros s; cbn; [reflexivity|]. rewrite IH. reflexivity.
Qed.

(** *** Objects *)
Lemma obj_put_fresh (V : Type) k (v : V) o :
  ~ In k (obj_keys o) -> obj_put k v o = (o ++ [(k, v)])%list.
Proof.
  induction o as [| [k' v'] o IH]; intros H; cbn; [reflexivity|].
  cbn in H. destruct (String.eqb_spec k' k) as [E | NE].
  - exfalso. apply H. left. exact E.
  - rewrite IH; [reflexivity | tauto].
Qed.

Lemma obj_set_fresh (V : Type) k (v : V) o :
  k <> proto_key -> ~ In k (obj_keys o) -> obj_set k v o = (o ++ [(k, v)])%list.
Proof.
  intros Hp H. unfold obj_set. destruct (String.eqb_spec k proto_key); [contradiction|].
  apply obj_put_fresh, H.
Qed.

Lemma sum_values_app o1 o2 : sum_values (o1 ++ o2) = (sum_values o1 + sum_values o2)%nat.
Proof.
  unfold sum_values, obj_values. rewrite map_app, fold_left_app.
  generalize (fold_left Nat.add (map snd o1) 0%nat) as a.
  induction (map snd o2) as [| x l IH]; intros a; cbn; [lia|].
  rewrite IH, (IH x). lia.
Qed.

Lemma sum_values_cons k v o : sum_values ((k, v) :: o) = (v + sum_values o)%nat.
Proof. change ((k, v) :: o) with ([(k, v)] ++ o)%list. rewrite sum_values_app. reflexivity. Qed.

(** *** One pass over the columns *)
Section Pass.

Variable A : Type.
Variable body : nat -> string -> list JS.value -> list DetailedIssue * option A.
Variable data : CSVData.

Lemma fold_step_fst l acc :
  fst (fold_left (columnStep body data) l acc) =
  (fst acc ++ flat_map (fun ch => fst (body (fst ch) (snd ch) (columnData data (fst ch)))) l)%list.
Proof.
  revert acc. induction l as [| [i h] l IH]; intros [iss o]; cbn [fold_left flat_map fst snd].
  - rewrite app_nil_r. reflexivity.
  - rewrite IH. unfold columnStep.
    destruct (body i h (columnData data i)) as [pushed stored]. cbn [fst].
    rewrite app_assoc. reflexivity.
Qed.

Lemma forEachColumn_issues :
  fst (forEachColumn body data) =
  flat_map (fun ch => fst (body (fst ch) (snd ch) (columnData data (fst ch))))
    (indexed (headers data)).
Proof. unfold forEachColumn. rewrite fold_step_fst. reflexivity. Qed.

Variable f : nat -> string -> list JS.value -> A.
Hypothesis body_stores : forall i h cs, snd (body i h cs) = Some (f i h cs).

Lemma fold_step_snd l acc :
  NoDup (map snd l) ->
  (forall ch, In ch l -> snd ch <> proto_key /\ ~ In (snd ch) (obj_keys (snd acc))) ->
  snd (fold_left (columnStep body data) l acc) =
  (snd acc ++ map (fun ch => (snd ch, f (fst ch) (snd ch) (columnData data (fst ch)))) l)%list.
Proof.
  revert acc. induction l as [| [i h] l IH]; intros [iss o] ND Fresh; cbn [fold_left map fst snd].
  - rewrite app_nil_r. reflexivity.
  - cbn [map snd] in ND. inversion ND as [| ? ? Hnin ND']; subst.
    destruct (Fresh (i, h) (or_introl eq_refl)) as [Hp Hf]. cbn [snd] in Hp, Hf.
    assert (Est : columnStep body data (iss, o) (i, h) =
              ((iss ++ fst (body i h (columnData data i)))%list,
               (o ++ [(h, f i h (columnData data i))])%list)).
    { unfold columnStep. specialize (body_stores i h (columnData data i)).
      destruct (body i h (columnData data i)) as [pushed stored]. cbn [fst snd] in *. subst stored.
      rewrite obj_set_fresh by assumption. reflexivity. }
    rewrite Est, IH; [cbn [snd]; rewrite <- app_assoc; reflexivity | exact ND' |].
    intros ch Hch. destruct (Fresh ch (or_intror Hch)) as [Hp' Hf']. split; [exact Hp'|].
    cbn [snd] in *. unfold obj_keys in *. rewrite map_app, in_app_iff. cbn.
    intros [H | [H | []]]; [contradiction|]. apply Hnin. rewrite H. apply (in_map snd), Hch.
Qed.

Lemma forEachColumn_stored :
  NoDup (headers data) -> ~ In proto_key (headers data) ->
  snd (forEachColumn body data) =
  map (fun ch => (snd ch, f (fst ch) (snd ch) (columnData data (fst ch))))
    (indexed (headers data)).
Proof.
  intros ND NP. unfold forEachColumn. rewrite fold_step_snd.
  - reflexivity.
  - unfold indexed. rewrite map_snd_combine_seq. exact ND.
  - intros [i h] Hin. cbn [snd]. split; [| intros []].
    intros E. apply NP. rewrite <- E. apply In_indexed in Hin. eapply nth_error_In, Hin.
Qed.

End Pass.

(** *** The scan of one column *)
Lemma scanColumn_In check cells issue :
  In issue (scanColumn check cells) <->
  exists r v, nth_error cells r = Some v /\ In issue (check r v).
Proof.
  unfold scanColumn. rewrite in_flat_map. split.
  - intros [[r v] [Hin Hi]]. exists r, v. split; [apply In_indexed, Hin | exact Hi].
  - intros [r [v [Hn Hi]]]. exists (r, v). split; [apply In_indexed, Hn | exact Hi].
Qed.

Lemma flat_map_singleton_length (A B : Type) (p : A -> bool) (g : A -> B) l :
  List.length (flat_map (fun x => if p x then [g x] else []) l) = List.length (filter p l).
Proof. induction l as [| a l IH]; cbn; [reflexivity|]. destruct (p a); cbn; rewrite IH; reflexivity. Qed.

Lemma filter_snd_combine (A B : Type) (p : B -> bool) (l1 : list A) (l2 : list B) :
  List.length l1 = List.length l2 ->
  List.length (filter (fun x => p (snd x)) (combine l1 l2)) = List.length (filter p l2).
Proof.
  revert l2. induction l1 as [| a l1 IH]; intros [| b l2] H; cbn in *; try reflexivity; try discriminate.
  destruct (p b); cbn; rewrite IH by lia; reflexivity.
Qed.

Lemma missingColumn_count header cells :
  List.length (scanColumn (missingCheck header) cells) = List.length (filter isMissing cells).
Proof.
  unfold scanColumn, missingCheck.
  rewrite (flat_map_singleton_length (fun rv => isMissing (snd rv))
             (fun rv => missingIssue header (fst rv) (snd rv))).
  unfold indexed. apply filter_snd_combine. apply length_seq.
Qed.

Lemma list_sum_cons a l : list_sum (a :: l) = (a + list_sum l)%nat.
Proof. reflexivity. Qed.

(** Counting by columns and counting by rows. *)
Lemma count_columns_rows (p : JS.value -> bool) (rs : list (list JS.value)) (cols : list nat) :
  list_sum (map (fun c => List.length (filter p (map (fun row => index row c) rs))) cols) =
  List.length (filter p (flat_map (fun row => map (index row) cols) rs)).
Proof.
  induction rs as [| row rs IH].
  - cbn. induction cols; cbn; [reflexivity | assumption].
  - cbn [flat_map]. rewrite filter_app, length_app, <- IH. clear IH.
    induction cols as [| c cols IHc]; [reflexivity|].
    rewrite !map_cons, !list_sum_cons, IHc.
    cbn [map filter]. destruct (p (index row c)); cbn [List.length]; lia.
Qed.

Lemma sum_values_map (A : Type) (g : A -> string) (n : A -> nat) l :
  sum_values (map (fun x => (g x, n x)) l) = list_sum (map n l).
Proof.
  induction l as [| a l IH]; [reflexivity|]. rewrite !map_cons, list_sum_cons.
  rewrite sum_values_cons, IH. reflexivity.
Qed.

Lemma totalMissing_missingCells data :
  NoDup (headers data) -> ~ In proto_key (headers data) ->
  sum_values (snd (missingPass data)) = missingCells data.
Proof.
  intros ND NP. unfold missingPass.
  rewrite (@forEachColumn_stored nat missingColumn data
             (fun _ h cs => List.length (scanColumn (missingCheck h) cs)))
    by (reflexivity || assumption).
  rewrite (sum_values_map (fun ch : nat * string => snd ch)
             (fun ch => List.length (scanColumn (missingCheck (snd ch)) (columnData data (fst ch))))).
  unfold missingCells, cells.
  rewrite <- count_columns_rows.
  unfold indexed.
  rewrite <- (map_fst_combine_seq (headers data) 0) at 2.
  rewrite map_map. apply f_equal, map_ext. intros [c h]. cbn [fst snd].
  apply missingColumn_count.
Qed.

Lemma map_index_seq (row : list JS.value) :
  map (index row) (seq 0 (List.length row)) = row.
Proof.
  unfold index. apply nth_ext with (d := VUndef) (d' := VUndef).
  - rewrite length_map, length_seq. reflexivity.
  - intros n Hn. rewrite length_map, length_seq in Hn.
    rewrite (nth_indep _ _ (nth 0 row VUndef)) by (rewrite length_map, length_seq; exact Hn).
    rewrite (map_nth (fun i => nth i row VUndef)), seq_nth by exact Hn. reflexivity.
Qed.

(** In a table whose rows have one cell per header, the cells under the
    headers are all the cells. *)
Lemma cells_wellFormed data : wellFormed data -> cells data = List.concat (rows data).
Proof.
  unfold wellFormed, cells. intros H.
  induction H as [| row rs Hrow _ IH]; [reflexivity|].
  cbn [flat_map List.concat]. rewrite IH, <- Hrow, map_index_seq. reflexivity.
Qed.

Lemma missingCells_bound data :
  (missingCells data <= List.length (rows data) * List.length (headers data))%nat.
Proof.
  unfold missingCells, cells.
  eapply Nat.le_trans; [apply filter_length_le|].
  induction (rows data) as [| row rs IH]; cbn [flat_map List.length]; [lia|].
  rewrite length_app, length_map, length_seq. cbn. lia.
Qed.

(** *** The report of a run *)
Lemma analyze_missingValuesScore host data :
  missingValuesScore (fst (analyze host data)) =
  shareScore (List.length (rows data) * List.length (headers data))
    (sum_values (snd (missingPass data))).
Proof.
  unfold analyze.
  destruct (missingPass data) as [i1 mv].
  destruct (formatPass host data) as [[i3 dt] fi].
  destruct (rangePass host data) as [i4 ri].
  destruct (inconsistencyPass host data dt) as [i5 ii].
  destruct (unusualPass data) as [i6 up].
  destruct (piiPass data) as [i7 sd].
  reflexivity.
Qed.

Lemma analyze_overallScore host data :
  let r := fst (analyze host data) in
  overallScore r =
  weightedScore (missingValuesScore r) (duplicatesScore r) (invalidFormatScore r)
    (valueRangeScore r) (inconsistentValuesScore r) (unusualPatternsScore r)
    (sensitiveDataScore r).
Proof.
  unfold analyze.
  destruct (missingPass data) as [i1 mv].
  destruct (formatPass host data) as [[i3 dt] fi].
  destruct (rangePass host data) as [i4 ri].
  destruct (inconsistencyPass host data dt) as [i5 ii].
  destruct (unusualPass data) as [i6 up].
  destruct (piiPass data) as [i7 sd].
  reflexivity.
Qed.

Lemma analyzeData_reported host data :
  analyzeData host data = Reported (fst (analyze host data)) (snd (analyze host data)).
Proof. unfold analyzeData. destruct (analyze host data). reflexivity. Qed.

Lemma analyze_issues_missing host data issue :
  In issue (fst (missingPass data)) -> In issue (snd (analyze host data)).
Proof.
  unfold analyze.
  destruct (missingPass data) as [i1 mv].
  destruct (formatPass host data) as [[i3 dt] fi].
  destruct (rangePass host data) as [i4 ri].
  destruct (inconsistencyPass host data dt) as [i5 ii].
  destruct (unusualPass data) as [i6 up].
  destruct (piiPass data) as [i7 sd].
  cbn [fst snd]. intros H. apply in_or_app. left. exact H.
Qed.

Lemma analyze_duplicatesScore host data :
  duplicatesScore (fst (analyze host data)) =
  shareScore (List.length (rows data)) (List.length (duplicateRowIndices data)).
Proof.
  unfold analyze.
  destruct (missingPass data) as [i1 mv].
  destruct (formatPass host data) as [[i3 dt] fi].
  destruct (rangePass host data) as [i4 ri].
  destruct (inconsistencyPass host data dt) as [i5 ii].
  destruct (unusualPass data) as [i6 up].
  destruct (piiPass data) as [i7 sd].
  reflexivity.
Qed.

End TableFacts.

(* ================================================================== *)
(** * Facts about the duplicate scan *)
(* ================================================================== *)

Module DuplicateFacts.

Import JS QualityAnalysis Spec TableFacts.
Local Open Scope string_scope.

Lemma findIndex_app (A : Type) (p : A -> bool) l1 l2 :
  findIndex p (l1 ++ l2) =
  match findIndex p l1 with
  | Some j => Some j
  | None => option_map (fun j => List.length l1 + j)%nat (findIndex p l2)
  end.
Proof.
  induction l1 as [| a l1 IH]; cbn [app findIndex List.length].
  - destruct (findIndex p l2); reflexivity.
  - destruct (p a); [reflexivity|]. rewrite IH.
    destruct (findIndex p l1); [reflexivity|].
    destruct (findIndex p l2); reflexivity.
Qed.

Lemma findIndex_Some (A : Type) (p : A -> bool) l j d :
  findIndex p l = Some j <->
  (j < List.length l)%nat /\ p (nth j l d) = true
  /\ forall j', (j' < j)%nat -> p (nth j' l d) = false.
Proof.
  revert j. induction l as [| a l IH]; intros j; cbn [findIndex List.length].
  - split; [discriminate | intros [H _]; lia].
  - destruct (p a) eqn:Pa.
    + split.
      * intros E. inversion E; subst. cbn. repeat split; [lia | exact Pa | intros; lia].
      * intros (Hj & Hp & Hmin). destruct j as [| j]; [reflexivity|].
        specialize (Hmin 0%nat ltac:(lia)). cbn in Hmin. congruence.
    + destruct j as [| j].
      * split.
        -- destruct (findIndex p l); discriminate.
        -- intros (_ & Hp & _). cbn in Hp. congruence.
      * specialize (IH j). split.
        -- intros E. destruct (findIndex p l) as [k|]; [|discriminate].
           cbn in E. inversion E; subst k.
           destruct (proj1 IH eq_refl) as (Hj & Hp & Hmin).
           cbn [nth]. repeat split; [lia | exact Hp |].
           intros [| j'] Hlt; [exact Pa | apply Hmin; lia].
        -- intros (Hj & Hp & Hmin). cbn [nth] in Hp.
           rewrite (proj2 IH); [reflexivity|].
           repeat split; [lia | exact Hp |].
           intros j' Hlt. apply (Hmin (S j')). lia.
Qed.

Lemma findIndex_None (A : Type) (p : A -> bool) l :
  findIndex p l = None <-> forall x, In x l -> p x = false.
Proof.
  induction l as [| a l IH]; cbn [findIndex].
  - split; [intros _ x [] | reflexivity].
  - destruct (p a) eqn:Pa.
    + split; [discriminate|]. intros H. specialize (H a (or_introl eq_refl)). congruence.
    + split.
      * intros E x [<- | Hin]; [exact Pa|]. apply IH; [| exact Hin].
        destruct (findIndex p l); [discriminate | reflexivity].
      * intros H. rewrite (proj2 IH); [reflexivity|]. intros x Hin. apply H. right. exact Hin.
Qed.

Lemma scanDuplicates_flagged pre rs seenRows :
  (forall key, obj_get key seenRows = firstWithKey pre key) ->
  scanDuplicates (combine (seq (List.length pre) (List.length rs)) rs) seenRows =
  flat_map (flagged (pre ++ rs)) (combine (seq (List.length pre) (List.length rs)) rs).
Proof.
  revert pre seenRows. induction rs as [| row rs IH]; intros pre seenRows Inv; [reflexivity|].
  cbn [List.length seq combine scanDuplicates flat_map].
  assert (Hpre : firstn (List.length pre) (pre ++ row :: rs) = pre).
  { rewrite firstn_app, Nat.sub_diag, firstn_all. cbn. apply app_nil_r. }
  unfold flagged at 1. cbn [fst snd]. rewrite Hpre, <- Inv.
  assert (Hlen : S (List.length pre) = List.length (pre ++ [row])) by (rewrite length_app; cbn; lia).
  assert (Happ : (pre ++ row :: rs = (pre ++ [row]) ++ rs)%list) by (rewrite <- app_assoc; reflexivity).
  destruct (obj_get (JSON_stringify row) seenRows) as [original |] eqn:Eg.
  - cbn [app]. f_equal. rewrite Hlen, Happ. apply IH.
    intros key. unfold firstWithKey. rewrite findIndex_app. fold (firstWithKey pre key).
    rewrite <- Inv. destruct (obj_get key seenRows) as [j|] eqn:Ek; [reflexivity|].
    cbn [findIndex]. destruct (String.eqb_spec (JSON_stringify row) key) as [E | NE];
      [congruence | reflexivity].
  - cbn [app]. rewrite Hlen, Happ. apply IH.
    intros key. unfold firstWithKey. rewrite findIndex_app. fold (firstWithKey pre key).
    rewrite <- Inv. cbn [obj_get findIndex].
    destruct (String.eqb_spec (JSON_stringify row) key) as [E | NE].
    + subst key. rewrite Eg. cbn. f_equal. lia.
    + destruct (obj_get key seenRows); reflexivity.
Qed.

Lemma duplicateScan_flagged data :
  duplicateScan data = flat_map (flagged (rows data)) (indexed (rows data)).
Proof.
  unfold duplicateScan, indexed.
  apply (@scanDuplicates_flagged [] (rows data) []). reflexivity.
Qed.

Lemma nth_firstn (A : Type) (l : list A) n j d :
  (j < n)%nat -> nth j (firstn n l) d = nth j l d.
Proof.
  revert n j. induction l as [| a l IH]; intros [| n] [| j] H; cbn; try reflexivity; try lia.
  apply IH. lia.
Qed.

(** Entries of the scan. *)
Lemma duplicateScan_In data i row original :
  In (i, row, original) (duplicateScan data) <->
  nth_error (rows data) i = Some row
  /\ (original < i)%nat
  /\ rowKey data original = JSON_stringify row
  /\ forall j, (j < original)%nat -> rowKey data j <> JSON_stringify row.
Proof.
  rewrite duplicateScan_flagged, in_flat_map. unfold flagged, firstWithKey, rowKey. split.
  - intros [[i' row'] [Hin Hf]]. cbn [fst snd] in Hf. apply In_indexed in Hin.
    destruct (findIndex _ _) as [o|] eqn:Ef; [| destruct Hf].
    destruct Hf as [E | []]. inversion E; subst i' row' o. clear E.
    apply (findIndex_Some _ _ _ []) in Ef. destruct Ef as (Ho & Hk & Hmin).
    assert (Hi : (i < List.length (rows data))%nat) by (apply nth_error_Some; congruence).
    rewrite length_firstn in Ho.
    split; [exact Hin|]. split; [lia|]. split.
    + rewrite nth_firstn in Hk by lia. apply String.eqb_eq, Hk.
    + intros j Hj E. specialize (Hmin j Hj). rewrite nth_firstn in Hmin by lia.
      rewrite E, String.eqb_refl in Hmin. discriminate.
  - intros (Hn & Ho & Hk & Hmin). exists (i, row). split; [apply In_indexed, Hn|].
    cbn [fst snd].
    assert (Hi : (i < List.length (rows data))%nat) by (apply nth_error_Some; congruence).
    assert (Ef : findIndex (fun row0 => JSON_stringify row0 =? JSON_stringify row)
                   (firstn i (rows data)) = Some original).
    { apply (findIndex_Some _ _ _ []). rewrite length_firstn. split; [lia|]. split.
      - rewrite nth_firstn by lia. apply String.eqb_eq, Hk.
      - intros j Hj. rewrite nth_firstn by lia. apply String.eqb_neq, Hmin, Hj. }
    rewrite Ef. left. reflexivity.
Qed.

(** The rows of the scan, in increasing order of index. *)
Lemma flagged_indices_sorted all s rs :
  forall bound, (bound <= s)%nat ->
  NoDup (map (fun d => fst (fst d)) (flat_map (flagged all) (combine (seq s (List.length rs)) rs)))
  /\ Forall (fun i => bound <= i)%nat
       (map (fun d => fst (fst d)) (flat_map (flagged all) (combine (seq s (List.length rs)) rs))).
Proof.
  revert s. induction rs as [| row rs IH]; intros s bound Hb; cbn [List.length seq combine flat_map].
  - split; constructor.
  - rewrite map_app. destruct (IH (S s) (S s) (Nat.le_refl _)) as [ND Fa].
    destruct (IH (S s) bound ltac:(lia)) as [_ Fb].
    unfold flagged at 1 3. cbn [fst snd]. destruct (firstWithKey _ _); cbn [map app fst].
    + split.
      * constructor; [| exact ND]. intros Hin. rewrite Forall_forall in Fa.
        specialize (Fa s Hin). lia.
      * constructor; [exact Hb | exact Fb].
    + split; assumption.
Qed.

Lemma duplicateRowIndices_NoDup data : NoDup (duplicateRowIndices data).
Proof.
  unfold duplicateRowIndices. rewrite duplicateScan_flagged. unfold indexed.
  apply (@flagged_indices_sorted (rows data) 0%nat (rows data) 0%nat). lia.
Qed.

Lemma duplicateRowIndices_In data i :
  In i (duplicateRowIndices data) <->
  (i < List.length (rows data))%nat
  /\ exists j, (j < i)%nat /\ rowKey data j = rowKey data i.
Proof.
  unfold duplicateRowIndices. rewrite in_map_iff. split.
  - intros [[[i' row] original] [E Hin]]. cbn in E. subst i'.
    apply duplicateScan_In in Hin. destruct Hin as (Hn & Ho & Hk & _).
    split; [apply nth_error_Some; congruence|].
    exists original. split; [exact Ho|]. rewrite Hk. unfold rowKey.
    rewrite (nth_error_nth _ _ _ Hn). reflexivity.
  - intros [Hi [j [Hj Hk]]].
    set (row := nth i (rows data) []).
    assert (Hn : nth_error (rows data) i = Some row) by (apply nth_error_nth'; exact Hi).
    (* the first index with that key *)
    destruct (findIndex (fun r => JSON_stringify r =? JSON_stringify row) (firstn i (rows data))) as [o|] eqn:Ef.
    + apply (findIndex_Some _ _ _ []) in Ef. destruct Ef as (Ho & Hko & Hmin).
      rewrite length_firstn in Ho.
      exists (i, row, o). split; [reflexivity|]. apply duplicateScan_In.
      split; [exact Hn|]. split; [lia|]. split.
      * unfold rowKey. rewrite nth_firstn in Hko by lia. apply String.eqb_eq, Hko.
      * intros j' Hj' E. specialize (Hmin j' Hj'). rewrite nth_firstn in Hmin by lia.
        unfold rowKey in E. rewrite E, String.eqb_refl in Hmin. discriminate.
    + exfalso. rewrite findIndex_None in Ef.
      specialize (Ef (nth j (rows data) [])).
      assert (Hin : In (nth j (rows data) []) (firstn i (rows data))).
      { rewrite <- (nth_firstn (rows data) (n := i) [] Hj). apply nth_In.
        rewrite length_firstn. lia. }
      specialize (Ef Hin). unfold rowKey in Hk. fold row in Hk.
      rewrite Hk, String.eqb_refl in Ef. discriminate.
Qed.

End DuplicateFacts.

(* ================================================================== *)
(** * Facts about the cleaning steps *)
(* ================================================================== *)

Module CleaningFacts.

Import JS Spec TableFacts DataCleaning.
Local Open Scope string_scope.

Lemma index_assign row i v c :
  index (assign row i v) c = if Nat.eqb c i then v else index row c.
Proof.
  unfold index. revert row c. induction i as [| i IH]; intros [| h t] [| c]; cbn [assign nth Nat.eqb];
    try reflexivity.
  - destruct c; reflexivity.
  - rewrite IH. destruct (Nat.eqb c i); [reflexivity | destruct c; reflexivity].
  - apply IH.
Qed.

Lemma nth_map_combine_seq (A B : Type) (f : nat -> A -> B) (l : list A) s r (a : A) (b : B) :
  (r < List.length l)%nat ->
  nth r (map (fun ix => f (fst ix) (snd ix)) (combine (seq s (List.length l)) l)) b
  = f (s + r)%nat (nth r l a).
Proof.
  revert s r. induction l as [| x l IH]; intros s r Hr; cbn [List.length] in Hr; [lia|].
  cbn [List.length seq combine map]. destruct r as [| r]; cbn [nth fst snd].
  - rewrite Nat.add_0_r. reflexivity.
  - rewrite IH by lia. f_equal. lia.
Qed.

Lemma nth_mapi (A B : Type) (f : nat -> A -> B) (l : list A) r (a : A) (b : B) :
  (r < List.length l)%nat -> nth r (mapi f l) b = f r (nth r l a).
Proof. intros Hr. unfold mapi, indexed. rewrite (nth_map_combine_seq f l 0 a b Hr). reflexivity. Qed.

Lemma mapi_length (A B : Type) (f : nat -> A -> B) (l : list A) :
  List.length (mapi f l) = List.length l.
Proof. unfold mapi. rewrite length_map. apply indexed_length. Qed.

Lemma existsb_eqb_In r sel : existsb (Nat.eqb r) sel = true <-> In r sel.
Proof.
  rewrite existsb_exists. split.
  - intros [x [Hin E]]. apply Nat.eqb_eq in E. subst. exact Hin.
  - intros H. exists r. split; [exact H | apply Nat.eqb_refl].
Qed.

Lemma isEmptyCell_isMissing v : isEmptyCell v = true -> QualityAnalysis.isMissing v = true.
Proof.
  unfold isEmptyCell, QualityAnalysis.isMissing. intros H.
  destruct (is_str EmptyString v), (is_null v), (is_undefined v); try discriminate; reflexivity.
Qed.

(** Cells after one fill step on the column found at [colIndex]. *)
Lemma fill_cells data step colIndex r c :
  cellAt (with_rows data (mapi (fillRow step colIndex) (rows data))) r c =
  if Nat.eqb c colIndex && shouldFill step r
     && Nat.ltb r (List.length (rows data)) && isEmptyCell (cellAt data r c)
  then value (operation step) else cellAt data r c.
Proof.
  unfold cellAt. cbn [rows with_rows].
  destruct (Nat.ltb_spec r (List.length (rows data))) as [Hr | Hr].
  - rewrite (nth_mapi (fillRow step colIndex) (rows data) [] [] Hr).
    unfold fillRow. rewrite andb_true_r.
    destruct (Nat.eqb_spec c colIndex) as [-> | NE]; cbn [andb].
    + destruct (shouldFill step r && isEmptyCell (index (nth r (rows data) []) colIndex)) eqn:E.
      * rewrite index_assign, Nat.eqb_refl. reflexivity.
      * reflexivity.
    + destruct (shouldFill step r && isEmptyCell _); [| reflexivity].
      rewrite index_assign. apply Nat.eqb_neq in NE. rewrite NE. reflexivity.
  - rewrite andb_false_r. cbn [andb].
    rewrite !nth_overflow; [reflexivity | exact Hr | rewrite mapi_length; exact Hr].
Qed.

Lemma fill_step data step :
  type (operation step) = fill_missing ->
  applyStep data step =
  match fillTarget data step with
  | Some colIndex => with_rows data (mapi (fillRow step colIndex) (rows data))
  | None => data
  end.
Proof.
  intros Hty. unfold applyStep, fillTarget, truthyColumn. rewrite Hty.
  destruct (column (operation step)) as [name |]; [| reflexivity].
  destruct (String.eqb name EmptyString); [reflexivity|]. cbn [orb].
  destruct (is_undefined (value (operation step))); reflexivity.
Qed.

End CleaningFacts.

(* ================================================================== *)
(** * Properties of the analysis *)
(* ================================================================== *)

Module AnalysisClaims.

Import JS QualityAnalysis Spec Samples NumberFacts TableFacts DuplicateFacts.
Local Open Scope string_scope.

Lemma mul_comm x y : mul x y = mul y x.
Proof.
  destruct x as [| a | | p], y as [| b | | q]; cbn [mul is_zero sign zero];
    repeat match goal with
      | |- context [Qeq_bool ?t 0] => destruct (Qeq_bool t 0)
      | |- context [match Qnum ?t with _ => _ end] => destruct (Qnum t)
      | c : bool |- _ => destruct c
      end; cbn [xorb orb zero]; try reflexivity.
  all: apply round64_comp, Qmult_comm.
Qed.

Lemma weightedScore_weightedSum m d f r i u p :
  weightedScore m d f r i u p = weightedSum m d f r i u p.
Proof.
  unfold weightedScore, weightedSum.
  rewrite (mul_comm m), (mul_comm d), (mul_comm f), (mul_comm r), (mul_comm i),
    (mul_comm u), (mul_comm p). reflexivity.
Qed.

(** ** The overall score *)

(** C1.  Every run of the analysis ends with a report whose overall score
    is [round(0.20*missing + 0.15*duplicates + 0.15*format + 0.15*range +
    0.10*inconsistent + 0.10*patterns + 0.15*PII)] of its own seven
    sub-scores, the products and sums being those of binary64 in the order
    written; seven sub-scores of 100 give 100 and seven sub-scores of 0
    give 0. *)
Theorem overall_score_is_weighted_sum :
  (forall host data, exists r issues,
      analyzeData host data = Reported r issues /\
      overallScore r =
      weightedSum (missingValuesScore r) (duplicatesScore r) (invalidFormatScore r)
        (valueRangeScore r) (inconsistentValuesScore r) (unusualPatternsScore r)
        (sensitiveDataScore r))
  /\ weightedSum (of_Z 100) (of_Z 100) (of_Z 100) (of_Z 100) (of_Z 100) (of_Z 100) (of_Z 100)
     = of_Z 100
  /\ weightedSum (of_Z 0) (of_Z 0) (of_Z 0) (of_Z 0) (of_Z 0) (of_Z 0) (of_Z 0) = of_Z 0.
Proof.
  split; [| split; vm_compute; reflexivity].
  intros host data. exists (fst (analyze host data)), (snd (analyze host data)).
  split; [apply analyzeData_reported|].
  rewrite <- weightedScore_weightedSum. apply analyze_overallScore.
Qed.

(** The sum is the binary64 one: on the sub-scores 31, 52, 18, 16, 32, 24,
    52 the exact weighted sum is 32.5, the computed one lies just below it
    and is rounded to 32. *)
Remark weighted_sum_below_a_tie :
  weightedSum (of_Z 31) (of_Z 52) (of_Z 18) (of_Z 16) (of_Z 32) (of_Z 24) (of_Z 52)
  = of_Z 32
  /\ (20 * 31 + 15 * (52 + 18 + 16 + 52) + 10 * (32 + 24) = 3250)%Z.
Proof. vm_compute. split; reflexivity. Qed.

(** ** Tables without rows or without columns *)

(** C2.  What the code does on a degenerate table.  With a header line and
    no row, six of the seven sub-scores and the overall score are [NaN]
    (0/0 is never guarded); only the PII score, which tests for zero issues
    first, is 100.  With rows and no column the missing-values score and
    the overall score are [NaN]. *)
Theorem empty_table_scores_are_NaN :
  forall host,
    (exists r, analyzeData host headerOnly = Reported r []
       /\ missingValuesScore r = NaN /\ duplicatesScore r = NaN
       /\ invalidFormatScore r = NaN /\ valueRangeScore r = NaN
       /\ inconsistentValuesScore r = NaN /\ unusualPatternsScore r = NaN
       /\ sensitiveDataScore r = of_Z 100 /\ overallScore r = NaN)
    /\ (exists r issues, analyzeData host noColumns = Reported r issues
       /\ missingValuesScore r = NaN /\ duplicatesScore r = of_Z 50
       /\ overallScore r = NaN).
Proof.
  intros host. split.
  - eexists. split; [vm_compute; reflexivity|]. cbn. repeat split; reflexivity.
  - eexists _, _. split; [vm_compute; reflexivity|]. cbn. repeat split; reflexivity.
Qed.

(** ** The missing-values score *)

(** C3, as stated, fails: of 201 cells one is blank and the score, rounded,
    is still 100. *)
Lemma rounded_missing_score_counterexample :
  missingValuesScore (fst (analyze datelessHost sparse)) = of_Z 100
  /\ isMissing (cellAt sparse 0 0) = true
  /\ missingCells sparse = 1%nat.
Proof. vm_compute. repeat split; reflexivity. Qed.

(** C3, amended.  On tables with distinct headers, none of them
    [__proto__], with at least one row and one column and fewer than 2^40
    cells: the missing-values score is 100 exactly when at most one cell in
    200 under a header is an empty-marker, so in particular when none is
    (the score is rounded to an integer); and between two such tables
    with the same number of cells the one with more missing cells never
    has the higher score. *)
Theorem missing_score_full_and_monotone :
  forall host d1 d2,
    NoDup (headers d1) -> ~ In proto_key (headers d1) ->
    NoDup (headers d2) -> ~ In proto_key (headers d2) ->
    (1 <= List.length (rows d1))%nat -> (1 <= List.length (headers d1))%nat ->
    (Z.of_nat (List.length (rows d1) * List.length (headers d1)) < 2 ^ 40)%Z ->
    (List.length (rows d2) * List.length (headers d2)
     = List.length (rows d1) * List.length (headers d1))%nat ->
    (missingValuesScore (fst (analyze host d1)) = of_Z 100
     <-> (200 * missingCells d1 <= List.length (rows d1) * List.length (headers d1))%nat)
    /\ (missingCells d1 = 0%nat -> missingValuesScore (fst (analyze host d1)) = of_Z 100)
    /\ ((missingCells d1 <= missingCells d2)%nat ->
        leb (missingValuesScore (fst (analyze host d2)))
            (missingValuesScore (fst (analyze host d1))) = true).
Proof.
  intros host d1 d2 ND1 NP1 ND2 NP2 R1 C1 B1 ET.
  rewrite !analyze_missingValuesScore, !totalMissing_missingCells by assumption.
  rewrite ET.
  assert (Pos : (0 < List.length (rows d1) * List.length (headers d1))%nat) by nia.
  assert (Iff : shareScore (List.length (rows d1) * List.length (headers d1)) (missingCells d1)
                = of_Z 100
                <-> (200 * missingCells d1
                     <= List.length (rows d1) * List.length (headers d1))%nat).
  { apply shareScore_hundred; [exact Pos | exact B1 | apply missingCells_bound]. }
  split; [exact Iff |]. split.
  - intros E. apply Iff. rewrite E. lia.
  - intros L. apply shareScore_mono; [exact Pos | lia | exact L |].
    rewrite <- ET. apply missingCells_bound.
Qed.

Lemma missing_score_witness :
  missingValuesScore (fst (analyze datelessHost clean)) = of_Z 100
  /\ (200 * missingCells clean <= List.length (rows clean) * List.length (headers clean))%nat
  /\ missingValuesScore (fst (analyze datelessHost halfBlank)) <> of_Z 100
  /\ leb (missingValuesScore (fst (analyze datelessHost halfBlank)))
         (missingValuesScore (fst (analyze datelessHost clean))) = true.
Proof.
  assert (ND : NoDup ["name"]) by (repeat constructor; intros []).
  assert (NP : ~ In proto_key ["name"]) by (intros [H | []]; discriminate H).
  destruct (@missing_score_full_and_monotone datelessHost clean halfBlank
              ND NP ND NP ltac:(cbn; lia) ltac:(cbn; lia) ltac:(cbn; lia) eq_refl)
    as (Iff1 & Full & Mono).
  destruct (@missing_score_full_and_monotone datelessHost halfBlank clean
              ND NP ND NP ltac:(cbn; lia) ltac:(cbn; lia) ltac:(cbn; lia) eq_refl)
    as (Iff2 & _ & _).
  split; [apply Full; reflexivity|].
  split; [cbn; lia|].
  split; [intros E; apply Iff2 in E; cbn in E; lia|].
  apply Mono. cbn. lia.
Defined.

(** ** Duplicates *)

(** C4.  A row is flagged exactly when an earlier row has the same
    serialised form; every flagged row gets one issue, whose description
    names the first row with that form; on the rows [A, B, A, C, A] the
    flagged indices are 2 and 4 and the duplicates score is
    [round(((5-2)/5)*100) = 60]. *)
Theorem duplicates_flag_later_copies :
  (forall data i,
      In i (duplicateRowIndices data) <->
      (i < List.length (rows data))%nat
      /\ exists j, (j < i)%nat /\ rowKey data j = rowKey data i)
  /\ (forall data,
        NoDup (duplicateRowIndices data)
        /\ map rowIndex (duplicateIssues data) = duplicateRowIndices data)
  /\ (forall data issue,
        In issue (duplicateIssues data) ->
        exists original,
          (original < rowIndex issue)%nat
          /\ rowKey data original = rowKey data (rowIndex issue)
          /\ (forall j, (j < original)%nat -> rowKey data j <> rowKey data (rowIndex issue))
          /\ description issue =
               "Duplicate row #" ++ dec_of_nat (rowIndex issue + 1)
               ++ " (identical to row #" ++ dec_of_nat (original + 1) ++ ")"
          /\ severity issue = high)
  /\ (forall host,
        duplicateRowIndices abaca = [2; 4]%nat
        /\ duplicatesScore (fst (analyze host abaca)) = shareScore 5 2
        /\ shareScore 5 2 = of_Z 60).
Proof.
  split; [| split; [| split]].
  - apply duplicateRowIndices_In.
  - intros data. split; [apply duplicateRowIndices_NoDup|].
    unfold duplicateIssues, duplicateRowIndices. rewrite map_map.
    apply map_ext. intros [[i row] o]. reflexivity.
  - intros data issue Hin. unfold duplicateIssues in Hin. apply in_map_iff in Hin.
    destruct Hin as [[[i row] o] [E Hin]]. subst issue.
    cbn [duplicateIssue rowIndex description severity].
    apply duplicateScan_In in Hin. destruct Hin as (Hn & Ho & Hk & Hmin).
    assert (Ek : rowKey data i = JSON_stringify row).
    { unfold rowKey. rewrite (nth_error_nth _ _ _ Hn). reflexivity. }
    exists o. rewrite Ek. repeat split; assumption.
  - intros host. split; [reflexivity|]. split; [| vm_compute; reflexivity].
    rewrite analyze_duplicatesScore. reflexivity.
Qed.

(** ** Detection of the column type *)

(** C5, as stated, fails: seven of the ten values, all non-empty, are
    numbers (70%), and the column is typed [text]. *)
Lemma seventy_percent_counterexample :
  seventyPercentNumeric sevenOfTen = true
  /\ inferColumnType "score" sevenOfTen = text.
Proof. vm_compute. split; reflexivity. Qed.

Lemma typeFromHeader_not_numeric header : typeFromHeader header <> numeric.
Proof.
  unfold typeFromHeader.
  repeat match goal with |- context [if ?b then _ else _] => destruct b end; discriminate.
Qed.

(** C5, amended.  A column is typed numeric exactly when the number of its
    values that count as numeric (numbers, [null], and non-empty strings
    that convert to a number) is strictly greater than 0.7 times the
    number of all its values, empty ones included, the product being the
    binary64 one; otherwise the type follows the header, in the order
    email, phone or mobile, date or dob, text.  The function is total. *)
Theorem column_type_threshold_and_priority :
  forall header cells,
    let numericValues := filter countsAsNumeric cells in
    let enough :=
      gtb (of_nat (List.length numericValues))
          (mul (of_nat (List.length cells)) (lit (7 # 10))) in
    inferColumnType header cells = (if enough then numeric else typeFromHeader header)
    /\ (inferColumnType header cells = numeric <-> enough = true)
    /\ (forall v, countsAsNumeric v = true <->
          match v with
          | VNum _ => True
          | VStr s => s <> EmptyString /\ isNaN (StringToNumber s) = false
          | VNull => True
          | VUndef => False
          end).
Proof.
  intros header cells numericValues enough.
  assert (E : inferColumnType header cells = if enough then numeric else typeFromHeader header)
    by reflexivity.
  split; [exact E|]. split.
  - rewrite E. destruct enough; split; intros H; try reflexivity; try discriminate.
    exfalso. exact (typeFromHeader_not_numeric _ H).
  - intros [s | x | |]; unfold countsAsNumeric; cbn [typeof_number Number is_str orb negb andb isNaN].
    + destruct (String.eqb_spec s EmptyString), (isNaN (StringToNumber s)); cbn; split;
        try discriminate; try tauto; intros [? ?]; congruence.
    + tauto.
    + tauto.
    + split; [discriminate | tauto].
Qed.

(** The threshold is met by 63 numeric values out of 90 (also exactly 70%):
    there the binary64 product 90 * 0.7 falls below 63. *)
Remark seventy_percent_of_ninety :
  gtb (of_nat 63) (mul (of_nat 90) (lit (7 # 10))) = true
  /\ gtb (of_nat 7) (mul (of_nat 10) (lit (7 # 10))) = false.
Proof. vm_compute. split; reflexivity. Qed.

(** ** Inconsistent text *)













(** ** Rows of the wrong length *)

(** C9, as stated, fails: a one-cell row under two headers is analysed to
    the end, and the absent cell is reported as a missing value. *)
Lemma ragged_row_counterexample :
  exists r issues,
    analyzeData datelessHost ragged = Reported r issues
    /\ In (missingIssue "b" 0 VUndef) issues
    /\ obj_get "b" (missingValues r) = Some 1%nat.
Proof.
  eexists _, _. split; [vm_compute; reflexivity|]. split; [| reflexivity].
  left. reflexivity.
Qed.

(** A pass reads a table through its headers and the cells under them. *)
Lemma forEachColumn_same (A : Type)
    (body body' : nat -> string -> list JS.value -> list DetailedIssue * option A)
    data data' :
  headers data' = headers data ->
  (forall c h, nth_error (headers data) c = Some h ->
     body' c h (columnData data' c) = body c h (columnData data c)) ->
  forEachColumn body' data' = forEachColumn body data.
Proof.
  intros Hh Hb. unfold forEachColumn. rewrite Hh.
  assert (G : forall l acc,
            (forall c h, In (c, h) l -> nth_error (headers data) c = Some h) ->
            fold_left (columnStep body' data') l acc = fold_left (columnStep body data) l acc).
  { induction l as [| [c h] l IH]; intros acc Hl; [reflexivity|].
    cbn [fold_left]. rewrite IH by (intros c' h' Hin; apply Hl; right; exact Hin).
    f_equal. destruct acc as [issues o]. unfold columnStep.
    rewrite (Hb c h) by (apply Hl; left; reflexivity). reflexivity. }
  apply G. intros c h Hin. apply In_indexed. exact Hin.
Qed.

Lemma columnData_underHeaders data c :
  (c < List.length (headers data))%nat ->
  columnData (underHeaders data) c = columnData data c.
Proof.
  intros Hc. unfold columnData, underHeaders. cbn [rows]. rewrite map_map.
  apply map_ext. intros row. unfold index. apply nth_firstn. exact Hc.
Qed.

Lemma pass_underHeaders (A : Type)
    (body : nat -> string -> list JS.value -> list DetailedIssue * option A) data :
  forEachColumn body (underHeaders data) = forEachColumn body data.
Proof.
  apply forEachColumn_same; [reflexivity|]. intros c h Hc.
  rewrite columnData_underHeaders; [reflexivity|].
  apply nth_error_Some. rewrite Hc. discriminate.
Qed.

Lemma inconsistencyPass_underHeaders host data dataTypes :
  inconsistencyPass host (underHeaders data) dataTypes = inconsistencyPass host data dataTypes.
Proof.
  unfold inconsistencyPass. apply forEachColumn_same; [reflexivity|]. intros c h Hc.
  rewrite columnData_underHeaders by (apply nth_error_Some; rewrite Hc; discriminate).
  unfold inconsistencyColumn. cbn [headers underHeaders].
  destruct (findIndex isOrderDateHeader (headers data)) as [col |] eqn:Ef; [| reflexivity].
  apply (findIndex_Some _ _ _ EmptyString) in Ef. destruct Ef as [Hcol _].
  assert (E : scanColumn (shipCheck host (underHeaders data) col h) (columnData data c)
              = scanColumn (shipCheck host data col h) (columnData data c)).
  { unfold scanColumn. apply flat_map_ext. intros [r v]. cbn [fst snd].
    unfold shipCheck. cbn [rows underHeaders].
    assert (N : forall (l : list (list JS.value)) i,
              nth i (map (firstn (List.length (headers data))) l) []
              = firstn (List.length (headers data)) (nth i l [])).
    { induction l as [| x l IH]; intros [| i]; cbn [map nth];
        try (symmetry; apply firstn_nil); auto. }
    rewrite N. unfold index. rewrite nth_firstn by exact Hcol. reflexivity. }
  rewrite E. reflexivity.
Qed.

(** C9, amended.  The analysis of any table, rows of the wrong length
    included, ends with a report over all its rows and never with an error;
    every position a row is too short to fill is read as [undefined] and
    reported as a missing value of that row and column; and the cells a row
    has beyond the last header are not visited by the six per-column
    passes, each of which gives the same issues and the same counters on
    the table cut to its headers. *)
Theorem malformed_rows_are_absorbed :
  forall host data, exists r issues,
    analyzeData host data = Reported r issues
    /\ totalRows r = List.length (rows data)
    /\ (forall rowIndex colIndex header row,
         nth_error (rows data) rowIndex = Some row ->
         nth_error (headers data) colIndex = Some header ->
         (List.length row <= colIndex)%nat ->
         In (missingIssue header rowIndex VUndef) issues)
    /\ (missingPass (underHeaders data) = missingPass data
        /\ formatPass host (underHeaders data) = formatPass host data
        /\ rangePass host (underHeaders data) = rangePass host data
        /\ (forall dataTypes,
              inconsistencyPass host (underHeaders data) dataTypes
              = inconsistencyPass host data dataTypes)
        /\ unusualPass (underHeaders data) = unusualPass data
        /\ piiPass (underHeaders data) = piiPass data).
Proof.
  intros host data. exists (fst (analyze host data)), (snd (analyze host data)).
  split; [apply analyzeData_reported|]. split; [| split].
  - unfold analyze.
    destruct (missingPass data) as [i1 mv].
    destruct (formatPass host data) as [[i3 dt] fi].
    destruct (rangePass host data) as [i4 ri].
    destruct (inconsistencyPass host data dt) as [i5 ii].
    destruct (unusualPass data) as [i6 up].
    destruct (piiPass data) as [i7 sd].
    reflexivity.
  - intros rowIndex colIndex header row Hr Hc Hlen.
    apply analyze_issues_missing. unfold missingPass.
    rewrite forEachColumn_issues. apply in_flat_map.
    exists (colIndex, header). split; [apply In_indexed, Hc|].
    cbn [fst snd missingColumn]. apply scanColumn_In.
    exists rowIndex, VUndef. split.
    + unfold columnData. rewrite nth_error_map, Hr. cbn. f_equal.
      unfold index. apply nth_overflow. exact Hlen.
    + left. reflexivity.
  - unfold missingPass, formatPass, rangePass, unusualPass, piiPass.
    rewrite !pass_underHeaders.
    repeat split; try reflexivity. intros dataTypes. apply inconsistencyPass_underHeaders.
Qed.

(** ** Missing-value tokens in the other passes *)

(** C10.  The guard of the format, range, pattern and PII passes rejects
    the empty string, [null] and [undefined] and nothing else; each of the
    tokens ["null"], ["NULL"], ["N/A"], ["n/a"] is a missing value and
    passes that guard, so the four passes go on to test it; in a column
    named "phone" the single cell ["N/A"] yields a missing-value issue, a
    format issue and a range issue. *)
Theorem missing_tokens_reach_other_passes :
  (forall v, nonEmpty v = false <-> (v = VStr EmptyString \/ v = VNull \/ v = VUndef))
  /\ Forall (fun t => isMissing (VStr t) = true /\ nonEmpty (VStr t) = true) missingTokens
  /\ (forall host columnType header rowIndex,
        Forall (fun t =>
          let val := VStr t in
          formatCheck host columnType header rowIndex val =
            match formatError host columnType val with
            | Some e => [formatIssue header rowIndex val e] | None => [] end
          /\ rangeCheck host header rowIndex val =
            match rangeError host header val with
            | Some e => [rangeIssue header rowIndex val e] | None => [] end
          /\ unusualCheck header rowIndex val =
            match unusualError header val with
            | Some e => [unusualIssue header rowIndex val e] | None => [] end
          /\ piiCheck header rowIndex val = map (piiIssue header rowIndex val) (piiMatches val))
          missingTokens)
  /\ (forall host, exists r issues e1 e2,
        analyzeData host phoneNA = Reported r issues
        /\ In (missingIssue "phone" 0 (VStr "N/A")) issues
        /\ In (formatIssue "phone" 0 (VStr "N/A") e1) issues
        /\ In (rangeIssue "phone" 0 (VStr "N/A") e2) issues).
Proof.
  split; [| split; [| split]].
  - intros v. split.
    + destruct v as [s | x | |]; unfold nonEmpty; cbn [is_str is_null is_undefined negb andb];
        intros H; try discriminate H; auto.
      destruct (String.eqb_spec s EmptyString); [subst; auto | discriminate H].
    + intros [E | [E | E]]; subst; reflexivity.
  - repeat constructor.
  - intros host columnType header rowIndex. repeat constructor.
  - intros host. eexists _, _, _, _. split; [vm_compute; reflexivity|].
    cbn. split; [left; reflexivity|]. split; [right; left; reflexivity|].
    right; right; left; reflexivity.
Qed.

End AnalysisClaims.

(* ================================================================== *)
(** * Properties of the cleaning engine *)
(* ================================================================== *)

Module CleaningClaims.

Import JS Spec Samples TableFacts CleaningFacts DataCleaning.
Local Open Scope string_scope.

(** C7.  One fill step with a non-empty set of selected rows, run alone:
    the headers and the number of rows are kept; a cell that differs from
    the input lies in the step's target column, in a selected row, was the
    empty string, [null] or [undefined] (all empty-markers), and now holds
    the fill value; and every such cell of the target column is filled.
    All other cells, the missing ones of unselected rows included, are as
    they were. *)
Theorem fill_missing_touches_selected_rows_only :
  forall data step sel,
    type (operation step) = fill_missing ->
    applied step = true ->
    selectedRows step = Some sel ->
    sel <> [] ->
    let out := applyAllSelectedSteps data [step] in
    headers out = headers data
    /\ List.length (rows out) = List.length (rows data)
    /\ (forall r c,
          cellAt out r c <> cellAt data r c ->
          In r sel
          /\ fillTarget data step = Some c
          /\ isEmptyCell (cellAt data r c) = true
          /\ QualityAnalysis.isMissing (cellAt data r c) = true
          /\ cellAt out r c = value (operation step))
    /\ (forall r c,
          fillTarget data step = Some c ->
          In r sel -> (r < List.length (rows data))%nat ->
          isEmptyCell (cellAt data r c) = true ->
          cellAt out r c = value (operation step)).
Proof.
  intros data step sel Hty Hap Hsel Hne out.
  assert (Hshould : forall r, shouldFill step r = existsb (Nat.eqb r) sel).
  { intros r. unfold shouldFill. rewrite Hsel.
    destruct sel as [| x sel']; [contradiction | reflexivity]. }
  assert (Eout : forall r c, cellAt out r c = cellAt (applyStep data step) r c).
  { intros r c. unfold out, applyAllSelectedSteps, cellAt. cbn [filter].
    rewrite Hap. reflexivity. }
  assert (Cell : forall r c,
    cellAt out r c =
    if match fillTarget data step with Some ci => Nat.eqb c ci | None => false end
       && existsb (Nat.eqb r) sel
       && Nat.ltb r (List.length (rows data)) && isEmptyCell (cellAt data r c)
    then value (operation step) else cellAt data r c).
  { intros r c. rewrite Eout, (fill_step data step Hty).
    destruct (fillTarget data step) as [ci |]; [| reflexivity].
    rewrite fill_cells, Hshould. reflexivity. }
  split; [| split; [| split]].
  - unfold out, applyAllSelectedSteps. cbn [filter headers]. rewrite Hap. cbn [fold_left].
    rewrite (fill_step data step Hty). destruct (fillTarget data step); reflexivity.
  - unfold out, applyAllSelectedSteps. cbn [filter rows]. rewrite Hap. cbn [fold_left].
    rewrite (fill_step data step Hty). destruct (fillTarget data step); [| reflexivity].
    cbn [rows with_rows]. apply mapi_length.
  - intros r c Hd. rewrite Cell in Hd |- *.
    destruct (fillTarget data step) as [ci |]; [| exfalso; apply Hd; reflexivity].
    destruct (Nat.eqb_spec c ci) as [Ec | NE]; [subst ci | exfalso; apply Hd; reflexivity].
    destruct (existsb (Nat.eqb r) sel) eqn:Es; [| exfalso; apply Hd; reflexivity].
    destruct (Nat.ltb r (List.length (rows data))); [| exfalso; apply Hd; reflexivity].
    destruct (isEmptyCell (cellAt data r c)) eqn:Ee; [| exfalso; apply Hd; reflexivity].
    cbn [andb]. repeat split; try reflexivity.
    + apply existsb_eqb_In, Es.
    + apply isEmptyCell_isMissing, Ee.
  - intros r c Ht Hin Hr He. rewrite Cell, Ht, Nat.eqb_refl, He.
    apply existsb_eqb_In in Hin. rewrite Hin.
    apply Nat.ltb_lt in Hr. rewrite Hr. reflexivity.
Qed.

Lemma fill_missing_witness :
  let step := fillStep "city" (VStr "Unknown") [1%nat] true in
  let out := applyAllSelectedSteps gaps [step] in
  headers out = headers gaps
  /\ List.length (rows out) = List.length (rows gaps)
  /\ (forall r c,
        cellAt out r c <> cellAt gaps r c ->
        In r [1%nat]
        /\ fillTarget gaps step = Some c
        /\ isEmptyCell (cellAt gaps r c) = true
        /\ QualityAnalysis.isMissing (cellAt gaps r c) = true
        /\ cellAt out r c = value (operation step))
  /\ (forall r c,
        fillTarget gaps step = Some c ->
        In r [1%nat] -> (r < List.length (rows gaps))%nat ->
        isEmptyCell (cellAt gaps r c) = true ->
        cellAt out r c = value (operation step)).
Proof.
  apply (@fill_missing_touches_selected_rows_only gaps
           (fillStep "city" (VStr "Unknown") [1%nat] true) [1%nat]).
  - reflexivity.
  - reflexivity.
  - reflexivity.
  - discriminate.
Defined.

(** C8.  With no step switched on, the cleaned table has the headers and
    the rows of the input; its file name is the input's behind the prefix
    [cleaned_]. *)
Theorem no_applied_step_changes_nothing :
  forall data steps,
    Forall (fun step => applied step = false) steps ->
    let out := applyAllSelectedSteps data steps in
    headers out = headers data
    /\ rows out = rows data
    /\ filename out = "cleaned_" ++ filename data.
Proof.
  intros data steps Hall out.
  assert (E : filter applied steps = []).
  { induction Hall as [| s l Hs _ IH]; [reflexivity|]. cbn [filter]. rewrite Hs. exact IH. }
  unfold out, applyAllSelectedSteps. rewrite E. cbn. repeat split; reflexivity.
Qed.

Lemma no_applied_step_witness :
  let steps := [fillStep "city" (VStr "Unknown") [] false; fillStep "zip" (VStr "0") [1%nat] false] in
  let out := applyAllSelectedSteps gaps steps in
  headers out = headers gaps
  /\ rows out = rows gaps
  /\ filename out = "cleaned_" ++ filename gaps.
Proof.
  apply (@no_applied_step_changes_nothing gaps
           [fillStep "city" (VStr "Unknown") [] false; fillStep "zip" (VStr "0") [1%nat] false]).
  repeat constructor.
Defined.

End CleaningClaims.

(* ================================================================== *)
(** * Every issue of a run *)
(* ================================================================== *)

Module IssueFacts.

Import JS QualityAnalysis Spec Spec2 TableFacts DuplicateFacts.
Local Open Scope string_scope.

(** The issue list of a run, pass by pass. *)
Lemma analyze_issues host data :
  snd (analyze host data) =
  (fst (missingPass data) ++ duplicateIssues data
   ++ fst (forEachColumn (formatColumn host) data)
   ++ fst (rangePass host data)
   ++ fst (inconsistencyPass host data (dataTypes (fst (analyze host data))))
   ++ fst (unusualPass data) ++ fst (piiPass data))%list.
Proof.
  unfold analyze, formatPass.
  destruct (missingPass data) as [i1 mv].
  destruct (forEachColumn (formatColumn host) data) as [i3 o3].
  destruct (rangePass host data) as [i4 ri].
  cbn [fst snd].
  destruct (inconsistencyPass host data _) as [i5 ii] eqn:E5.
  destruct (unusualPass data) as [i6 up].
  destruct (piiPass data) as [i7 sd].
  cbn [fst snd dataTypes]. rewrite E5. reflexivity.
Qed.

(** An issue pushed by a pass over the columns comes from one cell. *)
Lemma pass_issue_origin (A : Type)
    (body : nat -> string -> list JS.value -> list DetailedIssue * option A) data issue :
  In issue (fst (forEachColumn body data)) ->
  exists colIndex header,
    nth_error (headers data) colIndex = Some header
    /\ In issue (fst (body colIndex header (columnData data colIndex))).
Proof.
  rewrite forEachColumn_issues, in_flat_map. intros [[i h] [Hin Hi]].
  exists i, h. split; [apply In_indexed, Hin | exact Hi].
Qed.

Lemma scan_issue_origin check data colIndex issue :
  In issue (scanColumn check (columnData data colIndex)) ->
  exists r v, (r < List.length (rows data))%nat /\ v = cellAt data r colIndex
              /\ In issue (check r v).
Proof.
  rewrite scanColumn_In. intros (r & v & Hn & Hi). exists r, v.
  assert (Hr : (r < List.length (rows data))%nat).
  { unfold columnData in Hn. rewrite <- (length_map (fun row => index row colIndex)).
    apply nth_error_Some. congruence. }
  split; [exact Hr|]. split; [| exact Hi].
  unfold columnData in Hn. rewrite nth_error_map in Hn.
  unfold cellAt. destruct (nth_error (rows data) r) as [row |] eqn:Er; [| discriminate].
  cbn in Hn. rewrite (nth_error_nth _ _ _ Er). congruence.
Qed.

(** Where an issue of a run comes from: the duplicate scan, or one cell
    and one of the seven kinds of finding. *)
Lemma issue_origin host data issue :
  In issue (snd (analyze host data)) ->
  In issue (duplicateIssues data)
  \/ exists c h r v,
       nth_error (headers data) c = Some h
       /\ (r < List.length (rows data))%nat
       /\ v = cellAt data r c
       /\ (issue = missingIssue h r v
           \/ (exists e, issue = formatIssue h r v e)
           \/ (exists e, issue = rangeIssue h r v e)
           \/ (exists s e, v = VStr s /\ issue = textIssue h r s e)
           \/ (exists orderDate, issue = shipIssue h r v orderDate)
           \/ (exists e, issue = unusualIssue h r v e)
           \/ (exists k, issue = piiIssue h r v k)).
Proof.
  intros Hin. rewrite analyze_issues in Hin.
  repeat (apply in_app_or in Hin; destruct Hin as [Hin | Hin]);
    [| left; exact Hin | | | | |]; right;
    apply pass_issue_origin in Hin; destruct Hin as (c & h & Hh & Hin); exists c, h.
  - (* missing *)
    cbn [fst missingColumn] in Hin. apply scan_issue_origin in Hin.
    destruct Hin as (r & v & Hr & Hv & Hin). unfold missingCheck in Hin.
    destruct (isMissing v); [| destruct Hin]. destruct Hin as [<- | []].
    exists r, v. auto.
  - (* format *)
    cbn [fst formatColumn] in Hin. apply scan_issue_origin in Hin.
    destruct Hin as (r & v & Hr & Hv & Hin). unfold formatCheck in Hin.
    destruct (nonEmpty v); [| destruct Hin].
    destruct (formatError host _ v) as [e |]; [| destruct Hin]. destruct Hin as [<- | []].
    exists r, v. repeat split; try assumption. right. left. exists e. reflexivity.
  - (* range *)
    cbn [fst rangeColumn] in Hin. apply scan_issue_origin in Hin.
    destruct Hin as (r & v & Hr & Hv & Hin). unfold rangeCheck in Hin.
    destruct (nonEmpty v); [| destruct Hin].
    destruct (rangeError host h v) as [e |]; [| destruct Hin]. destruct Hin as [<- | []].
    exists r, v. repeat split; try assumption. right. right. left. exists e. reflexivity.
  - (* inconsistent *)
    unfold inconsistencyColumn in Hin. cbn [fst] in Hin.
    apply in_app_or in Hin. destruct Hin as [Hin | Hin].
    + destruct (isTextColumn _ h); [| destruct Hin].
      apply scan_issue_origin in Hin. destruct Hin as (r & v & Hr & Hv & Hin).
      unfold textCheck in Hin. destruct v as [s | | |]; try destruct Hin.
      destruct (negb (String.eqb s EmptyString)); [| destruct Hin].
      destruct (textError s) as [e |]; [| destruct Hin]. destruct Hin as [<- | []].
      exists r, (VStr s). repeat split; try assumption.
      right. right. right. left. exists s, e. split; reflexivity.
    + destruct (includes (toLowerCase h) "ship" && _); [| destruct Hin].
      destruct (findIndex isOrderDateHeader (headers data)) as [oc |]; [| destruct Hin].
      apply scan_issue_origin in Hin. destruct Hin as (r & v & Hr & Hv & Hin).
      unfold shipCheck in Hin.
      repeat match type of Hin with
             | In _ (if ?b then _ else _) => destruct b
             | In _ [] => destruct Hin
             end.
      destruct Hin as [<- | []].
      exists r, v. repeat split; try assumption.
      right. right. right. right. left. eexists. reflexivity.
  - (* unusual *)
    cbn [fst unusualColumn] in Hin. apply scan_issue_origin in Hin.
    destruct Hin as (r & v & Hr & Hv & Hin). unfold unusualCheck in Hin.
    destruct (nonEmpty v); [| destruct Hin].
    destruct (unusualError h v) as [e |]; [| destruct Hin]. destruct Hin as [<- | []].
    exists r, v. repeat split; try assumption.
    right. right. right. right. right. left. exists e. reflexivity.
  - (* PII *)
    cbn [fst piiColumn] in Hin. apply scan_issue_origin in Hin.
    destruct Hin as (r & v & Hr & Hv & Hin). unfold piiCheck in Hin.
    destruct (nonEmpty v); [| destruct Hin].
    apply in_map_iff in Hin. destruct Hin as [k [<- _]].
    exists r, v. repeat split; try assumption.
    right. right. right. right. right. right. exists k. reflexivity.
Qed.

(** X1.  Every issue of a run has the severity fixed for its kind (medium
    for missing values and unusual patterns, high for duplicates, formats
    and ranges, low or high for inconsistencies, critical for sensitive
    data) and points into the table: its row index is the index of a row;
    a duplicate carries that row under the column name [All columns], any
    other issue names a header and carries the cell of its row under that
    header. *)
Theorem issues_are_typed_and_located :
  forall host data issue,
    In issue (snd (analyze host data)) -> severityFits issue /\ located data issue.
Proof.
  intros host data issue Hin.
  destruct (issue_origin host data issue Hin) as [Hd | (c & h & r & v & Hh & Hr & Hv & Hk)].
  - (* a duplicate: the flagged row itself *)
    unfold duplicateIssues in Hd. apply in_map_iff in Hd.
    destruct Hd as [[[i row] o] [<- Hd]].
    apply duplicateScan_In in Hd. destruct Hd as (Hn & _).
    split; [reflexivity|]. split; [cbn; apply nth_error_Some; congruence|].
    cbn. split; [reflexivity|]. rewrite (nth_error_nth _ _ _ Hn). reflexivity.
  - (* a finding on the cell of row [r] under header [h] *)
    assert (Loc : forall i, rowIndex i = r -> column i = h -> value i = CellValue v ->
                            type i <> duplicate -> located data i).
    { intros i Er Ec Ev Et. unfold located. rewrite Er. split; [exact Hr|].
      destruct (type i); try (exfalso; apply Et; reflexivity);
        (exists c; rewrite Ec, Ev, Hv; split; [exact Hh | reflexivity]). }
    destruct Hk as [-> | [[e ->] | [[e ->] | [(s & e & Es & ->) | [[od ->] | [[e ->] | [k ->]]]]]]].
    + split; [reflexivity | apply Loc; try reflexivity; discriminate].
    + split; [reflexivity | apply Loc; try reflexivity; discriminate].
    + split; [reflexivity | apply Loc; try reflexivity; discriminate].
    + split; [left; reflexivity | apply Loc; try reflexivity; try discriminate].
      cbn. rewrite Es. reflexivity.
    + split; [right; reflexivity | apply Loc; try reflexivity; discriminate].
    + split; [reflexivity | apply Loc; try reflexivity; discriminate].
    + split; [reflexivity | apply Loc; try reflexivity; discriminate].
Qed.

Lemma typed_and_located_witness :
  In (missingIssue "phone" 0 (VStr "N/A")) (snd (analyze Samples.datelessHost Samples.phoneNA))
  /\ severityFits (missingIssue "phone" 0 (VStr "N/A"))
  /\ located Samples.phoneNA (missingIssue "phone" 0 (VStr "N/A")).
Proof.
  assert (H : In (missingIssue "phone" 0 (VStr "N/A"))
                (snd (analyze Samples.datelessHost Samples.phoneNA)))
    by (vm_compute; left; reflexivity).
  split; [exact H | exact (issues_are_typed_and_located _ _ _ H)].
Defined.

End IssueFacts.

(* ================================================================== *)
(** * The score formulas *)
(* ================================================================== *)

Module ScoreFacts.

Import JS QualityAnalysis Spec Spec2 NumberFacts TableFacts.
Local Open Scope Q_scope.

Lemma round_pos_nonneg r : 0 < r -> 0 <= round_pos r.
Proof.
  intros Hr. unfold round_pos. apply Qmult_le_0_compat; [| apply Qlt_le_weak, pow2_pos].
  change 0 with (inject_Z 0). rewrite <- Zle_Qle. apply rne_ge_Z.
  apply Qmult_le_0_compat; [apply Qlt_le_weak, Hr | apply Qlt_le_weak, pow2_pos].
Qed.

(** A negative rational of moderate size rounds to [-0] or below zero. *)
Lemma round64_neg q N :
  (0 < N < 2 ^ 53)%Z -> q < 0 -> - q <= inject_Z N ->
  round64 q = NegZero \/ exists r, round64 q = Fin r /\ r < 0.
Proof.
  intros HN Hq Hb. unfold round64.
  assert (Hr : Qred q < 0) by (rewrite Qred_correct; exact Hq).
  assert (Hp : 0 < - q) by lra.
  assert (E : round_pos (- Qred q) == round_pos (- q)).
  { apply round_pos_comp; [exact Hp | rewrite Qred_correct; reflexivity]. }
  assert (B : round_pos (- q) <= inject_Z N).
  { rewrite <- (round_pos_int HN). apply round_pos_mono; assumption. }
  assert (Big : inject_Z N < pow2 1024).
  { eapply Qlt_trans with (inject_Z (2 ^ 53)); [rewrite <- Zlt_Qlt; lia | reflexivity]. }
  destruct (Qnum (Qred q)) eqn:En.
  - exfalso. unfold Qlt in Hr. rewrite En in Hr. cbn in Hr. lia.
  - exfalso. unfold Qlt in Hr. rewrite En in Hr. cbn in Hr. lia.
  - destruct (Qle_bool (pow2 1024) (round_pos (- Qred q))) eqn:Eb.
    + exfalso. apply Qle_bool_iff in Eb. rewrite E in Eb. lra.
    + destruct (Qeq_bool (round_pos (- Qred q)) 0) eqn:Ez; [left; reflexivity|].
      right. eexists. split; [reflexivity|]. rewrite Qred_correct.
      assert (Hn := round_pos_nonneg Hp). rewrite <- E in Hn.
      assert (Hne : ~ round_pos (- Qred q) == 0).
      { intros C. apply Qeq_bool_iff in C. congruence. }
      lra.
Qed.

Lemma of_nat_value n :
  (Z.of_nat n < 2 ^ 53)%Z -> exists a, of_nat n = Fin a /\ a == inject_Z (Z.of_nat n).
Proof.
  intros Hb. destruct n as [| n'].
  - exists 0. split; reflexivity.
  - apply of_nat_fin; lia.
Qed.

Lemma Math_round_nonneg c :
  0 <= c -> Math_round (Fin c) = Fin (inject_Z (Qfloor (c + (1 # 2)))).
Proof. intros H. unfold Math_round. rewrite (sign_fin_nonneg H), andb_false_r. reflexivity. Qed.

Lemma Math_max_zero_int z : (0 <= z)%Z -> Math_max (Fin 0) (Fin (inject_Z z)) = Fin (inject_Z z).
Proof.
  intros Hz. unfold Math_max, ltb. cbn [to_ext ext_ltb].
  destruct (Qcompare_spec 0 (inject_Z z)) as [E | L | G].
  - destruct (Qcompare_spec (inject_Z z) 0) as [E' | L' | G']; try (exfalso; lra).
    cbn [sign]. cbn. assert (z = 0)%Z.
    { unfold Qeq in E. cbn in E. lia. }
    subst z. reflexivity.
  - reflexivity.
  - exfalso. change 0 with (inject_Z 0) in G. rewrite <- Zlt_Qlt in G. lia.
Qed.

Lemma Math_max_zero_neg x :
  (x = NegZero \/ exists r, x = Fin r /\ r < 0) -> Math_max (Fin 0) (Math_round x) = Fin 0.
Proof.
  intros [-> | [r [-> Hr]]]; [reflexivity|].
  unfold Math_round.
  assert (Hs : sign (Fin r) = true).
  { unfold sign. destruct r as [n d]. unfold Qlt in Hr. cbn in *. destruct n; first [lia | reflexivity]. }
  rewrite Hs, andb_true_r.
  assert (Hz : (Qfloor (r + (1 # 2)) <= 0)%Z).
  { change 0%Z with (Qfloor (1 # 2)). apply Qfloor_resp_le. lra. }
  destruct (Z.eqb_spec (Qfloor (r + (1 # 2))) 0) as [E | NE]; [reflexivity|].
  unfold Math_max, ltb. cbn [to_ext ext_ltb].
  assert (L : inject_Z (Qfloor (r + (1 # 2))) < 0).
  { change 0 with (inject_Z 0). rewrite <- Zlt_Qlt. lia. }
  destruct (Qcompare_spec 0 (inject_Z (Qfloor (r + (1 # 2))))) as [E | L' | G]; try (exfalso; lra).
  destruct (Qcompare_spec (inject_Z (Qfloor (r + (1 # 2)))) 0) as [E | L' | G']; try (exfalso; lra).
  reflexivity.
Qed.

Lemma floor_half_range c (N : Z) :
  0 <= c -> c <= inject_Z N -> (0 <= Qfloor (c + (1 # 2)) <= N)%Z.
Proof.
  intros H0 HN. split.
  - change 0%Z with (Qfloor 0). apply Qfloor_resp_le. lra.
  - assert (E : Qfloor (inject_Z N + (1 # 2)) = N).
    { assert (L : (N <= Qfloor (inject_Z N + (1 # 2)))%Z).
      { rewrite <- (Qfloor_Z N) at 1. apply Qfloor_resp_le. lra. }
      assert (U : inject_Z N + (1 # 2) < inject_Z (N + 1)).
      { rewrite inject_Z_plus. change (inject_Z 1) with 1. lra. }
      assert (U' : inject_Z (Qfloor (inject_Z N + (1 # 2))) < inject_Z (N + 1)).
      { eapply Qle_lt_trans; [apply Qfloor_le | exact U]. }
      rewrite <- Zlt_Qlt in U'. lia. }
    rewrite <- E. apply Qfloor_resp_le. lra.
Qed.

(** *** The two score formulas give scores *)

Lemma shareScore_isScore T M :
  (0 < T)%nat -> (Z.of_nat T < 2 ^ 53)%Z -> (M <= T)%nat -> isScore (shareScore T M).
Proof.
  intros HT HB HM. unfold shareScore. rewrite sub_of_nat by assumption.
  destruct (@of_nat_fin T HT HB) as [t [Et Ht]].
  destruct (@of_nat_value (T - M)) as [a [Ea Ha]]; [lia|].
  assert (Ht0 : 0 < t) by (rewrite Ht; change 0 with (inject_Z 0); rewrite <- Zlt_Qlt; lia).
  assert (Ha0 : 0 <= a) by (rewrite Ha; change 0 with (inject_Z 0); rewrite <- Zle_Qle; lia).
  assert (Hat : a <= t) by (rewrite Ha, Ht, <- Zle_Qle; lia).
  rewrite Ea, Et, div_fin by assumption.
  destruct (@round64_le_fin (a / t) (a / t) 1) as [b [b' [B [B' [Q0 [_ Q2]]]]]].
  - lia.
  - apply Qle_shift_div_l; [exact Ht0 | lra].
  - apply Qle_refl.
  - apply Qle_shift_div_r; [exact Ht0 | change (inject_Z 1) with 1; lra].
  - rewrite B in B'. inversion B'; subst b'. rewrite B. change (of_Z 100) with (Fin 100).
    change (inject_Z 1) with 1 in Q2.
    rewrite mul_fin by (try reflexivity; lra).
    destruct (@round64_le_fin (b * 100) (b * 100) 100) as [c [c' [C [C' [R0 [_ R2]]]]]];
      [lia | lra | lra | change (inject_Z 100) with 100; lra |].
    rewrite C in C'. inversion C'; subst c'. rewrite C, Math_round_nonneg by exact R0.
    eexists. split; [reflexivity|]. apply floor_half_range; assumption.
Qed.

Lemma penaltyScore_isScore count totalRows :
  (0 < totalRows)%nat -> (Z.of_nat totalRows < 2 ^ 53)%Z ->
  (Z.of_nat count * 100 < 2 ^ 53)%Z ->
  isScore (penaltyScore count totalRows).
Proof.
  intros HT HB HC. unfold penaltyScore.
  destruct (@of_nat_fin totalRows HT HB) as [t [Et Ht]].
  destruct (@of_nat_value count) as [a [Ea Ha]]; [lia|].
  assert (Ht1 : 1 <= t).
  { rewrite Ht. change 1 with (inject_Z 1). rewrite <- Zle_Qle. lia. }
  assert (Ha0 : 0 <= a) by (rewrite Ha; change 0 with (inject_Z 0); rewrite <- Zle_Qle; lia).
  set (N := Z.max (Z.of_nat count) 1).
  assert (HaN : a <= inject_Z N) by (rewrite Ha, <- Zle_Qle; lia).
  rewrite Ea, Et, div_fin by (try assumption; lra).
  destruct (@round64_le_fin (a / t) (a / t) N) as [b [b' [B [B' [Q0 [_ Q2]]]]]].
  - lia.
  - apply Qle_shift_div_l; lra.
  - apply Qle_refl.
  - apply Qle_shift_div_r; [lra|].
    apply Qle_trans with (inject_Z N * 1); [lra|].
    apply Qmult_le_l; [| exact Ht1].
    change 0 with (inject_Z 0). rewrite <- Zlt_Qlt. lia.
  - rewrite B in B'. inversion B'; subst b'. rewrite B. change (of_Z 100) with (Fin 100).
    rewrite mul_fin by (try reflexivity; lra).
    assert (HN100 : (0 < N * 100 < 2 ^ 53)%Z) by lia.
    destruct (@round64_le_fin (b * 100) (b * 100) (N * 100)) as [x [x' [X [X' [R0 [_ R2]]]]]];
      [exact HN100 | lra | lra | rewrite inject_Z_mult; change (inject_Z 100) with 100; lra |].
    rewrite X in X'. inversion X'; subst x'. rewrite X.
    unfold sub. cbn [neg].
    destruct (Qeq_bool x 0) eqn:Ex.
    + cbn [add]. exists 100%Z. split; [reflexivity | lia].
    + assert (Hx0 : 0 < x).
      { assert (~ x == 0) by (intros C; apply Qeq_bool_iff in C; congruence). lra. }
      cbn [add].
      destruct (Qlt_le_dec 100 x) as [Big | Small].
      * rewrite Math_max_zero_neg; [exists 0%Z; split; [reflexivity | lia]|].
        apply (@round64_neg (100 + - x) (N * 100)); [exact HN100 | lra | lra].
      * destruct (@round64_le_fin (100 + - x) (100 + - x) 100) as [y [y' [Y [Y' [S0 [_ S2]]]]]];
          [lia | lra | lra | change (inject_Z 100) with 100; lra |].
        rewrite Y in Y'. inversion Y'; subst y'. rewrite Y, Math_round_nonneg by exact S0.
        destruct (@floor_half_range y 100 S0 S2) as [F0 F1].
        rewrite Math_max_zero_int by exact F0.
        eexists. split; [reflexivity | lia].
Qed.


(** *** Chains of finite numbers, for the weighted sum *)

Lemma round64_chain p q r N :
  (0 < N < 2 ^ 53)%Z -> 0 <= p -> p <= q -> q <= r -> r <= inject_Z N ->
  chain (round64 p) (round64 q) (round64 r) N.
Proof.
  intros HN Hp Hpq Hqr HrN.
  destruct (@round64_le_fin p q N HN Hp Hpq) as [a [b [A [B [H0 [H1 _]]]]]]; [lra|].
  destruct (@round64_le_fin q r N HN) as [b' [c [B' [C [_ [H2 H3]]]]]]; [lra | lra | lra |].
  rewrite B in B'. inversion B'; subst b'.
  exists a, b, c. repeat split; assumption.
Qed.

Lemma chain_mul x y z N w :
  (0 < N < 2 ^ 53)%Z -> 0 < w -> w <= 1 -> chain x y z N ->
  chain (mul x (Fin w)) (mul y (Fin w)) (mul z (Fin w)) N.
Proof.
  intros HN Hw0 Hw1 (a & b & c & -> & -> & -> & H0 & H1 & H2 & H3).
  rewrite !mul_fin by lra.
  apply round64_chain; try assumption.
  - apply Qmult_le_0_compat; lra.
  - apply Qmult_le_compat_r; lra.
  - apply Qmult_le_compat_r; lra.
  - apply Qle_trans with (c * 1); [| lra].
    rewrite !(Qmult_comm c). apply Qmult_le_compat_r; lra.
Qed.

Lemma chain_add x y z N x' y' z' N' :
  (0 < N)%Z -> (0 < N')%Z -> (N + N' < 2 ^ 53)%Z -> chain x y z N -> chain x' y' z' N' ->
  chain (add x x') (add y y') (add z z') (N + N').
Proof.
  intros HN HN' HS (a & b & c & -> & -> & -> & H0 & H1 & H2 & H3)
    (a' & b' & c' & -> & -> & -> & H0' & H1' & H2' & H3').
  cbn [add]. apply round64_chain; try lra; try lia.
  rewrite inject_Z_plus. lra.
Qed.

Lemma chain_round x y z N :
  chain x y z N -> chain (Math_round x) (Math_round y) (Math_round z) N.
Proof.
  intros (a & b & c & -> & -> & -> & H0 & H1 & H2 & H3).
  rewrite !Math_round_nonneg by lra.
  destruct (@floor_half_range a N) as [Fa _]; [lra | lra |].
  destruct (@floor_half_range c N) as [_ Fc]; [lra | lra |].
  do 3 eexists. repeat split; try reflexivity.
  - change 0 with (inject_Z 0). rewrite <- Zle_Qle. exact Fa.
  - rewrite <- Zle_Qle. apply Qfloor_resp_le. lra.
  - rewrite <- Zle_Qle. apply Qfloor_resp_le. lra.
  - rewrite <- Zle_Qle. exact Fc.
Qed.

Lemma lit_weight n :
  In n [20; 15; 10]%positive ->
  exists w, lit (Z.pos n # 100) = Fin w /\ 0 < w /\ w <= 1.
Proof.
  intros [<- | [<- | [<- | []]]]; eexists;
    (split; [vm_compute; reflexivity | split; [reflexivity | vm_compute; discriminate]]).
Qed.

Lemma isScore_chain s t :
  isScore s -> isScore t -> leb s t = true -> chain s t (of_Z 100) 100.
Proof.
  intros (a & -> & Ha) (b & -> & Hb) L.
  exists (inject_Z a), (inject_Z b), 100. repeat split; try reflexivity.
  - change 0 with (inject_Z 0). rewrite <- Zle_Qle. lia.
  - unfold leb in L. cbn in L. destruct (Qcompare_spec (inject_Z b) (inject_Z a)) as [E | Lt | Gt];
      first [lra | discriminate].
  - change 100 with (inject_Z 100). rewrite <- Zle_Qle. lia.
  - apply Qle_refl.
Qed.

Lemma leb_refl_score s : isScore s -> leb s s = true.
Proof.
  intros (a & -> & _). unfold leb. cbn.
  destruct (Qcompare_spec (inject_Z a) (inject_Z a)) as [E | Lt | Gt]; first [reflexivity | lra].
Qed.

Lemma weightedScore_pair m d f r i u p m' d' f' r' i' u' p' :
  chain m m' (of_Z 100) 100 -> chain d d' (of_Z 100) 100 -> chain f f' (of_Z 100) 100 ->
  chain r r' (of_Z 100) 100 -> chain i i' (of_Z 100) 100 -> chain u u' (of_Z 100) 100 ->
  chain p p' (of_Z 100) 100 ->
  exists za zb,
    weightedScore m d f r i u p = Fin (inject_Z za)
    /\ weightedScore m' d' f' r' i' u' p' = Fin (inject_Z zb)
    /\ (0 <= za <= zb)%Z /\ (zb <= 100)%Z.
Proof.
  intros Hm Hd Hf Hr Hi Hu Hp. unfold weightedScore.
  destruct (@lit_weight 20) as (w20 & E20 & ? & ?); [cbn; tauto|].
  destruct (@lit_weight 15) as (w15 & E15 & ? & ?); [cbn; tauto|].
  destruct (@lit_weight 10) as (w10 & E10 & ? & ?); [cbn; tauto|].
  change (20 # 100) with (Z.pos 20 # 100). change (15 # 100) with (Z.pos 15 # 100).
  change (10 # 100) with (Z.pos 10 # 100).
  assert (T : add (add (add (add (add (add
       (mul (of_Z 100) (lit (Z.pos 20 # 100)))
       (mul (of_Z 100) (lit (Z.pos 15 # 100))))
       (mul (of_Z 100) (lit (Z.pos 15 # 100))))
       (mul (of_Z 100) (lit (Z.pos 15 # 100))))
       (mul (of_Z 100) (lit (Z.pos 10 # 100))))
       (mul (of_Z 100) (lit (Z.pos 10 # 100))))
       (mul (of_Z 100) (lit (Z.pos 15 # 100))) = Fin 100) by (vm_compute; reflexivity).
  rewrite E20, E15, E10 in *.
  match goal with
  | |- exists za zb, Math_round ?X = _ /\ Math_round ?Y = _ /\ _ =>
      match type of T with ?Z = _ =>
        assert (C : chain X Y Z (100 + 100 + 100 + 100 + 100 + 100 + 100))
      end
  end.
  { repeat (apply chain_add; [lia | lia | lia | |]); apply chain_mul; (lia || assumption). }
  rewrite T in C. destruct C as (a & b & c & -> & -> & Ec & Ha0 & Hab & Hbc & _).
  inversion Ec; subst c.
  rewrite !Math_round_nonneg by lra.
  destruct (@floor_half_range a 100) as [Fa _]; [lra | change (inject_Z 100) with 100; lra |].
  destruct (@floor_half_range b 100) as [_ Fb]; [lra | change (inject_Z 100) with 100; lra |].
  do 2 eexists. split; [reflexivity |]. split; [reflexivity |].
  split; [split; [exact Fa | apply Qfloor_resp_le; lra] | exact Fb].
Qed.

(** The weighted sum of seven scores is a score. *)
Lemma weightedScore_isScore m d f r i u p :
  isScore m -> isScore d -> isScore f -> isScore r -> isScore i -> isScore u -> isScore p ->
  isScore (weightedScore m d f r i u p).
Proof.
  intros Hm Hd Hf Hr Hi Hu Hp.
  destruct (@weightedScore_pair m d f r i u p m d f r i u p) as (za & zb & Ea & _ & Hab & Hb);
    try (apply isScore_chain; auto using leb_refl_score).
  exists za. split; [exact Ea | lia].
Qed.

(** X2.  The overall score never goes down when sub-scores go up: for
    two sets of seven sub-scores, each a whole number from 0 to 100, the
    first set nowhere above the second, the weighted and rounded sum of
    the first is at most that of the second (the rounding of the binary64
    products and sums included). *)
Theorem overall_score_is_monotone :
  forall m d f r i u p m' d' f' r' i' u' p',
    Forall isScore [m; d; f; r; i; u; p] -> Forall isScore [m'; d'; f'; r'; i'; u'; p'] ->
    leb m m' = true -> leb d d' = true -> leb f f' = true -> leb r r' = true ->
    leb i i' = true -> leb u u' = true -> leb p p' = true ->
    leb (weightedScore m d f r i u p) (weightedScore m' d' f' r' i' u' p') = true.
Proof.
  intros m d f r i u p m' d' f' r' i' u' p' S S' Lm Ld Lf Lr Li Lu Lp.
  repeat match goal with H : Forall _ (_ :: _) |- _ => inversion H; clear H; subst end.
  destruct (@weightedScore_pair m d f r i u p m' d' f' r' i' u' p') as (za & zb & -> & -> & Hab & Hb);
    try (apply isScore_chain; assumption).
  unfold leb. cbn.
  destruct (Qcompare_spec (inject_Z zb) (inject_Z za)) as [E | Lt | Gt]; try reflexivity.
  rewrite <- Zlt_Qlt in Lt. lia.
Qed.

Lemma monotone_overall_score_witness :
  leb (weightedScore (of_Z 31) (of_Z 52) (of_Z 18) (of_Z 16) (of_Z 32) (of_Z 24) (of_Z 52))
      (weightedScore (of_Z 31) (of_Z 52) (of_Z 19) (of_Z 16) (of_Z 32) (of_Z 24) (of_Z 52))
  = true.
Proof.
  assert (S : forall z, (0 <= z <= 100)%Z -> of_Z z = Fin (inject_Z z) -> isScore (of_Z z)).
  { intros z Hz E. exists z. split; assumption. }
  apply overall_score_is_monotone.
  - repeat (apply Forall_cons; [apply S; [lia | vm_compute; reflexivity] |]). apply Forall_nil.
  - repeat (apply Forall_cons; [apply S; [lia | vm_compute; reflexivity] |]). apply Forall_nil.
  - vm_compute. reflexivity.
  - vm_compute. reflexivity.
  - vm_compute. reflexivity.
  - vm_compute. reflexivity.
  - vm_compute. reflexivity.
  - vm_compute. reflexivity.
  - vm_compute. reflexivity.
Defined.

End ScoreFacts.

(* ================================================================== *)
(** * How many issues a pass can raise *)
(* ================================================================== *)

Module CountFacts.

Import JS QualityAnalysis Spec Spec2 NumberFacts TableFacts ScoreFacts IssueFacts.

Lemma weight_cons (A : Type) (m : A -> nat) k a o :
  weight m ((k, a) :: o) = (m a + weight m o)%nat.
Proof. unfold weight. cbn [map snd]. apply list_sum_cons. Qed.

Lemma weight_obj_put (A : Type) (m : A -> nat) k a o :
  (weight m (obj_put k a o) <= m a + weight m o)%nat.
Proof.
  induction o as [| [k' a'] o IH]; cbn [obj_put].
  - rewrite weight_cons. lia.
  - destruct (String.eqb k' k); rewrite !weight_cons; lia.
Qed.

Lemma weight_obj_set (A : Type) (m : A -> nat) k a o :
  (weight m (obj_set k a o) <= m a + weight m o)%nat.
Proof.
  unfold obj_set. destruct (String.eqb k proto_key); [lia | apply weight_obj_put].
Qed.

Lemma sum_values_weight o : sum_values o = weight (fun n => n) o.
Proof.
  induction o as [| [k v] o IH]; [reflexivity|].
  rewrite sum_values_cons, weight_cons, IH. reflexivity.
Qed.

Lemma sum_values_map_weight (A : Type) (m : A -> nat) (o : Obj A) :
  sum_values (map (fun kv => (fst kv, m (snd kv))) o) = weight m o.
Proof.
  induction o as [| [k v] o IH]; [reflexivity|].
  cbn [map fst snd]. rewrite sum_values_cons, weight_cons, IH. reflexivity.
Qed.

Section Pass.

Variable A : Type.
Variable body : nat -> string -> list JS.value -> list DetailedIssue * option A.
Variable data : CSVData.
Variable m : A -> nat.
Variable B : nat.

Hypothesis stored_bound :
  forall i h a, snd (body i h (columnData data i)) = Some a -> (m a <= B)%nat.

Lemma fold_step_weight l acc :
  (weight m (snd (fold_left (columnStep body data) l acc))
   <= weight m (snd acc) + B * List.length l)%nat.
Proof.
  revert acc. induction l as [| [i h] l IH]; intros [iss o]; cbn [fold_left List.length].
  - lia.
  - eapply Nat.le_trans; [apply IH|]. unfold columnStep.
    specialize (stored_bound i h).
    destruct (body i h (columnData data i)) as [pushed [a |]]; cbn [snd] in *.
    + specialize (stored_bound a eq_refl). pose proof (weight_obj_set m h a o). lia.
    + lia.
Qed.

Lemma forEachColumn_weight :
  (weight m (snd (forEachColumn body data)) <= B * List.length (headers data))%nat.
Proof.
  unfold forEachColumn. eapply Nat.le_trans; [apply fold_step_weight|].
  rewrite indexed_length. cbn. lia.
Qed.

Hypothesis pushed_bound :
  forall i h, (List.length (fst (body i h (columnData data i))) <= B)%nat.

Lemma forEachColumn_pushed :
  (List.length (fst (forEachColumn body data)) <= B * List.length (headers data))%nat.
Proof.
  rewrite forEachColumn_issues, <- (indexed_length (headers data)).
  induction (indexed (headers data)) as [| [i h] l IH]; cbn [flat_map List.length fst snd].
  - lia.
  - rewrite length_app. specialize (pushed_bound i h). lia.
Qed.

End Pass.

Lemma scanColumn_length check cells k :
  (forall r v, (List.length (check r v) <= k)%nat) ->
  (List.length (scanColumn check cells) <= k * List.length cells)%nat.
Proof.
  intros H. unfold scanColumn. rewrite <- (indexed_length cells).
  induction (indexed cells) as [| [r v] l IH]; cbn [flat_map List.length fst snd].
  - lia.
  - rewrite length_app. specialize (H r v). lia.
Qed.

Lemma columnData_length data c : List.length (columnData data c) = List.length (rows data).
Proof. unfold columnData. apply length_map. Qed.

Lemma scanDuplicates_length rs seenRows :
  (List.length (scanDuplicates rs seenRows) <= List.length rs)%nat.
Proof.
  revert seenRows. induction rs as [| [i row] rs IH]; intros seenRows; cbn [scanDuplicates List.length].
  - lia.
  - destruct (obj_get (JSON_stringify row) seenRows); cbn [List.length];
      [specialize (IH seenRows) | specialize (IH ((JSON_stringify row, i) :: seenRows))]; lia.
Qed.

Lemma duplicateScan_length data :
  (List.length (duplicateScan data) <= List.length (rows data))%nat.
Proof.
  unfold duplicateScan. eapply Nat.le_trans; [apply scanDuplicates_length|].
  rewrite indexed_length. lia.
Qed.

(** *** How many issues one cell can raise in each pass *)

Lemma missingCheck_length h r v : (List.length (missingCheck h r v) <= 1)%nat.
Proof. unfold missingCheck. destruct (isMissing v); cbn; lia. Qed.

Lemma formatCheck_length host t h r v : (List.length (formatCheck host t h r v) <= 1)%nat.
Proof.
  unfold formatCheck. destruct (nonEmpty v); [| cbn; lia].
  destruct (formatError host t v); cbn; lia.
Qed.

Lemma rangeCheck_length host h r v : (List.length (rangeCheck host h r v) <= 1)%nat.
Proof.
  unfold rangeCheck. destruct (nonEmpty v); [| cbn; lia].
  destruct (rangeError host h v); cbn; lia.
Qed.

Lemma textCheck_length h r v : (List.length (textCheck h r v) <= 1)%nat.
Proof.
  unfold textCheck. destruct v; try (cbn; lia).
  destruct (negb _); [| cbn; lia]. destruct (textError _); cbn; lia.
Qed.

Lemma shipCheck_length host data c h r v : (List.length (shipCheck host data c h r v) <= 1)%nat.
Proof.
  unfold shipCheck. cbv zeta. destruct (_ && _); [| cbn; lia].
  destruct (_ && _); cbn; lia.
Qed.

Lemma unusualCheck_length h r v : (List.length (unusualCheck h r v) <= 1)%nat.
Proof.
  unfold unusualCheck. destruct (nonEmpty v); [| cbn; lia].
  destruct (unusualError h v); cbn; lia.
Qed.

Lemma piiCheck_length h r v : (List.length (piiCheck h r v) <= 4)%nat.
Proof.
  unfold piiCheck. destruct (nonEmpty v); [| cbn; lia].
  rewrite length_map. unfold piiMatches. rewrite !length_app.
  repeat match goal with |- context [if ?c then _ else _] => destruct c end; cbn; lia.
Qed.

Lemma inconsistencyColumn_length host data types c h :
  (List.length (fst (inconsistencyColumn host data types c h (columnData data c)))
   <= 2 * List.length (rows data))%nat.
Proof.
  unfold inconsistencyColumn. cbn [fst]. rewrite length_app.
  assert (T : (List.length (if isTextColumn types h
                 then scanColumn (textCheck h) (columnData data c) else [])
               <= List.length (rows data))%nat).
  { destruct (isTextColumn types h); [| cbn; lia].
    eapply Nat.le_trans; [apply scanColumn_length with (k := 1%nat), textCheck_length|].
    rewrite columnData_length. lia. }
  assert (S : (List.length
                 (if includes (toLowerCase h) "ship"
                     && existsb (fun h0 => includes (toLowerCase h0) "order") (headers data)
                  then match findIndex isOrderDateHeader (headers data) with
                       | Some orderDateCol =>
                           scanColumn (shipCheck host data orderDateCol h) (columnData data c)
                       | None => []
                       end
                  else [])
               <= List.length (rows data))%nat).
  { destruct (_ && _); [| cbn; lia]. destruct (findIndex _ _); [| cbn; lia].
    eapply Nat.le_trans; [apply scanColumn_length with (k := 1%nat), shipCheck_length|].
    rewrite columnData_length. lia. }
  lia.
Qed.

(** *** The counts behind the scores *)

Section Counts.

Variable host : Host.
Variable data : CSVData.


Lemma formatIssues_bound :
  (sum_values (snd (formatPass host data)) <= List.length (rows data) * List.length (headers data))%nat.
Proof.
  unfold formatPass. destruct (forEachColumn (formatColumn host) data) as [iss o] eqn:E.
  cbn [snd]. rewrite (sum_values_map_weight (fun a : ColumnType * nat => snd a)).
  change o with (snd (iss, o)). rewrite <- E.
  apply forEachColumn_weight. intros i h a Ha. unfold formatColumn in Ha. cbn [snd] in Ha.
  inversion Ha; subst a. cbn [snd].
  eapply Nat.le_trans; [apply scanColumn_length with (k := 1%nat), formatCheck_length|].
  rewrite columnData_length. lia.
Qed.

Lemma rangeIssues_bound : (sum_values (snd (rangePass host data)) <= List.length (rows data) * List.length (headers data))%nat.
Proof.
  rewrite sum_values_weight. apply forEachColumn_weight. intros i h a Ha.
  unfold rangeColumn in Ha. cbn [snd] in Ha. inversion Ha; subst a.
  eapply Nat.le_trans; [apply scanColumn_length with (k := 1%nat), rangeCheck_length|].
  rewrite columnData_length. lia.
Qed.

Lemma inconsistencyIssues_bound types :
  (sum_values (snd (inconsistencyPass host data types)) <= 2 * List.length (rows data) * List.length (headers data))%nat.
Proof.
  rewrite sum_values_weight. apply forEachColumn_weight. intros i h a Ha.
  pose proof (inconsistencyColumn_length host data types i h) as L.
  unfold inconsistencyColumn in Ha, L. cbn [fst snd] in Ha, L. inversion Ha; subst a.
  rewrite length_app in L. lia.
Qed.

Lemma unusualPatterns_bound : (sum_values (snd (unusualPass data)) <= List.length (rows data) * List.length (headers data))%nat.
Proof.
  rewrite sum_values_weight. apply forEachColumn_weight. intros i h a Ha.
  unfold unusualColumn in Ha. cbn [snd] in Ha. inversion Ha; subst a.
  eapply Nat.le_trans; [apply scanColumn_length with (k := 1%nat), unusualCheck_length|].
  rewrite columnData_length. lia.
Qed.

Lemma issues_bound : (List.length (snd (analyze host data)) <= List.length (rows data) + 10 * List.length (rows data) * List.length (headers data))%nat.
Proof.
  rewrite analyze_issues, !length_app.
  assert (L1 : (List.length (fst (missingPass data)) <= List.length (rows data) * List.length (headers data))%nat).
  { apply forEachColumn_pushed. intros i h. unfold missingColumn. cbn [fst].
    eapply Nat.le_trans; [apply scanColumn_length with (k := 1%nat), missingCheck_length|].
    rewrite columnData_length. lia. }
  assert (L2 : (List.length (duplicateIssues data) <= List.length (rows data))%nat).
  { unfold duplicateIssues. rewrite length_map. apply duplicateScan_length. }
  assert (L3 : (List.length (fst (forEachColumn (formatColumn host) data)) <= List.length (rows data) * List.length (headers data))%nat).
  { apply forEachColumn_pushed. intros i h. unfold formatColumn. cbn [fst].
    eapply Nat.le_trans; [apply scanColumn_length with (k := 1%nat), formatCheck_length|].
    rewrite columnData_length. lia. }
  assert (L4 : (List.length (fst (rangePass host data)) <= List.length (rows data) * List.length (headers data))%nat).
  { apply forEachColumn_pushed. intros i h. unfold rangeColumn. cbn [fst].
    eapply Nat.le_trans; [apply scanColumn_length with (k := 1%nat), rangeCheck_length|].
    rewrite columnData_length. lia. }
  assert (L5 : (List.length (fst (inconsistencyPass host data
                  (dataTypes (fst (analyze host data))))) <= 2 * List.length (rows data) * List.length (headers data))%nat).
  { apply forEachColumn_pushed. intros i h. apply inconsistencyColumn_length. }
  assert (L6 : (List.length (fst (unusualPass data)) <= List.length (rows data) * List.length (headers data))%nat).
  { apply forEachColumn_pushed. intros i h. unfold unusualColumn. cbn [fst].
    eapply Nat.le_trans; [apply scanColumn_length with (k := 1%nat), unusualCheck_length|].
    rewrite columnData_length. lia. }
  assert (L7 : (List.length (fst (piiPass data)) <= 4 * List.length (rows data) * List.length (headers data))%nat).
  { apply forEachColumn_pushed. intros i h. unfold piiColumn. cbn [fst].
    eapply Nat.le_trans; [apply scanColumn_length with (k := 4%nat), piiCheck_length|].
    rewrite columnData_length. lia. }
  lia.
Qed.

End Counts.

End CountFacts.

(* ================================================================== *)
(** * The range of the scores *)
(* ================================================================== *)

Module RangeFacts.

Import JS QualityAnalysis Spec Spec2 Samples NumberFacts TableFacts ScoreFacts IssueFacts CountFacts.

Lemma analyze_penalty_scores host data :
  let r := fst (analyze host data) in
  invalidFormatScore r = penaltyScore (sum_values (snd (formatPass host data))) (List.length (rows data))
  /\ valueRangeScore r = penaltyScore (sum_values (snd (rangePass host data))) (List.length (rows data))
  /\ inconsistentValuesScore r =
     penaltyScore (sum_values (snd (inconsistencyPass host data (dataTypes r))))
       (List.length (rows data))
  /\ unusualPatternsScore r = penaltyScore (sum_values (snd (unusualPass data))) (List.length (rows data))
  /\ sensitiveDataScore r =
     match List.length (filter (fun i => IssueType_eqb (type i) sensitive_data)
                          (snd (analyze host data))) with
     | O => of_Z 100
     | S n => penaltyScore (S n) (List.length (rows data))
     end.
Proof.
  unfold analyze.
  destruct (missingPass data) as [i1 mv].
  destruct (formatPass host data) as [[i3 dt] fi].
  destruct (rangePass host data) as [i4 ri].
  cbn [fst snd].
  destruct (inconsistencyPass host data dt) as [i5 ii] eqn:E5.
  destruct (unusualPass data) as [i6 up].
  destruct (piiPass data) as [i7 sd].
  cbn [fst snd invalidFormatScore valueRangeScore inconsistentValuesScore unusualPatternsScore
       sensitiveDataScore dataTypes].
  rewrite E5. cbn [snd].
  repeat split; try reflexivity.
  destruct (List.length _); reflexivity.
Qed.

Lemma missing_total_bound data :
  (sum_values (snd (missingPass data))
   <= List.length (rows data) * List.length (headers data))%nat.
Proof.
  rewrite sum_values_weight. apply forEachColumn_weight. intros i h a Ha.
  unfold missingColumn in Ha. cbn [snd] in Ha. inversion Ha; subst a.
  eapply Nat.le_trans; [apply scanColumn_length with (k := 1%nat), missingCheck_length|].
  rewrite columnData_length. lia.
Qed.

(** X3.  On a table with at least one row and one header (and fewer than
    2^40 cells) each of the eight scores of the report is a whole number
    from 0 to 100. *)
Theorem report_scores_in_range :
  forall host data, sized data -> Forall isScore (reportScores (fst (analyze host data))).
Proof.
  intros host data (HR & HC & HS).
  pose proof (analyze_penalty_scores host data) as P. cbv zeta in P.
  destruct P as (Pf & Pr & Pi & Pu & Pp).
  set (R := List.length (rows data)) in *.
  set (C := List.length (headers data)) in *.
  assert (HRC : (R <= R * C)%nat) by nia.
  assert (HRC0 : (0 < R * C)%nat) by nia.
  assert (HZ : forall n, (n <= R + 10 * R * C)%nat -> (Z.of_nat n * 100 < 2 ^ 53)%Z).
  { intros n Hn.
    assert (Z.of_nat n <= 11 * Z.of_nat (R * C))%Z by nia.
    change (2 ^ 53)%Z with (8192 * 2 ^ 40)%Z. lia. }
  assert (HRZ : (Z.of_nat R < 2 ^ 53)%Z).
  { assert (Z.of_nat R <= Z.of_nat (R * C))%Z by lia.
    change (2 ^ 53)%Z with (8192 * 2 ^ 40)%Z. lia. }
  assert (Sm : isScore (missingValuesScore (fst (analyze host data)))).
  { rewrite analyze_missingValuesScore. apply shareScore_isScore; fold R C.
    - exact HRC0.
    - change (2 ^ 53)%Z with (8192 * 2 ^ 40)%Z. lia.
    - apply missing_total_bound. }
  assert (Sd : isScore (duplicatesScore (fst (analyze host data)))).
  { rewrite analyze_duplicatesScore. apply shareScore_isScore; fold R.
    - lia.
    - exact HRZ.
    - unfold duplicateRowIndices. rewrite length_map. apply duplicateScan_length. }
  assert (Sf : isScore (invalidFormatScore (fst (analyze host data)))).
  { rewrite Pf. apply penaltyScore_isScore; [lia | exact HRZ |].
    apply HZ. pose proof (formatIssues_bound host data). fold R C in H. nia. }
  assert (Sr : isScore (valueRangeScore (fst (analyze host data)))).
  { rewrite Pr. apply penaltyScore_isScore; [lia | exact HRZ |].
    apply HZ. pose proof (rangeIssues_bound host data). fold R C in H. nia. }
  assert (Si : isScore (inconsistentValuesScore (fst (analyze host data)))).
  { rewrite Pi. apply penaltyScore_isScore; [lia | exact HRZ |].
    apply HZ. pose proof (inconsistencyIssues_bound host data
                            (dataTypes (fst (analyze host data)))). fold R C in H. nia. }
  assert (Su : isScore (unusualPatternsScore (fst (analyze host data)))).
  { rewrite Pu. apply penaltyScore_isScore; [lia | exact HRZ |].
    apply HZ. pose proof (unusualPatterns_bound data). fold R C in H. nia. }
  assert (Sp : isScore (sensitiveDataScore (fst (analyze host data)))).
  { rewrite Pp.
    destruct (List.length (filter _ (snd (analyze host data)))) as [| n] eqn:En.
    - exists 100%Z. split; [reflexivity | lia].
    - apply penaltyScore_isScore; [lia | exact HRZ |].
      apply HZ. rewrite <- En. eapply Nat.le_trans; [apply filter_length_le|].
      pose proof (issues_bound host data). fold R C in H. exact H. }
  assert (So : isScore (overallScore (fst (analyze host data)))).
  { pose proof (analyze_overallScore host data) as O. cbv zeta in O. rewrite O.
    apply weightedScore_isScore; assumption. }
  unfold reportScores. repeat apply Forall_cons; try assumption. apply Forall_nil.
Qed.

Lemma report_scores_witness :
  sized gaps /\ Forall isScore (reportScores (fst (analyze datelessHost gaps))).
Proof.
  assert (S : sized gaps) by (repeat split; cbn; lia).
  split; [exact S | apply (report_scores_in_range datelessHost S)].
Defined.

End RangeFacts.

(* ================================================================== *)
(** * The penalty scores *)
(* ================================================================== *)

Module PenaltyFacts.

Import JS QualityAnalysis Spec Spec2 Samples NumberFacts TableFacts ScoreFacts.
Local Open Scope Q_scope.

(** [count / totalRows * 100] as computed: a finite number that grows with
    the count and is at least 100 once the count reaches the rows. *)
Lemma ratio_chain c1 c2 T :
  (0 < T)%nat -> (Z.of_nat T < 2 ^ 53)%Z -> (Z.of_nat c2 * 100 < 2 ^ 53)%Z -> (c1 <= c2)%nat ->
  exists x1 x2,
    mul (div (of_nat c1) (of_nat T)) (of_Z 100) = Fin x1
    /\ mul (div (of_nat c2) (of_nat T)) (of_Z 100) = Fin x2
    /\ 0 <= x1 /\ x1 <= x2 /\ x2 <= inject_Z (Z.max (Z.of_nat c2) 1 * 100)
    /\ ((T <= c2)%nat -> 100 <= x2)
    /\ (c1 = 0%nat -> x1 == 0).
Proof.
  intros HT HB HC H12.
  destruct (@of_nat_fin T HT HB) as [t [Et Ht]].
  destruct (@of_nat_value c1) as [a1 [Ea1 Ha1]]; [lia|].
  destruct (@of_nat_value c2) as [a2 [Ea2 Ha2]]; [lia|].
  assert (Ht1 : 1 <= t).
  { rewrite Ht. change 1 with (inject_Z 1). rewrite <- Zle_Qle. lia. }
  assert (H0 : 0 <= a1) by (rewrite Ha1; change 0 with (inject_Z 0); rewrite <- Zle_Qle; lia).
  assert (H1 : a1 <= a2) by (rewrite Ha1, Ha2, <- Zle_Qle; lia).
  set (N := Z.max (Z.of_nat c2) 1).
  assert (HN : (0 < N < 2 ^ 53)%Z) by lia.
  assert (HaN : a2 <= inject_Z N) by (rewrite Ha2, <- Zle_Qle; lia).
  assert (Hdiv : forall p q, p <= q -> p / t <= q / t).
  { intros p q Hpq. unfold Qdiv. apply Qmult_le_compat_r; [exact Hpq|].
    apply Qlt_le_weak, Qinv_lt_0_compat. lra. }
  assert (Hq2 : a2 / t <= inject_Z N).
  { apply Qle_shift_div_r; [lra|].
    apply Qle_trans with (inject_Z N * 1); [lra|].
    apply Qmult_le_l; [| exact Ht1].
    change 0 with (inject_Z 0). rewrite <- Zlt_Qlt. lia. }
  assert (Hq0 : 0 <= a1 / t) by (apply Qle_shift_div_l; lra).
  rewrite Ea1, Ea2, Et, !div_fin by (try assumption; lra).
  destruct (@round64_le_fin (a1 / t) (a2 / t) N HN Hq0 (Hdiv _ _ H1) Hq2)
    as [b1 [b2 [B1 [B2 [Q0 [Q1 Q2]]]]]].
  rewrite B1, B2. change (of_Z 100) with (Fin 100).
  rewrite !mul_fin by (try reflexivity; lra).
  assert (HN100 : (0 < N * 100 < 2 ^ 53)%Z) by lia.
  destruct (@round64_le_fin (b1 * 100) (b2 * 100) (N * 100)) as [x1 [x2 [X1 [X2 [R0 [R1 R2]]]]]];
    [exact HN100 | lra | lra | rewrite inject_Z_mult; change (inject_Z 100) with 100; lra |].
  exists x1, x2. repeat split; try assumption.
  - (* the count has reached the rows *)
    intros HTc.
    assert (Hone : 1 <= a2 / t).
    { apply Qle_shift_div_l; [lra|]. rewrite Ha2, Ht. ring_simplify. rewrite <- Zle_Qle. lia. }
    destruct (@round64_le_fin 1 (a2 / t) N HN) as [o [b2' [O [B2' [_ [O1 _]]]]]];
      [lra | exact Hone | exact Hq2 |].
    assert (o = 1) by (vm_compute in O; inversion O; reflexivity). subst o.
    rewrite B2 in B2'. inversion B2'; subst b2'.
    destruct (@round64_le_fin 100 (b2 * 100) (N * 100) HN100) as [h [x2' [Hh [X2' [_ [Hh1 _]]]]]];
      [lra | lra | rewrite inject_Z_mult; change (inject_Z 100) with 100; lra |].
    assert (h = 100) by (vm_compute in Hh; inversion Hh; reflexivity). subst h.
    rewrite X2 in X2'. inversion X2'; subst x2'. exact Hh1.
  - intros E0. subst c1.
    assert (Ez : a1 == 0) by (rewrite Ha1; reflexivity).
    assert (E1 : round64 (a1 / t) = Fin 0).
    { apply round64_zero. rewrite Ez. unfold Qdiv. ring. }
    rewrite B1 in E1. inversion E1; subst b1.
    assert (E2 : round64 (0 * 100) = Fin 0) by (apply round64_zero; ring).
    rewrite X1 in E2. inversion E2. reflexivity.
Qed.

Lemma leb_Fin a b : a <= b -> leb (Fin a) (Fin b) = true.
Proof.
  intros H. unfold leb. cbn [to_ext ext_ltb].
  destruct (Qcompare_spec b a) as [E | L | G]; try reflexivity. lra.
Qed.

Lemma sub_hundred x : 0 <= x -> sub (Fin 100) (Fin x) = round64 (100 - x).
Proof.
  intros Hx. unfold sub. cbn [neg]. destruct (Qeq_bool x 0) eqn:E.
  - apply Qeq_bool_iff in E. cbn [add].
    rewrite (@round64_comp (100 - x) 100) by (rewrite E; ring). vm_compute. reflexivity.
  - cbn [add]. reflexivity.
Qed.

Lemma penalty_of_ratio x :
  0 <= x -> x <= inject_Z (2 ^ 53 - 1) ->
  let p := Math_max (of_Z 0) (Math_round (sub (Fin 100) (Fin x))) in
  (100 <= x -> p = of_Z 0)
  /\ (x <= 100 ->
      exists y, round64 (100 - x) = Fin y /\ 0 <= y /\ y <= 100
                /\ p = Fin (inject_Z (Qfloor (y + (1 # 2))))).
Proof.
  intros H0 HB p. unfold p. rewrite sub_hundred by exact H0. split.
  - intros H. destruct (Qeq_dec x 100) as [E | NE].
    + rewrite (@round64_zero (100 - x)) by (rewrite E; ring). reflexivity.
    + change (of_Z 0) with (Fin 0). apply Math_max_zero_neg.
      apply (@round64_neg (100 - x) (2 ^ 53 - 1)); [lia | lra | lra].
  - intros H.
    destruct (@round64_le_fin (100 - x) (100 - x) 100) as [y [y' [Y [Y' [S0 [_ S2]]]]]];
      [lia | lra | lra | change (inject_Z 100) with 100; lra |].
    rewrite Y in Y'. inversion Y'; subst y'.
    exists y. change (inject_Z 100) with 100 in S2. repeat split; try assumption.
    rewrite Y, Math_round_nonneg by exact S0.
    destruct (@floor_half_range y 100 S0) as [F0 _]; [exact S2|].
    change (of_Z 0) with (Fin 0). apply Math_max_zero_int, F0.
Qed.

(** X4.  The scores of the form [max(0, round(100 - count /
    totalRows * 100))] are measured against the number of rows, not of
    cells.  On a table with at least one row (fewer than 2^53 rows, the
    count below 2^53 / 100): the score is 100 without issues, never goes
    up when the count goes up, and is 0 as soon as there are as many
    issues as rows.  (Without a row the quotient is 0/0 and the score is
    [NaN].) *)
Theorem penalty_score_falls_to_zero :
  forall count1 count2 totalRows,
    (0 < totalRows)%nat -> (Z.of_nat totalRows < 2 ^ 53)%Z ->
    (Z.of_nat count2 * 100 < 2 ^ 53)%Z -> (count1 <= count2)%nat ->
    leb (penaltyScore count2 totalRows) (penaltyScore count1 totalRows) = true
    /\ penaltyScore 0 totalRows = of_Z 100
    /\ ((totalRows <= count2)%nat -> penaltyScore count2 totalRows = of_Z 0).
Proof.
  intros c1 c2 T HT HB HC H12.
  assert (Main : forall a b, (a <= b)%nat -> (Z.of_nat b * 100 < 2 ^ 53)%Z ->
            leb (penaltyScore b T) (penaltyScore a T) = true
            /\ (a = 0%nat -> penaltyScore a T = of_Z 100)
            /\ ((T <= b)%nat -> penaltyScore b T = of_Z 0)).
  { intros a b Hab Hb.
    destruct (@ratio_chain a b T HT HB Hb Hab) as (x1 & x2 & E1 & E2 & X0 & X1 & X2 & Xbig & Xzero).
    assert (B2 : x2 <= inject_Z (2 ^ 53 - 1)).
    { eapply Qle_trans; [exact X2|]. rewrite <- Zle_Qle. lia. }
    assert (B1 : x1 <= inject_Z (2 ^ 53 - 1)) by lra.
    assert (X20 : 0 <= x2) by lra.
    unfold penaltyScore. rewrite E1, E2. change (of_Z 100) with (Fin 100) at 1 2.
    destruct (penalty_of_ratio X0 B1) as [P1z P1]. destruct (penalty_of_ratio X20 B2) as [P2z P2].
    cbv zeta in P1z, P1, P2z, P2. change (of_Z 100) with (Fin 100).
    split; [| split].
    - destruct (Qlt_le_dec 100 x2) as [Big | Small].
      + rewrite P2z by lra.
        destruct (Qlt_le_dec 100 x1) as [Big1 | Small1]; [rewrite P1z by lra; reflexivity|].
        destruct (P1 Small1) as (y & _ & Y0 & Y100 & ->).
        destruct (@floor_half_range y 100 Y0) as [F0 _];
          [change (inject_Z 100) with 100; lra|].
        change (of_Z 0) with (Fin (inject_Z 0)). apply leb_Fin. rewrite <- Zle_Qle. lia.
      + destruct (P2 Small) as (y2 & Y2 & _ & _ & ->).
        destruct (P1 ltac:(lra)) as (y1 & Y1 & _ & _ & ->).
        destruct (@round64_le_fin (100 - x2) (100 - x1) 100) as [u [v [U [V [_ [UV _]]]]]];
          [lia | lra | lra | change (inject_Z 100) with 100; lra |].
        rewrite Y2 in U. rewrite Y1 in V. inversion U; inversion V; subst u v.
        apply leb_Fin. rewrite <- Zle_Qle. apply Qfloor_resp_le. lra.
    - intros Ea. specialize (Xzero Ea).
      destruct (P1 ltac:(lra)) as (y & Y & _ & _ & ->).
      rewrite (@round64_comp (100 - x1) 100) in Y by (rewrite Xzero; ring).
      vm_compute in Y. inversion Y. reflexivity.
    - intros HTb. apply P2z, Xbig, HTb. }
  destruct (Main c1 c2 H12 HC) as (M1 & _ & M3).
  destruct (Main 0%nat 0%nat (Nat.le_refl 0) ltac:(cbn; lia)) as (_ & M2 & _).
  split; [exact M1 | split; [apply M2; reflexivity | exact M3]].
Qed.

Lemma penalty_score_witness :
  leb (penaltyScore 5 4) (penaltyScore 1 4) = true
  /\ penaltyScore 0 4 = of_Z 100
  /\ penaltyScore 4 4 = of_Z 0
  /\ penaltyScore 5 4 = of_Z 0.
Proof.
  destruct (@penalty_score_falls_to_zero 1 5 4) as (A & B & C); [cbn; lia ..|].
  destruct (@penalty_score_falls_to_zero 1 4 4) as (_ & _ & D); [cbn; lia ..|].
  split; [exact A|]. split; [exact B|]. split; [apply D; lia | apply C; lia].
Defined.

End PenaltyFacts.

(* ================================================================== *)
(** * Recommendations and grades *)
(* ================================================================== *)

Module RecommendationFacts.

Import JS QualityAnalysis Presentation Spec Spec2 Samples TableFacts IssueFacts CountFacts.
Local Open Scope string_scope.

Lemma pushIf_In c m l x : In x (pushIf c m l) -> x = m \/ In x l.
Proof.
  unfold pushIf. destruct c; [| tauto]. rewrite in_app_iff. cbn. intuition congruence.
Qed.

Lemma pushIf_nil c m l : pushIf c m l = [] -> c = false /\ l = [].
Proof.
  unfold pushIf. destruct c; [| auto]. intros H. apply app_eq_nil in H. destruct H; discriminate.
Qed.

Lemma excellent_is_no_warning c s h :
  ~ In msgExcellent
      [msgCritical; msgWarning; msgPrivacy c; msgCompliance s; msgHigh h; msgMissing;
       msgDuplicates; msgFormat; msgRange; msgUnusual].
Proof.
  cbn [In]. unfold msgExcellent, msgCritical, msgWarning, msgPrivacy, msgCompliance, msgHigh,
    msgMissing, msgDuplicates, msgFormat, msgRange, msgUnusual. cbn [append].
  intros H. repeat destruct H as [H | H]; try discriminate H. exact H.
Qed.

(** X5.  The list of recommendations is never empty, and the message
    "Excellent data quality" is given only alone, when the score is not
    below 80 and nothing else was triggered: no critical, sensitive-data,
    high-severity, duplicate, format, range or unusual-pattern issue, and
    not more missing-value issues than a tenth of the rows.  Low-severity
    issues never trigger a message. *)
Theorem excellent_only_alone :
  forall data score issues,
    let recs := generateRecommendations data score issues in
    recs <> []
    /\ (In msgExcellent recs <->
        (ltb score (of_Z 80) = false
         /\ countIssues (ofSeverity critical) issues = 0%nat
         /\ countIssues (ofType sensitive_data) issues = 0%nat
         /\ countIssues (ofSeverity high) issues = 0%nat
         /\ gtb (of_nat (countIssues (ofType missing) issues))
                (mul (of_nat (List.length (rows data))) (lit (1 # 10))) = false
         /\ countIssues (ofType duplicate) issues = 0%nat
         /\ countIssues (ofType invalid_format) issues = 0%nat
         /\ countIssues (ofType value_range) issues = 0%nat
         /\ countIssues (ofType unusual_pattern) issues = 0%nat))
    /\ (In msgExcellent recs -> recs = [msgExcellent]).
Proof.
  intros data score issues recs. unfold recs, generateRecommendations. cbv zeta.
  set (r0 := if ltb score (of_Z 60) then [msgCritical]
             else if ltb score (of_Z 80) then [msgWarning] else []).
  set (b1 := Nat.ltb 0 (countIssues (ofSeverity critical) issues)).
  set (b2 := Nat.ltb 0 (countIssues (ofType sensitive_data) issues)).
  set (b3 := Nat.ltb 0 (countIssues (ofSeverity high) issues)).
  set (b4 := gtb (of_nat (countIssues (ofType missing) issues))
                 (mul (of_nat (List.length (rows data))) (lit (1 # 10)))).
  set (b5 := Nat.ltb 0 (countIssues (ofType duplicate) issues)).
  set (b6 := Nat.ltb 0 (countIssues (ofType invalid_format) issues)).
  set (b7 := Nat.ltb 0 (countIssues (ofType value_range) issues)).
  set (b8 := Nat.ltb 0 (countIssues (ofType unusual_pattern) issues)).
  set (r8 := pushIf b8 msgUnusual (pushIf b7 msgRange (pushIf b6 msgFormat
               (pushIf b5 msgDuplicates (pushIf b4 msgMissing
                 (pushIf b3 (msgHigh (countIssues (ofSeverity high) issues))
                   (pushIf b2 (msgCompliance (countIssues (ofType sensitive_data) issues))
                     (pushIf b1 (msgPrivacy (countIssues (ofSeverity critical) issues)) r0)))))))).
  pose proof (@excellent_is_no_warning (countIssues (ofSeverity critical) issues)
                (countIssues (ofType sensitive_data) issues)
                (countIssues (ofSeverity high) issues)) as Hdiff.
  assert (Hr0 : forall x, In x r0 -> x = msgCritical \/ x = msgWarning).
  { intros x. unfold r0. destruct (ltb score (of_Z 60)); [intros [<- | []]; auto|].
    destruct (ltb score (of_Z 80)); [intros [<- | []]; auto | intros []]. }
  assert (Hr0n : r0 = [] <-> ltb score (of_Z 80) = false).
  { unfold r0. destruct (ltb score (of_Z 60)) eqn:E60.
    - split; [discriminate|]. intros E80. exfalso.
      (* a score below 60 is below 80 *)
      unfold ltb in E60, E80. destruct (to_ext score) as [[| q |]|]; cbn in *; try discriminate.
      destruct (Qcompare_spec q 60); try discriminate.
      destruct (Qcompare_spec q 80); try discriminate; lra.
    - destruct (ltb score (of_Z 80)); split; try discriminate; reflexivity. }
  assert (Hno : ~ In msgExcellent r8).
  { intros H. unfold r8 in H.
    repeat (apply pushIf_In in H; destruct H as [H | H];
            [apply Hdiff; rewrite <- H; cbn [In]; tauto|]).
    apply Hr0 in H. apply Hdiff. cbn [In]. destruct H as [<- | <-]; tauto. }
  assert (Hnil : r8 = [] <->
     (r0 = [] /\ b1 = false /\ b2 = false /\ b3 = false /\ b4 = false /\ b5 = false
      /\ b6 = false /\ b7 = false /\ b8 = false)).
  { split.
    - intros H. unfold r8 in H.
      repeat (apply pushIf_nil in H; let E := fresh "E" in destruct H as [E H]).
      tauto.
    - intros (E0 & E1 & E2 & E3 & E4 & E5 & E6 & E7 & E8). unfold r8.
      rewrite E0, E1, E2, E3, E4, E5, E6, E7, E8. reflexivity. }
  assert (Z : forall n, Nat.ltb 0 n = false <-> n = 0%nat).
  { intros n. rewrite Nat.ltb_ge. lia. }
  destruct r8 as [| m rest] eqn:E8.
  - split; [discriminate|]. split; [| reflexivity].
    split; [intros _ | intros _; left; reflexivity].
    destruct Hnil as [Hnil _]. specialize (Hnil eq_refl).
    destruct Hnil as (E0 & E1 & E2 & E3 & E4 & E5 & E6 & E7 & E8').
    unfold b1, b2, b3, b5, b6, b7, b8 in *. rewrite Z in *. rewrite Hr0n in E0. tauto.
  - split; [discriminate|]. split; [| intros H; contradiction].
    split; [intros H; contradiction|].
    intros (E0 & E1 & E2 & E3 & E4 & E5 & E6 & E7 & E8'). exfalso.
    destruct Hnil as [_ Hnil]. rewrite <- Hr0n in E0. rewrite <- Z in *.
    discriminate Hnil. tauto.
Qed.


(** *** The recommendations of a run *)

Lemma pushIf_app c m l : pushIf c m l = (l ++ (if c then [m] else []))%list.
Proof. unfold pushIf. destruct c; [reflexivity | rewrite app_nil_r; reflexivity]. Qed.

Lemma critical_is_sensitive host data :
  countIssues (ofSeverity critical) (snd (analyze host data))
  = countIssues (ofType sensitive_data) (snd (analyze host data)).
Proof.
  unfold countIssues. f_equal. apply filter_ext_in. intros issue Hin.
  unfold ofSeverity, ofType.
  destruct (issue_origin host data issue Hin) as [Hd | (c & h & r & v & _ & _ & _ & Hk)].
  - unfold duplicateIssues in Hd. apply in_map_iff in Hd.
    destruct Hd as [[[i row] o] [<- _]]. reflexivity.
  - destruct Hk as [-> | [[e ->] | [[e ->] | [(s & e & _ & ->) | [[od ->] | [[e ->] | [k ->]]]]]]];
      reflexivity.
Qed.

Lemma alerts_are_no_other_message k c s h :
  ~ In (msgPrivacy k)
      [msgCritical; msgWarning; msgCompliance s; msgHigh h; msgMissing;
       msgDuplicates; msgFormat; msgRange; msgUnusual; msgExcellent]
  /\ ~ In (msgCompliance k)
      [msgCritical; msgWarning; msgPrivacy c; msgHigh h; msgMissing;
       msgDuplicates; msgFormat; msgRange; msgUnusual; msgExcellent].
Proof.
  cbn [In]. unfold msgExcellent, msgCritical, msgWarning, msgPrivacy, msgCompliance, msgHigh,
    msgMissing, msgDuplicates, msgFormat, msgRange, msgUnusual. cbn [append].
  split; intros H; repeat destruct H as [H | H]; try discriminate H; exact H.
Qed.

(** X6.  In the recommendations of a run the privacy alert and the
    compliance warning come together and carry the same count: the
    critical issues of a run are exactly its sensitive-data issues.  With
    such issues the two messages stand next to each other; without, there
    is neither. *)
Theorem privacy_alert_and_compliance_risk_together :
  forall host data,
    let issues := snd (analyze host data) in
    let n := countIssues (ofType sensitive_data) issues in
    let recs := recommendationsOf host data in
    countIssues (ofSeverity critical) issues = n
    /\ ((0 < n)%nat ->
        exists pre post, recs = (pre ++ msgPrivacy n :: msgCompliance n :: post)%list)
    /\ (n = 0%nat -> forall k, ~ In (msgPrivacy k) recs /\ ~ In (msgCompliance k) recs).
Proof.
  intros host data issues n recs.
  pose proof (critical_is_sensitive host data) as Ecs. fold issues in Ecs. fold n in Ecs.
  split; [exact Ecs|].
  assert (Erecs : recs = generateRecommendations data
                           (overallScore (fst (analyze host data))) issues).
  { unfold recs, recommendationsOf, issues. destruct (analyze host data). reflexivity. }
  rewrite Erecs. unfold generateRecommendations. cbv zeta. rewrite Ecs. fold n.
  set (r0 := if ltb _ (of_Z 60) then [msgCritical]
             else if ltb _ (of_Z 80) then [msgWarning] else []).
  assert (Hr0 : forall x, In x r0 -> x = msgCritical \/ x = msgWarning).
  { intros x. unfold r0. destruct (ltb _ (of_Z 60)); [intros [<- | []]; auto|].
    destruct (ltb _ (of_Z 80)); [intros [<- | []]; auto | intros []]. }
  split.
  - intros Hn. apply Nat.ltb_lt in Hn. rewrite Hn. rewrite !pushIf_app.
    rewrite <- !app_assoc. cbn [app].
    assert (G : forall (l : list string) x rest,
               match (l ++ x :: rest)%list with
               | [] => [msgExcellent]
               | _ => (l ++ x :: rest)%list
               end = (l ++ x :: rest)%list) by (intros [| y l] x rest; reflexivity).
    rewrite G. eexists _, _. reflexivity.
  - intros Hn k. rewrite Hn. cbn [Nat.ltb Nat.leb pushIf].
    destruct (alerts_are_no_other_message k 0 0 (countIssues (ofSeverity high) issues))
      as [HP HC].
    match goal with |- ~ In _ (match ?l with _ => _ end) /\ _ =>
      assert (Hl : forall x, In x l ->
                 In x [msgCritical; msgWarning; msgHigh (countIssues (ofSeverity high) issues);
                       msgMissing; msgDuplicates; msgFormat; msgRange; msgUnusual]);
      [| destruct l as [| m rest] eqn:El]
    end.
    { intros x H.
      repeat (apply pushIf_In in H; destruct H as [-> | H]; [cbn [In]; tauto|]).
      apply Hr0 in H. cbn [In]. destruct H as [-> | ->]; tauto. }
    + split; intros [H | []].
      * apply HP. rewrite <- H. cbn [In]. tauto.
      * apply HC. rewrite <- H. cbn [In]. tauto.
    + split; intros H; apply Hl in H; [apply HP | apply HC]; cbn [In] in *; tauto.
Qed.

(** *** A table without rows *)

(** X7.  A table with headers but no row: the analysis reports no issue,
    the overall score is [NaN], and yet the only recommendation is
    "Excellent data quality" while the grade shown is F in red. *)
Theorem table_without_rows_is_excellent_and_fails :
  forall host data,
    rows data = [] ->
    snd (analyze host data) = []
    /\ overallScore (fst (analyze host data)) = NaN
    /\ recommendationsOf host data = [msgExcellent]
    /\ getScoreGrade (overallScore (fst (analyze host data))) = "F"
    /\ getScoreColor (overallScore (fst (analyze host data))) = "text-red-600".
Proof.
  intros host data Hr.
  assert (K : snd (analyze host data) = []
              /\ overallScore (fst (analyze host data)) = NaN).
  { assert (Hcol : forall c, columnData data c = []) by (intros c; unfold columnData; rewrite Hr; reflexivity).
    assert (Hpass : forall (A : Type)
              (body : nat -> string -> list JS.value -> list DetailedIssue * option A),
              (forall i h, fst (body i h []) = []) -> fst (forEachColumn body data) = []).
    { intros A body Hb. rewrite forEachColumn_issues.
      induction (indexed (headers data)) as [| [i h] l IH]; [reflexivity|].
      cbn [flat_map fst snd]. rewrite Hcol, Hb, IH. reflexivity. }
    assert (Hiss : snd (analyze host data) = []).
    { rewrite analyze_issues.
      unfold missingPass, rangePass, inconsistencyPass, unusualPass, piiPass.
      rewrite (Hpass _ missingColumn) by reflexivity.
      rewrite (Hpass _ (formatColumn host)) by reflexivity.
      rewrite (Hpass _ (rangeColumn host)) by reflexivity.
      rewrite (Hpass _ unusualColumn) by reflexivity.
      rewrite (Hpass _ piiColumn) by reflexivity.
      rewrite Hpass.
      - unfold duplicateIssues, duplicateScan. rewrite Hr. reflexivity.
      - intros i h. unfold inconsistencyColumn. cbn [fst].
        destruct (isTextColumn _ h); destruct (_ && _); try destruct (findIndex _ _); reflexivity. }
    split; [exact Hiss|].
    pose proof (analyze_overallScore host data) as O. cbv zeta in O. rewrite O.
    rewrite analyze_missingValuesScore, Hr. cbn [List.length Nat.mul].
    assert (M : sum_values (snd (missingPass data)) = 0%nat).
    { assert (L : (sum_values (snd (missingPass data)) <= 0 * List.length (headers data))%nat).
      { rewrite sum_values_weight. apply forEachColumn_weight. intros i h a Ha.
        rewrite Hcol in Ha. cbn in Ha. inversion Ha. lia. }
      lia. }
    rewrite M. reflexivity. }
  destruct K as [Hi Ho].
  split; [exact Hi|]. split; [exact Ho|]. split; [| rewrite Ho; split; reflexivity].
  unfold recommendationsOf. destruct (analyze host data) as [report issues].
  cbn [fst snd] in Hi, Ho. rewrite Hi, Ho. unfold generateRecommendations.
  rewrite Hr. vm_compute. reflexivity.
Qed.

Lemma table_without_rows_witness :
  rows headerOnly = []
  /\ snd (analyze datelessHost headerOnly) = []
  /\ overallScore (fst (analyze datelessHost headerOnly)) = NaN
  /\ recommendationsOf datelessHost headerOnly = [msgExcellent]
  /\ getScoreGrade (overallScore (fst (analyze datelessHost headerOnly))) = "F"
  /\ getScoreColor (overallScore (fst (analyze datelessHost headerOnly))) = "text-red-600".
Proof.
  split; [reflexivity|].
  apply (@table_without_rows_is_excellent_and_fails datelessHost headerOnly). reflexivity.
Defined.

End RecommendationFacts.

(* ================================================================== *)
(** * The report against the issue list *)
(* ================================================================== *)

Module ReportFacts.

Import JS QualityAnalysis Presentation Spec Spec2 Samples TableFacts IssueFacts CountFacts.
Local Open Scope string_scope.

(** *** The kind of the issues of each pass *)

Lemma pass_types (A : Type)
    (body : nat -> string -> list JS.value -> list DetailedIssue * option A) data t :
  (forall i h cs issue, In issue (fst (body i h cs)) -> type issue = t) ->
  Forall (fun issue => type issue = t) (fst (forEachColumn body data)).
Proof.
  intros H. apply Forall_forall. intros issue Hin.
  apply pass_issue_origin in Hin. destruct Hin as (c & h & _ & Hin). eapply H, Hin.
Qed.

Lemma scan_types check cells t :
  (forall r v issue, In issue (check r v) -> type issue = t) ->
  forall issue, In issue (scanColumn check cells) -> type issue = t.
Proof.
  intros H issue Hin. apply scanColumn_In in Hin. destruct Hin as (r & v & _ & Hin).
  eapply H, Hin.
Qed.

Lemma missing_types data : Forall (fun i => type i = missing) (fst (missingPass data)).
Proof.
  apply pass_types. intros i h cs. cbn [fst missingColumn]. apply scan_types.
  intros r v issue. unfold missingCheck. destruct (isMissing v); [| intros []].
  intros [<- | []]. reflexivity.
Qed.

Lemma duplicate_types data : Forall (fun i => type i = duplicate) (duplicateIssues data).
Proof.
  apply Forall_forall. intros issue Hin. unfold duplicateIssues in Hin.
  apply in_map_iff in Hin. destruct Hin as [[[i row] o] [<- _]]. reflexivity.
Qed.

Lemma format_types host data :
  Forall (fun i => type i = invalid_format) (fst (forEachColumn (formatColumn host) data)).
Proof.
  apply pass_types. intros i h cs. cbn [fst formatColumn]. apply scan_types.
  intros r v issue. unfold formatCheck. destruct (nonEmpty v); [| intros []].
  destruct (formatError host _ v); [| intros []]. intros [<- | []]. reflexivity.
Qed.

Lemma range_types host data : Forall (fun i => type i = value_range) (fst (rangePass host data)).
Proof.
  apply pass_types. intros i h cs. cbn [fst rangeColumn]. apply scan_types.
  intros r v issue. unfold rangeCheck. destruct (nonEmpty v); [| intros []].
  destruct (rangeError host h v); [| intros []]. intros [<- | []]. reflexivity.
Qed.

Lemma inconsistency_types host data types :
  Forall (fun i => type i = inconsistent) (fst (inconsistencyPass host data types)).
Proof.
  apply pass_types. intros i h cs issue. unfold inconsistencyColumn. cbn [fst].
  intros Hin. apply in_app_or in Hin. destruct Hin as [Hin | Hin].
  - destruct (isTextColumn types h); [| destruct Hin]. revert issue Hin. apply scan_types.
    intros r v issue. unfold textCheck. destruct v as [s | | |]; try (intros []).
    destruct (negb _); [| intros []]. destruct (textError s); [| intros []].
    intros [<- | []]. reflexivity.
  - destruct (_ && _); [| destruct Hin]. destruct (findIndex _ _); [| destruct Hin].
    revert issue Hin. apply scan_types. intros r v issue. unfold shipCheck. cbv zeta.
    destruct (_ && _); [| intros []]. destruct (_ && _); [| intros []].
    intros [<- | []]. reflexivity.
Qed.

Lemma unusual_types data : Forall (fun i => type i = unusual_pattern) (fst (unusualPass data)).
Proof.
  apply pass_types. intros i h cs. cbn [fst unusualColumn]. apply scan_types.
  intros r v issue. unfold unusualCheck. destruct (nonEmpty v); [| intros []].
  destruct (unusualError h v); [| intros []]. intros [<- | []]. reflexivity.
Qed.

Lemma pii_types data : Forall (fun i => type i = sensitive_data) (fst (piiPass data)).
Proof.
  apply pass_types. intros i h cs. cbn [fst piiColumn]. apply scan_types.
  intros r v issue. unfold piiCheck. destruct (nonEmpty v); [| intros []].
  intros Hin. apply in_map_iff in Hin. destruct Hin as [k [<- _]]. reflexivity.
Qed.

Lemma count_all t l : Forall (fun i => type i = t) l -> countIssues (ofType t) l = List.length l.
Proof.
  intros H. unfold countIssues. induction H as [| i l Hi _ IH]; [reflexivity|].
  cbn [filter]. unfold ofType at 1. rewrite Hi.
  assert (E : IssueType_eqb t t = true) by (destruct t; reflexivity).
  rewrite E. cbn [List.length]. rewrite IH. reflexivity.
Qed.

Lemma count_none t t' l :
  t <> t' -> Forall (fun i => type i = t') l -> countIssues (ofType t) l = 0%nat.
Proof.
  intros Hne H. unfold countIssues. induction H as [| i l Hi _ IH]; [reflexivity|].
  cbn [filter]. unfold ofType at 1. rewrite Hi.
  assert (E : IssueType_eqb t' t = false) by (destruct t, t'; try reflexivity; contradiction).
  rewrite E. exact IH.
Qed.

Lemma count_app p l1 l2 :
  countIssues p (l1 ++ l2) = (countIssues p l1 + countIssues p l2)%nat.
Proof. unfold countIssues. rewrite filter_app, length_app. reflexivity. Qed.

(** *** What a pass stores against what it pushes *)

Lemma stored_counts_pushed (A : Type)
    (body : nat -> string -> list JS.value -> list DetailedIssue * option A)
    (f : nat -> string -> list JS.value -> A) (m : A -> nat) data :
  NoDup (headers data) -> ~ In proto_key (headers data) ->
  (forall i h cs, snd (body i h cs) = Some (f i h cs)) ->
  (forall i h cs, m (f i h cs) = List.length (fst (body i h cs))) ->
  weight m (snd (forEachColumn body data)) = List.length (fst (forEachColumn body data)).
Proof.
  intros ND NP Hs Hm.
  rewrite (@forEachColumn_stored A body data f Hs ND NP), forEachColumn_issues.
  rewrite length_flat_map. unfold weight. rewrite map_map. f_equal.
  apply map_ext. intros [i h]. cbn [fst snd]. apply Hm.
Qed.

Lemma analyze_fields host data :
  let r := fst (analyze host data) in
  missingValues r = snd (missingPass data)
  /\ duplicateRows r = List.length (duplicateRowIndices data)
  /\ formatIssues r = snd (formatPass host data)
  /\ rangeIssues r = snd (rangePass host data)
  /\ inconsistencyIssues r = snd (inconsistencyPass host data (dataTypes r))
  /\ unusualPatterns r = snd (unusualPass data)
  /\ totalRows r = List.length (rows data)
  /\ totalColumns r = List.length (headers data).
Proof.
  unfold analyze.
  destruct (missingPass data) as [i1 mv].
  destruct (formatPass host data) as [[i3 dt] fi].
  destruct (rangePass host data) as [i4 ri].
  cbn [fst snd].
  destruct (inconsistencyPass host data dt) as [i5 ii] eqn:E5.
  destruct (unusualPass data) as [i6 up].
  destruct (piiPass data) as [i7 sd].
  cbn [fst snd missingValues duplicateRows formatIssues rangeIssues inconsistencyIssues
       unusualPatterns totalRows totalColumns dataTypes].
  rewrite E5. repeat split; reflexivity.
Qed.

Lemma formatIssues_total host data :
  NoDup (headers data) -> ~ In proto_key (headers data) ->
  sum_values (snd (formatPass host data))
  = List.length (fst (forEachColumn (formatColumn host) data)).
Proof.
  intros ND NP.
  rewrite <- (@stored_counts_pushed _ (formatColumn host)
             (fun _ h cs => (inferColumnType h cs,
                             List.length (scanColumn (formatCheck host (inferColumnType h cs) h) cs)))
             (fun a => snd a) data ND NP) by reflexivity.
  unfold formatPass. destruct (forEachColumn (formatColumn host) data) as [iss o].
  cbn [snd]. apply (sum_values_map_weight (fun a : ColumnType * nat => snd a)).
Qed.

(** X8.  On a table with distinct headers (none of them [__proto__]) the
    counters of the report agree with the issue list: the per-column
    counts of missing values, format, range, inconsistency and
    unusual-pattern issues add up to the number of issues of that kind,
    [duplicateRows] is the number of duplicate issues, and the seven kinds
    make up the whole list. *)
Theorem report_counters_agree_with_issue_list :
  forall host data,
    NoDup (headers data) -> ~ In proto_key (headers data) ->
    let r := fst (analyze host data) in
    let issues := snd (analyze host data) in
    sum_values (missingValues r) = countIssues (ofType missing) issues
    /\ duplicateRows r = countIssues (ofType duplicate) issues
    /\ sum_values (formatIssues r) = countIssues (ofType invalid_format) issues
    /\ sum_values (rangeIssues r) = countIssues (ofType value_range) issues
    /\ sum_values (inconsistencyIssues r) = countIssues (ofType inconsistent) issues
    /\ sum_values (unusualPatterns r) = countIssues (ofType unusual_pattern) issues
    /\ (List.length issues =
        countIssues (ofType missing) issues + countIssues (ofType duplicate) issues
        + countIssues (ofType invalid_format) issues + countIssues (ofType value_range) issues
        + countIssues (ofType inconsistent) issues + countIssues (ofType unusual_pattern) issues
        + countIssues (ofType sensitive_data) issues)%nat.
Proof.
  intros host data ND NP r issues.
  pose proof (analyze_fields host data) as F. cbv zeta in F. fold r in F.
  destruct F as (Fm & Fd & Ff & Fr & Fi & Fu & _ & _).
  pose proof (missing_types data) as T1. pose proof (duplicate_types data) as T2.
  pose proof (format_types host data) as T3. pose proof (range_types host data) as T4.
  pose proof (inconsistency_types host data (dataTypes r)) as T5.
  pose proof (unusual_types data) as T6. pose proof (pii_types data) as T7.
  assert (C : forall t,
    countIssues (ofType t) issues =
    (countIssues (ofType t) (fst (missingPass data))
     + countIssues (ofType t) (duplicateIssues data)
     + countIssues (ofType t) (fst (forEachColumn (formatColumn host) data))
     + countIssues (ofType t) (fst (rangePass host data))
     + countIssues (ofType t) (fst (inconsistencyPass host data (dataTypes r)))
     + countIssues (ofType t) (fst (unusualPass data))
     + countIssues (ofType t) (fst (piiPass data)))%nat).
  { intros t. unfold issues. rewrite analyze_issues, !count_app. fold r. lia. }
  assert (S1 : sum_values (missingValues r) = List.length (fst (missingPass data))).
  { rewrite Fm, sum_values_weight. unfold missingPass.
    apply (@stored_counts_pushed nat missingColumn
             (fun _ h cs => List.length (scanColumn (missingCheck h) cs))); auto. }
  assert (S2 : duplicateRows r = List.length (duplicateIssues data)).
  { rewrite Fd. unfold duplicateRowIndices, duplicateIssues. rewrite !length_map. reflexivity. }
  assert (S3 : sum_values (formatIssues r)
               = List.length (fst (forEachColumn (formatColumn host) data))).
  { rewrite Ff. apply formatIssues_total; assumption. }
  assert (S4 : sum_values (rangeIssues r) = List.length (fst (rangePass host data))).
  { rewrite Fr, sum_values_weight. unfold rangePass.
    apply (@stored_counts_pushed nat (rangeColumn host)
             (fun _ h cs => List.length (scanColumn (rangeCheck host h) cs))); auto. }
  assert (S5 : sum_values (inconsistencyIssues r)
               = List.length (fst (inconsistencyPass host data (dataTypes r)))).
  { rewrite Fi, sum_values_weight. unfold inconsistencyPass.
    apply (@stored_counts_pushed nat (inconsistencyColumn host data (dataTypes r))
             (fun i h cs =>
                match snd (inconsistencyColumn host data (dataTypes r) i h cs) with
                | Some n => n | None => 0%nat end)); auto.
    intros i h cs. unfold inconsistencyColumn. cbn [fst snd]. rewrite length_app. reflexivity. }
  assert (S6 : sum_values (unusualPatterns r) = List.length (fst (unusualPass data))).
  { rewrite Fu, sum_values_weight. unfold unusualPass.
    apply (@stored_counts_pushed nat unusualColumn
             (fun _ h cs => List.length (scanColumn (unusualCheck h) cs))); auto. }
  assert (K : forall t,
     ((countIssues (ofType t) (fst (missingPass data)) =
        if IssueType_eqb t missing then List.length (fst (missingPass data)) else 0)
     /\ (countIssues (ofType t) (duplicateIssues data) =
        if IssueType_eqb t duplicate then List.length (duplicateIssues data) else 0)
     /\ (countIssues (ofType t) (fst (forEachColumn (formatColumn host) data)) =
        if IssueType_eqb t invalid_format
        then List.length (fst (forEachColumn (formatColumn host) data)) else 0)
     /\ (countIssues (ofType t) (fst (rangePass host data)) =
        if IssueType_eqb t value_range then List.length (fst (rangePass host data)) else 0)
     /\ (countIssues (ofType t) (fst (inconsistencyPass host data (dataTypes r))) =
        if IssueType_eqb t inconsistent
        then List.length (fst (inconsistencyPass host data (dataTypes r))) else 0)
     /\ (countIssues (ofType t) (fst (unusualPass data)) =
        if IssueType_eqb t unusual_pattern then List.length (fst (unusualPass data)) else 0)
     /\ (countIssues (ofType t) (fst (piiPass data)) =
        if IssueType_eqb t sensitive_data then List.length (fst (piiPass data)) else 0))%nat).
  { intros t. repeat split;
      match goal with
      | |- countIssues (ofType t) ?l = if IssueType_eqb t ?k then _ else _ =>
          destruct t; cbn [IssueType_eqb];
          first [ apply count_all; assumption
                | eapply count_none; [| eassumption]; discriminate ]
      end. }
  rewrite S1, S2, S3, S4, S5, S6, !C.
  destruct (K missing) as (M1 & M2 & M3 & M4 & M5 & M6 & M7).
  destruct (K duplicate) as (D1 & D2 & D3 & D4 & D5 & D6 & D7).
  destruct (K invalid_format) as (F1 & F2 & F3 & F4 & F5 & F6 & F7).
  destruct (K value_range) as (R1 & R2 & R3 & R4 & R5 & R6 & R7).
  destruct (K inconsistent) as (I1 & I2 & I3 & I4 & I5 & I6 & I7).
  destruct (K unusual_pattern) as (U1 & U2 & U3 & U4 & U5 & U6 & U7).
  destruct (K sensitive_data) as (P1 & P2 & P3 & P4 & P5 & P6 & P7).
  cbn [IssueType_eqb] in *.
  assert (L : List.length issues =
    (List.length (fst (missingPass data)) + List.length (duplicateIssues data)
     + List.length (fst (forEachColumn (formatColumn host) data))
     + List.length (fst (rangePass host data))
     + List.length (fst (inconsistencyPass host data (dataTypes r)))
     + List.length (fst (unusualPass data)) + List.length (fst (piiPass data)))%nat).
  { unfold issues. rewrite analyze_issues, !length_app. fold r. lia. }
  repeat split; lia.
Qed.


Lemma report_counters_witness :
  let r := fst (analyze datelessHost gaps) in
  let issues := snd (analyze datelessHost gaps) in
  (NoDup (headers gaps) /\ ~ In proto_key (headers gaps))
  /\ sum_values (missingValues r) = countIssues (ofType missing) issues
  /\ duplicateRows r = countIssues (ofType duplicate) issues
  /\ sum_values (formatIssues r) = countIssues (ofType invalid_format) issues
  /\ sum_values (rangeIssues r) = countIssues (ofType value_range) issues
  /\ sum_values (inconsistencyIssues r) = countIssues (ofType inconsistent) issues
  /\ sum_values (unusualPatterns r) = countIssues (ofType unusual_pattern) issues
  /\ (List.length issues =
      countIssues (ofType missing) issues + countIssues (ofType duplicate) issues
      + countIssues (ofType invalid_format) issues + countIssues (ofType value_range) issues
      + countIssues (ofType inconsistent) issues + countIssues (ofType unusual_pattern) issues
      + countIssues (ofType sensitive_data) issues)%nat.
Proof.
  intros r issues.
  assert (ND : NoDup (headers gaps)).
  { cbn. repeat constructor; cbn; intuition discriminate. }
  assert (NP : ~ In proto_key (headers gaps)) by (cbn; intuition discriminate).
  split; [split; assumption|].
  apply (@report_counters_agree_with_issue_list datelessHost gaps ND NP).
Defined.

(** *** Columns typed as e-mail *)

Lemma pass_issue_intro (A : Type)
    (body : nat -> string -> list JS.value -> list DetailedIssue * option A)
    data colIndex header issue :
  nth_error (headers data) colIndex = Some header ->
  In issue (fst (body colIndex header (columnData data colIndex))) ->
  In issue (fst (forEachColumn body data)).
Proof.
  intros Hh Hin. rewrite forEachColumn_issues, in_flat_map.
  exists (colIndex, header). split; [apply In_indexed, Hh | exact Hin].
Qed.

Lemma columnData_nth data colIndex r :
  (r < List.length (rows data))%nat ->
  nth_error (columnData data colIndex) r = Some (cellAt data r colIndex).
Proof.
  intros Hr. unfold columnData, cellAt. rewrite nth_error_map.
  rewrite (nth_error_nth' _ [] Hr). reflexivity.
Qed.

(** X9.  A column typed as e-mail can never be clean: each of its cells
    that is not blank raises an issue in its row and column, a format
    issue when the cell does not look like an address and a
    sensitive-data issue when it does. *)
Theorem email_cells_always_raise_an_issue :
  forall host data colIndex header r,
    nth_error (headers data) colIndex = Some header ->
    inferColumnType header (columnData data colIndex) = email ->
    (r < List.length (rows data))%nat ->
    nonEmpty (cellAt data r colIndex) = true ->
    exists issue,
      In issue (snd (analyze host data))
      /\ rowIndex issue = r /\ column issue = header
      /\ value issue = CellValue (cellAt data r colIndex)
      /\ type issue =
         if Regex.test Regex.emailPattern (String_of (cellAt data r colIndex))
         then sensitive_data else invalid_format.
Proof.
  intros host data colIndex header r Hh Hty Hr Hne.
  set (v := cellAt data r colIndex) in *.
  pose proof (columnData_nth data colIndex Hr) as Hn. fold v in Hn.
  rewrite analyze_issues.
  destruct (Regex.test Regex.emailPattern (String_of v)) eqn:Em.
  - exists (piiIssue header r v PIIEmail). split; [| repeat split].
    do 6 (apply in_or_app; right).
    apply (@pass_issue_intro _ piiColumn data colIndex header _ Hh).
    cbn [fst piiColumn]. apply scanColumn_In. exists r, v. split; [exact Hn|].
    unfold piiCheck. rewrite Hne. apply in_map. unfold piiMatches. rewrite Em.
    left. reflexivity.
  - exists (formatIssue header r v
              ("Invalid email format: " ++ quoted v ++ " - missing @ or domain")).
    split; [| repeat split].
    do 2 (apply in_or_app; right). apply in_or_app. left.
    apply (@pass_issue_intro _ (formatColumn host) data colIndex header _ Hh).
    cbn [fst formatColumn]. rewrite Hty. apply scanColumn_In. exists r, v.
    split; [exact Hn|]. unfold formatCheck. rewrite Hne. cbn [formatError]. rewrite Em.
    left. reflexivity.
Qed.

Lemma email_cells_witness :
  let data := table ["email"] [[VStr "someone"]] in
  exists issue,
    In issue (snd (analyze datelessHost data))
    /\ rowIndex issue = 0%nat /\ column issue = "email"
    /\ value issue = CellValue (cellAt data 0 0)
    /\ type issue =
       if Regex.test Regex.emailPattern (String_of (cellAt data 0 0))
       then sensitive_data else invalid_format.
Proof.
  intros data.
  apply (@email_cells_always_raise_an_issue datelessHost data 0 "email" 0).
  - reflexivity.
  - vm_compute. reflexivity.
  - cbn. lia.
  - reflexivity.
Defined.

End ReportFacts.

(* ================================================================== *)
(** * Removing duplicates *)
(* ================================================================== *)

Module DedupFacts.

Import JS QualityAnalysis Spec Spec2 Samples NumberFacts TableFacts DuplicateFacts.
Local Open Scope string_scope.

Lemma scanDuplicates_indices l seenRows i :
  In i (map (fun d => fst (fst d)) (scanDuplicates l seenRows)) -> In i (map fst l).
Proof.
  revert seenRows. induction l as [| [j row] l IH]; intros seenRows; cbn [scanDuplicates map fst].
  - intros [].
  - destruct (obj_get (JSON_stringify row) seenRows); cbn [map fst].
    + intros [E | H]; [left; exact E | right; eapply IH, H].
    + intros H. right. eapply IH, H.
Qed.

Lemma In_combine_seq_ge (A : Type) (l : list A) s i :
  In i (map fst (combine (seq s (List.length l)) l)) -> (s <= i)%nat.
Proof.
  rewrite map_fst_combine_seq. intros H. apply in_seq in H. lia.
Qed.

(** The filter of the cleaner and the scan of the analysis go through the
    rows with the same keys in their maps: the cleaner keeps a row exactly
    when the analysis does not flag it. *)
Lemma filterUnique_unflagged rs : forall s seenRows uniqueRows,
  (forall key, obj_get key seenRows <> None <-> existsb (String.eqb key) uniqueRows = true) ->
  DataCleaning.filterUnique rs uniqueRows =
  map snd
    (filter
       (fun ir => negb (existsb (Nat.eqb (fst ir))
                          (map (fun d => fst (fst d))
                             (scanDuplicates (combine (seq s (List.length rs)) rs) seenRows))))
       (combine (seq s (List.length rs)) rs)).
Proof.
  induction rs as [| row rs IH]; intros s seenRows uniqueRows Inv; [reflexivity|].
  cbn [DataCleaning.filterUnique List.length seq combine scanDuplicates].
  destruct (existsb (String.eqb (JSON_stringify row)) uniqueRows) eqn:Eu.
  - destruct (obj_get (JSON_stringify row) seenRows) as [o |] eqn:Eg.
    2:{ exfalso. apply Inv in Eu. apply Eu, Eg. }
    cbn [map fst filter existsb]. rewrite Nat.eqb_refl. cbn [orb negb].
    rewrite (IH (S s) seenRows uniqueRows Inv). f_equal.
    apply filter_ext_in. intros [i r] Hin. cbn [fst].
    assert (Hi : (S s <= i)%nat).
    { apply In_combine_seq_ge with (l := rs). apply (in_map fst) in Hin. exact Hin. }
    destruct (Nat.eqb_spec i s); [lia | reflexivity].
  - destruct (obj_get (JSON_stringify row) seenRows) as [o |] eqn:Eg.
    1:{ exfalso. assert (H : obj_get (JSON_stringify row) seenRows <> None) by congruence.
        apply Inv in H. congruence. }
    cbn [filter fst].
    assert (Hs : existsb (Nat.eqb s)
                   (map (fun d => fst (fst d))
                      (scanDuplicates (combine (seq (S s) (List.length rs)) rs)
                         ((JSON_stringify row, s) :: seenRows))) = false).
    { match goal with |- ?X = false => destruct X eqn:E end; [| reflexivity]. exfalso.
      apply existsb_exists in E. destruct E as [i [Hin Hi]]. apply Nat.eqb_eq in Hi. subst i.
      apply scanDuplicates_indices, In_combine_seq_ge in Hin. lia. }
    rewrite Hs. cbn [negb map snd]. f_equal.
    apply IH. intros key. cbn [obj_get existsb].
    destruct (String.eqb_spec (JSON_stringify row) key) as [E | NE].
    + subst key. rewrite String.eqb_refl. cbn. split; [reflexivity | discriminate].
    + assert (N : String.eqb key (JSON_stringify row) = false) by (apply String.eqb_neq; congruence).
      rewrite N. cbn [orb]. apply Inv.
Qed.

Lemma filterUnique_length rs : forall (l : list nat) seenRows uniqueRows,
  List.length l = List.length rs ->
  (forall key, obj_get key seenRows <> None <-> existsb (String.eqb key) uniqueRows = true) ->
  (List.length (DataCleaning.filterUnique rs uniqueRows)
   + List.length (scanDuplicates (combine l rs) seenRows) = List.length rs)%nat.
Proof.
  induction rs as [| row rs IH]; intros [| i l] seenRows uniqueRows Hl Inv;
    try discriminate Hl; [reflexivity|].
  cbn [DataCleaning.filterUnique List.length combine scanDuplicates].
  injection Hl as Hl.
  destruct (existsb (String.eqb (JSON_stringify row)) uniqueRows) eqn:Eu.
  - destruct (obj_get (JSON_stringify row) seenRows) as [o |] eqn:Eg.
    2:{ exfalso. apply Inv in Eu. apply Eu, Eg. }
    cbn [List.length]. specialize (IH l seenRows uniqueRows Hl Inv). lia.
  - destruct (obj_get (JSON_stringify row) seenRows) as [o |] eqn:Eg.
    1:{ exfalso. assert (H : obj_get (JSON_stringify row) seenRows <> None) by congruence.
        apply Inv in H. congruence. }
    cbn [List.length]. rewrite <- (IH l ((JSON_stringify row, i) :: seenRows)
                                      (JSON_stringify row :: uniqueRows) Hl); [lia|].
    intros key. cbn [obj_get existsb].
    destruct (String.eqb_spec (JSON_stringify row) key) as [E | NE].
    + subst key. rewrite String.eqb_refl. cbn. split; [reflexivity | discriminate].
    + assert (N : String.eqb key (JSON_stringify row) = false) by (apply String.eqb_neq; congruence).
      rewrite N. cbn [orb]. apply Inv.
Qed.

(** No row that the cleaner kept is flagged by a later scan. *)
Lemma scan_after_filterUnique rs : forall (l : list nat) seenRows uniqueRows,
  (forall key, obj_get key seenRows <> None -> existsb (String.eqb key) uniqueRows = true) ->
  scanDuplicates (combine l (DataCleaning.filterUnique rs uniqueRows)) seenRows = [].
Proof.
  induction rs as [| row rs IH]; intros l seenRows uniqueRows Inv.
  - destruct l; reflexivity.
  - cbn [DataCleaning.filterUnique].
    destruct (existsb (String.eqb (JSON_stringify row)) uniqueRows) eqn:Eu; [apply IH, Inv|].
    destruct l as [| i l]; [reflexivity|]. cbn [combine scanDuplicates].
    destruct (obj_get (JSON_stringify row) seenRows) as [o |] eqn:Eg.
    1:{ exfalso. assert (H : obj_get (JSON_stringify row) seenRows <> None) by congruence.
        apply Inv in H. congruence. }
    apply IH. intros key. cbn [obj_get existsb].
    destruct (String.eqb_spec (JSON_stringify row) key) as [E | NE].
    + subst key. rewrite String.eqb_refl. reflexivity.
    + intros H. apply Inv in H. rewrite H. apply orb_true_r.
Qed.

(** Every row has a kept row with the same serialised form, unless the form
    was already in the map. *)
Lemma filterUnique_represents rs : forall uniqueRows row,
  In row rs ->
  existsb (String.eqb (JSON_stringify row)) uniqueRows = true
  \/ exists kept, In kept (DataCleaning.filterUnique rs uniqueRows)
                  /\ JSON_stringify kept = JSON_stringify row.
Proof.
  induction rs as [| r rs IH]; intros uniqueRows row Hin; [destruct Hin|].
  cbn [DataCleaning.filterUnique].
  destruct (existsb (String.eqb (JSON_stringify r)) uniqueRows) eqn:Eu.
  - destruct Hin as [-> | Hin]; [left; exact Eu | apply IH, Hin].
  - destruct Hin as [-> | Hin].
    + right. exists row. split; [left; reflexivity | reflexivity].
    + destruct (IH (JSON_stringify r :: uniqueRows) row Hin) as [H | (kept & Hk & Ek)].
      * cbn [existsb] in H. apply orb_true_iff in H. destruct H as [H | H]; [| left; exact H].
        apply String.eqb_eq in H. right. exists r. split; [left; reflexivity | congruence].
      * right. exists kept. split; [right; exact Hk | exact Ek].
Qed.

Lemma empty_maps_agree :
  forall key, obj_get key (@nil (string * nat)) <> None <-> existsb (String.eqb key) [] = true.
Proof. intros key. cbn. split; [intros H; contradiction | discriminate]. Qed.

(** X10.  Removing duplicates in the cleaner undoes exactly what the
    analysis flags: the step keeps the headers, keeps the rows whose index
    the analysis did not flag (so it removes as many rows as the analysis
    counted), keeps for every row of the input a row with the same
    serialised form, and leaves a table in which the analysis finds no
    duplicate. *)
Theorem remove_duplicates_clears_flagged_rows :
  forall data step,
    DataCleaning.type (DataCleaning.operation step) = DataCleaning.remove_duplicates ->
    let out := DataCleaning.applyStep data step in
    headers out = headers data
    /\ rows out = unflaggedRows data
    /\ (List.length (rows out) + List.length (duplicateRowIndices data)
        = List.length (rows data))%nat
    /\ (forall row, In row (rows data) ->
          exists kept, In kept (rows out) /\ JSON_stringify kept = JSON_stringify row)
    /\ duplicateRowIndices out = []
    /\ duplicateIssues out = [].
Proof.
  intros data step Hty out. unfold out, DataCleaning.applyStep. rewrite Hty.
  cbn [headers rows DataCleaning.with_rows].
  split; [reflexivity|]. split; [| split; [| split; [| split]]].
  - unfold unflaggedRows, duplicateRowIndices, duplicateScan, indexed.
    apply filterUnique_unflagged, empty_maps_agree.
  - unfold duplicateRowIndices, duplicateScan, indexed. rewrite length_map.
    apply filterUnique_length; [apply length_seq | apply empty_maps_agree].
  - intros row Hin. destruct (filterUnique_represents (rows data) [] row Hin) as [H | H];
      [discriminate H | exact H].
  - unfold duplicateRowIndices, duplicateScan, indexed. cbn [rows DataCleaning.with_rows].
    rewrite scan_after_filterUnique; [reflexivity | intros key H; contradiction].
  - unfold duplicateIssues, duplicateScan, indexed. cbn [rows DataCleaning.with_rows].
    rewrite scan_after_filterUnique; [reflexivity | intros key H; contradiction].
Qed.

Lemma remove_duplicates_witness :
  let step :=
    {| DataCleaning.id := "remove_duplicates";
       DataCleaning.title := "Remove Duplicate Rows";
       DataCleaning.issues := 2;
       DataCleaning.operation :=
         {| DataCleaning.type := DataCleaning.remove_duplicates;
            DataCleaning.column := None;
            DataCleaning.value := VUndef;
            DataCleaning.description := "Remove 2 duplicate rows" |};
       DataCleaning.applied := true;
       DataCleaning.affectedRows := [2; 4]%nat;
       DataCleaning.affectedColumns := ["k"];
       DataCleaning.selectedRows := None |} in
  let out := DataCleaning.applyStep abaca step in
  headers out = headers abaca
  /\ rows out = unflaggedRows abaca
  /\ (List.length (rows out) + List.length (duplicateRowIndices abaca)
      = List.length (rows abaca))%nat
  /\ (forall row, In row (rows abaca) ->
        exists kept, In kept (rows out) /\ JSON_stringify kept = JSON_stringify row)
  /\ duplicateRowIndices out = []
  /\ duplicateIssues out = [].
Proof.
  intros step. apply (@remove_duplicates_clears_flagged_rows abaca step). reflexivity.
Defined.

End DedupFacts.

(* ================================================================== *)
(** * The steps the cleaner offers *)
(* ================================================================== *)

Module BuilderFacts.

Import JS DataCleaning StepBuilder Spec Spec2 Samples TableFacts CleaningFacts.
Local Open Scope string_scope.

(** *** Row indices picked by a test *)

Lemma rowIndicesWhere_In p rs i :
  In i (rowIndicesWhere p rs) <-> exists row, nth_error rs i = Some row /\ p row = true.
Proof.
  unfold rowIndicesWhere. rewrite in_map_iff. split.
  - intros [[j row] [E Hin]]. cbn in E. subst j. apply filter_In in Hin.
    destruct Hin as [Hin Hp]. apply In_indexed in Hin. exists row. split; assumption.
  - intros [row [Hn Hp]]. exists (i, row). split; [reflexivity|].
    apply filter_In. split; [apply In_indexed, Hn | exact Hp].
Qed.

Lemma rowIndicesWhere_bound p rs i : In i (rowIndicesWhere p rs) -> (i < List.length rs)%nat.
Proof.
  intros H. apply rowIndicesWhere_In in H. destruct H as [row [Hn _]].
  apply nth_error_Some. congruence.
Qed.

Lemma rowIndicesWhere_has p rs i :
  existsb (Nat.eqb i) (rowIndicesWhere p rs) =
  match nth_error rs i with Some row => p row | None => false end.
Proof.
  destruct (existsb (Nat.eqb i) (rowIndicesWhere p rs)) eqn:E.
  - apply existsb_eqb_In, rowIndicesWhere_In in E. destruct E as [row [-> Hp]]. symmetry. exact Hp.
  - destruct (nth_error rs i) as [row |] eqn:Hn; [| reflexivity].
    destruct (p row) eqn:Hp; [| reflexivity].
    assert (H : In i (rowIndicesWhere p rs)) by (apply rowIndicesWhere_In; eauto).
    apply existsb_eqb_In in H. congruence.
Qed.

Lemma rowIndicesWhere_nil p rs :
  rowIndicesWhere p rs = [] <-> forall row, In row rs -> p row = false.
Proof.
  split.
  - intros E row Hin. destruct (p row) eqn:Hp; [| reflexivity]. exfalso.
    apply In_nth_error in Hin. destruct Hin as [i Hi].
    assert (H : In i (rowIndicesWhere p rs)) by (apply rowIndicesWhere_In; eauto).
    rewrite E in H. destruct H.
  - intros H. destruct (rowIndicesWhere p rs) as [| i l] eqn:E; [reflexivity|]. exfalso.
    assert (Hi : In i (rowIndicesWhere p rs)) by (rewrite E; left; reflexivity).
    apply rowIndicesWhere_In in Hi. destruct Hi as [row [Hn Hp]].
    rewrite (H row) in Hp; [discriminate | eapply nth_error_In, Hn].
Qed.

Lemma indexOf_Some l x c : indexOf l x = Some c -> nth_error l c = Some x.
Proof.
  revert c. induction l as [| h t IH]; intros c; cbn [indexOf]; [discriminate|].
  destruct (String.eqb_spec h x) as [-> | NE].
  - intros E. inversion E. reflexivity.
  - destruct (indexOf t x) as [c' |]; cbn; [| discriminate].
    intros E. inversion E. cbn. apply IH. reflexivity.
Qed.

Lemma indexOf_In l x : In x l -> exists c, indexOf l x = Some c.
Proof.
  induction l as [| h t IH]; intros Hin; [destruct Hin|]. cbn [indexOf].
  destruct (String.eqb_spec h x) as [-> | NE]; [eexists; reflexivity|].
  destruct Hin as [E | Hin]; [contradiction|].
  destruct (IH Hin) as [c ->]. eexists. reflexivity.
Qed.

(** *** The duplicate scan of the cleaner is the one of the analysis *)

Lemma scanCopies_scanDuplicates l seenRows :
  scanCopies l seenRows =
  map (fun d => fst (fst d)) (QualityAnalysis.scanDuplicates l seenRows).
Proof.
  revert seenRows. induction l as [| [i row] l IH]; intros seenRows; [reflexivity|].
  cbn [scanCopies QualityAnalysis.scanDuplicates].
  destruct (obj_get (JSON_stringify row) seenRows); cbn [map fst]; rewrite IH; reflexivity.
Qed.

Lemma scans_agree data :
  StepBuilder.duplicateRowIndices data = QualityAnalysis.duplicateRowIndices data.
Proof. apply scanCopies_scanDuplicates. Qed.

(** X11.  The cleaner offers its duplicates step exactly when the report of
    the analysis counts duplicate rows; the step then lists the row
    indices the analysis flagged and its issue count is the report's
    [duplicateRows]. *)
Theorem duplicate_step_matches_report :
  forall host data,
    let report := fst (QualityAnalysis.analyze host data) in
    match duplicateSteps data with
    | [] => QualityAnalysis.duplicateRows report = 0%nat
    | [step] =>
        affectedRows step = QualityAnalysis.duplicateRowIndices data
        /\ issues step = QualityAnalysis.duplicateRows report
        /\ (0 < issues step)%nat
        /\ type (operation step) = remove_duplicates
    | _ => False
    end.
Proof.
  intros host data report.
  assert (E : QualityAnalysis.duplicateRows report
              = List.length (QualityAnalysis.duplicateRowIndices data)).
  { unfold report, QualityAnalysis.analyze.
    destruct (QualityAnalysis.missingPass data) as [i1 mv].
    destruct (QualityAnalysis.formatPass host data) as [[i3 dt] fi].
    destruct (QualityAnalysis.rangePass host data) as [i4 ri].
    destruct (QualityAnalysis.inconsistencyPass host data dt) as [i5 ii].
    destruct (QualityAnalysis.unusualPass data) as [i6 up].
    destruct (QualityAnalysis.piiPass data) as [i7 sd].
    reflexivity. }
  unfold duplicateSteps. rewrite scans_agree.
  destruct (Nat.ltb_spec 0 (List.length (QualityAnalysis.duplicateRowIndices data))) as [L | L].
  - cbn [affectedRows issues operation type]. repeat split; auto.
  - lia.
Qed.


(** *** The steps as built *)

Lemma In_fillStepFor data h step :
  In step (fillStepFor data h) ->
  let missingRowIndices :=
    rowIndicesWhere (fun row => isEmptyCell (readAt row (indexOf (headers data) h))) (rows data) in
  missingRowIndices <> []
  /\ step =
     {| id := "fill_missing_" ++ h;
        title := "Fill Missing Values in " ++ dquote ++ h ++ dquote;
        issues := List.length missingRowIndices;
        operation :=
          {| type := fill_missing;
             column := Some h;
             value := suggestValue
                        (filter (fun val => negb (isEmptyCell val))
                           (map (fun row => readAt row (indexOf (headers data) h)) (rows data)));
             description := "Fill missing values in " ++ h |};
        applied := false;
        affectedRows := missingRowIndices;
        affectedColumns := [h];
        selectedRows := Some [] |}.
Proof.
  unfold fillStepFor. cbv zeta.
  destruct (rowIndicesWhere _ (rows data)) as [| i l]; cbn [List.length Nat.ltb Nat.leb].
  - intros [].
  - intros [<- | []]. split; [discriminate | reflexivity].
Qed.

Lemma In_outlierStepFor data h step :
  In step (outlierStepFor data h) ->
  let colIndex := indexOf (headers data) h in
  let numericValues := numbersOf (map (fun row => readAt row colIndex) (rows data)) in
  let bounds := fences (sortNumbers numericValues) in
  let outlierItems :=
    rowIndicesWhere (fun row => isOutlier (fst bounds) (snd bounds) (readAt row colIndex))
      (rows data) in
  (4 < List.length numericValues)%nat
  /\ outlierItems <> []
  /\ step =
     {| id := "remove_outliers_" ++ h;
        title := "Remove Outliers from " ++ dquote ++ h ++ dquote;
        issues := List.length outlierItems;
        operation :=
          {| type := remove_outliers;
             column := Some h;
             value := VUndef;
             description :=
               "Remove " ++ dec_of_nat (List.length outlierItems) ++ " outliers from " ++ h |};
        applied := false;
        affectedRows := outlierItems;
        affectedColumns := [h];
        selectedRows := None |}.
Proof.
  unfold outlierStepFor. cbv zeta.
  destruct (Nat.ltb_spec 4 (List.length (numbersOf
              (map (fun row => readAt row (indexOf (headers data) h)) (rows data))))) as [L | L];
    [| intros []].
  destruct (fences _) as [lo hi]. cbn [fst snd].
  destruct (rowIndicesWhere _ (rows data)) as [| i l]; cbn [List.length Nat.ltb Nat.leb].
  - intros [].
  - intros [<- | []]. split; [exact L|]. split; [discriminate | reflexivity].
Qed.

Lemma In_standardizeStepFor data h step :
  In step (standardizeStepFor data h) ->
  let inconsistentRows :=
    rowIndicesWhere (fun row => isInconsistentText (readAt row (indexOf (headers data) h)))
      (rows data) in
  inconsistentRows <> []
  /\ step =
     {| id := "standardize_" ++ h;
        title := "Standardize Text in " ++ dquote ++ h ++ dquote;
        issues := List.length inconsistentRows;
        operation :=
          {| type := standardize;
             column := Some h;
             value := VUndef;
             description :=
               "Standardize " ++ dec_of_nat (List.length inconsistentRows)
               ++ " text values in " ++ h |};
        applied := false;
        affectedRows := inconsistentRows;
        affectedColumns := [h];
        selectedRows := None |}.
Proof.
  unfold standardizeStepFor. cbv zeta.
  destruct (rowIndicesWhere _ (rows data)) as [| i l]; cbn [List.length Nat.ltb Nat.leb].
  - intros [].
  - intros [<- | []]. split; [discriminate | reflexivity].
Qed.

Lemma length_pos (A : Type) (l : list A) : l <> [] -> (0 < List.length l)%nat.
Proof. destruct l; [contradiction | cbn; lia]. Qed.

Lemma Forall_rowIndicesWhere p rs :
  Forall (fun r => (r < List.length rs)%nat) (rowIndicesWhere p rs).
Proof. apply Forall_forall. intros r. apply rowIndicesWhere_bound. Qed.

Lemma unapplied_steps_apply data steps :
  Forall (fun step => applied step = false) steps ->
  applyAllSelectedSteps data steps =
  {| headers := headers data; rows := rows data; filename := "cleaned_" ++ filename data |}.
Proof.
  intros H. unfold applyAllSelectedSteps.
  assert (E : filter applied steps = []).
  { induction H as [| step steps Hs _ IH]; [reflexivity|]. cbn [filter]. rewrite Hs. exact IH. }
  rewrite E. reflexivity.
Qed.

(** Among the offered steps only the duplicates step names no column. *)
Lemma offered_step_column data step :
  In step (analyzeDataAndCreateSteps data) ->
  type (operation step) = remove_duplicates -> column (operation step) = None.
Proof.
  intros Hin. unfold analyzeDataAndCreateSteps in Hin.
  repeat (apply in_app_or in Hin; destruct Hin as [Hin | Hin]).
  - unfold duplicateSteps in Hin. destruct (Nat.ltb _ _); [| destruct Hin].
    destruct Hin as [<- | []]. reflexivity.
  - apply in_flat_map in Hin. destruct Hin as [h [_ Hin]].
    apply In_fillStepFor in Hin. cbv zeta in Hin. destruct Hin as [_ ->]. discriminate.
  - apply in_flat_map in Hin. destruct Hin as [h [_ Hin]].
    apply In_outlierStepFor in Hin. cbv zeta in Hin. destruct Hin as (_ & _ & ->). discriminate.
  - apply in_flat_map in Hin. destruct Hin as [h [_ Hin]].
    apply In_standardizeStepFor in Hin. cbv zeta in Hin. destruct Hin as (_ & ->). discriminate.
Qed.

(** X12.  Every step the cleaner offers is switched off, counts exactly the
    rows it lists, lists at least one row and only rows of the table; a
    duplicates step names no column, every other step names one header of
    the table; fill steps start with an empty selection; no step of kind
    [fix_format] or [handle_sensitive] is ever offered.  Applying the list
    as offered therefore leaves headers and rows as they are. *)
Theorem offered_steps_are_consistent :
  forall data,
    (forall step,
       In step (analyzeDataAndCreateSteps data) ->
       applied step = false
       /\ issues step = List.length (affectedRows step)
       /\ (0 < issues step)%nat
       /\ Forall (fun r => (r < List.length (rows data))%nat) (affectedRows step)
       /\ match type (operation step) with
          | remove_duplicates =>
              column (operation step) = None /\ affectedColumns step = headers data
              /\ selectedRows step = None
          | fill_missing =>
              exists h, In h (headers data) /\ column (operation step) = Some h
                        /\ affectedColumns step = [h] /\ selectedRows step = Some []
          | remove_outliers | standardize =>
              exists h, In h (headers data) /\ column (operation step) = Some h
                        /\ affectedColumns step = [h] /\ selectedRows step = None
          | fix_format | handle_sensitive => False
          end)
    /\ applyAllSelectedSteps data (analyzeDataAndCreateSteps data) =
       {| headers := headers data; rows := rows data;
          filename := "cleaned_" ++ filename data |}.
Proof.
  intros data.
  assert (F : forall step,
       In step (analyzeDataAndCreateSteps data) ->
       applied step = false
       /\ issues step = List.length (affectedRows step)
       /\ (0 < issues step)%nat
       /\ Forall (fun r => (r < List.length (rows data))%nat) (affectedRows step)
       /\ match type (operation step) with
          | remove_duplicates =>
              column (operation step) = None /\ affectedColumns step = headers data
              /\ selectedRows step = None
          | fill_missing =>
              exists h, In h (headers data) /\ column (operation step) = Some h
                        /\ affectedColumns step = [h] /\ selectedRows step = Some []
          | remove_outliers | standardize =>
              exists h, In h (headers data) /\ column (operation step) = Some h
                        /\ affectedColumns step = [h] /\ selectedRows step = None
          | fix_format | handle_sensitive => False
          end).
  { intros step Hin. unfold analyzeDataAndCreateSteps in Hin.
    repeat (apply in_app_or in Hin; destruct Hin as [Hin | Hin]).
    - unfold duplicateSteps in Hin.
      destruct (Nat.ltb_spec 0 (List.length (StepBuilder.duplicateRowIndices data))) as [L | L];
        [| destruct Hin].
      destruct Hin as [<- | []]. cbn [applied issues affectedRows operation type column
                                       affectedColumns selectedRows].
      repeat split; try assumption.
      apply Forall_forall. intros r Hr. rewrite scans_agree in Hr.
      apply DuplicateFacts.duplicateRowIndices_In in Hr. apply Hr.
    - apply in_flat_map in Hin. destruct Hin as [h [Hh Hin]].
      apply In_fillStepFor in Hin. cbv zeta in Hin. destruct Hin as [Hne ->].
      cbn [applied issues affectedRows operation type column affectedColumns selectedRows].
      split; [reflexivity|]. split; [reflexivity|]. split; [apply length_pos, Hne|].
      split; [apply Forall_rowIndicesWhere|]. exists h. repeat split; assumption.
    - apply in_flat_map in Hin. destruct Hin as [h [Hh Hin]].
      apply filter_In in Hh. destruct Hh as [Hh _].
      apply In_outlierStepFor in Hin. cbv zeta in Hin. destruct Hin as (_ & Hne & ->).
      cbn [applied issues affectedRows operation type column affectedColumns selectedRows].
      split; [reflexivity|]. split; [reflexivity|]. split; [apply length_pos, Hne|].
      split; [apply Forall_rowIndicesWhere|]. exists h. repeat split; assumption.
    - apply in_flat_map in Hin. destruct Hin as [h [Hh Hin]].
      apply filter_In in Hh. destruct Hh as [Hh _].
      apply In_standardizeStepFor in Hin. cbv zeta in Hin. destruct Hin as (Hne & ->).
      cbn [applied issues affectedRows operation type column affectedColumns selectedRows].
      split; [reflexivity|]. split; [reflexivity|]. split; [apply length_pos, Hne|].
      split; [apply Forall_rowIndicesWhere|]. exists h. repeat split; assumption. }
  split; [exact F|]. apply unapplied_steps_apply, Forall_forall.
  intros step Hin. apply (F step Hin).
Qed.

End BuilderFacts.

(* ================================================================== *)
(** * The offered fill step *)
(* ================================================================== *)

Module FillFacts.

Import JS DataCleaning StepBuilder Spec Spec2 Samples TableFacts CleaningFacts BuilderFacts.
Local Open Scope string_scope.

(** *** The suggested value *)

Lemma insertBy_In (A : Type) (below : A -> A -> bool) x y l :
  In x (insertBy below y l) <-> x = y \/ In x l.
Proof.
  induction l as [| z l IH]; cbn [insertBy].
  - cbn. intuition congruence.
  - destruct (below y z); cbn [In]; [intuition congruence|]. rewrite IH. intuition congruence.
Qed.

Lemma sortBy_In (A : Type) (below : A -> A -> bool) x l :
  In x (sortBy below l) <-> In x l.
Proof.
  unfold sortBy.
  assert (G : forall acc, In x (fold_left (fun acc y => insertBy below y acc) l acc)
                          <-> In x acc \/ In x l).
  { induction l as [| y l IH]; intros acc; cbn [fold_left In]; [tauto|].
    rewrite IH, insertBy_In. intuition congruence. }
  rewrite G. cbn. tauto.
Qed.

Lemma countValue_keys val m k :
  In k (map fst (countValue val m)) -> In k (map fst m) \/ k = normalizeKey val.
Proof.
  induction m as [| [k' n] m IH]; cbn [countValue map fst In].
  - intros [<- | []]. right. reflexivity.
  - destruct (sameValueZero k' val); cbn [map fst In]; [tauto|].
    intros [E | H]; [left; left; exact E|]. destruct (IH H); tauto.
Qed.

Lemma valueCounts_keys vals : forall m k,
  In k (map fst (fold_left (fun m val => countValue val m) vals m)) ->
  In k (map fst m) \/ exists val, In val vals /\ k = normalizeKey val.
Proof.
  induction vals as [| v vals IH]; intros m k; cbn [fold_left]; [tauto|].
  intros H. apply IH in H. destruct H as [H | [val [Hin E]]].
  - apply countValue_keys in H. destruct H as [H | ->]; [left; exact H|].
    right. exists v. split; [left; reflexivity | reflexivity].
  - right. exists val. split; [right; exact Hin | exact E].
Qed.

Lemma isEmptyCell_normalizeKey v : isEmptyCell (normalizeKey v) = isEmptyCell v.
Proof. destruct v as [s | [| b | | q] | |]; reflexivity. Qed.

(** The value suggested for a column is never a blank. *)
Lemma suggestValue_filled vals :
  Forall (fun v => isEmptyCell v = false) vals -> isEmptyCell (suggestValue vals) = false.
Proof.
  intros H. unfold suggestValue.
  destruct (gtb _ _); [reflexivity|].
  destruct (sortBy moreCommon _) as [| [k n] rest] eqn:E; [reflexivity|]. cbn [fst].
  assert (Hin : In (k, n) (sortBy moreCommon
            (fold_left (fun m val => countValue val m) vals []))) by (rewrite E; left; reflexivity).
  apply sortBy_In in Hin. apply (in_map fst) in Hin. cbn [fst] in Hin.
  apply valueCounts_keys in Hin. destruct Hin as [[] | [val [Hv ->]]].
  rewrite isEmptyCell_normalizeKey. rewrite Forall_forall in H. apply H, Hv.
Qed.

Lemma isEmptyCell_undefined v : isEmptyCell v = false -> is_undefined v = false.
Proof. destruct v; cbn; auto. Qed.

Lemma In_mapi (A B : Type) (f : nat -> A -> B) l y :
  In y (mapi f l) -> exists i x, nth_error l i = Some x /\ y = f i x.
Proof.
  unfold mapi. rewrite in_map_iff. intros [[i x] [<- Hin]].
  apply In_indexed in Hin. exists i, x. split; [exact Hin | reflexivity].
Qed.

(** X13.  The fill step offered for a header with a non-empty name, applied
    as offered (its selection is empty, which stands for every row): its
    fill value is not a blank; it writes that value into the blanks of the
    first column of that name and changes no other cell; the rows it
    changes are the rows it lists; afterwards the column has no blank and
    the step is not offered again. *)
Theorem offered_fill_completes_the_column :
  forall data h step,
    In step (fillStepFor data h) -> In h (headers data) -> h <> EmptyString ->
    let out := applyStep data step in
    exists c,
      indexOf (headers data) h = Some c
      /\ isEmptyCell (value (operation step)) = false
      /\ headers out = headers data
      /\ List.length (rows out) = List.length (rows data)
      /\ (forall r c',
            cellAt out r c' =
            if Nat.eqb c' c && Nat.ltb r (List.length (rows data))
               && isEmptyCell (cellAt data r c')
            then value (operation step) else cellAt data r c')
      /\ (forall r, In r (affectedRows step) <-> cellAt out r c <> cellAt data r c)
      /\ (forall r, (r < List.length (rows data))%nat -> isEmptyCell (cellAt out r c) = false)
      /\ fillStepFor out h = [].
Proof.
  intros data h step Hin Hh Hne out.
  destruct (indexOf_In _ _ Hh) as [c Hc]. exists c. split; [exact Hc|].
  apply In_fillStepFor in Hin. cbv zeta in Hin. destruct Hin as [_ Estep].
  rewrite Hc in Estep.
  set (v := suggestValue
              (filter (fun val => negb (isEmptyCell val))
                 (map (fun row => readAt row (Some c)) (rows data)))) in *.
  assert (Hv : isEmptyCell v = false).
  { apply suggestValue_filled, Forall_forall. intros x Hx. apply filter_In in Hx.
    destruct Hx as [_ Hx]. apply negb_true_iff in Hx. exact Hx. }
  assert (Hval : value (operation step) = v) by (rewrite Estep; reflexivity).
  assert (Hsel : forall r, shouldFill step r = true) by (intros r; rewrite Estep; reflexivity).
  assert (Eout : out = with_rows data (mapi (fillRow step c) (rows data))).
  { assert (Hty : type (operation step) = fill_missing) by (rewrite Estep; reflexivity).
    assert (Hcol : column (operation step) = Some h) by (rewrite Estep; reflexivity).
    unfold out, applyStep. rewrite Hty, Hcol, Hval. cbn [truthyColumn].
    destruct (String.eqb_spec h EmptyString) as [E | _]; [contradiction|].
    rewrite (isEmptyCell_undefined _ Hv), Hc. reflexivity. }
  assert (Cell : forall r c',
            cellAt out r c' =
            if Nat.eqb c' c && Nat.ltb r (List.length (rows data))
               && isEmptyCell (cellAt data r c')
            then value (operation step) else cellAt data r c').
  { intros r c'. rewrite Eout, fill_cells, Hsel, andb_true_r. reflexivity. }
  split; [rewrite Hval; exact Hv|].
  split; [rewrite Eout; reflexivity|].
  split; [rewrite Eout; cbn [rows with_rows]; apply mapi_length|].
  split; [exact Cell|].
  assert (Filled : forall r, (r < List.length (rows data))%nat ->
                             isEmptyCell (cellAt out r c) = false).
  { intros r Hr. rewrite Cell, Nat.eqb_refl. apply Nat.ltb_lt in Hr. rewrite Hr. cbn [andb].
    destruct (isEmptyCell (cellAt data r c)) eqn:E; [rewrite Hval; exact Hv | exact E]. }
  split; [| split; [exact Filled|]].
  - intros r. rewrite Estep at 1. cbn [affectedRows]. rewrite rowIndicesWhere_In.
    rewrite Cell, Nat.eqb_refl. cbn [andb]. split.
    + intros [row [Hn He]].
      assert (Hr : (r < List.length (rows data))%nat) by (apply nth_error_Some; congruence).
      apply Nat.ltb_lt in Hr. rewrite Hr. cbn [andb].
      assert (Ec : cellAt data r c = index row c).
      { unfold cellAt. rewrite (nth_error_nth _ _ _ Hn). reflexivity. }
      cbn [readAt] in He. rewrite Ec, He, Hval. intros E. rewrite E, He in Hv. discriminate.
    + intros Hd. destruct (Nat.ltb_spec r (List.length (rows data))) as [Hr | Hr];
        [| exfalso; apply Hd; reflexivity].
      cbn [andb] in Hd.
      destruct (isEmptyCell (cellAt data r c)) eqn:E; [| exfalso; apply Hd; reflexivity].
      exists (nth r (rows data) []). split; [apply nth_error_nth', Hr | exact E].
  - unfold fillStepFor. cbv zeta.
    assert (Hh' : headers out = headers data) by (rewrite Eout; reflexivity).
    rewrite Hh', Hc.
    assert (E : rowIndicesWhere (fun row => isEmptyCell (readAt row (Some c))) (rows out) = []).
    { apply rowIndicesWhere_nil. intros row Hrow. cbn [readAt].
      apply In_nth_error in Hrow. destruct Hrow as [r Hr].
      assert (Hlen : (r < List.length (rows out))%nat) by (apply nth_error_Some; congruence).
      assert (Ec : cellAt out r c = index row c).
      { unfold cellAt. rewrite (nth_error_nth _ _ _ Hr). reflexivity. }
      rewrite <- Ec. apply Filled. rewrite Eout in Hlen. cbn [rows with_rows] in Hlen.
      rewrite mapi_length in Hlen. exact Hlen. }
    rewrite E. reflexivity.
Qed.

Lemma offered_fill_witness :
  let step := hd (fillStep "city" VUndef [] false) (fillStepFor gaps "city") in
  let out := applyStep gaps step in
  In step (fillStepFor gaps "city")
  /\ exists c,
      indexOf (headers gaps) "city" = Some c
      /\ isEmptyCell (value (operation step)) = false
      /\ headers out = headers gaps
      /\ List.length (rows out) = List.length (rows gaps)
      /\ (forall r c',
            cellAt out r c' =
            if Nat.eqb c' c && Nat.ltb r (List.length (rows gaps))
               && isEmptyCell (cellAt gaps r c')
            then value (operation step) else cellAt gaps r c')
      /\ (forall r, In r (affectedRows step) <-> cellAt out r c <> cellAt gaps r c)
      /\ (forall r, (r < List.length (rows gaps))%nat -> isEmptyCell (cellAt out r c) = false)
      /\ fillStepFor out "city" = [].
Proof.
  intros step out.
  assert (H : In step (fillStepFor gaps "city")) by (vm_compute; left; reflexivity).
  split; [exact H|].
  apply (@offered_fill_completes_the_column gaps "city" step H).
  - left. reflexivity.
  - discriminate.
Defined.

End FillFacts.

(* ================================================================== *)
(** * The suggested fill value *)
(* ================================================================== *)

Module SuggestionFacts.

Import JS DataCleaning StepBuilder Spec Spec2 Samples TableFacts CleaningFacts BuilderFacts FillFacts.
Local Open Scope string_scope.

(** *** The comparison of map keys is an equivalence *)

Lemma strictEq_sym x y : strictEq x y = strictEq y x.
Proof.
  unfold strictEq. destruct (to_ext x) as [[| p |] |], (to_ext y) as [[| q |] |]; try reflexivity.
  destruct (Qeq_bool p q) eqn:E1, (Qeq_bool q p) eqn:E2; try reflexivity.
  - apply Qeq_bool_iff in E1. symmetry in E1. apply Qeq_bool_iff in E1. congruence.
  - apply Qeq_bool_iff in E2. symmetry in E2. apply Qeq_bool_iff in E2. congruence.
Qed.

Lemma strictEq_trans x y z : strictEq x y = true -> strictEq y z = true -> strictEq x z = true.
Proof.
  unfold strictEq.
  destruct (to_ext x) as [[| p |] |], (to_ext y) as [[| q |] |], (to_ext z) as [[| r |] |];
    try discriminate; try reflexivity.
  intros H1 H2. apply Qeq_bool_iff in H1, H2. apply Qeq_bool_iff. rewrite H1. exact H2.
Qed.

Lemma strictEq_not_NaN x y : strictEq x y = true -> isNaN x = false /\ isNaN y = false.
Proof.
  unfold strictEq. destruct x as [| [|] | | p], y as [| [|] | | q]; cbn; intros H;
    try discriminate H; split; reflexivity.
Qed.

Lemma sameValueZero_sym a b : sameValueZero a b = sameValueZero b a.
Proof.
  destruct a as [s | x | |], b as [t | y | |]; cbn [sameValueZero]; try reflexivity.
  - apply String.eqb_sym.
  - rewrite strictEq_sym, andb_comm. reflexivity.
Qed.

Lemma sameValueZero_trans a b c :
  sameValueZero a b = true -> sameValueZero b c = true -> sameValueZero a c = true.
Proof.
  destruct a as [s | x | |], b as [t | y | |], c as [u | z | |]; cbn [sameValueZero];
    try discriminate; try reflexivity.
  - intros H1 H2. apply String.eqb_eq in H1, H2. apply String.eqb_eq. congruence.
  - intros H1 H2. apply orb_true_iff in H1, H2. apply orb_true_iff.
    destruct H1 as [H1 | H1], H2 as [H2 | H2].
    + left. apply andb_true_iff in H1, H2. apply andb_true_iff. tauto.
    + apply andb_true_iff in H1. apply strictEq_not_NaN in H2. destruct H1, H2. congruence.
    + apply andb_true_iff in H2. apply strictEq_not_NaN in H1. destruct H1, H2. congruence.
    + right. eapply strictEq_trans; eassumption.
Qed.

(** Whether two values are the same key does not depend on which
    equivalent value one asks with. *)
Lemma sameValueZero_congr a b c :
  sameValueZero a b = true -> sameValueZero a c = sameValueZero b c.
Proof.
  intros H. destruct (sameValueZero a c) eqn:E1, (sameValueZero b c) eqn:E2; try reflexivity.
  - rewrite sameValueZero_sym in H.
    rewrite (sameValueZero_trans _ _ _ H E1) in E2. discriminate.
  - rewrite (sameValueZero_trans _ _ _ H E2) in E1. discriminate.
Qed.


Lemma sameValueZero_refl a : sameValueZero a a = true.
Proof.
  destruct a as [s | x | |]; cbn [sameValueZero]; try reflexivity.
  - apply String.eqb_refl.
  - destruct x as [| [|] | | p]; cbn; try reflexivity.
    apply Qeq_bool_iff. reflexivity.
Qed.

Lemma normalizeKey_same v : sameValueZero (normalizeKey v) v = true.
Proof.
  destruct v as [s | [| b | | p] | |]; cbn [normalizeKey]; try apply sameValueZero_refl.
  reflexivity.
Qed.

Lemma occurrences_congr a b l :
  sameValueZero a b = true -> occurrences a l = occurrences b l.
Proof.
  intros H. unfold occurrences. f_equal. apply filter_ext. intros c.
  apply sameValueZero_congr, H.
Qed.

Lemma occurrences_snoc k l v :
  occurrences k (l ++ [v]) = (occurrences k l + (if sameValueZero k v then 1 else 0))%nat.
Proof.
  unfold occurrences. rewrite filter_app, length_app. cbn [filter].
  destruct (sameValueZero k v); reflexivity.
Qed.

Lemma occurrences_zero k l :
  (forall w, In w l -> sameValueZero k w = false) -> occurrences k l = 0%nat.
Proof.
  intros H. unfold occurrences. induction l as [| w l IH]; [reflexivity|].
  cbn [filter]. rewrite (H w (or_introl eq_refl)). apply IH.
  intros w' Hw. apply H. right. exact Hw.
Qed.

(** *** One more value counted *)

Lemma countValue_keys_exact v m :
  map fst (countValue v m) =
  if existsb (fun e => sameValueZero (fst e) v) m then map fst m
  else (map fst m ++ [normalizeKey v])%list.
Proof.
  induction m as [| [k n] m IH]; [reflexivity|]. cbn [countValue existsb fst].
  destruct (sameValueZero k v); cbn [orb map fst]; [reflexivity|].
  rewrite IH. destruct (existsb _ m); reflexivity.
Qed.

Lemma apart_snoc keys x :
  ForallOrdPairs (fun a b => sameValueZero a b = false) keys ->
  Forall (fun a => sameValueZero a x = false) keys ->
  ForallOrdPairs (fun a b => sameValueZero a b = false) (keys ++ [x]).
Proof.
  intros K F. induction K as [| a l Ha Hl IH]; cbn [app].
  - constructor; constructor.
  - inversion F as [| ? ? Fa Fl]; subst. constructor; [| apply IH, Fl].
    apply Forall_app. split; [exact Ha | constructor; [exact Fa | constructor]].
Qed.

Lemma countValue_counts v done m :
  ForallOrdPairs (fun a b => sameValueZero a b = false) (map fst m) ->
  Forall (fun e => snd e = occurrences (fst e) done) m ->
  (occurrences (normalizeKey v) done = 0%nat
   \/ existsb (fun e => sameValueZero (fst e) v) m = true) ->
  Forall (fun e => snd e = occurrences (fst e) (done ++ [v])) (countValue v m).
Proof.
  induction m as [| [k n] m IH]; intros K F H0; cbn [countValue].
  - constructor; [| constructor]. cbn [fst snd]. rewrite occurrences_snoc.
    destruct H0 as [H0 | H0]; [| discriminate H0].
    rewrite H0, normalizeKey_same. reflexivity.
  - cbn [map fst] in K. inversion K as [| ? ? Ka Kl]; subst.
    inversion F as [| ? ? Fa Fl]; subst. cbn [fst snd] in Fa.
    destruct (sameValueZero k v) eqn:Ek.
    + constructor.
      * cbn [fst snd]. rewrite occurrences_snoc, Ek, Fa. lia.
      * rewrite Forall_forall in Fl |- *. intros [k' n'] Hin. cbn [fst snd].
        rewrite occurrences_snoc.
        assert (Hk : sameValueZero k' v = false).
        { destruct (sameValueZero k' v) eqn:E; [| reflexivity]. exfalso.
          rewrite Forall_forall in Ka.
          assert (Hkk : sameValueZero k k' = false).
          { apply Ka. apply (in_map fst) in Hin. exact Hin. }
          rewrite sameValueZero_sym in E.
          rewrite (sameValueZero_trans _ _ _ Ek E) in Hkk. discriminate. }
        pose proof (Fl _ Hin) as Hc. cbn [fst snd] in Hc. rewrite Hk, Hc. lia.
    + constructor.
      * cbn [fst snd]. rewrite occurrences_snoc, Ek, Fa. lia.
      * apply IH; [exact Kl | exact Fl |].
        destruct H0 as [H0 | H0]; [left; exact H0 | right].
        cbn [existsb fst] in H0. rewrite Ek in H0. exact H0.
Qed.

(** The entries of [valueCounts] after a run over [vals]: keys that are
    pairwise different, each with the number of its occurrences, and a key
    for every value. *)
Lemma valueCounts_spec vals : forall m done,
  ForallOrdPairs (fun a b => sameValueZero a b = false) (map fst m) ->
  Forall (fun e => snd e = occurrences (fst e) done) m ->
  (forall w, In w done -> existsb (fun e => sameValueZero (fst e) w) m = true) ->
  let m' := fold_left (fun m val => countValue val m) vals m in
  Forall (fun e => snd e = occurrences (fst e) (done ++ vals)) m'
  /\ (forall w, In w (done ++ vals) -> existsb (fun e => sameValueZero (fst e) w) m' = true).
Proof.
  induction vals as [| v vals IH]; intros m done K F D; cbn [fold_left].
  - rewrite app_nil_r. split; assumption.
  - assert (E : (done ++ v :: vals = (done ++ [v]) ++ vals)%list)
      by (rewrite <- app_assoc; reflexivity).
    rewrite E. apply IH.
    + rewrite countValue_keys_exact.
      destruct (existsb (fun e => sameValueZero (fst e) v) m) eqn:Ex; [exact K|].
      apply apart_snoc; [exact K|]. apply Forall_forall. intros k Hk.
      apply in_map_iff in Hk. destruct Hk as [e [<- He]].
      destruct (sameValueZero (fst e) (normalizeKey v)) eqn:Es; [| reflexivity]. exfalso.
      assert (Hv : sameValueZero (fst e) v = true)
        by (eapply sameValueZero_trans; [exact Es | apply normalizeKey_same]).
      assert (Hex : existsb (fun e => sameValueZero (fst e) v) m = true)
        by (apply existsb_exists; exists e; split; assumption).
      congruence.
    + apply countValue_counts; [exact K | exact F |].
      destruct (existsb (fun e => sameValueZero (fst e) v) m) eqn:Ex; [right; reflexivity|].
      left. apply occurrences_zero. intros w Hw.
      destruct (sameValueZero (normalizeKey v) w) eqn:Es; [| reflexivity]. exfalso.
      specialize (D w Hw). apply existsb_exists in D. destruct D as [e [He Hew]].
      assert (Hv : sameValueZero (fst e) v = true).
      { eapply sameValueZero_trans; [exact Hew|].
        rewrite sameValueZero_sym in Es.
        eapply sameValueZero_trans; [exact Es | apply normalizeKey_same]. }
      assert (Hex : existsb (fun e => sameValueZero (fst e) v) m = true)
        by (apply existsb_exists; exists e; split; assumption).
      congruence.
    + intros w Hw. apply in_app_or in Hw.
      assert (Keys : forall k, In k (map fst m) -> In k (map fst (countValue v m))).
      { intros k Hk. rewrite countValue_keys_exact.
        destruct (existsb _ m); [exact Hk | apply in_or_app; left; exact Hk]. }
      destruct Hw as [Hw | [<- | []]].
      * specialize (D w Hw). apply existsb_exists in D. destruct D as [e [He Hew]].
        apply (in_map fst) in He. apply Keys in He. apply in_map_iff in He.
        destruct He as [e' [Ee He']]. apply existsb_exists. exists e'. split; [exact He'|].
        rewrite Ee. exact Hew.
      * destruct (existsb (fun e => sameValueZero (fst e) v) m) eqn:Ex.
        -- apply existsb_exists in Ex. destruct Ex as [e [He Hev]].
           apply (in_map fst) in He. apply Keys in He. apply in_map_iff in He.
           destruct He as [e' [Ee He']]. apply existsb_exists. exists e'. split; [exact He'|].
           rewrite Ee. exact Hev.
        -- assert (Hk : In (normalizeKey v) (map fst (countValue v m))).
           { rewrite countValue_keys_exact, Ex. apply in_or_app. right. left. reflexivity. }
           apply in_map_iff in Hk. destruct Hk as [e' [Ee He']].
           apply existsb_exists. exists e'. split; [exact He'|].
           rewrite Ee. apply normalizeKey_same.
Qed.

(** *** The stable sort puts a largest count first *)

Lemma insertBy_sorted x l :
  StronglySorted (fun a b : JS.value * nat => (snd b <= snd a)%nat) l ->
  StronglySorted (fun a b : JS.value * nat => (snd b <= snd a)%nat) (insertBy moreCommon x l).
Proof.
  intros S. induction S as [| y t St IH Fy]; cbn [insertBy]; [repeat constructor|].
  unfold moreCommon at 1. destruct (Nat.ltb_spec (snd y) (snd x)) as [L | L].
  - constructor; [constructor; assumption|].
    constructor; [lia|]. eapply Forall_impl; [| exact Fy]. cbn. intros z Hz. lia.
  - constructor; [exact IH|]. apply Forall_forall. intros z Hz.
    apply insertBy_In in Hz. destruct Hz as [-> | Hz]; [exact L|].
    rewrite Forall_forall in Fy. apply Fy, Hz.
Qed.

Lemma sortBy_sorted l :
  StronglySorted (fun a b : JS.value * nat => (snd b <= snd a)%nat) (sortBy moreCommon l).
Proof.
  unfold sortBy.
  assert (G : forall acc,
             StronglySorted (fun a b : JS.value * nat => (snd b <= snd a)%nat) acc ->
             StronglySorted (fun a b : JS.value * nat => (snd b <= snd a)%nat)
               (fold_left (fun acc x => insertBy moreCommon x acc) l acc)).
  { induction l as [| x l IH]; intros acc S; cbn [fold_left]; [exact S|].
    apply IH, insertBy_sorted, S. }
  apply G. constructor.
Qed.

(** X14.  For a column that is not mostly numbers the value suggested for
    its blanks is a most common one: it is one of the column's values (as
    a [Map] keeps it, [-0] being stored as [0]) and no value occurs more
    often; without any value the suggestion is the text "Unknown". *)
Theorem suggested_text_is_a_most_common_value :
  forall vals,
    gtb (of_nat (List.length (numbersOf vals)))
        (div (of_nat (List.length vals)) (of_Z 2)) = false ->
    (vals = [] -> suggestValue vals = VStr "Unknown")
    /\ (vals <> [] ->
        exists v, In v vals /\ suggestValue vals = normalizeKey v
                  /\ forall w, In w vals -> (occurrences w vals <= occurrences v vals)%nat).
Proof.
  intros vals Hb. unfold suggestValue. rewrite Hb. split.
  - intros ->. reflexivity.
  - intros Hne.
    destruct (@valueCounts_spec vals [] []) as [C D];
      [constructor | constructor | intros w [] |].
    cbn [app] in C, D.
    set (m := fold_left (fun m val => countValue val m) vals []) in *.
    pose proof (sortBy_sorted m) as S.
    destruct (sortBy moreCommon m) as [| [k n] rest] eqn:Es.
    + exfalso. destruct vals as [| w vals]; [contradiction|].
      specialize (D w (or_introl eq_refl)). apply existsb_exists in D.
      destruct D as [e [He _]]. apply (sortBy_In moreCommon) in He. rewrite Es in He. destruct He.
    + cbn [fst].
      assert (Hin : In (k, n) m) by (apply (sortBy_In moreCommon); rewrite Es; left; reflexivity).
      assert (Hk : In k (map fst m)) by (apply (in_map fst) in Hin; exact Hin).
      apply valueCounts_keys in Hk. destruct Hk as [[] | [v [Hv Ek]]].
      exists v. split; [exact Hv|]. split; [exact Ek|].
      intros w Hw. specialize (D w Hw). apply existsb_exists in D.
      destruct D as [[k' n'] [He Hew]]. cbn [fst] in Hew.
      rewrite Forall_forall in C.
      pose proof (C _ He) as Cn'. pose proof (C _ Hin) as Cn. cbn [fst snd] in Cn', Cn.
      rewrite <- (@occurrences_congr k' w vals Hew), <- Cn'.
      rewrite <- (@occurrences_congr (normalizeKey v) v vals (normalizeKey_same v)), <- Ek, <- Cn.
      apply (sortBy_In moreCommon) in He. rewrite Es in He.
      destruct He as [E | He]; [inversion E; lia|].
      inversion S as [| ? ? _ F]; subst. rewrite Forall_forall in F.
      apply (F _ He).
Qed.

Lemma suggested_text_witness :
  suggestValue [VStr "a"; VStr "b"; VStr "a"] = VStr "a"
  /\ exists v, In v [VStr "a"; VStr "b"; VStr "a"]
       /\ suggestValue [VStr "a"; VStr "b"; VStr "a"] = normalizeKey v
       /\ forall w, In w [VStr "a"; VStr "b"; VStr "a"] ->
            (occurrences w [VStr "a"; VStr "b"; VStr "a"]
             <= occurrences v [VStr "a"; VStr "b"; VStr "a"])%nat.
Proof.
  split; [vm_compute; reflexivity|].
  apply (@suggested_text_is_a_most_common_value [VStr "a"; VStr "b"; VStr "a"]).
  - vm_compute. reflexivity.
  - discriminate.
Defined.

End SuggestionFacts.

(* ================================================================== *)
(** * The offered outlier step *)
(* ================================================================== *)

Module OutlierFacts.

Import JS DataCleaning StepBuilder Spec Spec2 Samples TableFacts CleaningFacts BuilderFacts.
Local Open Scope string_scope.

Lemma round64_cases q :
  round64 q = NegZero \/ (exists b, round64 q = Inf b) \/ exists r, round64 q = Fin r.
Proof.
  unfold round64. cbv zeta. destruct (Qnum (Qred q)).
  - right. right. eexists. reflexivity.
  - destruct (Qle_bool _ _); [right; left | right; right]; eexists; reflexivity.
  - destruct (Qle_bool _ _); [right; left; eexists; reflexivity|].
    destruct (Qeq_bool _ _); [left; reflexivity | right; right; eexists; reflexivity].
Qed.

Lemma isNaN_round64 q : isNaN (round64 q) = false.
Proof. destruct (round64_cases q) as [-> | [[b ->] | [r ->]]]; reflexivity. Qed.

Lemma isNaN_neg y : isNaN (neg y) = isNaN y.
Proof. destruct y as [| b | | q]; cbn; try reflexivity. destruct (Qeq_bool q 0); reflexivity. Qed.

Lemma isNaN_scale z : isNaN (mul (lit (15 # 10)) z) = isNaN z.
Proof.
  assert (E : lit (15 # 10) = Fin (3 # 2)) by (vm_compute; reflexivity). rewrite E.
  destruct z as [| b | | q]; try reflexivity.
  cbn [mul is_zero]. change (Qeq_bool (3 # 2) 0) with false. cbn [orb].
  destruct (Qeq_bool q 0); [destruct (xorb _ _); reflexivity | apply isNaN_round64].
Qed.

Lemma scale_Inf b : mul (lit (15 # 10)) (Inf b) = Inf b.
Proof.
  assert (E : lit (15 # 10) = Fin (3 # 2)) by (vm_compute; reflexivity). rewrite E.
  reflexivity.
Qed.

(** Adding to a finite number gives [NaN] only from [NaN]. *)
Lemma isNaN_add_finite x y :
  (x = NegZero \/ exists q, x = Fin q) -> isNaN (add x y) = isNaN y /\ isNaN (add y x) = isNaN y.
Proof.
  intros [-> | [q ->]]; destruct y as [| b | | p]; cbn; auto using isNaN_round64.
Qed.

Lemma neg_finite x :
  (x = NegZero \/ exists q, x = Fin q) -> (neg x = NegZero \/ exists q, neg x = Fin q).
Proof.
  intros [-> | [q ->]]; cbn; [right; eexists; reflexivity|].
  destruct (Qeq_bool q 0); [left; reflexivity | right; eexists; reflexivity].
Qed.

(** The two fences are numbers together or [NaN] together. *)
Lemma fences_NaN_together sortedValues :
  isNaN (fst (fences sortedValues)) = isNaN (snd (fences sortedValues)).
Proof.
  unfold fences. cbv zeta. cbn [fst snd].
  set (q1 := nth _ sortedValues NaN). set (q3 := nth _ sortedValues NaN). clearbody q1 q3.
  unfold sub.
  assert (Fq : forall x, (x = NaN \/ (exists b, x = Inf b)) \/ (x = NegZero \/ exists q, x = Fin q)).
  { intros [| b | | q]; eauto. }
  destruct (Fq q1) as [[-> | [b1 ->]] | F1].
  - (* q1 is NaN *)
    assert (E : add q3 (neg NaN) = NaN) by (destruct q3; reflexivity). rewrite E.
    assert (M : mul (lit (15 # 10)) NaN = NaN).
    { pose proof (isNaN_scale NaN) as H. destruct (mul _ NaN); try discriminate H. reflexivity. }
    rewrite M. destruct q3; reflexivity.
  - destruct (Fq q3) as [[-> | [b3 ->]] | F3].
    + assert (M : mul (lit (15 # 10)) NaN = NaN).
      { pose proof (isNaN_scale NaN) as H. destruct (mul _ NaN); try discriminate H. reflexivity. }
      cbn [neg add]. rewrite M. reflexivity.
    + cbn [neg add]. destruct b1, b3; cbn [Bool.eqb negb]; rewrite ?scale_Inf; cbn; try reflexivity.
      all: pose proof (isNaN_scale NaN) as H; destruct (mul _ NaN); try discriminate H; reflexivity.
    + assert (E : add q3 (neg (Inf b1)) = Inf (negb b1)).
      { destruct F3 as [-> | [q ->]]; reflexivity. }
      rewrite E, scale_Inf. cbn [neg add]. rewrite negb_involutive, Bool.eqb_reflx.
      destruct F3 as [-> | [q ->]]; reflexivity.
  - destruct (Fq q3) as [[-> | [b3 ->]] | F3].
    + cbn [add].
      assert (M : mul (lit (15 # 10)) NaN = NaN).
      { pose proof (isNaN_scale NaN) as H. destruct (mul _ NaN); try discriminate H. reflexivity. }
      rewrite M. cbn [neg]. destruct F1 as [-> | [q ->]]; reflexivity.
    + assert (E : add (Inf b3) (neg q1) = Inf b3).
      { destruct (neg_finite F1) as [-> | [q ->]]; reflexivity. }
      rewrite E, scale_Inf. cbn [neg add]. rewrite Bool.eqb_reflx.
      destruct F1 as [-> | [q ->]]; reflexivity.
    + (* both finite *)
      set (m := mul (lit (15 # 10)) (add q3 (neg q1))).
      assert (Hm : isNaN m = false).
      { unfold m. rewrite isNaN_scale. destruct (isNaN_add_finite (neg q1) F3) as [-> _].
        rewrite isNaN_neg. destruct F1 as [-> | [q ->]]; reflexivity. }
      destruct (isNaN_add_finite (neg m) F1) as [-> _].
      destruct (isNaN_add_finite m F3) as [-> _].
      apply isNaN_neg.
Qed.


Lemma insertSorted_length x l : List.length (insertSorted x l) = S (List.length l).
Proof.
  induction l as [| y l IH]; [reflexivity|]. cbn [insertSorted].
  destruct (ltb _ _); cbn [List.length]; [reflexivity | rewrite IH; reflexivity].
Qed.

Lemma sortNumbers_length l : List.length (sortNumbers l) = List.length l.
Proof.
  unfold sortNumbers.
  assert (G : forall acc, List.length (fold_left (fun acc x => insertSorted x acc) l acc)
                          = (List.length acc + List.length l)%nat).
  { induction l as [| x l IH]; intros acc; cbn [fold_left List.length]; [lia|].
    rewrite IH, insertSorted_length. lia. }
  rewrite G. reflexivity.
Qed.

(** Without [NaN] on either side, [>=] is the negation of [<]. *)
Lemma geb_negb_ltb x y : isNaN x = false -> isNaN y = false -> geb x y = negb (ltb x y).
Proof.
  intros Hx Hy. unfold geb, leb, ltb.
  destruct x as [| [|] | | p], y as [| [|] | | q]; try discriminate; reflexivity.
Qed.

Lemma leb_negb_gtb x y : isNaN x = false -> isNaN y = false -> leb x y = negb (gtb x y).
Proof.
  intros Hx Hy. unfold gtb, leb, ltb.
  destruct x as [| [|] | | p], y as [| [|] | | q]; try discriminate; reflexivity.
Qed.

Lemma ltb_not_NaN x y : ltb x y = true -> isNaN x = false /\ isNaN y = false.
Proof.
  unfold ltb. destruct x as [| [|] | | p], y as [| [|] | | q]; cbn [to_ext isNaN];
    intros H; try discriminate H; split; reflexivity.
Qed.

Lemma filter_indexed (A : Type) (p : A -> bool) (l : list A) :
  filter p l = map snd (filter (fun ix => p (snd ix)) (indexed l)).
Proof.
  unfold indexed. generalize 0%nat. induction l as [| x l IH]; intros s; [reflexivity|].
  cbn [List.length seq combine filter snd]. destruct (p x); cbn [map snd]; rewrite <- IH; reflexivity.
Qed.

(** X15.  The outlier step offered for a header with a non-empty name,
    applied to the table it was built from: it keeps the headers and
    removes every row the step lists; the only other rows it removes are
    those whose cell in that column is the number [NaN] (the step does not
    list them, since [NaN] compares neither below nor above a fence, and
    the removal keeps a number only if it compares within both fences). *)
Theorem offered_outlier_step_removes_listed_rows :
  forall data h step,
    In step (outlierStepFor data h) -> In h (headers data) -> h <> EmptyString ->
    let out := applyStep data step in
    exists c,
      indexOf (headers data) h = Some c
      /\ headers out = headers data
      /\ rows out =
         map snd
           (filter
              (fun ir =>
                 negb (existsb (Nat.eqb (fst ir)) (affectedRows step))
                 && negb (match index (snd ir) c with VNum x => isNaN x | _ => false end))
              (indexed (rows data))).
Proof.
  intros data h step Hin Hh Hne out.
  destruct (indexOf_In _ _ Hh) as [c Hc]. exists c. split; [exact Hc|].
  apply In_outlierStepFor in Hin. cbv zeta in Hin. rewrite Hc in Hin.
  destruct Hin as (Hlen & Hitems & Estep).
  set (numericValues := numbersOf (map (fun row => readAt row (Some c)) (rows data))) in *.
  set (lo := fst (fences (sortNumbers numericValues))) in *.
  set (hi := snd (fences (sortNumbers numericValues))) in *.
  assert (Haff : affectedRows step =
                 rowIndicesWhere (fun row => isOutlier lo hi (readAt row (Some c))) (rows data))
    by (rewrite Estep; reflexivity).
  (* the fences are numbers *)
  assert (Hfin : isNaN lo = false /\ isNaN hi = false).
  { destruct (rowIndicesWhere _ (rows data)) as [| r l] eqn:E in Hitems; [contradiction|].
    assert (Hr : In r (rowIndicesWhere (fun row => isOutlier lo hi (readAt row (Some c)))
                         (rows data))) by (rewrite E; left; reflexivity).
    apply rowIndicesWhere_In in Hr. destruct Hr as [row [_ Ho]].
    pose proof (fences_NaN_together (sortNumbers numericValues)) as T. fold lo hi in T.
    unfold isOutlier in Ho. destruct (readAt row (Some c)) as [| x | |]; try discriminate Ho.
    apply orb_true_iff in Ho. destruct Ho as [Ho | Ho]; apply ltb_not_NaN in Ho.
    - destruct Ho as [_ Ho]. rewrite Ho in T. split; [exact Ho | symmetry; exact T].
    - destruct Ho as [Ho _]. rewrite Ho in T. split; [exact T | exact Ho]. }
  destruct Hfin as [Hlo Hhi].
  assert (Eout : out = with_rows data
            (filter (fun row => match index row c with
                                | VNum x => geb x lo && leb x hi
                                | _ => true
                                end) (rows data))).
  { assert (Hty : type (operation step) = remove_outliers) by (rewrite Estep; reflexivity).
    assert (Hcol : column (operation step) = Some h) by (rewrite Estep; reflexivity).
    unfold out, applyStep. rewrite Hty, Hcol. cbn [truthyColumn].
    destruct (String.eqb_spec h EmptyString) as [E | _]; [contradiction|].
    rewrite Hc. f_equal. unfold removeOutliers. cbv zeta.
    change (map (fun row => index row c) (rows data))
      with (map (fun row => readAt row (Some c)) (rows data)).
    fold numericValues.
    destruct (sortNumbers numericValues) as [| y ys] eqn:Es.
    { exfalso. pose proof (sortNumbers_length numericValues) as L. rewrite Es in L.
      cbn in L. lia. }
    unfold lo, hi, fences. reflexivity. }
  split; [rewrite Eout; reflexivity|].
  rewrite Eout. cbn [rows with_rows]. rewrite filter_indexed. f_equal.
  apply filter_ext_in. intros [r row] Hrow. cbn [fst snd]. apply In_indexed in Hrow.
  rewrite Haff, rowIndicesWhere_has, Hrow. cbn [readAt].
  destruct (index row c) as [s | x | |]; try reflexivity. cbn [isOutlier].
  destruct (isNaN x) eqn:Ex.
  - destruct x; try discriminate Ex. cbn [negb]. transitivity false.
    + unfold geb, leb. cbn [to_ext]. destruct (to_ext lo); reflexivity.
    + symmetry. apply andb_false_r.
  - rewrite geb_negb_ltb, leb_negb_gtb by assumption. rewrite andb_true_r, negb_orb. reflexivity.
Qed.

Lemma offered_outlier_step_witness :
  let data := table ["n"] (map (fun z => [VNum (of_Z z)]) [1; 2; 3; 4; 100]%Z) in
  let step := hd (fillStep "n" VUndef [] false) (outlierStepFor data "n") in
  let out := applyStep data step in
  In step (outlierStepFor data "n")
  /\ affectedRows step = [4%nat]
  /\ exists c,
      indexOf (headers data) "n" = Some c
      /\ headers out = headers data
      /\ rows out =
         map snd
           (filter
              (fun ir =>
                 negb (existsb (Nat.eqb (fst ir)) (affectedRows step))
                 && negb (match index (snd ir) c with VNum x => isNaN x | _ => false end))
              (indexed (rows data))).
Proof.
  intros data step out.
  assert (H : In step (outlierStepFor data "n")) by (vm_compute; left; reflexivity).
  split; [exact H|]. split; [vm_compute; reflexivity|].
  apply (@offered_outlier_step_removes_listed_rows data "n" step H).
  - left. reflexivity.
  - discriminate.
Defined.

End OutlierFacts.

(* ================================================================== *)
(** * The offered standardize step *)
(* ================================================================== *)

Module TextFacts.

Import JS DataCleaning StepBuilder Spec Spec2 Samples TableFacts CleaningFacts BuilderFacts.
Local Open Scope string_scope.

(** *** Characters *)

Lemma toLowerChar_idem c : toLowerChar (toLowerChar c) = toLowerChar c.
Proof. destruct c as [[|] [|] [|] [|] [|] [|] [|] [|]]; vm_compute; reflexivity. Qed.

Lemma isWhiteSpace_toLowerChar c : isWhiteSpace (toLowerChar c) = isWhiteSpace c.
Proof. destruct c as [[|] [|] [|] [|] [|] [|] [|] [|]]; vm_compute; reflexivity. Qed.

Lemma toLowerChar_space : toLowerChar " "%char = " "%char.
Proof. reflexivity. Qed.

Lemma space_is_white : isWhiteSpace " "%char = true.
Proof. reflexivity. Qed.

(** *** Reversal and appending *)

Lemma append_nil_r s : s ++ EmptyString = s.
Proof. induction s as [| c s IH]; cbn; [reflexivity | rewrite IH; reflexivity]. Qed.

Lemma append_assoc s t u : (s ++ t) ++ u = s ++ (t ++ u).
Proof. induction s as [| c s IH]; cbn; [reflexivity | rewrite IH; reflexivity]. Qed.

Lemma rev_string_app acc s : rev_string acc s = rev_string EmptyString s ++ acc.
Proof.
  revert acc. induction s as [| c s IH]; intros acc; cbn [rev_string]; [reflexivity|].
  rewrite IH, (IH (String c EmptyString)), append_assoc. reflexivity.
Qed.

Lemma rev_string_snoc s c :
  rev_string EmptyString (s ++ String c EmptyString) = String c (rev_string EmptyString s).
Proof.
  induction s as [| d s IH]; cbn [append rev_string]; [reflexivity|].
  rewrite (rev_string_app (String d EmptyString) (s ++ String c EmptyString)), IH,
    (rev_string_app (String d EmptyString) s). reflexivity.
Qed.

Lemma rev_string_involutive s : rev_string EmptyString (rev_string EmptyString s) = s.
Proof.
  induction s as [| c s IH]; cbn [rev_string]; [reflexivity|].
  rewrite (rev_string_app (String c EmptyString) s), rev_string_snoc, IH. reflexivity.
Qed.

(** *** Trimming *)

Lemma trimStart_clean s : startsClean (trimStart s) = true.
Proof.
  induction s as [| c s IH]; cbn [trimStart]; [reflexivity|].
  destruct (isWhiteSpace c) eqn:E; [exact IH | cbn; rewrite E; reflexivity].
Qed.

Lemma trimStart_of_clean s : startsClean s = true -> trimStart s = s.
Proof.
  destruct s as [| c s]; cbn; [reflexivity|]. destruct (isWhiteSpace c); [discriminate | reflexivity].
Qed.

Lemma trimStart_snoc s c :
  isWhiteSpace c = false ->
  trimStart (s ++ String c EmptyString) = trimStart s ++ String c EmptyString.
Proof.
  intros Hc. induction s as [| d s IH]; cbn [append trimStart].
  - rewrite Hc. reflexivity.
  - destruct (isWhiteSpace d); [exact IH | reflexivity].
Qed.

Lemma trimEnd_of_clean s : startsClean (rev_string EmptyString s) = true -> trimEnd s = s.
Proof.
  intros H. unfold trimEnd. rewrite (trimStart_of_clean _ H). apply rev_string_involutive.
Qed.

Lemma trim_of_clean s :
  startsClean s = true -> startsClean (rev_string EmptyString s) = true -> trim s = s.
Proof.
  intros H1 H2. unfold trim. rewrite (trimStart_of_clean _ H1). apply trimEnd_of_clean, H2.
Qed.

(** A trimmed string is clean at both ends. *)
Lemma trim_clean s :
  startsClean (trim s) = true /\ startsClean (rev_string EmptyString (trim s)) = true.
Proof.
  unfold trim, trimEnd. split.
  - pose proof (trimStart_clean s) as H. destruct (trimStart s) as [| c u]; [reflexivity|].
    cbn in H. apply negb_true_iff in H.
    cbn [rev_string]. rewrite (rev_string_app (String c EmptyString) u), trimStart_snoc by exact H.
    rewrite rev_string_snoc. cbn. rewrite H. reflexivity.
  - rewrite rev_string_involutive. apply trimStart_clean.
Qed.

(** *** Lower case *)

Lemma toLowerCase_idem s : toLowerCase (toLowerCase s) = toLowerCase s.
Proof.
  unfold toLowerCase. induction s as [| c s IH]; cbn [map_string]; [reflexivity|].
  rewrite toLowerChar_idem, IH. reflexivity.
Qed.

Lemma toLowerCase_app s t : toLowerCase (s ++ t) = toLowerCase s ++ toLowerCase t.
Proof.
  unfold toLowerCase. induction s as [| c s IH]; cbn [append map_string]; [reflexivity|].
  rewrite IH. reflexivity.
Qed.

Lemma startsClean_toLowerCase s : startsClean (toLowerCase s) = startsClean s.
Proof. destruct s as [| c s]; cbn; [reflexivity | rewrite isWhiteSpace_toLowerChar; reflexivity]. Qed.

(** A string is its reverse's reverse: one that ends clean is some prefix
    followed by a character that is not white space. *)
Lemma ends_clean_split s :
  startsClean (rev_string EmptyString s) = true ->
  s = EmptyString \/ exists u c, s = u ++ String c EmptyString /\ isWhiteSpace c = false.
Proof.
  intros H. destruct (rev_string EmptyString s) as [| c r] eqn:E.
  - left. rewrite <- (rev_string_involutive s), E. reflexivity.
  - right. exists (rev_string EmptyString r), c. split.
    + rewrite <- (rev_string_involutive s), E. cbn [rev_string].
      apply (rev_string_app (String c EmptyString) r).
    + cbn in H. apply negb_true_iff, H.
Qed.

Lemma endsClean_toLowerCase s :
  startsClean (rev_string EmptyString s) = true ->
  startsClean (rev_string EmptyString (toLowerCase s)) = true.
Proof.
  intros H. destruct (ends_clean_split s H) as [-> | (u & c & -> & Hc)]; [reflexivity|].
  rewrite toLowerCase_app. cbn [toLowerCase map_string]. rewrite rev_string_snoc. cbn.
  rewrite isWhiteSpace_toLowerChar, Hc. reflexivity.
Qed.

(** *** Collapsing runs of white space *)

Lemma collapse_lower b s :
  toLowerCase (collapseSpaces b s) = collapseSpaces b (toLowerCase s).
Proof.
  unfold toLowerCase. revert b. induction s as [| c s IH]; intros b; cbn [collapseSpaces map_string];
    [reflexivity|].
  rewrite isWhiteSpace_toLowerChar. destruct (isWhiteSpace c).
  - destruct b; cbn [map_string]; rewrite IH; reflexivity.
  - cbn [map_string]. rewrite IH. reflexivity.
Qed.

Lemma collapse_snoc b s c :
  isWhiteSpace c = false ->
  collapseSpaces b (s ++ String c EmptyString) = collapseSpaces b s ++ String c EmptyString.
Proof.
  intros Hc. revert b. induction s as [| d s IH]; intros b; cbn [append collapseSpaces].
  - rewrite Hc. reflexivity.
  - destruct (isWhiteSpace d); [destruct b|]; cbn [append]; rewrite IH; reflexivity.
Qed.

Lemma collapse_clean s :
  startsClean s = true -> startsClean (collapseSpaces false s) = true.
Proof.
  destruct s as [| c s]; cbn; [reflexivity|]. destruct (isWhiteSpace c) eqn:E; [discriminate|].
  cbn. rewrite E. reflexivity.
Qed.

Lemma collapse_ends_clean s :
  startsClean (rev_string EmptyString s) = true ->
  startsClean (rev_string EmptyString (collapseSpaces false s)) = true.
Proof.
  intros H. destruct (ends_clean_split s H) as [-> | (u & c & -> & Hc)]; [reflexivity|].
  rewrite collapse_snoc by exact Hc. rewrite rev_string_snoc. cbn. rewrite Hc. reflexivity.
Qed.

(** After collapsing, two white-space characters never stand side by
    side; within a run nothing is emitted before the next other
    character. *)
Lemma collapse_no_double b s :
  includes (collapseSpaces b s) "  " = false
  /\ (b = true -> startsClean (collapseSpaces b s) = true).
Proof.
  revert b. induction s as [| c s IH]; intros b; cbn [collapseSpaces]; [split; reflexivity|].
  destruct (isWhiteSpace c) eqn:E.
  - destruct b.
    + apply IH.
    + split; [| discriminate]. destruct (IH true) as [I1 I2]. specialize (I2 eq_refl).
      cbn [includes String.prefix]. rewrite I1, orb_false_r.
      destruct (collapseSpaces true s) as [| d t]; [reflexivity|].
      cbn in I2. apply negb_true_iff in I2.
      destruct (Ascii.eqb_spec " "%char d) as [<- | NE]; [discriminate I2|].
      cbn [String.prefix]. destruct (ascii_dec " " " "); [| contradiction].
      destruct (ascii_dec " " d); [contradiction | reflexivity].
  - destruct (IH false) as [I1 _]. split.
    + cbn [includes String.prefix]. rewrite I1, orb_false_r.
      destruct (ascii_dec " " c) as [<- | NE]; [discriminate E | reflexivity].
    + intros _. cbn. rewrite E. reflexivity.
Qed.

(** What the standardize step writes passes the cleaner's own test and the
    text rules of the analysis. *)
Lemma standardized_is_consistent s :
  let t := collapseSpaces false (toLowerCase (trim s)) in
  toLowerCase t = t /\ trim t = t /\ includes t "  " = false.
Proof.
  intros t. unfold t.
  destruct (trim_clean s) as [C1 C2].
  split; [| split].
  - rewrite collapse_lower, toLowerCase_idem. reflexivity.
  - apply trim_of_clean.
    + apply collapse_clean. rewrite startsClean_toLowerCase. exact C1.
    + apply collapse_ends_clean, endsClean_toLowerCase, C2.
  - apply collapse_no_double.
Qed.


Lemma standardizeRow_nil c : standardizeRow c [] = [].
Proof. unfold standardizeRow, index. destruct c; reflexivity. Qed.

Lemma standardize_cells data c r c' :
  cellAt (with_rows data (map (standardizeRow c) (rows data))) r c' =
  if Nat.eqb c' c
  then match cellAt data r c with
       | VStr s => VStr (collapseSpaces false (toLowerCase (trim s)))
       | v => v
       end
  else cellAt data r c'.
Proof.
  unfold cellAt. cbn [rows with_rows].
  rewrite <- (standardizeRow_nil c) at 1. rewrite map_nth.
  set (row := nth r (rows data) []). unfold standardizeRow.
  destruct (Nat.eqb_spec c' c) as [-> | NE].
  - destruct (index row c) eqn:E; try (rewrite E; reflexivity).
    rewrite index_assign, Nat.eqb_refl. reflexivity.
  - destruct (index row c); try reflexivity.
    rewrite index_assign. apply Nat.eqb_neq in NE. rewrite NE. reflexivity.
Qed.

Lemma consistent_text_passes s :
  let t := collapseSpaces false (toLowerCase (trim s)) in
  isInconsistentText (VStr t) = false /\ QualityAnalysis.textError t = None.
Proof.
  intros t. destruct (standardized_is_consistent s) as (L & T & D). fold t in L, T, D.
  split.
  - cbn [isInconsistentText]. rewrite T, L, String.eqb_refl, D. reflexivity.
  - unfold QualityAnalysis.textError, QualityAnalysis.extraWhitespace, QualityAnalysis.mixedCase.
    rewrite T, L, String.eqb_refl, D. reflexivity.
Qed.

(** X16.  On a table whose text cells are of the ASCII range, the
    standardize step offered for a header with a non-empty name, applied
    to the table it was built from: it keeps the headers and the number of
    rows, rewrites the text cells of the first column of that name
    (trimmed, lower case, runs of white space collapsed) and no other
    cell; afterwards the step is not offered again, and the text rules of
    the analysis (mixed case, surrounding or doubled white space) find
    nothing in that column. *)
Theorem offered_standardize_step_settles_the_column :
  forall data h step,
    Forall (Forall (fun cell => asciiCell cell = true)) (rows data) ->
    In step (standardizeStepFor data h) -> In h (headers data) -> h <> EmptyString ->
    let out := applyStep data step in
    exists c,
      indexOf (headers data) h = Some c
      /\ headers out = headers data
      /\ List.length (rows out) = List.length (rows data)
      /\ (forall r c',
            cellAt out r c' =
            if Nat.eqb c' c
            then match cellAt data r c with
                 | VStr s => VStr (collapseSpaces false (toLowerCase (trim s)))
                 | v => v
                 end
            else cellAt data r c')
      /\ standardizeStepFor out h = []
      /\ (forall r, QualityAnalysis.textCheck h r (cellAt out r c) = []).
Proof.
  intros data h step _ Hin Hh Hne out.
  destruct (indexOf_In _ _ Hh) as [c Hc]. exists c. split; [exact Hc|].
  apply In_standardizeStepFor in Hin. cbv zeta in Hin. destruct Hin as [_ Estep].
  assert (Eout : out = with_rows data (map (standardizeRow c) (rows data))).
  { assert (Hty : type (operation step) = standardize) by (rewrite Estep; reflexivity).
    assert (Hcol : column (operation step) = Some h) by (rewrite Estep; reflexivity).
    unfold out, applyStep. rewrite Hty, Hcol. cbn [truthyColumn].
    destruct (String.eqb_spec h EmptyString) as [E | _]; [contradiction|].
    rewrite Hc. reflexivity. }
  assert (Cell : forall r c',
            cellAt out r c' =
            if Nat.eqb c' c
            then match cellAt data r c with
                 | VStr s => VStr (collapseSpaces false (toLowerCase (trim s)))
                 | v => v
                 end
            else cellAt data r c').
  { intros r c'. rewrite Eout. apply standardize_cells. }
  split; [rewrite Eout; reflexivity|].
  split; [rewrite Eout; cbn [rows with_rows]; apply length_map|].
  split; [exact Cell|].
  assert (Ok : forall r, isInconsistentText (cellAt out r c) = false
                         /\ QualityAnalysis.textCheck h r (cellAt out r c) = []).
  { intros r. rewrite Cell, Nat.eqb_refl.
    destruct (cellAt data r c) as [s | x | |]; try (split; reflexivity).
    destruct (consistent_text_passes s) as [I T]. cbv zeta in I, T. split; [exact I|].
    cbn [QualityAnalysis.textCheck]. rewrite T. destruct (negb _); reflexivity. }
  split; [| intros r; apply Ok].
  unfold standardizeStepFor. cbv zeta.
  assert (Hh' : headers out = headers data) by (rewrite Eout; reflexivity).
  rewrite Hh', Hc.
  assert (E : rowIndicesWhere (fun row => isInconsistentText (readAt row (Some c))) (rows out) = []).
  { apply rowIndicesWhere_nil. intros row Hrow. cbn [readAt].
    apply In_nth_error in Hrow. destruct Hrow as [r Hr].
    assert (Ec : cellAt out r c = index row c).
    { unfold cellAt. rewrite (nth_error_nth _ _ _ Hr). reflexivity. }
    rewrite <- Ec. apply Ok. }
  rewrite E. reflexivity.
Qed.

Lemma offered_standardize_witness :
  let data := table ["name"] [[VStr " Ann  LEE "]; [VStr "bob"]] in
  let step := hd (fillStep "name" VUndef [] false) (standardizeStepFor data "name") in
  let out := applyStep data step in
  Forall (Forall (fun cell => asciiCell cell = true)) (rows data)
  /\ In step (standardizeStepFor data "name")
  /\ cellAt out 0 0 = VStr "ann lee"
  /\ exists c,
      indexOf (headers data) "name" = Some c
      /\ headers out = headers data
      /\ List.length (rows out) = List.length (rows data)
      /\ (forall r c',
            cellAt out r c' =
            if Nat.eqb c' c
            then match cellAt data r c with
                 | VStr s => VStr (collapseSpaces false (toLowerCase (trim s)))
                 | v => v
                 end
            else cellAt data r c')
      /\ standardizeStepFor out "name" = []
      /\ (forall r, QualityAnalysis.textCheck "name" r (cellAt out r c) = []).
Proof.
  intros data step out.
  assert (A : Forall (Forall (fun cell => asciiCell cell = true)) (rows data))
    by (repeat constructor).
  assert (H : In step (standardizeStepFor data "name")) by (vm_compute; left; reflexivity).
  split; [exact A|]. split; [exact H|]. split; [vm_compute; reflexivity|].
  apply (@offered_standardize_step_settles_the_column data "name" step A H).
  - left. reflexivity.
  - discriminate.
Defined.

End TextFacts.

(* ================================================================== *)
(** * Editing and applying the list of steps *)
(* ================================================================== *)

Module StepFacts.

Import JS DataCleaning StepBuilder StepState Spec Spec2 Samples.
Import NumberFacts TableFacts CleaningFacts ScoreFacts BuilderFacts.
Local Open Scope string_scope.

(** *** Steps that name no column *)

(** X17.  A step offered for a column whose header is the empty string is
    never carried out: applied to any table it returns the table as it
    is (the cleaner skips an operation whose column name is empty). *)
Theorem step_for_unnamed_column_is_inert :
  forall data step,
    In step (analyzeDataAndCreateSteps data) ->
    column (operation step) = Some EmptyString ->
    forall d, applyStep d step = d.
Proof.
  intros data step Hin Hcol d.
  pose proof (offered_step_column data step Hin) as Hk.
  unfold applyStep. rewrite Hcol. cbn [truthyColumn String.eqb].
  destruct (type (operation step)); try reflexivity.
  specialize (Hk eq_refl). congruence.
Qed.

Lemma step_for_unnamed_column_witness :
  let data := table [EmptyString] [[VStr EmptyString]] in
  let step := hd (fillStep "x" VUndef [] false) (analyzeDataAndCreateSteps data) in
  In step (analyzeDataAndCreateSteps data)
  /\ type (operation step) = fill_missing
  /\ forall d, applyStep d step = d.
Proof.
  intros data step.
  assert (H : In step (analyzeDataAndCreateSteps data)) by (vm_compute; left; reflexivity).
  split; [exact H|]. split; [reflexivity|].
  apply (@step_for_unnamed_column_is_inert data step H). reflexivity.
Defined.

(** *** What no step does *)

Lemma filterUnique_le rs : forall uniqueRows,
  (List.length (filterUnique rs uniqueRows) <= List.length rs)%nat.
Proof.
  induction rs as [| row rs IH]; intros uniqueRows; cbn [filterUnique List.length]; [lia|].
  destruct (existsb _ uniqueRows); cbn [List.length].
  - specialize (IH uniqueRows). lia.
  - specialize (IH (JSON_stringify row :: uniqueRows)). lia.
Qed.

Lemma removeOutliers_le c rs : (List.length (removeOutliers c rs) <= List.length rs)%nat.
Proof.
  unfold removeOutliers. cbv zeta. destruct (sortNumbers _); [lia | apply filter_length_le].
Qed.

Lemma applyStep_keeps d step :
  headers (applyStep d step) = headers d
  /\ filename (applyStep d step) = filename d
  /\ (List.length (rows (applyStep d step)) <= List.length (rows d))%nat.
Proof.
  unfold applyStep. destruct (type (operation step)).
  - cbn. repeat split. apply filterUnique_le.
  - destruct (truthyColumn _); [| repeat split; lia].
    destruct (is_undefined _); [repeat split; lia|].
    destruct (indexOf _ _); [| repeat split; lia].
    cbn. repeat split. rewrite mapi_length. lia.
  - destruct (truthyColumn _); [| repeat split; lia].
    destruct (indexOf _ _); [| repeat split; lia].
    cbn. repeat split. apply removeOutliers_le.
  - destruct (truthyColumn _); [| repeat split; lia].
    destruct (indexOf _ _); [| repeat split; lia].
    cbn. repeat split. rewrite length_map. lia.
  - repeat split; lia.
  - repeat split; lia.
Qed.

Lemma applySteps_keep steps : forall d,
  headers (fold_left applyStep steps d) = headers d
  /\ filename (fold_left applyStep steps d) = filename d
  /\ (List.length (rows (fold_left applyStep steps d)) <= List.length (rows d))%nat.
Proof.
  induction steps as [| step steps IH]; intros d; cbn [fold_left]; [repeat split; lia|].
  destruct (IH (applyStep d step)) as (H1 & H2 & H3).
  destruct (applyStep_keeps d step) as (K1 & K2 & K3).
  split; [congruence|]. split; [congruence|]. eapply Nat.le_trans; eassumption.
Qed.

(** X18.  Whatever steps are switched on, the cleaned table has the
    headers of the input, the input's file name behind [cleaned_], and
    never more rows than the input; so the improvement percentage that the
    export screen computes from the two tables is a whole number from 0 to
    100 when the input has a row (and [NaN] when it has none). *)
Theorem cleaning_never_adds_rows :
  forall data steps,
    let out := applyAllSelectedSteps data steps in
    let stats := ExportData.getImprovementStats out data in
    headers out = headers data
    /\ filename out = "cleaned_" ++ filename data
    /\ (List.length (rows out) <= List.length (rows data))%nat
    /\ ((0 < List.length (rows data))%nat ->
        (Z.of_nat (List.length (rows data)) < 2 ^ 53)%Z ->
        isScore (ExportData.improvementPercentage stats))
    /\ (rows data = [] -> ExportData.improvementPercentage stats = NaN).
Proof.
  intros data steps out stats.
  destruct (applySteps_keep (filter applied steps) data) as (H1 & _ & H3).
  assert (L : (List.length (rows out) <= List.length (rows data))%nat) by exact H3.
  split; [exact H1|]. split; [reflexivity|]. split; [exact L|]. split.
  - intros Hpos Hb. unfold stats, ExportData.getImprovementStats.
    cbn [ExportData.improvementPercentage].
    apply (@shareScore_isScore (List.length (rows data)) (List.length (rows out))); assumption.
  - intros E. unfold stats, ExportData.getImprovementStats.
    cbn [ExportData.improvementPercentage].
    assert (E0 : List.length (rows out) = 0%nat).
    { apply Nat.le_0_r. replace 0%nat with (List.length (rows data)); [exact L|].
      rewrite E. reflexivity. }
    rewrite E0, E. reflexivity.
Qed.


(** *** The handlers *)

Lemma set_applied_twice step :
  set_applied (negb (applied (set_applied (negb (applied step)) step)))
    (set_applied (negb (applied step)) step) = step.
Proof. destruct step as [i t n o a ar ac sr]. cbn. rewrite negb_involutive. reflexivity. Qed.

(** X19.  Switching a step on and off again gives back the list of steps
    as it was, whatever the identifiers in the list. *)
Theorem toggle_step_twice_restores :
  forall stepId steps, toggleStep stepId (toggleStep stepId steps) = steps.
Proof.
  intros stepId steps. unfold toggleStep. rewrite map_map.
  rewrite <- (map_id steps) at 2. apply map_ext. intros step.
  destruct (String.eqb (id step) stepId) eqn:E.
  - cbn [id set_applied]. rewrite E. apply set_applied_twice.
  - rewrite E. reflexivity.
Qed.

Lemma fillTarget_ignores_selection data step sel d :
  fillTarget data (set_operation (set_description d (operation step)) (set_selectedRows sel step))
  = fillTarget data step.
Proof. reflexivity. Qed.

(** X20.  "Select none" does not switch a fill step off: with the empty
    selection the step, once applied, fills every blank of its column, in
    every row. *)
Theorem select_none_fills_every_blank :
  forall data stepId step sel,
    id step = stepId ->
    type (operation step) = fill_missing ->
    applied step = true ->
    selectedRows step = Some sel ->
    let out := applyAllSelectedSteps data (selectNoneRows stepId [step]) in
    forall r c,
      fillTarget data step = Some c ->
      (r < List.length (rows data))%nat ->
      isEmptyCell (cellAt data r c) = true ->
      cellAt out r c = value (operation step).
Proof.
  intros data stepId step sel Hid Hty Hap Hsel out r c Ht Hr He.
  set (step' := set_operation
                  (set_description ("Fill missing values in " ++ columnText step) (operation step))
                  (set_selectedRows (Some []) step)).
  assert (Es : selectNoneRows stepId [step] = [step']).
  { unfold selectNoneRows. cbn [map]. rewrite Hid, String.eqb_refl, Hsel. reflexivity. }
  assert (Eo : forall r c, cellAt out r c = cellAt (applyStep data step') r c).
  { intros r' c'. unfold out. rewrite Es. unfold applyAllSelectedSteps. cbn [filter].
    assert (Ha : applied step' = true) by exact Hap. rewrite Ha. reflexivity. }
  rewrite Eo, (@fill_step data step' Hty).
  change (fillTarget data step') with (fillTarget data step). rewrite Ht.
  rewrite fill_cells, Nat.eqb_refl. apply Nat.ltb_lt in Hr. rewrite Hr, He. reflexivity.
Qed.

Lemma select_none_witness :
  let step := fillStep "city" (VStr "Unknown") [1%nat] true in
  let out := applyAllSelectedSteps gaps (selectNoneRows "fill_missing_city" [step]) in
  fillTarget gaps step = Some 0%nat
  /\ (0 < List.length (rows gaps))%nat
  /\ isEmptyCell (cellAt gaps 0 0) = true
  /\ cellAt out 0 0 = VStr "Unknown".
Proof.
  intros step out.
  split; [reflexivity|]. split; [cbn; lia|]. split; [reflexivity|].
  apply (@select_none_fills_every_blank gaps "fill_missing_city" step [1%nat]
           eq_refl eq_refl eq_refl eq_refl 0%nat 0%nat);
    [reflexivity | cbn; lia | reflexivity].
Defined.

(** *** The selection of rows *)

Lemma set_delete_In sel i j : In j (set_delete sel i) <-> In j sel /\ j <> i.
Proof.
  unfold set_delete. rewrite filter_In. split.
  - intros [H E]. split; [exact H|]. apply negb_true_iff, Nat.eqb_neq in E. congruence.
  - intros [H E]. split; [exact H|]. apply negb_true_iff, Nat.eqb_neq. congruence.
Qed.

Lemma set_has_In sel i : set_has sel i = true <-> In i sel.
Proof. apply existsb_eqb_In. Qed.

(** X21.  Clicking a row of a fill step flips that row in the step's
    selection and no other: the new selection has no repetition, holds the
    clicked row exactly when the old one did not, agrees with the old one
    on every other row, and the step's description tells its size (or
    omits the count when the selection has become empty).  Steps with
    another identifier, and steps without a selection, are not touched. *)
Theorem toggle_row_flips_one_row :
  forall stepId rowIndex steps k step,
    nth_error steps k = Some step ->
    match selectedRows step with
    | Some sel =>
        id step = stepId -> NoDup sel ->
        exists step' sel',
          nth_error (toggleRowSelection stepId rowIndex steps) k = Some step'
          /\ selectedRows step' = Some sel'
          /\ NoDup sel'
          /\ (In rowIndex sel' <-> ~ In rowIndex sel)
          /\ (forall i, i <> rowIndex -> (In i sel' <-> In i sel))
          /\ description (operation step') =
             (if Nat.ltb 0 (List.length sel')
              then "Fill " ++ dec_of_nat (List.length sel') ++ " selected missing values in "
                   ++ columnText step
              else "Fill missing values in " ++ columnText step)
          /\ value (operation step') = value (operation step)
          /\ applied step' = applied step
    | None => nth_error (toggleRowSelection stepId rowIndex steps) k = Some step
    end
    /\ (id step <> stepId ->
        nth_error (toggleRowSelection stepId rowIndex steps) k = Some step).
Proof.
  intros stepId rowIndex steps k step Hk.
  assert (Hn : nth_error (toggleRowSelection stepId rowIndex steps) k =
               Some (match String.eqb (id step) stepId, selectedRows step with
                     | true, Some sel =>
                         let newSelectedRows :=
                           if set_has sel rowIndex then set_delete sel rowIndex
                           else set_add sel rowIndex in
                         let selectedCount := List.length newSelectedRows in
                         let newDescription :=
                           if Nat.ltb 0 selectedCount
                           then "Fill " ++ dec_of_nat selectedCount
                                ++ " selected missing values in " ++ columnText step
                           else "Fill missing values in " ++ columnText step in
                         set_operation (set_description newDescription (operation step))
                           (set_selectedRows (Some newSelectedRows) step)
                     | _, _ => step
                     end)).
  { unfold toggleRowSelection. rewrite nth_error_map, Hk. reflexivity. }
  split.
  - destruct (selectedRows step) as [sel |] eqn:Hsel.
    + intros Hid ND. rewrite Hid, String.eqb_refl in Hn. cbv zeta in Hn.
      eexists _, _. split; [exact Hn|]. cbn [selectedRows set_operation set_selectedRows].
      split; [reflexivity|].
      destruct (set_has sel rowIndex) eqn:Hh.
      * apply set_has_In in Hh.
        split; [apply NoDup_filter, ND|].
        split; [rewrite set_delete_In; split; [intros [_ C]; congruence | intros C; contradiction]|].
        split; [intros i Hi; rewrite set_delete_In; tauto|].
        repeat split.
      * assert (Hnot : ~ In rowIndex sel).
        { intros C. apply set_has_In in C. congruence. }
        unfold set_add. rewrite Hh.
        split.
        { apply NoDup_app; [exact ND | repeat constructor; intros [] |].
          intros x Hx [<- | []]. contradiction. }
        split; [rewrite in_app_iff; cbn; tauto|].
        split; [intros i Hi; rewrite in_app_iff; cbn; intuition congruence|].
        repeat split.
    + destruct (String.eqb (id step) stepId); exact Hn.
  - intros Hne. apply String.eqb_neq in Hne. rewrite Hne in Hn. exact Hn.
Qed.

Lemma toggle_row_witness :
  let step := fillStep "city" (VStr "Unknown") [1%nat] true in
  nth_error [step] 0 = Some step
  /\ exists step' sel',
       nth_error (toggleRowSelection "fill_missing_city" 0 [step]) 0 = Some step'
       /\ selectedRows step' = Some sel'
       /\ In 0%nat sel' /\ In 1%nat sel'.
Proof.
  intros step.
  assert (H : nth_error [step] 0 = Some step) by reflexivity.
  split; [exact H|].
  destruct (@toggle_row_flips_one_row "fill_missing_city" 0 [step] 0 step H) as [T _].
  cbn [selectedRows step fillStep] in T.
  destruct (T eq_refl) as (step' & sel' & Hn & Hs & _ & H0 & Hi & _).
  - repeat constructor. intros [].
  - exists step', sel'. split; [exact Hn|]. split; [exact Hs|]. split.
    + apply H0. intros [C | []]. discriminate C.
    + apply Hi; [discriminate | left; reflexivity].
Defined.

(** X22.  "Reset" switches every step off and empties every selection, so
    applying the list afterwards changes no row; it does not restore the
    operations: a fill value typed in by the user stays as typed. *)
Theorem reset_keeps_edited_values :
  forall data steps,
    let steps' := resetAllSteps steps in
    applyAllSelectedSteps data steps' =
      {| headers := headers data; rows := rows data;
         filename := "cleaned_" ++ filename data |}
    /\ map operation steps' = map operation steps
    /\ map id steps' = map id steps
    /\ Forall (fun step => applied step = false
                           /\ (selectedRows step = None \/ selectedRows step = Some []))
         steps'
    /\ forall stepId value,
         map operation (resetAllSteps (updateStepValue stepId value steps))
         = map operation (updateStepValue stepId value steps).
Proof.
  intros data steps steps'.
  assert (F : Forall (fun step => applied step = false
                           /\ (selectedRows step = None \/ selectedRows step = Some []))
                steps').
  { unfold steps', resetAllSteps. apply Forall_forall. intros step Hin.
    apply in_map_iff in Hin. destruct Hin as [s [<- _]]. cbn.
    split; [reflexivity|]. destruct (selectedRows s); auto. }
  assert (O : forall l, map operation (resetAllSteps l) = map operation l).
  { intros l. unfold resetAllSteps. rewrite map_map. apply map_ext. reflexivity. }
  split; [| split; [apply O | split; [| split; [exact F | intros; apply O]]]].
  - apply unapplied_steps_apply. eapply Forall_impl; [| exact F]. intros s H. apply H.
  - unfold steps', resetAllSteps. rewrite map_map. apply map_ext. reflexivity.
Qed.


(** *** Select all and select none *)

Lemma set_add_In sel i j : In j (set_add sel i) <-> In j sel \/ j = i.
Proof.
  unfold set_add. destruct (set_has sel i) eqn:E.
  - apply set_has_In in E. split; [tauto | intros [H | ->]; assumption].
  - rewrite in_app_iff. cbn. intuition congruence.
Qed.

Lemma set_of_In l i : In i (set_of l) <-> In i l.
Proof.
  unfold set_of.
  assert (G : forall acc, In i (fold_left set_add l acc) <-> In i acc \/ In i l).
  { induction l as [| x l IH]; intros acc; cbn [fold_left In]; [tauto|].
    rewrite IH, set_add_In. intuition congruence. }
  rewrite G. cbn. tauto.
Qed.

Lemma mapi_ext_in (A B : Type) (f g : nat -> A -> B) l :
  (forall i x, nth_error l i = Some x -> f i x = g i x) -> mapi f l = mapi g l.
Proof.
  intros H. unfold mapi. apply map_ext_in. intros [i x] Hin. cbn [fst snd].
  apply H, In_indexed, Hin.
Qed.

(** X23.  For a fill step as offered, "select all" and "select none" come
    to the same thing: the cleaned table is the same, every blank of the
    column being filled either way (the step lists exactly the rows with a
    blank, and an empty selection stands for every row). *)
Theorem select_all_is_select_none :
  forall data h step,
    In step (fillStepFor data h) ->
    let on := set_applied true step in
    applyAllSelectedSteps data (selectAllRows (id step) [on])
    = applyAllSelectedSteps data (selectNoneRows (id step) [on]).
Proof.
  intros data h step Hin on.
  apply In_fillStepFor in Hin. cbv zeta in Hin. destruct Hin as [_ Estep].
  set (v := suggestValue _) in Estep.
  set (missingRowIndices := rowIndicesWhere _ (rows data)) in Estep.
  assert (Hsel : selectedRows on = Some []) by (unfold on; rewrite Estep; reflexivity).
  assert (Hid : id on = id step) by reflexivity.
  unfold selectAllRows, selectNoneRows. cbn [map]. rewrite Hid, String.eqb_refl, Hsel.
  set (sA := set_operation _ (set_selectedRows (Some (set_of (affectedRows on))) on)).
  set (sN := set_operation _ (set_selectedRows (Some []) on)).
  assert (HA : type (operation sA) = fill_missing /\ column (operation sA) = Some h
               /\ value (operation sA) = v /\ applied sA = true
               /\ selectedRows sA = Some (set_of missingRowIndices)).
  { unfold sA, on. rewrite Estep. repeat split. }
  assert (HN : type (operation sN) = fill_missing /\ column (operation sN) = Some h
               /\ value (operation sN) = v /\ applied sN = true
               /\ selectedRows sN = Some []).
  { unfold sN, on. rewrite Estep. repeat split. }
  destruct HA as (A1 & A2 & A3 & A4 & A5). destruct HN as (N1 & N2 & N3 & N4 & N5).
  assert (E : applyStep data sA = applyStep data sN).
  { unfold applyStep. rewrite A1, A2, A3, N1, N2, N3.
    cbn [truthyColumn]. destruct (String.eqb h EmptyString); [reflexivity|].
    destruct (is_undefined v); [reflexivity|].
    destruct (indexOf (headers data) h) as [c |] eqn:Hc; [| reflexivity].
    f_equal. apply mapi_ext_in. intros r row Hr.
    unfold fillRow, shouldFill. rewrite A3, A5, N3, N5. cbn [List.length Nat.eqb orb].
    destruct (isEmptyCell (index row c)) eqn:He; [| rewrite !andb_false_r; reflexivity].
    rewrite !andb_true_r.
    assert (Hm : In r (set_of missingRowIndices)).
    { apply set_of_In. unfold missingRowIndices. apply rowIndicesWhere_In.
      exists row. split; [exact Hr | exact He]. }
    apply existsb_eqb_In in Hm. rewrite Hm, orb_true_r. reflexivity. }
  unfold applyAllSelectedSteps. cbn [filter]. rewrite A4, N4. cbn [fold_left]. rewrite E.
  reflexivity.
Qed.

Lemma select_all_witness :
  let step := hd (fillStep "city" VUndef [] false) (fillStepFor gaps "city") in
  let on := set_applied true step in
  In step (fillStepFor gaps "city")
  /\ applyAllSelectedSteps gaps (selectAllRows (id step) [on])
     = applyAllSelectedSteps gaps (selectNoneRows (id step) [on]).
Proof.
  intros step on.
  assert (H : In step (fillStepFor gaps "city")) by (vm_compute; left; reflexivity).
  split; [exact H | exact (@select_all_is_select_none gaps "city" step H)].
Defined.

End StepFacts.

(* ================================================================== *)
(** * CSV text *)
(* ================================================================== *)

Module CsvFacts.

Import JS Upload ExportData Spec Spec2 Samples.
Local Open Scope string_scope.

(** *** Characters of a string *)

Lemma contains_app c s t : contains c (s ++ t) = contains c s || contains c t.
Proof.
  induction s as [| d s IH]; cbn [append contains]; [reflexivity|].
  rewrite IH, orb_assoc. reflexivity.
Qed.

Lemma contains_rev c acc s : contains c (rev_string acc s) = contains c s || contains c acc.
Proof.
  revert acc. induction s as [| d s IH]; intros acc; cbn [rev_string contains]; [reflexivity|].
  rewrite IH. cbn [contains]. destruct (Ascii.eqb d c), (contains c s), (contains c acc); reflexivity.
Qed.

Lemma contains_trimStart c s : contains c s = false -> contains c (trimStart s) = false.
Proof.
  induction s as [| d s IH]; cbn [trimStart contains]; [reflexivity|].
  intros H. apply orb_false_iff in H. destruct H as [H1 H2].
  destruct (isWhiteSpace d); [apply IH, H2 | cbn [contains]; rewrite H1, H2; reflexivity].
Qed.

Lemma contains_trim c s : contains c s = false -> contains c (trim s) = false.
Proof.
  intros H. unfold trim, trimEnd. rewrite contains_rev. cbn [contains]. rewrite orb_false_r.
  apply contains_trimStart. rewrite contains_rev. cbn [contains]. rewrite orb_false_r.
  apply contains_trimStart, H.
Qed.

Lemma contains_filter c p s : contains c s = false -> contains c (filter_string p s) = false.
Proof.
  induction s as [| d s IH]; cbn [filter_string contains]; [reflexivity|].
  intros H. apply orb_false_iff in H. destruct H as [H1 H2].
  destruct (p d); [cbn [contains]; rewrite H1; apply IH, H2 | apply IH, H2].
Qed.

Lemma removeQuotes_free s : contains quote (removeQuotes s) = false.
Proof.
  unfold removeQuotes. induction s as [| d s IH]; cbn [filter_string]; [reflexivity|].
  destruct (Ascii.eqb d quote) eqn:E; cbn [negb]; [exact IH|].
  cbn [contains]. rewrite E. exact IH.
Qed.

(** *** Splitting *)

Lemma split_not_nil sep s : split sep s <> [].
Proof.
  destruct s as [| c s]; cbn [split]; [discriminate|].
  destruct (Ascii.eqb c sep); [discriminate|]. destruct (split sep s); discriminate.
Qed.

Lemma split_free sep s : Forall (fun piece => contains sep piece = false) (split sep s).
Proof.
  induction s as [| c s IH]; cbn [split]; [repeat constructor|].
  destruct (Ascii.eqb c sep) eqn:E; [constructor; [reflexivity | exact IH]|].
  destruct (split sep s) as [| piece rest]; [repeat constructor; cbn; rewrite E; reflexivity|].
  inversion IH as [| ? ? Hp Hr]; subst. constructor; [| exact Hr].
  cbn [contains]. rewrite E, Hp. reflexivity.
Qed.

Lemma split_keeps_free c sep s :
  contains c s = false -> Forall (fun piece => contains c piece = false) (split sep s).
Proof.
  induction s as [| d s IH]; cbn [split contains]; [repeat constructor|].
  intros H. apply orb_false_iff in H. destruct H as [H1 H2]. specialize (IH H2).
  destruct (Ascii.eqb d sep); [constructor; [reflexivity | exact IH]|].
  destruct (split sep s) as [| piece rest]; [repeat constructor; cbn; rewrite H1; reflexivity|].
  inversion IH as [| ? ? Hp Hr]; subst. constructor; [| exact Hr].
  cbn [contains]. rewrite H1, Hp. reflexivity.
Qed.

(** *** The cells of a parsed table *)

Lemma parseCell_parsed piece :
  contains comma piece = false -> contains newline piece = false ->
  parsedCell (parseCell piece).
Proof.
  intros Hc Hn. unfold parseCell. cbv zeta.
  set (trimmed := removeQuotes (trim piece)).
  destruct (isNaN (StringToNumber trimmed)) eqn:E; cbn [negb andb].
  - cbn [parsedCell]. repeat split.
    + apply removeQuotes_free.
    + apply contains_filter, contains_trim, Hc.
    + apply contains_filter, contains_trim, Hn.
    + right. exact E.
  - destruct (String.eqb_spec trimmed EmptyString) as [E0 | NE]; cbn [negb].
    + cbn [parsedCell]. rewrite E0. repeat split. left. reflexivity.
    + cbn [parsedCell]. exact E.
Qed.

(** X24.  Whatever the text, the table read from it has at least one
    header and no empty row; every cell is a number other than [NaN] or a
    text, never [null] or [undefined]; a text cell holds no quote, comma
    or line feed and is empty or does not read as a number, so in a parsed
    table the cells the analysis counts as numeric are exactly the
    numbers; the blank cells are exactly the empty texts. *)
Theorem parsed_tables_are_regular_in_shape :
  forall csvText filename,
    let data := parseCSV csvText filename in
    headers data <> []
    /\ Forall (fun row => row <> []) (rows data)
    /\ Forall (Forall parsedCell) (rows data)
    /\ Forall (Forall (fun cell =>
                 QualityAnalysis.countsAsNumeric cell = typeof_number cell
                 /\ (DataCleaning.isEmptyCell cell = true <-> cell = VStr EmptyString)))
         (rows data)
    /\ Forall (fun h => contains quote h = false /\ contains comma h = false
                        /\ contains newline h = false) (headers data).
Proof.
  intros csvText filename data.
  assert (Lines : Forall (fun line => contains newline line = false)
                    (split newline (trim csvText))) by apply split_free.
  assert (Cells : Forall (Forall parsedCell) (rows data)).
  { unfold data, parseCSV. cbn [rows]. apply Forall_forall. intros row Hrow.
    apply in_map_iff in Hrow. destruct Hrow as [line [<- Hline]].
    assert (Hl : contains newline line = false).
    { rewrite Forall_forall in Lines. apply Lines.
      destruct (split newline (trim csvText)); [destruct Hline | right; exact Hline]. }
    apply Forall_forall. intros cell Hcell. apply in_map_iff in Hcell.
    destruct Hcell as [piece [<- Hp]]. apply parseCell_parsed.
    - pose proof (split_free comma line) as F. rewrite Forall_forall in F. apply F, Hp.
    - pose proof (split_keeps_free newline comma line Hl) as F.
      rewrite Forall_forall in F. apply F, Hp. }
  split; [| split; [| split; [exact Cells | split]]].
  - unfold data, parseCSV. cbn [headers]. intros E. apply map_eq_nil in E.
    exact (split_not_nil _ _ E).
  - unfold data, parseCSV. cbn [rows]. apply Forall_forall. intros row Hrow.
    apply in_map_iff in Hrow. destruct Hrow as [line [<- _]].
    intros E. apply map_eq_nil in E. exact (split_not_nil _ _ E).
  - eapply Forall_impl; [| exact Cells]. intros row Hrow.
    eapply Forall_impl; [| exact Hrow]. intros cell Hc.
    destruct cell as [s | x | |]; cbn [parsedCell] in Hc; try contradiction.
    + destruct Hc as (_ & _ & _ & Hs). split.
      * unfold QualityAnalysis.countsAsNumeric. cbn [typeof_number Number is_str orb].
        destruct Hs as [-> | Hs]; [reflexivity | rewrite Hs; reflexivity].
      * unfold DataCleaning.isEmptyCell. cbn [is_str is_null is_undefined]. rewrite !orb_false_r.
        split; [intros H; apply String.eqb_eq in H; congruence|].
        intros H. inversion H. reflexivity.
    + split; [reflexivity|]. split; [discriminate | discriminate].
  - unfold data, parseCSV. cbn [headers]. apply Forall_forall. intros h Hh.
    apply in_map_iff in Hh. destruct Hh as [piece [<- Hp]].
    assert (Hl : contains newline (hd EmptyString (split newline (trim csvText))) = false).
    { destruct (split newline (trim csvText)) as [| l ls] eqn:E; [reflexivity|].
      inversion Lines; assumption. }
    split; [apply removeQuotes_free|]. split.
    + apply contains_filter, contains_trim.
      pose proof (split_free comma (hd EmptyString (split newline (trim csvText)))) as F.
      rewrite Forall_forall in F. apply F, Hp.
    + apply contains_filter, contains_trim.
      pose proof (split_keeps_free newline comma _ Hl) as F.
      rewrite Forall_forall in F. apply F, Hp.
Qed.


(** *** Joining and splitting again *)

Lemma split_free_piece sep p : contains sep p = false -> split sep p = [p].
Proof.
  induction p as [| c p IH]; cbn [split contains]; [reflexivity|].
  intros H. apply orb_false_iff in H. destruct H as [H1 H2].
  rewrite H1, (IH H2). reflexivity.
Qed.

Lemma split_app_free sep p rest :
  contains sep p = false -> split sep (p ++ String sep rest) = p :: split sep rest.
Proof.
  induction p as [| c p IH]; cbn [append split contains].
  - intros _. rewrite Ascii.eqb_refl. reflexivity.
  - intros H. apply orb_false_iff in H. destruct H as [H1 H2].
    rewrite H1, (IH H2). reflexivity.
Qed.

Lemma split_concat sep l :
  l <> [] -> Forall (fun p => contains sep p = false) l ->
  split sep (String.concat (String sep EmptyString) l) = l.
Proof.
  induction l as [| p l IH]; [contradiction|]. intros _ F.
  inversion F as [| ? ? Hp Hl]; subst.
  destruct l as [| q l]; [cbn [String.concat]; apply split_free_piece, Hp|].
  change (String.concat (String sep EmptyString) (p :: q :: l))
    with (p ++ String sep (String.concat (String sep EmptyString) (q :: l))).
  rewrite split_app_free by exact Hp. rewrite IH; [reflexivity | discriminate | exact Hl].
Qed.

Lemma contains_concat c sep l :
  contains c sep = false -> Forall (fun p => contains c p = false) l ->
  contains c (String.concat sep l) = false.
Proof.
  intros Hs F. induction F as [| p l Hp Hl IH]; [reflexivity|].
  destruct l as [| q l]; [exact Hp|].
  change (String.concat sep (p :: q :: l)) with (p ++ sep ++ String.concat sep (q :: l)).
  rewrite !contains_app, Hp, Hs, IH. reflexivity.
Qed.

Lemma includes_single s c : includes s (String c EmptyString) = contains c s.
Proof.
  induction s as [| d s IH]; cbn [includes contains String.prefix]; [reflexivity|].
  rewrite IH. destruct (ascii_dec c d) as [<- | NE].
  - rewrite Ascii.eqb_refl. destruct s; reflexivity.
  - assert (E : Ascii.eqb d c = false) by (apply Ascii.eqb_neq; congruence).
    rewrite E. reflexivity.
Qed.

Lemma plainText_quote_free s : plainText s -> contains quote s = false.
Proof.
  intros (_ & H & _). unfold parseCell in H. cbv zeta in H.
  destruct (_ && _); [discriminate|]. inversion H as [E]. rewrite E at 1.
  rewrite <- E. apply removeQuotes_free.
Qed.

Lemma csvCell_plain s : plainText s -> csvCell (VStr s) = s.
Proof.
  intros P. pose proof (plainText_quote_free P) as Q. destruct P as (_ & _ & C & _).
  unfold csvCell. cbn [String_of].
  change "," with (String comma EmptyString). change dquote with (String quote EmptyString).
  rewrite !includes_single, C, Q. reflexivity.
Qed.

(** X25.  A table of plain ASCII text survives export and import: when
    every header and every cell is a text of the ASCII range that the
    reader gives back as it is and that holds no comma or line feed, no
    row is empty, there is a header, and the exported text neither begins
    nor ends with white space, reading the exported text gives the table
    back. *)
Theorem plain_text_tables_survive_export_and_import :
  forall data,
    headers data <> [] ->
    Forall plainHeader (headers data) ->
    Forall (fun row => row <> []
                       /\ Forall (fun cell => exists s, cell = VStr s /\ plainText s) row)
      (rows data) ->
    trim (convertToCSV data) = convertToCSV data ->
    parseCSV (convertToCSV data) (filename data) = data.
Proof.
  intros [hs rs fn] Hne Hh Hr Ht. cbn [headers rows filename] in *.
  unfold parseCSV. rewrite Ht. unfold convertToCSV. cbn [headers rows].
  assert (Line : forall row,
            Forall (fun cell => exists s, cell = VStr s /\ plainText s) row ->
            Forall (fun p => contains comma p = false) (map csvCell row)
            /\ Forall (fun p => contains newline p = false) (map csvCell row)
            /\ map parseCell (map csvCell row) = row).
  { intros row F. induction F as [| cell row (s & -> & P) _ IH]; [repeat split; constructor|].
    destruct IH as (I1 & I2 & I3). cbn [map]. rewrite (csvCell_plain P) in *.
    destruct P as (_ & P1 & P2 & P3).
    split; [constructor; assumption|]. split; [constructor; assumption|].
    rewrite P1, I3. reflexivity. }
  assert (HeadFree : contains newline (String.concat "," hs) = false).
  { apply contains_concat; [reflexivity|].
    eapply Forall_impl; [| exact Hh]. intros h (_ & _ & _ & H). exact H. }
  assert (RowsFree : Forall (fun p => contains newline p = false)
                       (map (fun row => String.concat "," (map csvCell row)) rs)).
  { apply Forall_forall. intros line Hl. apply in_map_iff in Hl. destruct Hl as [row [<- Hrow]].
    rewrite Forall_forall in Hr. destruct (Hr row Hrow) as [_ F].
    apply contains_concat; [reflexivity | apply (Line row F)]. }
  rewrite split_concat; [| discriminate | constructor; assumption].
  cbn [hd tl]. f_equal.
  - change "," with (String comma EmptyString).
    rewrite split_concat; [| exact Hne |].
    + rewrite <- (map_id hs) at 2. apply map_ext_in. intros h Hin.
      rewrite Forall_forall in Hh. apply (Hh h Hin).
    + eapply Forall_impl; [| exact Hh]. intros h (_ & _ & H & _). exact H.
  - rewrite map_map. rewrite <- (map_id rs) at 2. apply map_ext_in. intros row Hrow.
    rewrite Forall_forall in Hr. destruct (Hr row Hrow) as [Hn F].
    destruct (Line row F) as (L1 & _ & L3).
    change "," with (String comma EmptyString).
    rewrite split_concat; [exact L3 | | exact L1].
    intros E. apply map_eq_nil in E. contradiction.
Qed.

Lemma plain_text_tables_witness :
  let data := table ["name"; "city"] [[VStr "ann"; VStr "rome"]; [VStr EmptyString; VStr "oslo"]] in
  parseCSV (convertToCSV data) (filename data) = data.
Proof.
  intros data.
  apply (@plain_text_tables_survive_export_and_import data).
  - discriminate.
  - repeat constructor.
  - repeat constructor; try discriminate; eexists; (split; [reflexivity|]);
      repeat split; vm_compute; reflexivity.
  - vm_compute. reflexivity.
Defined.

End CsvFacts.
